(** * tcpy: a shallow embedding of [tcpy.c] and its verified properties

    The development follows the four levels of the C file:
    general purpose functions (checksum, keyboard poller, clock),
    directory functions, the per-file transfer state machine
    [TimedCopyFile] and the tree walker [TimedCopy], and the main
    program.

    Integers are [Z]; unsigned arithmetic has its wrap-around written
    out.  System calls act on an explicit [World]: the C globals, a
    file system, the scripted environment (keyboard, clock, injected
    system-call faults, umask) and the trace of calls issued so far. *)

From stdpp Require Import gmap strings list fin_maps.
From Stdlib Require Import ZArith Lia Ascii.

Open Scope string_scope.
Open Scope list_scope.
Open Scope Z_scope.

(* ===================================================================== *)
(** ** Constants of [tcpy.c] *)
(* ===================================================================== *)

Definition ERROR_TCPY       : Z := 1.
Definition ERROR_TCPY_USAGE : Z := 2.
Definition ERROR_TCPY_MEM   : Z := 3.
Definition ERROR_TCPY_CIRC  : Z := 4.
Definition ERROR_TCPY_STOP  : Z := 5.

Definition COPYCOUNT        : Z := 50.
Definition LNBIGBUFFER      : Z := 32768.
Definition LNSZ             : Z := 300.
Definition ONESECINNANO     : Z := 1000000000.

Definition TCPY_MODE_COPY   : Z := 0.
Definition TCPY_MODE_DEL    : Z := 1.
Definition TCPY_MODE_MIRROR : Z := 2.
Definition TCPY_MODE_SYNC   : Z := 3.

(** Constants of the system headers the file includes (FreeBSD values). *)
Definition S_IFMT  : Z := 61440.   (* 0170000 *)
Definition S_IFDIR : Z := 16384.   (* 0040000 *)
Definition S_IFREG : Z := 32768.   (* 0100000 *)
Definition DT_DIR  : Z := 4.
Definition DT_REG  : Z := 8.
Definition ENOENT  : Z := 2.
Definition EEXIST  : Z := 17.
Definition ENOTDIR : Z := 20.
Definition EISDIR  : Z := 21.

(* ===================================================================== *)
(** ** Machine integers *)
(* ===================================================================== *)

(** An unsigned [bits]-wide value after an operation that may overflow. *)
Definition wrap (bits x : Z) : Z := x mod 2 ^ bits.

(** [TNSEC] is [unsigned long long]. *)
Definition wrap64 (x : Z) : Z := wrap 64 x.

(** The cast [(int)x] of a wider signed value. *)
Definition cast_int (x : Z) : Z := (x + 2 ^ 31) mod 2 ^ 32 - 2 ^ 31.

(** C truth value of an integer. *)
Definition truthy (x : Z) : bool := negb (x =? 0).

(* ===================================================================== *)
(** ** Level 1: general purpose functions *)
(* ===================================================================== *)

(** *** ChecksumAdd

    [unsigned long] is [ulong_bits] wide (32 on ILP32 targets, 64 on
    LP64 ones); the shift is the only operation that can overflow.
    A byte of the buffer is a [Z]; the code keeps its low 8 bits. *)

Definition ChecksumAdd_byte (ulong_bits : Z) (c b : Z) : Z :=
  let iMsb := Z.land c 0x80000000 in
  let c1 := Z.lxor c (Z.land b 0xFF) in
  let c2 := wrap ulong_bits (Z.shiftl c1 1) in
  if truthy iMsb then Z.lor c2 1 else c2.

Fixpoint ChecksumAdd (ulong_bits : Z) (pBigBuffer : list Z) (c : Z) : Z :=
  match pBigBuffer with
  | [] => c
  | b :: rest => ChecksumAdd ulong_bits rest (ChecksumAdd_byte ulong_bits c b)
  end.

(** The checksum as the specification words it: XOR the low 8 bits of
    the byte into the state, then rotate the 32-bit word left by one. *)
Definition rotl32 (x : Z) : Z :=
  Z.lor (Z.shiftl x 1 mod 2 ^ 32) (Z.shiftr x 31).

Definition spec_checksum_byte (c b : Z) : Z :=
  rotl32 (Z.lxor c (Z.land b 255)).

Definition spec_checksum (buf : list Z) : Z :=
  fold_left spec_checksum_byte buf 0.

(** *** StringShortner *)

Definition substr (start len : nat) (s : string) : string :=
  String.substring start len s.

Definition strlen (s : string) : Z := Z.of_nat (String.length s).

Definition StringShortner (pLongSz : string) (iMax : Z) : string :=
  let i := strlen pLongSz in
  if i <? iMax then pLongSz
  else
    let iMax := if i <=? iMax + 5 then iMax - 5 else iMax in
    let iMax := Z.quot iMax 2 in
    substr 0 (Z.to_nat iMax) pLongSz +:+ " ... "
      +:+ substr (Z.to_nat (i - iMax)) (Z.to_nat iMax) pLongSz.

(** *** Number formatting used by the [sprintf] calls *)

Fixpoint digits_of (fuel : nat) (base n : N) (acc : string) : string :=
  match fuel with
  | O => acc
  | S fuel' =>
      let d := N.modulo n base in
      let acc' := String (ascii_of_N (48 + d)) acc in
      if N.ltb n base then acc' else digits_of fuel' base (N.div n base) acc'
  end.

Definition fmt_unsigned (base : N) (n : Z) : string :=
  digits_of (S (N.to_nat (N.log2 (Z.to_N n)))) base (Z.to_N n) "".

(** ["%d"] and ["%ld"]. *)
Definition fmt_d (n : Z) : string :=
  if n <? 0 then "-" +:+ fmt_unsigned 10 (- n) else fmt_unsigned 10 n.

(** ["%o"]. *)
Definition fmt_o (n : Z) : string := fmt_unsigned 8 n.

(** *** String helpers standing for the C pointer arithmetic *)

Definition slash : ascii := "/"%char.

(** [p[i]]; the terminating NUL when [i] is the length. *)
Definition char_at (p : string) (i : nat) : ascii :=
  match String.get i p with Some c => c | None => zero end.

(** [while (i && p[i] != '/') i--;] *)
Fixpoint scan_back (p : string) (i : nat) : nat :=
  match i with
  | O => O
  | S i' => if Ascii.eqb (char_at p i) slash then i else scan_back p i'
  end.

Definition has_slash (s : string) : bool :=
  match String.index 0 "/" s with Some _ => true | None => false end.

Fixpoint drop_slashes (l : list ascii) : list ascii :=
  match l with
  | c :: l' => if Ascii.eqb c slash then drop_slashes l' else l
  | [] => []
  end.

Fixpoint drop_dot_slash (fuel : nat) (s : string) : string :=
  match fuel with
  | O => s
  | S fuel' =>
      if String.prefix "./" s
      then drop_dot_slash fuel'
             (String.string_of_list_ascii
                (drop_slashes (String.list_ascii_of_string (substr 1 (String.length s) s))))
      else s
  end.

(* ===================================================================== *)
(** ** The world the program runs in *)
(* ===================================================================== *)

(** [struct stat], the fields the program reads. *)
Record stat := mkStat {
  st_mode : Z; st_size : Z;
  st_mtim_sec : Z; st_mtim_nsec : Z;
  st_dev : Z; st_ino : Z }.

Definition stat_zero : stat := mkStat 0 0 0 0 0 0.

(** A file-system object: attributes and, for a file, its bytes.  The
    time stamps of a directory stay as they are when an entry is
    created or removed in it: the program never reads them. *)
Record inode := mkInode {
  i_mode : Z; i_dev : Z; i_ino : Z;
  i_mtim_sec : Z; i_mtim_nsec : Z;
  i_data : list Z }.

Definition stat_of (n : inode) : stat :=
  mkStat (i_mode n) (Z.of_nat (length (i_data n)))
         (i_mtim_sec n) (i_mtim_nsec n) (i_dev n) (i_ino n).

Definition is_dir (n : inode) : bool := Z.land (i_mode n) S_IFMT =? S_IFDIR.

(** [struct dirent]. *)
Record dirent := mkDirent { d_name : string; d_type : Z }.

(** The outcome the environment forces on one system call. *)
Inductive fault :=
| NoFault
| Fail (errno : Z)     (* the call fails with this errno *)
| Short (n : Z).       (* a read or write transfers at most [n] bytes *)

(** The calls the program issues, in program order. *)
Inductive event :=
| EPrint (s : string)
| EStat (path : string)
| EOpen (path : string)
| ECreat (path : string) (mode : Z)
| ERead (path : string)
| EWrite (path : string) (buf : list Z)
| EClose (path : string)
| EUnlink (path : string)
| EUtimens (path : string) (sec nsec : Z)
| EMkdir (path : string) (mode : Z)
| EOpendir (path : string)
| EMalloc
| EClock
| ENanosleep (sec nsec : Z)
| EUsleep (us : Z)
| ESelect
| EGetchar (c : Z).

(** The global variables of [tcpy.c]. *)
Record Globals := mkGlobals {
  giFaster : Z; giFileCount : Z; giPauseAfterVerif : Z; giTestRun : Z;
  gszErr : string;
  giNanoFastest : Z; giNanoPrev : Z;
  giCopyByteCount : Z; giTotalByteCount : Z;
  giSt_dev : Z; giSt_ino : Z }.

(** The initial values the C file gives them. *)
Definition globals0 : Globals := mkGlobals 0 0 0 0 "" 0 0 0 0 0 0.

(** The environment.  [kbd] scripts the successive polls of stdin
    ([None]: nothing pending, [Some c]: key [c] is read); after the
    script no key ever arrives.  [clk] scripts the results of
    [clock_gettime] (return code, seconds, nanoseconds).  [flt] scripts
    the faults of the successive fallible system calls.  [now_sec],
    [now_nsec] stamp the files the program creates or writes, [next_ino]
    numbers them, and [junk] is what an uninitialised [struct stat] on
    the stack holds.  [umask] is the file mode creation mask of the
    process.  [spill] is what a text too long for the buffer [sz2] of
    [TimedCopyFile] leaves in the two checksum variables of that
    function (see [sz2_overrun] below). *)
Record Env := mkEnv {
  fs : gmap string inode;
  kbd : list (option Z);
  clk : list (Z * Z * Z);
  flt : list fault;
  errno_ : Z;
  now_sec : Z; now_nsec : Z;
  next_ino : Z;
  junk : stat;
  umask : Z;
  spill : string -> Z * Z }.

Record World := mkWorld { glob : Globals; env : Env; trace : list event }.

Definition upd_glob (f : Globals -> Globals) (w : World) : World :=
  mkWorld (f (glob w)) (env w) (trace w).
Definition upd_env (f : Env -> Env) (w : World) : World :=
  mkWorld (glob w) (f (env w)) (trace w).
Definition add_event (e : event) (w : World) : World :=
  mkWorld (glob w) (env w) (trace w ++ [e]).

Definition set_giFileCount (v : Z) (g : Globals) : Globals :=
  mkGlobals (giFaster g) v (giPauseAfterVerif g) (giTestRun g) (gszErr g)
    (giNanoFastest g) (giNanoPrev g) (giCopyByteCount g) (giTotalByteCount g)
    (giSt_dev g) (giSt_ino g).
Definition set_giPauseAfterVerif (v : Z) (g : Globals) : Globals :=
  mkGlobals (giFaster g) (giFileCount g) v (giTestRun g) (gszErr g)
    (giNanoFastest g) (giNanoPrev g) (giCopyByteCount g) (giTotalByteCount g)
    (giSt_dev g) (giSt_ino g).
Definition set_gszErr (v : string) (g : Globals) : Globals :=
  mkGlobals (giFaster g) (giFileCount g) (giPauseAfterVerif g) (giTestRun g) v
    (giNanoFastest g) (giNanoPrev g) (giCopyByteCount g) (giTotalByteCount g)
    (giSt_dev g) (giSt_ino g).
Definition set_giNanoFastest (v : Z) (g : Globals) : Globals :=
  mkGlobals (giFaster g) (giFileCount g) (giPauseAfterVerif g) (giTestRun g)
    (gszErr g) v (giNanoPrev g) (giCopyByteCount g) (giTotalByteCount g)
    (giSt_dev g) (giSt_ino g).
Definition set_giNanoPrev (v : Z) (g : Globals) : Globals :=
  mkGlobals (giFaster g) (giFileCount g) (giPauseAfterVerif g) (giTestRun g)
    (gszErr g) (giNanoFastest g) v (giCopyByteCount g) (giTotalByteCount g)
    (giSt_dev g) (giSt_ino g).
Definition set_giCopyByteCount (v : Z) (g : Globals) : Globals :=
  mkGlobals (giFaster g) (giFileCount g) (giPauseAfterVerif g) (giTestRun g)
    (gszErr g) (giNanoFastest g) (giNanoPrev g) v (giTotalByteCount g)
    (giSt_dev g) (giSt_ino g).
Definition set_giTotalByteCount (v : Z) (g : Globals) : Globals :=
  mkGlobals (giFaster g) (giFileCount g) (giPauseAfterVerif g) (giTestRun g)
    (gszErr g) (giNanoFastest g) (giNanoPrev g) (giCopyByteCount g) v
    (giSt_dev g) (giSt_ino g).
Definition set_giSt (dev ino : Z) (g : Globals) : Globals :=
  mkGlobals (giFaster g) (giFileCount g) (giPauseAfterVerif g) (giTestRun g)
    (gszErr g) (giNanoFastest g) (giNanoPrev g) (giCopyByteCount g)
    (giTotalByteCount g) dev ino.

Definition set_fs (v : gmap string inode) (e : Env) : Env :=
  mkEnv v (kbd e) (clk e) (flt e) (errno_ e) (now_sec e) (now_nsec e) (next_ino e)
    (junk e) (umask e) (spill e).
Definition set_kbd (v : list (option Z)) (e : Env) : Env :=
  mkEnv (fs e) v (clk e) (flt e) (errno_ e) (now_sec e) (now_nsec e) (next_ino e)
    (junk e) (umask e) (spill e).
Definition set_clk (v : list (Z * Z * Z)) (e : Env) : Env :=
  mkEnv (fs e) (kbd e) v (flt e) (errno_ e) (now_sec e) (now_nsec e) (next_ino e)
    (junk e) (umask e) (spill e).
Definition set_flt (v : list fault) (e : Env) : Env :=
  mkEnv (fs e) (kbd e) (clk e) v (errno_ e) (now_sec e) (now_nsec e) (next_ino e)
    (junk e) (umask e) (spill e).
Definition set_errno (v : Z) (e : Env) : Env :=
  mkEnv (fs e) (kbd e) (clk e) (flt e) v (now_sec e) (now_nsec e) (next_ino e)
    (junk e) (umask e) (spill e).
Definition set_next_ino (v : Z) (e : Env) : Env :=
  mkEnv (fs e) (kbd e) (clk e) (flt e) (errno_ e) (now_sec e) (now_nsec e) v (junk e)
    (umask e) (spill e).

(* ===================================================================== *)
(** ** The monad of the program: state, and runs that never return *)
(* ===================================================================== *)

Inductive halt :=
| Hangs        (* paused, and no key will ever arrive *)
| OutOfFuel.   (* the model's recursion bound was too small *)

Inductive Res (A : Type) :=
| Ret (a : A) (w : World)
| Halt (h : halt) (w : World).
Arguments Ret {A} a w.
Arguments Halt {A} h w.

Definition M (A : Type) : Type := World -> Res A.

Definition ret {A} (a : A) : M A := fun w => Ret a w.
Definition bind {A B} (m : M A) (f : A -> M B) : M B :=
  fun w => match m w with
           | Ret a w' => f a w'
           | Halt h w' => Halt h w'
           end.

Notation "x <- m ;; k" := (bind m (fun x => k))
  (at level 100, m at next level, right associativity).
Notation "m ;;; k" := (bind m (fun _ => k))
  (at level 100, right associativity).
Definition world_of {A} (r : Res A) : World :=
  match r with Ret _ w => w | Halt _ w => w end.

Definition gets {A} (f : Globals -> A) : M A := fun w => Ret (f (glob w)) w.
Definition puts (f : Globals -> Globals) : M unit := fun w => Ret tt (upd_glob f w).
Definition emit (e : event) : M unit := fun w => Ret tt (add_event e w).
Definition get_env {A} (f : Env -> A) : M A := fun w => Ret (f (env w)) w.
Definition put_env (f : Env -> Env) : M unit := fun w => Ret tt (upd_env f w).
Definition when (b : bool) (m : M unit) : M unit := if b then m else ret tt.
Definition halt_with {A} (h : halt) : M A := fun w => Halt h w.

(** [printf] of a formatted text, and [EchoPrint]. *)
Definition nl : string := String "010"%char "".
Definition printf (text : string) : M unit := emit (EPrint text).
Definition line (pSz : string) : string := pSz +:+ nl.
Definition EchoPrint (pSz : string) : M unit := printf (line pSz).

(* ===================================================================== *)
(** ** The file system and the system calls *)
(* ===================================================================== *)

(** Keys of the file-system map are canonical paths: no trailing slash,
    no leading ["./"]; ["."] is the current directory.  [canon] brings
    a path name to that form.  It leaves a doubled slash and a ["."] or
    [".."] component inside a name as they are: the model covers path
    names written without them, and resolves the others to nothing. *)
Definition canon (p : string) : string :=
  let l := rev (drop_slashes (rev (String.list_ascii_of_string p))) in
  let s := String.string_of_list_ascii l in
  if String.eqb s "" then (if String.eqb p "" then "" else "/")
  else
    let s' := drop_dot_slash (String.length s) s in
    if String.eqb s' "" then "." else s'.

Definition ends_with_slash (p : string) : bool :=
  match String.length p with
  | O => false
  | S n => Ascii.eqb (char_at p n) slash
  end.

Definition parent_of (k : string) : string :=
  let i := scan_back k (String.length k) in
  if Ascii.eqb (char_at k i) slash
  then (match i with O => "/" | _ => substr 0 i k end)
  else ".".

Definition basename (k : string) : string :=
  let i := scan_back k (String.length k) in
  if Ascii.eqb (char_at k i) slash
  then substr (S i) (String.length k) k
  else k.

(** Path resolution: the object, or the errno of the failure. *)
Definition resolve (f : gmap string inode) (p : string) : Z + inode :=
  match f !! canon p with
  | None => inl ENOENT
  | Some n => if ends_with_slash p && negb (is_dir n) then inl ENOTDIR else inr n
  end.

Definition IFTODT (mode : Z) : Z := Z.shiftr (Z.land mode S_IFMT) 12.

(** What [readdir] reports for the directory with key [d]. *)
Definition dir_entries (f : gmap string inode) (d : string) : list dirent :=
  mkDirent "." DT_DIR :: mkDirent ".." DT_DIR ::
  omap (fun kn : string * inode =>
          let k := kn.1 in
          if String.eqb (parent_of k) d
             && negb (String.eqb k d) && negb (String.eqb k ".")
          then Some (mkDirent (basename k) (IFTODT (i_mode kn.2)))
          else None)
       (map_to_list f).

Definition pop_fault : M fault :=
  fun w => match flt (env w) with
           | [] => Ret NoFault w
           | f :: r => Ret f (upd_env (set_flt r) w)
           end.

Definition set_errno_ret {A} (e : Z) (a : A) : M A :=
  put_env (set_errno e) ;;; ret a.

Definition get_errno : M Z := get_env errno_.

Definition touch (e : Env) (n : inode) (data : list Z) : inode :=
  mkInode (i_mode n) (i_dev n) (i_ino n) (now_sec e) (now_nsec e) data.

(** The permission bits of an object created with the argument [mode]:
    the bits of [mode] that the umask of the process does not clear. *)
Definition new_mode (e : Env) (mode : Z) : Z :=
  Z.land (Z.land mode (Z.lnot (umask e))) 4095.

Definition parent_dir (f : gmap string inode) (p : string) : option inode :=
  match f !! parent_of (canon p) with
  | Some n => if is_dir n then Some n else None
  | None => None
  end.

(** [stat(path, buf)]: the return code and the buffer afterwards. *)
Definition sys_stat (path : string) (buf : stat) : M (Z * stat) :=
  emit (EStat path) ;;;
  f <- pop_fault ;;
  match f with
  | Fail e => set_errno_ret e (-1, buf)
  | _ =>
      r <- get_env (fun e => resolve (fs e) path) ;;
      match r with
      | inl e => set_errno_ret e (-1, buf)
      | inr n => ret (0, stat_of n)
      end
  end.

(** [open(path, O_RDONLY)]: a descriptor, or -1. *)
Definition sys_open_rdonly (path : string) : M Z :=
  emit (EOpen path) ;;;
  f <- pop_fault ;;
  match f with
  | Fail e => set_errno_ret e (-1)
  | _ =>
      r <- get_env (fun e => resolve (fs e) path) ;;
      match r with
      | inl e => set_errno_ret e (-1)
      | inr n => ret 3
      end
  end.

(** [open(path, O_WRONLY|O_CREAT|O_TRUNC, mode)]: an existing file is
    truncated and keeps its mode; a new one gets the permission bits of
    [mode] that the umask lets through. *)
Definition sys_creat (path : string) (mode : Z) : M Z :=
  emit (ECreat path mode) ;;;
  f <- pop_fault ;;
  match f with
  | Fail e => set_errno_ret e (-1)
  | _ =>
      e <- get_env id ;;
      match resolve (fs e) path with
      | inr n =>
          if is_dir n then set_errno_ret EISDIR (-1)
          else put_env (set_fs (<[canon path := touch e n []]> (fs e))) ;;; ret 4
      | inl _ =>
          match parent_dir (fs e) path with
          | None => set_errno_ret ENOENT (-1)
          | Some d =>
              let n := mkInode (Z.lor S_IFREG (new_mode e mode)) (i_dev d)
                               (next_ino e) (now_sec e) (now_nsec e) [] in
              put_env (fun e => set_next_ino (next_ino e + 1)
                                  (set_fs (<[canon path := n]> (fs e)) e)) ;;;
              ret 4
          end
      end
  end.

(** [write(fd, buf, n)] on the descriptor opened on [path]. *)
Definition sys_write (path : string) (buf : list Z) : M Z :=
  emit (EWrite path buf) ;;;
  f <- pop_fault ;;
  e <- get_env id ;;
  match f, fs e !! canon path with
  | Fail en, _ => set_errno_ret en (-1)
  | _, None => set_errno_ret 9 (-1)
  | Short k, Some n =>
      let out := take (Z.to_nat k) buf in
      put_env (set_fs (<[canon path := touch e n (i_data n ++ out)]> (fs e))) ;;;
      ret (Z.of_nat (length out))
  | NoFault, Some n =>
      put_env (set_fs (<[canon path := touch e n (i_data n ++ buf)]> (fs e))) ;;;
      ret (Z.of_nat (length buf))
  end.

(** [read(fd, gpBigBuffer, LNBIGBUFFER)] when the next [LNBIGBUFFER]
    bytes of the file are [chunk] ([[]] at end of file): the return
    value and the bytes now in the buffer. *)
Definition sys_read (path : string) (chunk : list Z) : M (Z * list Z) :=
  emit (ERead path) ;;;
  f <- pop_fault ;;
  match f with
  | Fail en => set_errno_ret en (-1, [])
  | Short k => let got := take (Z.to_nat k) chunk in ret (Z.of_nat (length got), got)
  | NoFault => ret (Z.of_nat (length chunk), chunk)
  end.

Definition sys_close (path : string) : M unit := emit (EClose path).

(** [unlink(path)]. *)
Definition sys_unlink (path : string) : M Z :=
  emit (EUnlink path) ;;;
  f <- pop_fault ;;
  match f with
  | Fail e => set_errno_ret e (-1)
  | _ =>
      e <- get_env id ;;
      match resolve (fs e) path with
      | inl en => set_errno_ret en (-1)
      | inr n =>
          if is_dir n then set_errno_ret 1 (-1)
          else put_env (set_fs (delete (canon path) (fs e))) ;;; ret 0
      end
  end.

(** [utimensat(AT_FDCWD, path, {UTIME_OMIT, {sec, nsec}}, 0)]. *)
Definition sys_utimensat (path : string) (sec nsec : Z) : M Z :=
  emit (EUtimens path sec nsec) ;;;
  f <- pop_fault ;;
  match f with
  | Fail e => set_errno_ret e (-1)
  | _ =>
      e <- get_env id ;;
      match resolve (fs e) path with
      | inl en => set_errno_ret en (-1)
      | inr n =>
          put_env (set_fs (<[canon path :=
                     mkInode (i_mode n) (i_dev n) (i_ino n) sec nsec (i_data n)]>
                     (fs e))) ;;;
          ret 0
      end
  end.

(** [mkdir(path, mode)]; the umask applies as for a new file. *)
Definition sys_mkdir (path : string) (mode : Z) : M Z :=
  emit (EMkdir path mode) ;;;
  f <- pop_fault ;;
  match f with
  | Fail e => set_errno_ret e (-1)
  | _ =>
      e <- get_env id ;;
      match fs e !! canon path, parent_dir (fs e) path with
      | Some _, _ => set_errno_ret EEXIST (-1)
      | None, None => set_errno_ret ENOENT (-1)
      | None, Some d =>
          let n := mkInode (Z.lor S_IFDIR (new_mode e mode)) (i_dev d)
                           (next_ino e) (now_sec e) (now_nsec e) [] in
          put_env (fun e => set_next_ino (next_ino e + 1)
                              (set_fs (<[canon path := n]> (fs e)) e)) ;;;
          ret 0
      end
  end.

(** [opendir(path)] and the entries the following [readdir]s report;
    [None] is the NULL result. *)
Definition sys_opendir (path : string) : M (option (list dirent)) :=
  emit (EOpendir path) ;;;
  f <- pop_fault ;;
  match f with
  | Fail e => set_errno_ret e None
  | _ =>
      e <- get_env id ;;
      match resolve (fs e) path with
      | inl en => set_errno_ret en None
      | inr n =>
          if is_dir n then ret (Some (dir_entries (fs e) (canon path)))
          else set_errno_ret ENOTDIR None
      end
  end.

(** [malloc]: [true] when the pointer is not NULL. *)
Definition sys_malloc : M bool :=
  emit EMalloc ;;;
  f <- pop_fault ;;
  match f with
  | Fail e => set_errno_ret e false
  | _ => ret true
  end.

(** [clock_gettime(CLOCK_REALTIME_FAST, &sTime)]: the return code and
    the contents of [sTime] afterwards. *)
Definition sys_clock_gettime : M (Z * Z * Z) :=
  emit EClock ;;;
  fun w => match clk (env w) with
           | [] => Ret (0, 0, 0) w
           | c :: r => Ret c (upd_env (set_clk r) w)
           end.

(** The bytes of the file behind a descriptor just opened on [path]. *)
Definition file_data (path : string) : M (list Z) :=
  get_env (fun e => match fs e !! canon path with
                    | Some n => i_data n
                    | None => []
                    end).

(** The successive full-buffer reads of [data]. *)
Fixpoint chunks_of (fuel : nat) (n : nat) (data : list Z) : list (list Z) :=
  match fuel, data with
  | S fuel', _ :: _ => take n data :: chunks_of fuel' n (drop n data)
  | _, _ => []
  end.

Definition read_chunks (data : list Z) : list (list Z) :=
  chunks_of (length data) (Z.to_nat LNBIGBUFFER) data.

(* ===================================================================== *)
(** ** Level 1 (continued): keyboard and clock *)
(* ===================================================================== *)

Definition is_key (i : Z) (keys : list Z) : bool :=
  existsb (Z.eqb i) keys.

(** One run of the [do ... while (!iErr && iPause)] loop of
    [KeyboardCheck]; [script] is the part of [kbd] not yet consumed.
    [iErr] is 0 whenever an iteration starts. *)
Fixpoint KeyboardCheck_loop (script : list (option Z)) (iPause : Z) : M Z :=
  match script with
  | [] =>
      (* no key will ever be pending: select() returns 0 for ever *)
      emit ESelect ;;;
      if truthy iPause then halt_with Hangs else ret 0
  | None :: rest =>
      put_env (set_kbd rest) ;;;
      emit ESelect ;;;
      if truthy iPause then KeyboardCheck_loop rest iPause else ret 0
  | Some i :: rest =>
      put_env (set_kbd rest) ;;;
      emit ESelect ;;;
      emit (EGetchar i) ;;;
      r <- (if is_key i [32; 112; 80] then                      (* ' ' 'p' 'P' *)
              let iPause' := if truthy iPause then 0 else 1 in
              EchoPrint (if truthy iPause' then "Pause..." else "Resume...") ;;;
              ret (iPause', 0)
            else if is_key i [27; 113; 81] then                 (* ESC 'q' 'Q' *)
              ret (iPause, ERROR_TCPY_STOP)
            else if is_key i [118; 86] then                     (* 'v' 'V' *)
              puts (set_giPauseAfterVerif 1) ;;;
              EchoPrint "Pause Requested!" ;;;
              ret (iPause, 0)
            else ret (iPause, 0)) ;;
      let '(iPause', iErr) := r in
      when (truthy iPause') (emit (EUsleep 3000)) ;;;
      if negb (truthy iErr) && truthy iPause'
      then KeyboardCheck_loop rest iPause'
      else ret iErr
  end.

Definition KeyboardCheck (iInducedPause : Z) : M Z :=
  when (truthy iInducedPause) (EchoPrint "Pause...") ;;;
  script <- get_env kbd ;;
  KeyboardCheck_loop script iInducedPause.

Definition NanoTime : M Z :=
  c <- sys_clock_gettime ;;
  let '(rc, tv_sec, tv_nsec) := c in
  if truthy rc
  then ret (wrap64 (wrap64 (tv_sec * ONESECINNANO) + tv_nsec))
  else ret 0.

(* ===================================================================== *)
(** ** Level 2: directory functions *)
(* ===================================================================== *)

(** [pStat] is the caller's buffer; the result is the return value and
    the buffer afterwards. *)
Definition DirectoryExist (szPathname : string) (pStat : stat) : M (Z * stat) :=
  r <- sys_stat szPathname pStat ;;
  let '(rc, st) := r in
  let i := if rc =? 0 then 1 else 0 in
  let i := if truthy i then Z.land (st_mode st) S_IFDIR else i in
  ret (i, st).

Definition FilenameExist (szPathname : string) (pStat : stat) : M (Z * stat) :=
  r <- sys_stat szPathname pStat ;;
  let '(rc, st) := r in
  let i := if rc =? 0 then 1 else 0 in
  let i := if truthy i then Z.land (st_mode st) S_IFREG else i in
  ret (i, st).

(** [pStat = None] is the NULL pointer.  The recursion is on a strictly
    shorter prefix of the path; [fuel] bounds it. *)
Fixpoint DirectoryValidate_rec (fuel : nat) (szPathname : string)
    (pStat : option stat) : M (Z * stat) :=
  match fuel with
  | O => halt_with OutOfFuel
  | S fuel' =>
      let i := String.length szPathname in
      match i with
      | O =>
          match pStat with
          | Some _ => ret (0, stat_zero)
          | None => j <- get_env junk ;; ret (0, j)
          end
      | S i1 =>
          buf <- (match pStat with
                  | Some b => ret b
                  | None => get_env junk
                  end) ;;
          r <- DirectoryExist szPathname buf ;;
          let '(e, buf) := r in
          if truthy e then ret (0, buf)
          else
            ok <- sys_malloc ;;
            if negb ok then ret (ERROR_TCPY_MEM, buf)
            else
              let '(i, pSzDirname) :=
                if Ascii.eqb (char_at szPathname i1) slash
                then (i1, substr 0 i1 szPathname)
                else (i, szPathname) in
              let i := scan_back pSzDirname i in
              r <- (if Ascii.eqb (char_at pSzDirname i) slash then
                      match i with
                      | S _ => DirectoryValidate_rec fuel' (substr 0 i pSzDirname)
                                 (Some buf)
                      | O => r <- sys_stat "/" buf ;; ret (0, r.2)
                      end
                    else r <- sys_stat "." buf ;; ret (0, r.2)) ;;
              let '(iErr, buf) := r in
              if truthy iErr then ret (iErr, buf)
              else
                let sz := StringShortner pSzDirname (LNSZ - 40) in
                EchoPrint ("mkdir(" +:+ sz +:+ ", Mode=0"
                           +:+ fmt_o (wrap 32 (st_mode buf)) +:+ ")") ;;;
                rc <- sys_mkdir pSzDirname (st_mode buf) ;;
                if truthy rc then
                  en <- get_errno ;;
                  puts (set_gszErr ("Could Not Create " +:+ sz +:+ " (errno="
                                    +:+ fmt_d en +:+ ")")) ;;;
                  ret (ERROR_TCPY, buf)
                else
                  r <- sys_stat pSzDirname buf ;;
                  ret (0, r.2)
      end
  end.

Definition DirectoryValidate (szPathname : string) (pStat : option stat)
    : M Z :=
  r <- DirectoryValidate_rec (S (String.length szPathname)) szPathname pStat ;;
  ret r.1.

(* ===================================================================== *)
(** ** The throttle arithmetic of the copy loop *)
(* ===================================================================== *)

(** Lines 615-617: the delay before the write of [iRead] bytes. *)
Definition throttle_delay (nanoPrev nanoFastest iRead : Z) : Z :=
  let iNano := wrap64 (nanoPrev - nanoFastest) in
  if negb (iRead =? LNBIGBUFFER)
  then wrap64 (iNano * iRead) / LNBIGBUFFER
  else iNano.

(** Lines 627-629: the duration recorded for a write that the two
    [NanoTime] readings [t0] and [t1] bracket. *)
Definition throttle_measure (t0 t1 iRead : Z) : Z :=
  let nanoPrev := wrap64 (t1 - t0) in
  if negb (iRead =? LNBIGBUFFER)
  then wrap64 (nanoPrev * LNBIGBUFFER) / iRead
  else nanoPrev.

(** Lines 630-631. *)
Definition throttle_fastest (nanoFastest nanoPrev : Z) : Z :=
  if negb (truthy nanoFastest) || (nanoPrev <? nanoFastest)
  then nanoPrev else nanoFastest.

Section Program.

(** The width of [unsigned long] on the target. *)
Variable ulong_bits : Z.

(* ===================================================================== *)
(** ** Level 2 (continued): FilenameChecksum *)
(* ===================================================================== *)

(** One iteration of the read loop, and whether it asks for another. *)
Definition checksum_iter (szFilename : string) (chunk : list Z) (c : Z)
    : M (bool * Z * Z) :=
  r <- sys_read szFilename chunk ;;
  let '(iRead, buf) := r in
  let c := if iRead >? 0 then ChecksumAdd ulong_bits buf c else c in
  iErr <- KeyboardCheck 0 ;;
  ret ((iRead =? LNBIGBUFFER) && negb (truthy iErr), iErr, c).

Fixpoint checksum_loop (szFilename : string) (chunks : list (list Z)) (c : Z)
    : M (Z * Z) :=
  match chunks with
  | [] =>
      r <- checksum_iter szFilename [] c ;;
      ret (r.1.2, r.2)
  | chunk :: rest =>
      r <- checksum_iter szFilename chunk c ;;
      let '(again, iErr, c) := r in
      if again then checksum_loop szFilename rest c else ret (iErr, c)
  end.

(** The result is [iErr] and the value left in [*piChecksum]. *)
Definition FilenameChecksum (szFilename : string) : M (Z * Z) :=
  iFd <- sys_open_rdonly szFilename ;;
  if iFd <? 0 then
    en <- get_errno ;;
    puts (set_gszErr ("Could Not Open "
                      +:+ StringShortner szFilename (LNSZ - 50)
                      +:+ " (errno=" +:+ fmt_d en +:+ ")")) ;;;
    ret (ERROR_TCPY, 0)
  else
    data <- file_data szFilename ;;
    r <- checksum_loop szFilename (read_chunks data) 0 ;;
    sys_close szFilename ;;;
    ret r.

(* ===================================================================== *)
(** ** Level 3: TimedCopyFile *)
(* ===================================================================== *)

(** Lines 525-535: the snapshot of an absent destination. *)
Definition zero_dest (iExistDest : Z) (sStatDest : stat) : stat :=
  if truthy iExistDest then sStatDest
  else mkStat (st_mode sStatDest) 0 0 0 (st_dev sStatDest) (st_ino sStatDest).

(** Lines 540 and 582: [sprintf(sz2, ...)] of a line that holds the two
    shortened names.  [sz2] has room for [LNSZ - 1] characters, and the
    two names can add up to 450: a longer text is written past the end
    of [sz2], which C leaves undefined.  The model covers the damage to
    the two checksum variables of the function, which [spill] of the
    environment gives; that the other variables of the frame keep their
    values is an assumption of the model.  The result is the contents
    of [iSourceChecksum] and [iDestChecksum] after the [sprintf]. *)
Definition sz2_overrun (text : string) (iSourceChecksum iDestChecksum : Z)
    : M (Z * Z) :=
  if strlen text <? LNSZ then ret (iSourceChecksum, iDestChecksum)
  else get_env (fun e => spill e text).

(** Lines 537-548: the result is [iErr], [iSourceChecksum],
    [iDestChecksum].  Both checksums are 0 when the function starts, and
    [FilenameChecksum] resets the one it is given before anything else. *)
Definition tcf_compare (iErr : Z) (sStatSource sStatDest : stat)
    (szSourceFilename szDestFilename szSource szDest : string)
    : M (Z * Z * Z) :=
  if negb (truthy iErr) && truthy (st_size sStatSource)
     && truthy (st_size sStatDest)
     && (st_size sStatSource =? st_size sStatDest)
  then
    let text := "Verify " +:+ szSource +:+ " to " +:+ szDest in
    c <- sz2_overrun text 0 0 ;;
    EchoPrint text ;;;
    t <- gets giTestRun ;;
    if negb (truthy t) then
      r <- FilenameChecksum szSourceFilename ;;
      let '(iErr, iSourceChecksum) := r in
      if negb (truthy iErr) then
        r <- FilenameChecksum szDestFilename ;;
        ret (r.1, iSourceChecksum, r.2)
      else ret (iErr, iSourceChecksum, c.2)
    else ret (iErr, c.1, c.2)
  else ret (iErr, 0, 0).

(** Line 550-555: the test that source and destination differ. *)
Definition differ (sStatSource sStatDest : stat)
    (iSourceChecksum iDestChecksum : Z) : bool :=
  negb (st_size sStatSource =? st_size sStatDest)
  || negb (st_mtim_sec sStatSource =? st_mtim_sec sStatDest)
  || negb (st_mtim_nsec sStatSource =? st_mtim_nsec sStatDest)
  || negb (iSourceChecksum =? iDestChecksum).

(** Lines 559-569: the log line of the deletion of a stale destination. *)
Definition delete_line (sStatSource sStatDest : stat)
    (iSourceChecksum iDestChecksum : Z) (szDest : string) : string :=
  "Delete " +:+ szDest +:+ " (diff"
  +:+ (if negb (st_size sStatSource =? st_size sStatDest)
       then " " +:+ fmt_d (st_size sStatDest - st_size sStatSource) +:+ " bytes"
       else "")
  +:+ (if negb (st_mtim_sec sStatSource =? st_mtim_sec sStatDest)
       then " sec" else "")
  +:+ (if negb (st_mtim_nsec sStatSource =? st_mtim_nsec sStatDest)
       then " nsec" else "")
  +:+ (if negb (iSourceChecksum =? iDestChecksum) then " chk" else "")
  +:+ ")".

(** Lines 557-578. *)
Definition tcf_delete_dest (iExistDest : Z) (sStatSource sStatDest : stat)
    (iSourceChecksum iDestChecksum : Z) (szDestFilename szDest : string)
    : M Z :=
  if truthy iExistDest then
    EchoPrint (delete_line sStatSource sStatDest iSourceChecksum
                 iDestChecksum szDest) ;;;
    t <- gets giTestRun ;;
    if negb (truthy t) then
      rc <- sys_unlink szDestFilename ;;
      if truthy rc then
        en <- get_errno ;;
        puts (set_gszErr ("Could Not Delete " +:+ szDest +:+ " (errno="
                          +:+ fmt_d en +:+ ")")) ;;;
        ret ERROR_TCPY
      else ret 0
    else ret 0
  else ret 0.

(** Lines 611-638: what the copy loop does with the [iRead > 0] bytes
    it has just read; the result is [iErr] and [iDestChecksum]. *)
Definition copy_buffer (szDestFilename szDest : string) (iRead : Z)
    (buf : list Z) (iDestChecksum : Z) : M (Z * Z) :=
  g <- gets id ;;
  puts (set_giCopyByteCount (giCopyByteCount g + iRead)) ;;;
  puts (set_giTotalByteCount (giTotalByteCount g + iRead)) ;;;
  (* Slowdown for next write if needed *)
  let iNano := throttle_delay (giNanoPrev g) (giNanoFastest g) iRead in
  when (negb (truthy (giFaster g)))
       (emit (ENanosleep (iNano / ONESECINNANO) (iNano mod ONESECINNANO))) ;;;
  let iDestChecksum := ChecksumAdd ulong_bits buf iDestChecksum in
  iNano <- NanoTime ;;
  iWrite <- sys_write szDestFilename buf ;;
  t1 <- NanoTime ;;
  let nanoPrev := throttle_measure iNano t1 iRead in
  puts (fun g => set_giNanoFastest (throttle_fastest (giNanoFastest g) nanoPrev)
                   (set_giNanoPrev nanoPrev g)) ;;;
  if negb (iWrite =? iRead) then
    en <- get_errno ;;
    puts (set_gszErr ("Write to file " +:+ szDest +:+ " Failed (errno="
                      +:+ fmt_d en +:+ ")")) ;;;
    ret (ERROR_TCPY, iDestChecksum)
  else ret (0, iDestChecksum).

(** Lines 608-643: one iteration of the copy loop; the result is
    whether the loop goes on, [iErr] and [iDestChecksum]. *)
Definition copy_iter (szSourceFilename szDestFilename szDest : string)
    (chunk : list Z) (iDestChecksum : Z) : M (bool * Z * Z) :=
  r <- sys_read szSourceFilename chunk ;;
  let '(iRead, buf) := r in
  r <- (if iRead >? 0
        then copy_buffer szDestFilename szDest iRead buf iDestChecksum
        else ret (0, iDestChecksum)) ;;
  let '(iErr, iDestChecksum) := r in
  iErr <- (if negb (truthy iErr) then KeyboardCheck 0 else ret iErr) ;;
  ret ((iRead =? LNBIGBUFFER) && negb (truthy iErr), iErr, iDestChecksum).

Fixpoint copy_loop (szSourceFilename szDestFilename szDest : string)
    (chunks : list (list Z)) (iDestChecksum : Z) : M (Z * Z) :=
  match chunks with
  | [] =>
      r <- copy_iter szSourceFilename szDestFilename szDest [] iDestChecksum ;;
      ret (r.1.2, r.2)
  | chunk :: rest =>
      r <- copy_iter szSourceFilename szDestFilename szDest chunk
             iDestChecksum ;;
      let '(again, iErr, c) := r in
      if again
      then copy_loop szSourceFilename szDestFilename szDest rest c
      else ret (iErr, c)
  end.

(** Lines 587-694: the copy operation outside a test run; the result
    is [iErr], [iSourceChecksum] and [iDestChecksum].  The blocks under
    [_WANT_FREEBSD11_STAT] are not compiled: the file does not define
    that macro. *)
Definition tcf_copy_io (sStatSource : stat) (iSourceChecksum iDestChecksum : Z)
    (szSourceFilename szDestFilename szSource szDest : string)
    : M (Z * Z * Z) :=
  iFdSource <- sys_open_rdonly szSourceFilename ;;
  iErr <- (if iFdSource <? 0 then
             en <- get_errno ;;
             puts (set_gszErr ("Could Not Open " +:+ szSource +:+ " (errno="
                               +:+ fmt_d en +:+ ")")) ;;;
             ret ERROR_TCPY
           else ret 0) ;;
  r <- (if negb (truthy iErr) then
          iFdDest <- sys_creat szDestFilename (st_mode sStatSource) ;;
          if iFdDest <? 0 then
            en <- get_errno ;;
            puts (set_gszErr ("Could Not Create " +:+ szDest +:+ " (errno="
                              +:+ fmt_d en +:+ ")")) ;;;
            ret (ERROR_TCPY, iFdDest)
          else ret (0, iFdDest)
        else ret (iErr, -1)) ;;
  let '(iErr, iFdDest) := r in
  r <- (if negb (truthy iErr) then
          data <- file_data szSourceFilename ;;
          copy_loop szSourceFilename szDestFilename szDest
            (read_chunks data) iDestChecksum
        else ret (iErr, iDestChecksum)) ;;
  let '(iErr, iDestChecksum) := r in
  when (iFdDest >=? 0) (sys_close szDestFilename) ;;;
  when (iFdSource >=? 0) (sys_close szSourceFilename) ;;;
  r <- (if negb (truthy iErr) then
          if truthy iSourceChecksum then
            if negb (iSourceChecksum =? iDestChecksum) then
              puts (set_gszErr ("Source " +:+ szSource +:+ " Check Failed!")) ;;;
              ret (ERROR_TCPY, iSourceChecksum)
            else ret (0, iSourceChecksum)
          else ret (0, iDestChecksum)
        else ret (iErr, iSourceChecksum)) ;;
  let '(iErr, iSourceChecksum) := r in
  when (truthy iErr)
       (rc <- sys_unlink szDestFilename ;;
        if truthy rc then
          en <- get_errno ;;
          printf (nl +:+ "WARNING: Failed to delete " +:+ szDest
                  +:+ " (errno=" +:+ fmt_d en +:+ ")" +:+ nl)
        else ret tt) ;;;
  (* Adjust creation and modification times *)
  iErr <- (if negb (truthy iErr) then
             rc <- sys_utimensat szDestFilename (st_mtim_sec sStatSource)
                     (st_mtim_nsec sStatSource) ;;
             if truthy rc then
               puts (set_gszErr ("Time Set of " +:+ szSource +:+ " Failed!")) ;;;
               ret ERROR_TCPY
             else ret 0
           else ret iErr) ;;
  ret (iErr, iSourceChecksum, iDestChecksum).

(** Lines 581-696: the copy operation.  Line 584 sets [iDestChecksum]
    to 0 whatever the [sprintf] of line 582 left in it. *)
Definition tcf_copy (sStatSource : stat) (iSourceChecksum : Z)
    (szSourceFilename szDestFilename szSource szDest : string)
    : M (Z * Z * Z) :=
  let text := "Copy " +:+ szSource +:+ " to " +:+ szDest in
  c <- sz2_overrun text iSourceChecksum 0 ;;
  EchoPrint text ;;;
  let iSourceChecksum := c.1 in
  let iDestChecksum := 0 in
  t <- gets giTestRun ;;
  if truthy t then ret (0, iSourceChecksum, iDestChecksum)
  else tcf_copy_io sStatSource iSourceChecksum iDestChecksum
         szSourceFilename szDestFilename szSource szDest.

(** Lines 698-715: the verification of the destination. *)
Definition tcf_verify_dest (iSourceChecksum : Z)
    (szDestFilename szDest : string) : M Z :=
  EchoPrint ("Verify " +:+ szDest) ;;;
  t <- gets giTestRun ;;
  if truthy t then ret 0
  else
    r <- FilenameChecksum szDestFilename ;;
    let '(iErr, iDestChecksum) := r in
    if negb (truthy iErr) && negb (iSourceChecksum =? iDestChecksum) then
      puts (set_gszErr ("Destination " +:+ szDest +:+ " Check Failed!")) ;;;
      rc <- sys_unlink szDestFilename ;;
      (if truthy rc then
         en <- get_errno ;;
         printf (nl +:+ "WARNING: Failed to delete " +:+ szDest
                 +:+ " (errno=" +:+ fmt_d en +:+ ")" +:+ nl)
       else ret tt) ;;;
      ret ERROR_TCPY
    else ret iErr.

(** Lines 550-716: decide, delete a stale destination, copy, verify. *)
Definition tcf_transfer (iErr iExistDest : Z) (sStatSource sStatDest : stat)
    (iSourceChecksum iDestChecksum : Z)
    (szSourceFilename szDestFilename szSource szDest : string) : M Z :=
  if negb (truthy iErr)
     && differ sStatSource sStatDest iSourceChecksum iDestChecksum
  then
    iErr <- tcf_delete_dest iExistDest sStatSource sStatDest iSourceChecksum
              iDestChecksum szDestFilename szDest ;;
    r <- (if negb (truthy iErr)
          then tcf_copy sStatSource iSourceChecksum szSourceFilename
                 szDestFilename szSource szDest
          else ret (iErr, iSourceChecksum, iDestChecksum)) ;;
    let '(iErr, iSourceChecksum, _) := r in
    if negb (truthy iErr)
    then tcf_verify_dest iSourceChecksum szDestFilename szDest
    else ret iErr
  else ret iErr.

(** Lines 718-730: the deletion of the source in Move mode. *)
Definition tcf_delete_source (iMode iErr : Z)
    (szSourceFilename szSource szDest : string) : M Z :=
  if negb (truthy iErr) && (iMode =? TCPY_MODE_DEL) then
    EchoPrint ("Delete " +:+ szSource) ;;;
    t <- gets giTestRun ;;
    if negb (truthy t) then
      rc <- sys_unlink szSourceFilename ;;
      if truthy rc then
        en <- get_errno ;;
        puts (set_gszErr ("Failed to delete " +:+ szDest +:+ " (errno="
                          +:+ fmt_d en +:+ ")")) ;;;
        ret ERROR_TCPY
      else ret iErr
    else ret iErr
  else ret iErr.

(** Lines 732-766: counters and pacing pauses. *)
Definition tcf_bookkeeping (iErr : Z) : M Z :=
  if negb (truthy iErr) then
    puts (fun g => set_giFileCount (giFileCount g + 1) g) ;;;
    g <- gets id ;;
    if truthy (giPauseAfterVerif g) then
      puts (set_giCopyByteCount 0) ;;;
      puts (set_giFileCount 0) ;;;
      puts (set_giPauseAfterVerif 0) ;;;
      KeyboardCheck 1
    else if (giFileCount g >=? COPYCOUNT) && negb (truthy (giFaster g)) then
      EchoPrint (fmt_d COPYCOUNT +:+ " files done, 10 sec. Pause...") ;;;
      emit (EUsleep 10000000) ;;;
      puts (set_giFileCount 0) ;;;
      ret iErr
    else if giCopyByteCount g >? 1073741824 then
      let n := Z.quot (giCopyByteCount g * 30) 1024 in
      puts (set_giCopyByteCount n) ;;;
      EchoPrint
        (if truthy (giFaster g)
         then fmt_d (cast_int (Z.quot (giTotalByteCount g) 1073741824))
              +:+ " Gb done."
         else fmt_d (cast_int (Z.quot (giTotalByteCount g) 1073741824))
              +:+ " Gb done, " +:+ fmt_d (cast_int (Z.quot n 1000000))
              +:+ " sec. Pause...") ;;;
      when (negb (truthy (giFaster g))) (emit (EUsleep (wrap 32 n))) ;;;
      puts (set_giCopyByteCount 0) ;;;
      puts (set_giFileCount 0) ;;;
      ret iErr
    else ret iErr
  else ret iErr.

(** Lines 515-548: probe both endpoints and compare them.  The result
    is [iErr], [iExistDest], the two snapshots and the two checksums. *)
Definition tcf_probe (szSourceFilename szDestFilename szSource szDest : string)
    : M (Z * Z * stat * stat * Z * Z) :=
  j <- get_env junk ;;
  r <- FilenameExist szSourceFilename j ;;
  let '(iExistSource, sStatSource) := r in
  iErr <- (if negb (truthy iExistSource) then
             puts (set_gszErr ("File " +:+ szSource +:+ " Not Found!")) ;;;
             ret ERROR_TCPY
           else ret 0) ;;
  r <- FilenameExist szDestFilename j ;;
  let '(iExistDest, sStatDest) := r in
  let sStatDest := zero_dest iExistDest sStatDest in
  r <- tcf_compare iErr sStatSource sStatDest szSourceFilename szDestFilename
         szSource szDest ;;
  let '(iErr, iSourceChecksum, iDestChecksum) := r in
  ret (iErr, iExistDest, sStatSource, sStatDest, iSourceChecksum, iDestChecksum).

(** Lines 515-716: everything up to and including the verification of
    the destination. *)
Definition tcf_copy_verify (szSourceFilename szDestFilename : string) : M Z :=
  let szSource := StringShortner szSourceFilename (LNSZ - 80) in
  let szDest := StringShortner szDestFilename (LNSZ - 80) in
  r <- tcf_probe szSourceFilename szDestFilename szSource szDest ;;
  let '(iErr, iExistDest, sStatSource, sStatDest,
        iSourceChecksum, iDestChecksum) := r in
  tcf_transfer iErr iExistDest sStatSource sStatDest iSourceChecksum
    iDestChecksum szSourceFilename szDestFilename szSource szDest.

Definition TimedCopyFile (iMode : Z) (szSourceFilename szDestFilename : string)
    : M Z :=
  let szSource := StringShortner szSourceFilename (LNSZ - 80) in
  let szDest := StringShortner szDestFilename (LNSZ - 80) in
  iErr <- tcf_copy_verify szSourceFilename szDestFilename ;;
  iErr <- tcf_delete_source iMode iErr szSourceFilename szSource szDest ;;
  tcf_bookkeeping iErr.

(* ===================================================================== *)
(** ** Level 3 (continued): TimedCopy *)
(* ===================================================================== *)

(** Lines 869-884: a directory name with its closing slash. *)
Definition with_slash (p : string) : string :=
  if Ascii.eqb (char_at p (String.length p - 1)%nat) slash then p
  else p +:+ "/".

(** Lines 857-902: what the loop of the copy pass does with one entry;
    [rec] is the recursive call of [TimedCopy] on a sub-directory. *)
Definition copy_entry (rec : string -> string -> M Z) (iMode : Z)
    (szSourceDir szDestDir : string) (de : dirent) : M Z :=
  if negb (String.eqb (d_name de) ".") && negb (String.eqb (d_name de) "..")
  then
    if strlen (d_name de) >? LNSZ then
      puts (set_gszErr ("Name " +:+ StringShortner (d_name de) (LNSZ - 40)
                        +:+ " Too Long!")) ;;;
      ret ERROR_TCPY
    else if Z.land (d_type de) DT_DIR =? DT_DIR then
      let pSzFilenameSource := with_slash (szSourceDir +:+ d_name de) in
      let pSzFilenameDest := with_slash (szDestDir +:+ d_name de) in
      iErr <- DirectoryValidate pSzFilenameDest None ;;
      if negb (truthy iErr)
      then rec pSzFilenameSource pSzFilenameDest
      else ret iErr
    else if Z.land (d_type de) DT_REG =? DT_REG then
      TimedCopyFile iMode (szSourceDir +:+ d_name de) (szDestDir +:+ d_name de)
    else ret 0
  else ret 0.

(** Lines 852-905: the loop over the entries of the source directory.
    [iErr] is 0 whenever an iteration starts. *)
Fixpoint copy_entries (rec : string -> string -> M Z) (iMode : Z)
    (szSourceDir szDestDir : string) (entries : list dirent) : M Z :=
  match entries with
  | [] => ret 0
  | de :: rest =>
      iErr <- copy_entry rec iMode szSourceDir szDestDir de ;;
      if negb (truthy iErr)
      then copy_entries rec iMode szSourceDir szDestDir rest
      else ret iErr
  end.

(** Lines 920-937: what the mirror cleanup does with one entry of the
    destination directory. *)
Definition mirror_entry (szSourceDir szDestDir : string) (de : dirent)
    : M unit :=
  if Z.land (d_type de) DT_REG =? DT_REG then
    let pSzFilenameSource := szSourceDir +:+ d_name de in
    let pSzFilenameDest := szDestDir +:+ d_name de in
    j <- get_env junk ;;
    r <- FilenameExist pSzFilenameSource j ;;
    if negb (truthy r.1) then
      let sz := StringShortner pSzFilenameDest (LNSZ - 30) in
      EchoPrint ("Delete " +:+ sz) ;;;
      t <- gets giTestRun ;;
      if negb (truthy t) then
        rc <- sys_unlink pSzFilenameDest ;;
        if truthy rc
        then printf (nl +:+ "WARNING: Failed to delete " +:+ sz +:+ nl)
        else ret tt
      else ret tt
    else ret tt
  else ret tt.

(** Lines 916-939: the loop of the mirror cleanup over the entries of
    the destination directory. *)
Fixpoint mirror_entries (szSourceDir szDestDir : string)
    (entries : list dirent) : M unit :=
  match entries with
  | [] => ret tt
  | de :: rest =>
      mirror_entry szSourceDir szDestDir de ;;;
      mirror_entries szSourceDir szDestDir rest
  end.

(** Lines 910-943. *)
Definition mirror_cleanup (iMode iErr : Z)
    (szSourceDir szSourceFile szDestDir : string) : M unit :=
  if negb (truthy iErr) && (iMode =? TCPY_MODE_MIRROR)
     && String.eqb szSourceFile ""
  then
    d <- sys_opendir szDestDir ;;
    match d with
    | Some entries => mirror_entries szSourceDir szDestDir entries
    | None => ret tt
    end
  else ret tt.

(** Lines 815-835: resolution of the two directories, the circular
    copy check and the recording of the guard. *)
Definition resolve_dirs (szSourceDir szDestDir : string) : M Z :=
  j <- get_env junk ;;
  r <- DirectoryExist szSourceDir j ;;
  let '(i, sStat) := r in
  g <- gets id ;;
  let iErr :=
    if truthy i then
      if (st_dev sStat =? giSt_dev g) && (st_ino sStat =? giSt_ino g)
      then ERROR_TCPY_CIRC else 0
    else ERROR_TCPY_USAGE in
  if negb (truthy iErr) then
    r <- DirectoryExist szDestDir sStat ;;
    let '(i, sStat) := r in
    if truthy i then
      g <- gets id ;;
      when (negb (truthy (giSt_dev g) || truthy (giSt_ino g)))
           (puts (set_giSt (st_dev sStat) (st_ino sStat))) ;;;
      ret 0
    else ret ERROR_TCPY_USAGE
  else ret iErr.

(** [fuel] bounds the depth of the recursion into sub-directories. *)
Fixpoint TimedCopy (fuel : nat) (iMode : Z)
    (szSourceDir szSourceFile szDestDir szDestFile : string) : M Z :=
  match fuel with
  | O => halt_with OutOfFuel
  | S fuel' =>
      pSzFilenameSource <- sys_malloc ;;
      pSzFilenameDest <- sys_malloc ;;
      if negb (pSzFilenameSource && pSzFilenameDest) then ret ERROR_TCPY_MEM
      else if negb (String.eqb szSourceDir szDestDir) then
        (* Different directories *)
        iErr <- resolve_dirs szSourceDir szDestDir ;;
        if negb (truthy iErr) then
          if negb (String.eqb szSourceFile "") then
            TimedCopyFile iMode (szSourceDir +:+ szSourceFile)
                                (szDestDir +:+ szDestFile)
          else
            d <- sys_opendir szSourceDir ;;
            iErr <- (match d with
                     | Some entries =>
                         copy_entries
                           (fun s d => TimedCopy fuel' iMode s "" d "")
                           iMode szSourceDir szDestDir entries
                     | None => ret 0
                     end) ;;
            mirror_cleanup iMode iErr szSourceDir szSourceFile szDestDir ;;;
            ret iErr
        else ret iErr
      else if negb (String.eqb szSourceFile "") then
        (* Same directory *)
        if negb (String.eqb szSourceFile szDestFile) then
          TimedCopyFile iMode (szSourceDir +:+ szSourceFile)
                              (szDestDir +:+ szDestFile)
        else
          puts (set_gszErr ("Can't copy the "
                            +:+ StringShortner szSourceFile (LNSZ - 60)
                            +:+ " file on itself!")) ;;;
          ret ERROR_TCPY
      else
        puts (set_gszErr ("Can't copy the "
                          +:+ StringShortner szSourceDir (LNSZ - 60)
                          +:+ " directory on itself!")) ;;;
        ret ERROR_TCPY
  end.

End Program.

(* ===================================================================== *)
(** ** Level 4: main *)
(* ===================================================================== *)

Definition set_giFaster (v : Z) (g : Globals) : Globals :=
  mkGlobals v (giFileCount g) (giPauseAfterVerif g) (giTestRun g) (gszErr g)
    (giNanoFastest g) (giNanoPrev g) (giCopyByteCount g) (giTotalByteCount g)
    (giSt_dev g) (giSt_ino g).
Definition set_giTestRun (v : Z) (g : Globals) : Globals :=
  mkGlobals (giFaster g) (giFileCount g) (giPauseAfterVerif g) v (gszErr g)
    (giNanoFastest g) (giNanoPrev g) (giCopyByteCount g) (giTotalByteCount g)
    (giSt_dev g) (giSt_ino g).

(** The variables the parameter loop sets: [iMode], and the two pairs
    of buffers [pSourceDir], [pSourceFile] and [pDestDir], [pDestFile]
    ([None]: the pointers are still NULL). *)
Record Parsed := mkParsed {
  p_iMode : Z;
  p_source : option (string * string);
  p_dest : option (string * string) }.

Definition parsed0 : Parsed := mkParsed TCPY_MODE_COPY None None.

Definition set_p_iMode (v : Z) (p : Parsed) : Parsed :=
  mkParsed v (p_source p) (p_dest p).
Definition set_p_source (v : string * string) (p : Parsed) : Parsed :=
  mkParsed (p_iMode p) (Some v) (p_dest p).
Definition set_p_dest (v : string * string) (p : Parsed) : Parsed :=
  mkParsed (p_iMode p) (p_source p) (Some v).

(** Lines 1188-1202: the directory part and the file part of a path
    name, cut after its last slash. *)
Definition split_path (pSz : string) : string * string :=
  let j := scan_back pSz (String.length pSz) in
  if Ascii.eqb (char_at pSz j) slash
  then (substr 0 (S j) pSz, substr (S j) (String.length pSz) pSz)
  else ("./", pSz).

(** Lines 1213-1222: a directory name with its closing slash. *)
Definition dir_name (p : string) : string :=
  match String.length p with
  | O => p
  | S j1 => if Ascii.eqb (char_at p j1) slash then p else p +:+ "/"
  end.

(** The two [malloc] calls of a pair of path buffers; [false] when one
    of them returned NULL. *)
Definition alloc_pair : M bool :=
  a <- sys_malloc ;;
  b <- sys_malloc ;;
  ret (a && b).

(** Lines 1179-1227: the source parameter.  The result is [iErr] and
    the variables afterwards.  With NULL for their second parameter,
    [FilenameExist] and [DirectoryExist] use a buffer of their own,
    which holds [junk] before the call. *)
Definition main_source (st : Parsed) (arg : string) : M (Z * Parsed) :=
  j <- get_env junk ;;
  r <- FilenameExist arg j ;;
  if truthy r.1 then
    ok <- alloc_pair ;;
    if negb ok then ret (ERROR_TCPY_MEM, st)
    else ret (0, set_p_source (split_path arg) st)
  else
    r <- DirectoryExist arg j ;;
    if truthy r.1 then
      ok <- alloc_pair ;;
      if negb ok then ret (ERROR_TCPY_MEM, st)
      else ret (0, set_p_source (dir_name arg, "") st)
    else ret (ERROR_TCPY_USAGE, st).

(** Lines 1075-1175: the destination parameter. *)
Definition main_dest (st : Parsed) (pSourceFile arg : string)
    : M (Z * Parsed) :=
  j <- get_env junk ;;
  r <- FilenameExist arg j ;;
  if truthy r.1 then
    if negb (String.eqb pSourceFile "") then
      ok <- alloc_pair ;;
      if negb ok then ret (ERROR_TCPY_MEM, st)
      else ret (0, set_p_dest (split_path arg) st)
    else ret (ERROR_TCPY_USAGE, st)
  else
    r <- DirectoryExist arg j ;;
    if truthy r.1 then
      ok <- alloc_pair ;;
      if negb ok then ret (ERROR_TCPY_MEM, st)
      else ret (0, set_p_dest (dir_name arg, "") st)
    else if Ascii.eqb (char_at arg 0) "-" then ret (ERROR_TCPY_USAGE, st)
    else
      ok <- alloc_pair ;;
      if negb ok then ret (ERROR_TCPY_MEM, st)
      else if negb (String.eqb pSourceFile "") then
        let j := scan_back arg (String.length arg) in
        if Ascii.eqb (char_at arg j) slash then
          let pDestDir := substr 0 (S j) arg in
          iErr <- DirectoryValidate pDestDir None ;;
          ret (iErr,
               set_p_dest (pDestDir, substr (S j) (String.length arg) arg) st)
        else ret (0, set_p_dest ("./", arg) st)
      else
        let pDestDir := dir_name arg in
        iErr <- DirectoryValidate pDestDir None ;;
        ret (iErr, set_p_dest (pDestDir, "") st).

(** Lines 1044-1228: what the parameter loop does with [argv[i]]. *)
Definition main_arg (st : Parsed) (arg : string) : M (Z * Parsed) :=
  if String.eqb arg "-del" then
    if truthy (p_iMode st) then ret (ERROR_TCPY_USAGE, st)
    else ret (0, set_p_iMode TCPY_MODE_DEL st)
  else if String.eqb arg "-mir" then
    if truthy (p_iMode st) then ret (ERROR_TCPY_USAGE, st)
    else ret (0, set_p_iMode TCPY_MODE_MIRROR st)
  else if String.eqb arg "-sync" then
    if truthy (p_iMode st) then ret (ERROR_TCPY_USAGE, st)
    else
      puts (set_gszErr "Not Yet Implemented!") ;;;
      ret (ERROR_TCPY, st)
  else if String.eqb arg "-f" then
    puts (set_giFaster 1) ;;; ret (0, st)
  else if String.eqb arg "-t" then
    puts (set_giTestRun 1) ;;; ret (0, st)
  else
    match p_source st with
    | Some (_, pSourceFile) => main_dest st pSourceFile arg
    | None => main_source st arg
    end.

(** Lines 1042-1229: the loop over [argv[1]], ..., [argv[argc - 1]];
    it stops at the first error. *)
Fixpoint main_args (st : Parsed) (args : list string) : M (Z * Parsed) :=
  match args with
  | [] => ret (0, st)
  | arg :: rest =>
      r <- main_arg st arg ;;
      if truthy r.1 then ret r else main_args r.2 rest
  end.

(** Lines 1231-1279: the checks after the loop, the default
    destination, and the copy. *)
Definition main_run (ulong_bits : Z) (fuel : nat) (iErr : Z) (st : Parsed)
    : M Z :=
  if truthy iErr then ret iErr
  else
    match p_source st with
    | None => ret ERROR_TCPY_USAGE
    | Some (pSourceDir, pSourceFile) =>
        if negb (String.eqb pSourceFile "") && (p_iMode st >? TCPY_MODE_DEL)
        then ret ERROR_TCPY_USAGE
        else
          r <- (match p_dest st with
                | Some d => ret (0, d)
                | None =>
                    ok <- alloc_pair ;;
                    if negb ok then ret (ERROR_TCPY_MEM, ("", ""))
                    else ret (0, ("./", ""))
                end) ;;
          let '(iErr, (pDestDir, pDestFile)) := r in
          if truthy iErr then ret iErr
          else
            let pDestFile :=
              if negb (String.eqb pSourceFile "") && String.eqb pDestFile ""
              then pSourceFile else pDestFile in
            gpBigBuffer <- sys_malloc ;;
            if negb gpBigBuffer then ret ERROR_TCPY_MEM
            else
              t <- gets giTestRun ;;
              when (truthy t) (printf (nl +:+ "*** TEST RUN ***" +:+ nl)) ;;;
              TimedCopy ulong_bits fuel (p_iMode st)
                pSourceDir pSourceFile pDestDir pDestFile
    end.

(** Lines 1282-1311: the line that ends the run. *)
Definition main_message (iErr : Z) (szErr : string) : string :=
  if iErr =? 0 then "Done!" +:+ nl
  else if iErr =? ERROR_TCPY then "ERROR: " +:+ szErr +:+ nl
  else if iErr =? ERROR_TCPY_USAGE then
    "USAGE: tcpy [-del|-mir] [-f] [-t]"
    +:+ " <src-file>|<src-dir> [<dest-file>|<dest-dir>]" +:+ nl
  else if iErr =? ERROR_TCPY_MEM then "ERROR: Out Of Memory!" +:+ nl
  else if iErr =? ERROR_TCPY_CIRC then
    "ERROR: Circular Directory Copy Atempted!" +:+ nl
  else if iErr =? ERROR_TCPY_STOP then "WARNING: Terminated by the user!" +:+ nl
  else "ERROR: Unexpected Code " +:+ fmt_d iErr +:+ nl.

(** Lines 993-1332.  [argv] holds [argc] strings, the program name
    first; the result is the exit status.  Two things the code does do
    not appear.  The calls that switch the terminal to unbuffered,
    unechoed input and back (lines 1018-1025 and 1326-1329) act on the
    modes of stdin, which the [World] does not carry: its [kbd] script
    is the keys as the program receives them.  The lengths computed for
    the path buffers (lines 1028-1036) bound no string here. *)
Definition main (ulong_bits : Z) (fuel : nat) (argv : list string) : M Z :=
  puts (set_gszErr "") ;;;
  let argc := Z.of_nat (length argv) in
  r <- (if (argc <? 2) || (argc >? 6) then ret (ERROR_TCPY_USAGE, parsed0)
        else main_args parsed0 (tail argv)) ;;
  iErr <- main_run ulong_bits fuel r.1 r.2 ;;
  EchoPrint "" ;;;
  szErr <- gets gszErr ;;
  printf (main_message iErr szErr) ;;;
  ret 0.

(* ===================================================================== *)
(** ** Predicates, specification-side definitions and sample worlds *)
(* ===================================================================== *)

(** The definitions below are not part of the program: they are the
    vocabulary of the properties proved afterwards, and the concrete
    worlds on which the properties are evaluated. *)

(** The successive reads of a file: full buffers, then a last one that
    is not empty. *)
Fixpoint wf_chunks (chunks : list (list Z)) : Prop :=
  match chunks with
  | [] => True
  | c :: rest =>
      match rest with
      | [] => (0 < length c <= Z.to_nat LNBIGBUFFER)%nat
      | _ => length c = Z.to_nat LNBIGBUFFER /\ wf_chunks rest
      end
  end.

(** The sample worlds run under the umask 022, and a text too long for
    [sz2] leaves zeros in the checksum variables. *)
Definition no_spill : string -> Z * Z := fun _ => (0, 0).

(** A world with nothing in it: the initial globals, an empty file
    system, a silent keyboard, no faults. *)
Definition env0 : Env := mkEnv ∅ [] [] [] 0 0 0 1 stat_zero 18 no_spill.
Definition world0 : World := mkWorld globals0 env0 [].

(** The world of the C4 evaluation: a destination file being written and
    a clock that advances by 5000 ns across the write. *)
Definition clock_world : World :=
  mkWorld globals0
    (mkEnv {[ "d" := mkInode 33188 1 7 0 0 [] ]} []
           [(0, 100, 0); (0, 100, 5000)] [] 0 0 0 8 stat_zero 18 no_spill)
    [].

Definition file_mutating (e : event) : bool :=
  match e with
  | ECreat _ _ | EWrite _ _ | EUnlink _ | EUtimens _ _ _ => true
  | _ => false
  end.

Definition mutating (e : event) : bool :=
  match e with
  | EMkdir _ _ => true
  | _ => file_mutating e
  end.

Definition event_path (e : event) : string :=
  match e with
  | EStat p | EOpen p | ECreat p _ | ERead p | EWrite p _ | EClose p
  | EUnlink p | EUtimens p _ _ | EMkdir p _ | EOpendir p => p
  | _ => ""
  end.

(** The circular-copy guard has been recorded. *)
Definition guard_set (g : Globals) : Prop :=
  truthy (giSt_dev g) || truthy (giSt_ino g) = true.

(** The two throttle globals are consistent. *)
Definition throttle_ok (g : Globals) : Prop :=
  0 <= giNanoFastest g <= giNanoPrev g /\ giNanoPrev g < 2 ^ 64
  /\ (giNanoFastest g = 0 -> giNanoPrev g = 0).

(** [f'] is [f] with, at most, some new directories. *)
Definition fs_dirs_only (f f' : gmap string inode) : Prop :=
  (forall k n, f !! k = Some n -> f' !! k = Some n)
  /\ (forall k n, f' !! k = Some n -> f !! k = None -> is_dir n = true).

(** An event the program may issue: a mutating call only on a path in
    [P], a file-mutating call only outside a test run. *)
Definition ev_ok (P : string -> Prop) (t : Z) (e : event) : Prop :=
  (mutating e = true -> P (event_path e))
  /\ (file_mutating e = true -> t = 0).

(** [evolves P w w']: [w'] is reached from [w] by a piece of the
    program that mutates the file system only on the paths in [P]. *)
Record evolves (P : string -> Prop) (w w' : World) : Prop := mkEvolves {
  ev_trace : exists evs, trace w' = trace w ++ evs
                         /\ Forall (ev_ok P (giTestRun (glob w))) evs;
  ev_flags : giTestRun (glob w') = giTestRun (glob w)
             /\ giFaster (glob w') = giFaster (glob w);
  ev_guard : guard_set (glob w) ->
             giSt_dev (glob w') = giSt_dev (glob w)
             /\ giSt_ino (glob w') = giSt_ino (glob w);
  ev_throttle : throttle_ok (glob w) -> throttle_ok (glob w');
  ev_frame : forall k, (forall p, P p -> canon p <> k) ->
             fs (env w') !! k = fs (env w) !! k;
  ev_dry : giTestRun (glob w) <> 0 -> fs_dirs_only (fs (env w)) (fs (env w'))
}.

(** A state in the middle of a run: the previous write took 9000 ns for
    a full buffer, the fastest one 4000 ns. *)
Definition throttle_world : World :=
  upd_glob (fun g => set_giNanoFastest 4000 (set_giNanoPrev 9000 g)) clock_world.

Definition dirnode (ino : Z) : inode := mkInode 16877 1 ino 100 0 [].
Definition filenode (ino sec nsec : Z) (data : list Z) : inode :=
  mkInode 33188 1 ino sec nsec data.

(** A source tree with one sub-directory, an empty destination, and the
    test-run flag set. *)
Definition dry_fs : gmap string inode :=
  list_to_map [ ("src", dirnode 3); ("src/sub", dirnode 4);
                ("src/sub/x", filenode 5 70 0 [9]); ("dst", dirnode 6) ].

Definition dry_world : World :=
  mkWorld (mkGlobals 0 0 0 1 "" 0 0 0 0 0 0)
          (mkEnv dry_fs [] [] [] 0 1000 0 100 stat_zero 18 no_spill) [].

(** Directory [a] holds a file and the directory [a/b]; [a] is copied
    into [a/b]. *)
Definition circ_fs : gmap string inode :=
  list_to_map [ ("a", dirnode 10); ("a/b", dirnode 11);
                ("a/f", filenode 12 5 0 [1]) ].

Definition circ_world : World :=
  mkWorld globals0 (mkEnv circ_fs [] [] [] 0 1000 0 100 stat_zero 18 no_spill) [].

(** The world of [circ_world] once the guard holds the identity of [a/b]. *)
Definition guarded_world : World := upd_glob (set_giSt 1 11) circ_world.

(** A file to move into an empty destination directory. *)
Definition move_fs : gmap string inode :=
  list_to_map [ ("src", dirnode 3); ("src/a", filenode 5 50 7 [1; 2; 3]);
                ("dst", dirnode 6) ].

Definition move_world : World :=
  mkWorld globals0 (mkEnv move_fs [] [] [] 0 1000 0 100 stat_zero 18 no_spill) [].

(** The world after the two [stat] calls of the probe. *)
Definition probed (w : World) (src dst : string) : World :=
  mkWorld (glob w) (set_errno ENOENT (env w))
          (trace w ++ [EStat src; EStat dst]).

(** An empty source file stamped (0 s, 0 ns), to be moved to a
    destination that does not exist. *)
Definition epoch_fs : gmap string inode :=
  list_to_map [ ("src", dirnode 3); ("src/e", filenode 5 0 0 []);
                ("dst", dirnode 6) ].

Definition epoch_world : World :=
  mkWorld globals0 (mkEnv epoch_fs [] [] [] 0 1000 0 100 stat_zero 18 no_spill) [].

(** The words the specification asks of the deletion log line: one per
    mismatched dimension, in the order size, seconds, nanoseconds,
    checksum. *)
Definition diff_words (sStatSource sStatDest : stat)
    (iSourceChecksum iDestChecksum : Z) : list string :=
  (if negb (st_size sStatSource =? st_size sStatDest)
   then [" " +:+ fmt_d (st_size sStatDest - st_size sStatSource) +:+ " bytes"]
   else [])
  ++ (if negb (st_mtim_sec sStatSource =? st_mtim_sec sStatDest)
      then [" sec"] else [])
  ++ (if negb (st_mtim_nsec sStatSource =? st_mtim_nsec sStatDest)
      then [" nsec"] else [])
  ++ (if negb (iSourceChecksum =? iDestChecksum) then [" chk"] else []).

(** A destination one byte shorter than its source, same times. *)
Definition stale_fs : gmap string inode :=
  list_to_map [ ("src", dirnode 3); ("src/a", filenode 5 50 7 [1; 2; 3]);
                ("dst", dirnode 6); ("dst/a", filenode 7 50 7 [1; 2]) ].

Definition stale_world : World :=
  mkWorld globals0 (mkEnv stale_fs [] [] [] 0 1000 0 100 stat_zero 18 no_spill) [].

(** [f'] is [f] without some of its objects. *)
Definition shrinks (f f' : gmap string inode) : Prop :=
  forall k, f' !! k = f !! k \/ f' !! k = None.

(** No regular file answers to the path [p] ([FilenameExist] is 0). *)
Definition no_regular (f : gmap string inode) (p : string) : Prop :=
  forall ns, resolve f p = inr ns -> Z.land (i_mode ns) S_IFREG = 0.

(** The path [p] names nothing, or an object [unlink] can remove. *)
Definition removable (f : gmap string inode) (p : string) : Prop :=
  f !! canon p = None
  \/ exists nd, resolve f p = inr nd /\ is_dir nd = false.

(** Source [{a, b}], destination [{a, b, c}], same content for [a], [b]. *)
Definition mirror_fs : gmap string inode :=
  list_to_map [ ("src", dirnode 3); ("src/a", filenode 5 50 7 [1; 2; 3]);
                ("src/b", filenode 6 60 7 [4; 5]); ("dst", dirnode 7);
                ("dst/a", filenode 8 50 7 [1; 2; 3]);
                ("dst/b", filenode 9 60 7 [4; 5]);
                ("dst/c", filenode 10 70 7 [6]) ].

Definition mirror_world : World :=
  mkWorld globals0 (mkEnv mirror_fs [] [] [] 0 1000 0 100 stat_zero 18 no_spill) [].

(** *** Vocabulary of the further properties *)

(** A string as the list of its characters. *)
Abbreviation chars := String.list_ascii_of_string.

(** The half-length [StringShortner] keeps on each side of the dots. *)
Definition kept (i iMax : Z) : Z :=
  Z.quot (if i <=? iMax + 5 then iMax - 5 else iMax) 2.

(** A name of 150 characters. *)
Definition long_name (c : ascii) : string :=
  String.string_of_list_ascii (repeat c 150).

(** The keys [KeyboardCheck] knows: space, p, P toggle the pause; ESC,
    q, Q stop the run; v, V ask for a pause after the current file. *)
Definition pause_key (c : Z) : bool := is_key c [32; 112; 80].
Definition quit_key (c : Z) : bool := is_key c [27; 113; 81].
Definition verif_key (c : Z) : bool := is_key c [118; 86].

(** The poll read a key of the kind [k]. *)
Definition poll_is (k : Z -> bool) (poll : option Z) : bool :=
  match poll with Some c => k c | None => false end.

(** The pause state after a sequence of polls: each pause key toggles it. *)
Fixpoint paused_after (read : list (option Z)) (p : bool) : bool :=
  match read with
  | [] => p
  | poll :: rest => paused_after rest (if poll_is pause_key poll then negb p else p)
  end.

(** [world0] with the polls [script] to come. *)
Definition kbd_world (script : list (option Z)) : World :=
  upd_env (set_kbd script) world0.

(** What [KeyboardCheck], paused at first or not ([p]), has done when it
    returns [e] after the polls [read]. *)
Definition KC_post (p : bool) (read : list (option Z)) (e : Z)
    (g g' : Globals) : Prop :=
  ((e = 0 /\ paused_after read p = false
    /\ Forall (fun k => poll_is quit_key k = false) read)
   \/ (e = ERROR_TCPY_STOP
       /\ exists pre c, read = pre ++ [Some c] /\ quit_key c = true
                        /\ Forall (fun k => poll_is quit_key k = false) pre))
  /\ g' = (if existsb (poll_is verif_key) read
           then set_giPauseAfterVerif 1 g else g).

(** No call is made to fail and no key is ever pressed. *)
Definition quiet (w : World) : Prop :=
  flt (env w) = [] /\ kbd (env w) = [].

(** What the transfer of one file leaves alone: the fault and keyboard
    scripts, the stack contents, the time stamps given to new files and
    the three flags. *)
Definition steady (w w' : World) : Prop :=
  flt (env w') = flt (env w) /\ kbd (env w') = kbd (env w)
  /\ junk (env w') = junk (env w)
  /\ now_sec (env w') = now_sec (env w) /\ now_nsec (env w') = now_nsec (env w)
  /\ giTestRun (glob w') = giTestRun (glob w)
  /\ giFaster (glob w') = giFaster (glob w)
  /\ giPauseAfterVerif (glob w') = giPauseAfterVerif (glob w).

(** The regular file [TimedCopyFile] creates in the environment [e] for
    the source [n] in the directory [d]: the bytes and the modification
    time of the source, and the permission bits of the source that the
    umask lets through. *)
Definition copy_of (e : Env) (n d : inode) : inode :=
  mkInode (Z.lor S_IFREG (new_mode e (i_mode n))) (i_dev d) (next_ino e)
          (i_mtim_sec n) (i_mtim_nsec n) (i_data n).

(** The two lines of [TimedCopyFile] that hold both names. *)
Definition verify_line (src dst : string) : string :=
  "Verify " +:+ StringShortner src (LNSZ - 80) +:+ " to "
  +:+ StringShortner dst (LNSZ - 80).
Definition copy_line (src dst : string) : string :=
  "Copy " +:+ StringShortner src (LNSZ - 80) +:+ " to "
  +:+ StringShortner dst (LNSZ - 80).

(** The names are short enough for the line to fit the [LNSZ]
    characters of [sz2], final NUL included. *)
Definition copy_fits (src dst : string) : Prop :=
  strlen (copy_line src dst) < LNSZ.
Definition names_fit (src dst : string) : Prop :=
  strlen (verify_line src dst) < LNSZ.

(** The destination [nd] is not an up-to-date copy of the source [n]. *)
Definition stale (bits : Z) (n nd : inode) : Prop :=
  length (i_data n) <> length (i_data nd)
  \/ i_mtim_sec n <> i_mtim_sec nd
  \/ i_mtim_nsec n <> i_mtim_nsec nd
  \/ ChecksumAdd bits (i_data n) 0 <> ChecksumAdd bits (i_data nd) 0.

(** Whether the probe computes the two checksums. *)
Definition compared (n nd : inode) : bool :=
  truthy (st_size (stat_of n)) && truthy (st_size (stat_of nd))
  && (st_size (stat_of n) =? st_size (stat_of nd)).

(** The world after a [read] that failed with [en], followed by the
    keyboard poll. *)
Definition after_failed_read (src : string) (en : Z) (rest : list fault)
    (w : World) : World :=
  add_event ESelect
    (upd_env (set_errno en) (upd_env (set_flt rest) (add_event (ERead src) w))).

(** [move_world] when the first [read] of the source fails with EIO. *)
Definition read_error_world : World :=
  upd_env (set_flt [NoFault; NoFault; NoFault; NoFault; Fail 5]) move_world.

(** The fault makes a [write] of [len] bytes transfer fewer bytes, or
    none. *)
Definition write_cut (f : fault) (len : nat) : Prop :=
  match f with
  | NoFault => False
  | Fail _ => True
  | Short k => (Z.to_nat k < len)%nat
  end.

(** [move_world] when the first [write] to the destination stores two
    bytes only. *)
Definition short_write_world : World :=
  upd_env (set_flt [NoFault; NoFault; NoFault; NoFault; NoFault; Short 2])
    move_world.

(** [move_world] when [opendir] on the source directory fails with
    EACCES. *)
Definition unreadable_world : World :=
  upd_env (set_flt [NoFault; NoFault; NoFault; NoFault; Fail 13]) move_world.

(** [w'] is reached from [w] by calls that create, write, delete and
    retime no file: existing objects are as they were, anything new is
    a directory, and a flag (test run, faster) that was set is still
    set. *)
Record grows (w w' : World) : Prop := mkGrows {
  gr_trace : exists evs, trace w' = trace w ++ evs
                         /\ Forall (fun e => file_mutating e = false) evs;
  gr_fs : fs_dirs_only (fs (env w)) (fs (env w'));
  gr_run : giTestRun (glob w) <> 0 -> giTestRun (glob w') <> 0;
  gr_fast : giFaster (glob w) <> 0 -> giFaster (glob w') <> 0
}.

(** The run [r], started in [w], returns; the world it leaves is
    reached by [grows] and satisfies [Q] with the value returned. *)
Definition holds {A} (w : World) (r : Res A) (Q : A -> World -> Prop) : Prop :=
  match r with
  | Ret a w' => grows w w' /\ Q a w'
  | Halt _ _ => False
  end.

(** The postcondition of [DirectoryValidate] on [path]. *)
Definition validated (path : string) (e : Z) (w' : World) : Prop :=
  (e = 0 \/ e = ERROR_TCPY \/ e = ERROR_TCPY_MEM)
  /\ (e = 0 -> path <> "" -> path <> "/" ->
      exists n, resolve (fs (env w')) path = inr n
                /\ Z.land (i_mode n) S_IFDIR <> 0).

(** The parameters that choose a mode. *)
Definition mode_flag (arg : string) : bool :=
  String.eqb arg "-del" || String.eqb arg "-mir" || String.eqb arg "-sync".

(** The parameters that start with a dash and are known. *)
Definition option_flag (arg : string) : bool :=
  mode_flag arg || String.eqb arg "-f" || String.eqb arg "-t".

(** What the parameter loop guarantees when it ends in [r] and [w']. *)
Definition parsed_ok (st : Parsed) (args : list string) (w : World)
    (r : Z * Parsed) (w' : World) : Prop :=
  (r.1 = 0 \/ r.1 = ERROR_TCPY \/ r.1 = ERROR_TCPY_USAGE \/ r.1 = ERROR_TCPY_MEM)
  /\ (r.1 = 0 ->
      (List.filter mode_flag args = [] /\ p_iMode r.2 = p_iMode st)
      \/ (p_iMode st = 0
          /\ (List.filter mode_flag args = ["-del"] /\ p_iMode r.2 = TCPY_MODE_DEL
              \/ List.filter mode_flag args = ["-mir"]
                 /\ p_iMode r.2 = TCPY_MODE_MIRROR)))
  /\ (r.1 = 0 -> In "-t" args -> giTestRun (glob w') <> 0)
  /\ (r.1 = 0 -> In "-f" args -> giFaster (glob w') <> 0)
  /\ (r.1 = 0 -> forallb option_flag args = true -> p_source r.2 = p_source st).

(** What the parameter loop guarantees for one parameter. *)
Definition arg_ok (st : Parsed) (arg : string) (r : Z * Parsed) (w' : World)
    : Prop :=
  (r.1 = 0 \/ r.1 = ERROR_TCPY \/ r.1 = ERROR_TCPY_USAGE \/ r.1 = ERROR_TCPY_MEM)
  /\ (r.1 = 0 ->
      if mode_flag arg
      then p_iMode st = 0
           /\ (arg = "-del" /\ p_iMode r.2 = TCPY_MODE_DEL
               \/ arg = "-mir" /\ p_iMode r.2 = TCPY_MODE_MIRROR)
      else p_iMode r.2 = p_iMode st)
  /\ (r.1 = 0 -> arg = "-t" -> giTestRun (glob w') <> 0)
  /\ (r.1 = 0 -> arg = "-f" -> giFaster (glob w') <> 0)
  /\ (r.1 = 0 -> option_flag arg = true -> p_source r.2 = p_source st).

(** A positional parameter leaves the mode as it is. *)
Definition positional_ok (st : Parsed) (r : Z * Parsed) : Prop :=
  (r.1 = 0 \/ r.1 = ERROR_TCPY \/ r.1 = ERROR_TCPY_USAGE \/ r.1 = ERROR_TCPY_MEM)
  /\ p_iMode r.2 = p_iMode st.

(** The name holds no slash. *)
Definition no_slash (s : string) : bool :=
  forallb (fun c => negb (Ascii.eqb c slash)) (chars s).

(** The name [p] is [d] followed by something. *)
Definition starts_with (d p : string) : Prop := exists rest, p = d +:+ rest.

(** [w'] is reached from [w] by calls that create, write, delete or
    retime a file only under a name in [Q]. *)
Definition confined (Q : string -> Prop) (w w' : World) : Prop :=
  exists evs, trace w' = trace w ++ evs
    /\ Forall (fun e => file_mutating e = true -> Q (event_path e)) evs.

(** The names a run of [TimedCopy] may create, write, delete or retime:
    those under the destination directory and, in Move mode, those
    under the source directory. *)
Definition copy_area (iMode : Z) (sdir ddir : string) (p : string) : Prop :=
  starts_with ddir p \/ (iMode = TCPY_MODE_DEL /\ starts_with sdir p).

(** A source directory that holds a socket. *)
Definition special_fs : gmap string inode :=
  list_to_map [ ("src", dirnode 3); ("src/s", mkInode 49645 1 5 50 7 []);
                ("dst", dirnode 6) ].

Definition special_world : World :=
  mkWorld globals0 (mkEnv special_fs [] [] [] 0 1000 0 100 stat_zero 18 no_spill) [].

(** A destination with the size and the modification time of its
    source, and other bytes. *)
Definition twin_fs : gmap string inode :=
  list_to_map [ ("src", dirnode 3); ("src/a", filenode 5 50 7 [1; 2; 3]);
                ("dst", dirnode 6); ("dst/a", filenode 7 50 7 [1; 2; 4]) ].

Definition twin_world : World :=
  mkWorld globals0 (mkEnv twin_fs [] [] [] 0 1000 0 100 stat_zero 18 no_spill) [].

(** The same in a test run. *)
Definition dry_twin_world : World := upd_glob (set_giTestRun 1) twin_world.

(** Source and destination agree on size and modification time and,
    when [chk] is set, on the checksum of their bytes. *)
Definition agree (bits : Z) (chk : bool) (n nd : inode) : Prop :=
  length (i_data n) = length (i_data nd)
  /\ i_mtim_sec n = i_mtim_sec nd
  /\ i_mtim_nsec n = i_mtim_nsec nd
  /\ (chk = true ->
      ChecksumAdd bits (i_data n) 0 = ChecksumAdd bits (i_data nd) 0).

(** A file to copy under two names of 150 characters, when the text
    that overruns [sz2] leaves 0x6161616161 in [iSourceChecksum]. *)
Definition long_fs : gmap string inode :=
  list_to_map [ (".", dirnode 3);
                (long_name "a", filenode 5 50 7 [1; 2; 3]) ].

Definition long_world : World :=
  mkWorld globals0
    (mkEnv long_fs [] [] [] 0 1000 0 100 stat_zero 18
       (fun _ => (0x6161616161, 0))) [].

(** The world of [move_world] with a source file of mode 0666, under
    the umask 022. *)
Definition open_fs : gmap string inode :=
  list_to_map [ ("src", dirnode 3); ("src/a", mkInode 33206 1 5 50 7 [1; 2; 3]);
                ("dst", dirnode 6) ].

Definition open_world : World :=
  mkWorld globals0 (mkEnv open_fs [] [] [] 0 1000 0 100 stat_zero 18 no_spill) [].

(** [move_world] when the user presses ESC during the copy. *)
Definition quit_world : World := upd_env (set_kbd [Some 27]) move_world.

(* ===================================================================== *)
(** * Properties *)
(* ===================================================================== *)

(* ===================================================================== *)
(** ** The checksum *)
(* ===================================================================== *)

Lemma land_pow2_31 c : Z.land c 0x80000000 = if Z.testbit c 31 then 0x80000000 else 0.
Proof.
  apply Z.bits_inj'. intros n Hn.
  rewrite Z.land_spec.
  change 0x80000000 with (2 ^ 31).
  rewrite Z.pow2_bits_eqb by lia.
  destruct (Z.testbit c 31) eqn:E.
  - rewrite Z.pow2_bits_eqb by lia. destruct (Z.eqb_spec 31 n) as [<-|]; [rewrite E|]; simpl; auto using andb_false_r.
  - rewrite Z.bits_0. destruct (Z.eqb_spec 31 n) as [<-|]; [rewrite E|]; simpl; auto using andb_false_r.
Qed.

Lemma xor_byte_range c b : 0 <= c < 2 ^ 32 -> 0 <= Z.lxor c (Z.land b 255) < 2 ^ 32.
Proof.
  intros Hc.
  assert (Hm : 0 <= Z.land b 255 < 256).
  { change 255 with (Z.ones 8). rewrite Z.land_ones by lia. apply Z.mod_pos_bound. lia. }
  assert (H0 : 0 <= Z.lxor c (Z.land b 255)) by (apply Z.lxor_nonneg; lia).
  split; [exact H0|].
  destruct (Z.eq_dec (Z.lxor c (Z.land b 255)) 0) as [->|Hne]; [lia|].
  apply Z.log2_lt_pow2; [lia|].
  pose proof (Z.log2_lxor c (Z.land b 255) ltac:(lia) ltac:(lia)) as Hl.
  assert (Z.log2 c < 32).
  { destruct (Z.eq_dec c 0) as [->|]; [simpl; lia|]. apply Z.log2_lt_pow2; lia. }
  assert (Z.log2 (Z.land b 255) < 32).
  { destruct (Z.eq_dec (Z.land b 255) 0) as [->|]; [simpl; lia|]. apply Z.log2_lt_pow2; lia. }
  lia.
Qed.

Lemma xor_byte_bit31 c b : Z.testbit (Z.lxor c (Z.land b 255)) 31 = Z.testbit c 31.
Proof.
  rewrite Z.lxor_spec, Z.land_spec.
  change 255 with (Z.ones 8). rewrite (Z.ones_spec_high 8 31) by lia.
  rewrite andb_false_r. apply xorb_false_r.
Qed.

Lemma shiftr31_bit x : 0 <= x < 2 ^ 32 -> Z.shiftr x 31 = if Z.testbit x 31 then 1 else 0.
Proof.
  intros Hx. rewrite Z.shiftr_div_pow2 by lia.
  destruct (Z.testbit x 31) eqn:E.
  - apply Z.testbit_true in E; [|lia].
    assert (0 <= x / 2 ^ 31 < 2) by (split; [apply Z.div_pos; lia | apply Z.div_lt_upper_bound; lia]).
    rewrite Z.mod_small in E; lia.
  - apply Z.testbit_false in E; [|lia].
    assert (0 <= x / 2 ^ 31 < 2) by (split; [apply Z.div_pos; lia | apply Z.div_lt_upper_bound; lia]).
    rewrite Z.mod_small in E; lia.
Qed.

Lemma lor_even_1 y : Z.lor (2 * y) 1 = 2 * y + 1.
Proof.
  assert (H : Z.land (2 * y) 1 = 0).
  { change 1 with (Z.ones 1). rewrite Z.land_ones by lia.
    change (2 ^ 1) with 2. rewrite Z.mul_comm. apply Z.mod_mul. lia. }
  rewrite <- (Z.lxor_lor _ _ H). symmetry. apply Z.add_nocarry_lxor. exact H.
Qed.

Lemma ChecksumAdd_byte_32 c b :
  0 <= c < 2 ^ 32 ->
  ChecksumAdd_byte 32 c b = spec_checksum_byte c b /\ 0 <= ChecksumAdd_byte 32 c b < 2 ^ 32.
Proof.
  intros Hc. unfold ChecksumAdd_byte, spec_checksum_byte, rotl32, wrap, truthy.
  pose proof (xor_byte_range c b Hc) as Hx.
  rewrite (shiftr31_bit _ Hx), xor_byte_bit31, land_pow2_31.
  change (Z.land b 0xFF) with (Z.land b 255).
  set (x := Z.lxor c (Z.land b 255)) in *.
  assert (He : Z.shiftl x 1 mod 2 ^ 32 = 2 * (x mod 2 ^ 31)).
  { rewrite Z.shiftl_mul_pow2 by lia. change (2 ^ 32) with (2 * 2 ^ 31).
    rewrite Z.mul_comm. change (2^1) with 2. rewrite Zmult_mod_distr_l. reflexivity. }
  pose proof (Z.mod_pos_bound x (2^31) ltac:(lia)).
  rewrite He.
  destruct (Z.testbit c 31); simpl.
  - split; [reflexivity|]. rewrite lor_even_1. lia.
  - rewrite Z.lor_0_r. split; [reflexivity| lia].
Qed.

Lemma ChecksumAdd_32_spec buf : forall c, 0 <= c < 2 ^ 32 ->
  ChecksumAdd 32 buf c = fold_left spec_checksum_byte buf c /\ 0 <= ChecksumAdd 32 buf c < 2 ^ 32.
Proof.
  induction buf as [|b buf IH]; intros c Hc; simpl; [auto|].
  destruct (ChecksumAdd_byte_32 c b Hc) as [E R].
  rewrite <- E. apply IH. exact R.
Qed.

Lemma ChecksumAdd_app bits B1 : forall B2 c,
  ChecksumAdd bits (B1 ++ B2) c = ChecksumAdd bits B2 (ChecksumAdd bits B1 c).
Proof. induction B1; intros; simpl; auto. Qed.

Lemma land_lxor_distr a b o :
  Z.land (Z.lxor a b) o = Z.lxor (Z.land a o) (Z.land b o).
Proof.
  apply Z.bits_inj'. intros n Hn.
  rewrite Z.land_spec, !Z.lxor_spec, !Z.land_spec.
  destruct (Z.testbit a n), (Z.testbit b n), (Z.testbit o n); reflexivity.
Qed.

(** On a target whose [unsigned long] is wider than 32 bits the low 32
    bits of the state are still the rotating 32-bit word. *)
Lemma ChecksumAdd_byte_low32 bits c b :
  32 <= bits -> 0 <= c ->
  ChecksumAdd_byte bits c b mod 2 ^ 32 = spec_checksum_byte (c mod 2 ^ 32) b
  /\ 0 <= ChecksumAdd_byte bits c b.
Proof.
  intros Hb Hc.
  assert (Hm : 0 <= Z.land b 255 < 256).
  { change 255 with (Z.ones 8). rewrite Z.land_ones by lia. apply Z.mod_pos_bound. lia. }
  assert (Hc32 : 0 <= c mod 2 ^ 32 < 2 ^ 32) by (apply Z.mod_pos_bound; lia).
  unfold ChecksumAdd_byte, spec_checksum_byte, rotl32, wrap, truthy.
  pose proof (xor_byte_range (c mod 2 ^ 32) b Hc32) as Hx'.
  rewrite (shiftr31_bit _ Hx'), xor_byte_bit31, land_pow2_31.
  change (Z.land b 0xFF) with (Z.land b 255).
  assert (Hbit : Z.testbit (c mod 2 ^ 32) 31 = Z.testbit c 31)
    by (apply Z.mod_pow2_bits_low; lia).
  rewrite Hbit.
  set (x := Z.lxor c (Z.land b 255)).
  assert (Hx0 : 0 <= x) by (apply Z.lxor_nonneg; lia).
  assert (Hxm : Z.lxor (c mod 2 ^ 32) (Z.land b 255) = x mod 2 ^ 32).
  { unfold x. rewrite <- !Z.land_ones by lia. rewrite land_lxor_distr.
    f_equal. rewrite Z.land_ones by lia. symmetry. apply Z.mod_small. lia. }
  rewrite Hxm.
  assert (Hdiv : (2 ^ 32 | 2 ^ bits)).
  { exists (2 ^ (bits - 32)). rewrite <- Z.pow_add_r by lia. f_equal. lia. }
  assert (Hpos : 0 < 2 ^ bits) by (apply Z.pow_pos_nonneg; lia).
  assert (He : forall y, Z.shiftl y 1 mod 2 ^ 32 = 2 * (y mod 2 ^ 31)).
  { intros y. rewrite Z.shiftl_mul_pow2 by lia. change (2 ^ 32) with (2 * 2 ^ 31).
    rewrite Z.mul_comm. change (2^1) with 2. rewrite Zmult_mod_distr_l. reflexivity. }
  assert (Hlow : (Z.shiftl x 1 mod 2 ^ bits) mod 2 ^ 32 = 2 * (x mod 2 ^ 31)).
  { rewrite Z.mod_mod_divide by exact Hdiv. apply He. }
  assert (Hx31 : (x mod 2 ^ 32) mod 2 ^ 31 = x mod 2 ^ 31).
  { apply Z.mod_mod_divide. exists 2. reflexivity. }
  rewrite He, Hx31.
  pose proof (Z.mod_pos_bound x (2 ^ 31) ltac:(lia)) as Hr.
  pose proof (Z.mod_pos_bound (Z.shiftl x 1) (2 ^ bits) Hpos) as Hr2.
  assert (Heven : Z.shiftl x 1 mod 2 ^ bits = 2 * (x mod 2 ^ (bits - 1))).
  { rewrite Z.shiftl_mul_pow2 by lia. replace (2 ^ bits) with (2 * 2 ^ (bits - 1)).
    2:{ rewrite <- Z.pow_succ_r by lia. f_equal. lia. }
    rewrite Z.mul_comm. change (2^1) with 2. rewrite Zmult_mod_distr_l. reflexivity. }
  destruct (Z.testbit c 31); simpl.
  - rewrite lor_even_1. rewrite Heven, lor_even_1. rewrite <- Heven.
    split; [|lia].
    rewrite Z.add_mod by lia. rewrite Hlow.
    rewrite (Z.mod_small 1) by lia. apply Z.mod_small. lia.
  - rewrite Z.lor_0_r. split; [exact Hlow | lia].
Qed.

Lemma chunks_of_spec fuel n : forall data,
  (0 < n)%nat -> (length data <= fuel)%nat ->
  concat (chunks_of fuel n data) = data
  /\ (n = Z.to_nat LNBIGBUFFER -> wf_chunks (chunks_of fuel n data)).
Proof.
  induction fuel as [|fuel IH]; intros data Hn Hl.
  - destruct data; [|simpl in Hl; lia]. simpl. auto.
  - destruct data as [|x data]; [simpl; auto|].
    cbn [chunks_of].
    assert (Hd : (length (drop n (x :: data)) <= fuel)%nat).
    { rewrite length_drop. simpl in *. lia. }
    destruct (IH (drop n (x :: data)) Hn Hd) as [Hc Hw].
    split.
    + cbn [concat]. rewrite Hc. apply take_drop.
    + intros ->. specialize (Hw eq_refl). cbn [wf_chunks].
      destruct (chunks_of fuel (Z.to_nat LNBIGBUFFER) (drop (Z.to_nat LNBIGBUFFER) (x :: data))) as [|c2 r2] eqn:E.
      * rewrite length_take. simpl length. lia.
      * split; [|exact Hw].
        rewrite length_take.
        destruct (Nat.le_gt_cases (Z.to_nat LNBIGBUFFER) (length (x :: data))) as [Hle|Hgt]; [lia|].
        exfalso. rewrite drop_ge in E by lia.
        destruct fuel; discriminate.
Qed.

Lemma checksum_iter_quiet bits p chunk c w :
  flt (env w) = [] -> kbd (env w) = [] ->
  checksum_iter bits p chunk c w
  = Ret ((Z.of_nat (length chunk) =? LNBIGBUFFER) && true, 0,
         if Z.of_nat (length chunk) >? 0 then ChecksumAdd bits chunk c else c)
        (add_event ESelect (add_event (ERead p) w)).
Proof.
  intros Hf Hk.
  unfold checksum_iter, sys_read, pop_fault, KeyboardCheck, bind, emit, when,
    get_env, ret.
  cbn. rewrite Hf. cbn. rewrite Hk. cbn. reflexivity.
Qed.

Lemma checksum_loop_whole bits p chunks : forall c w,
  flt (env w) = [] -> kbd (env w) = [] -> wf_chunks chunks ->
  exists w',
    checksum_loop bits p chunks c w
    = Ret (0, ChecksumAdd bits (concat chunks) c) w'
    /\ flt (env w') = [] /\ kbd (env w') = []
    /\ fs (env w') = fs (env w).
Proof.
  induction chunks as [|chunk rest IH]; intros c w Hf Hk Hw;
    cbn [checksum_loop]; unfold bind; rewrite checksum_iter_quiet by assumption.
  - cbn. eexists. split; [reflexivity|]. auto.
  - assert (Hpos : (0 < length chunk)%nat).
    { cbn [wf_chunks] in Hw. destruct rest; [lia|]. destruct Hw as [Hl _].
      rewrite Hl. unfold LNBIGBUFFER. lia. }
    assert (Hgt : (Z.of_nat (length chunk) >? 0) = true)
      by (apply Z.gtb_lt; lia).
    rewrite Hgt. cbn [concat]. rewrite ChecksumAdd_app.
    destruct (Z.eqb_spec (Z.of_nat (length chunk)) LNBIGBUFFER) as [Hfull|Hpart];
      cbn [andb].
    + assert (Hw' : wf_chunks rest).
      { cbn [wf_chunks] in Hw. destruct rest; [exact I | tauto]. }
      destruct (IH (ChecksumAdd bits chunk c)
                  (add_event ESelect (add_event (ERead p) w)) Hf Hk Hw')
        as (w' & E & A & B & C).
      exists w'. split; [exact E|]. auto.
    + assert (rest = []).
      { cbn [wf_chunks] in Hw. destruct rest; [reflexivity|].
        destruct Hw as [Hl _]. exfalso. apply Hpart. rewrite Hl.
        unfold LNBIGBUFFER. reflexivity. }
      subst rest. cbn. eexists. split; [reflexivity|]. auto.
Qed.

(** The checksum of a file is the checksum of its bytes from seed 0,
    however the reads split them (no call made to fail, no key). *)
Lemma FilenameChecksum_whole_file bits p w n :
  flt (env w) = [] -> kbd (env w) = [] ->
  resolve (fs (env w)) p = inr n ->
  exists w',
    FilenameChecksum bits p w = Ret (0, ChecksumAdd bits (i_data n) 0) w'
    /\ fs (env w') = fs (env w).
Proof.
  intros Hf Hk Hr.
  assert (Hl : fs (env w) !! canon p = Some n).
  { unfold resolve in Hr. destruct (fs (env w) !! canon p) as [n'|]; [|discriminate].
    destruct (ends_with_slash p && negb (is_dir n')); [discriminate|].
    congruence. }
  unfold FilenameChecksum, sys_open_rdonly, pop_fault, file_data, sys_close,
    bind at 1 2 3 4 5, emit, get_env, ret.
  cbn. rewrite Hf. cbn. rewrite Hr. cbn. rewrite Hl.
  destruct (chunks_of_spec (length (i_data n)) (Z.to_nat LNBIGBUFFER) (i_data n))
    as [Hc Hw]; [unfold LNBIGBUFFER; lia | lia |].
  destruct (checksum_loop_whole bits p (read_chunks (i_data n)) 0
              (add_event (EOpen p) w) Hf Hk (Hw eq_refl))
    as (w' & E & A & B & C).
  unfold bind. rewrite E. unfold read_chunks. rewrite Hc.
  eexists. split; [reflexivity|]. exact C.
Qed.

(** The low 32 bits of the checksum of a buffer are the checksum of the
    specification, whatever the width of [unsigned long]. *)
Lemma ChecksumAdd_low32 bits buf : forall c,
  32 <= bits -> 0 <= c ->
  ChecksumAdd bits buf c mod 2 ^ 32
  = fold_left spec_checksum_byte buf (c mod 2 ^ 32)
  /\ 0 <= ChecksumAdd bits buf c.
Proof.
  induction buf as [|b buf IH]; intros c Hb Hc; cbn [ChecksumAdd fold_left];
    [auto|].
  destruct (ChecksumAdd_byte_low32 bits c b Hb Hc) as [E R].
  rewrite <- E. apply IH; assumption.
Qed.

(** The step of the code in one formula: the state is shifted left
    inside the [unsigned long], and bit 31 of the state before the XOR
    comes back as bit 0. *)
Lemma ChecksumAdd_byte_carry bits c b :
  ChecksumAdd_byte bits c b
  = Z.lor (Z.shiftl (Z.lxor c (Z.land b 255)) 1 mod 2 ^ bits)
          (Z.b2z (Z.testbit c 31)).
Proof.
  unfold ChecksumAdd_byte, wrap, truthy. rewrite land_pow2_31.
  change (Z.land b 0xFF) with (Z.land b 255).
  destruct (Z.testbit c 31); cbn [Z.b2z Z.eqb negb];
    [reflexivity | rewrite Z.lor_0_r; reflexivity].
Qed.

(** C2, as stated, fails where [unsigned long] has 64 bits (the LP64
    targets, FreeBSD on amd64 among them): the state is not a 32-bit
    word.  The bit that leaves bit 31 is carried to bit 0 and also
    stays in the state, at bit 32.  From the state 0x80000001 the byte
    0xFF gives 0x1000001FD where the rotation of the 32-bit word gives
    0x1FD; and from seed 0, the 25 bytes 0x80, 0, ..., 0 give
    0x100000001 where the checksum of the specification is 1. *)
Lemma C2_state_wider_than_32_bits :
  ChecksumAdd_byte 64 0x80000001 0xFF = 0x1000001FD
  /\ rotl32 (Z.lxor 0x80000001 (Z.land 0xFF 255)) = 0x1FD
  /\ ChecksumAdd 64 (0x80 :: repeat 0 24) 0 = 0x100000001
  /\ spec_checksum (0x80 :: repeat 0 24) = 1.
Proof. repeat split; vm_compute; reflexivity. Qed.

(** C2 (amended): the checksum update is a pure function of state and
    buffer.  For each byte it XORs the low 8 bits of the byte into the
    state, shifts the state left by one bit inside the [unsigned long]
    and sets bit 0 when bit 31 of the state was set.  Whatever the
    width of [unsigned long] (32 bits or more), the low 32 bits of the
    state are the 32-bit word of the specification, rotated left by
    one bit at every byte; with 32 bits the state is that word.  From
    seed 0 the final checksum is determined by the byte sequence alone
    (however the reads split it), the checksum of a file is that of its
    bytes from seed 0, and reversing a buffer can change the result. *)
Theorem C2_checksum_rotate_xor (bits c b : Z) (B B1 B2 : list Z)
    (Hbits : 32 <= bits) (Hc : 0 <= c) :
  ChecksumAdd_byte bits c b
  = Z.lor (Z.shiftl (Z.lxor c (Z.land b 255)) 1 mod 2 ^ bits)
          (Z.b2z (Z.testbit c 31))
  /\ ChecksumAdd_byte bits c b mod 2 ^ 32
     = rotl32 (Z.lxor (c mod 2 ^ 32) (Z.land b 255))
  /\ ChecksumAdd bits B 0 mod 2 ^ 32 = spec_checksum B
  /\ (bits = 32 -> ChecksumAdd bits B 0 = spec_checksum B)
  /\ ChecksumAdd bits (B1 ++ B2) c = ChecksumAdd bits B2 (ChecksumAdd bits B1 c)
  /\ (forall p w n,
      flt (env w) = [] -> kbd (env w) = [] ->
      resolve (fs (env w)) p = inr n ->
      exists w', FilenameChecksum bits p w
                 = Ret (0, ChecksumAdd bits (i_data n) 0) w')
  /\ ChecksumAdd bits (rev [1; 2]) 0 <> ChecksumAdd bits [1; 2] 0.
Proof.
  split; [apply ChecksumAdd_byte_carry|].
  split; [apply (ChecksumAdd_byte_low32 bits c b Hbits Hc)|].
  split; [apply (ChecksumAdd_low32 bits B 0 Hbits); lia|].
  split; [intros ->; apply (ChecksumAdd_32_spec B 0); lia|].
  split; [apply ChecksumAdd_app|].
  split.
  { intros p w n Hf Hk Hr.
    destruct (FilenameChecksum_whole_file bits p w n Hf Hk Hr) as (w' & E & _).
    exists w'. exact E. }
  intros E.
  pose proof (proj1 (ChecksumAdd_low32 bits (rev [1; 2]) 0 Hbits ltac:(lia)))
    as H1.
  pose proof (proj1 (ChecksumAdd_low32 bits [1; 2] 0 Hbits ltac:(lia))) as H2.
  rewrite E, H2 in H1. vm_compute in H1. discriminate.
Qed.

Lemma C2_checksum_rotate_xor_witness :
  ChecksumAdd_byte 64 0x80000001 0xFF mod 2 ^ 32 = 0x1FD
  /\ ChecksumAdd 64 (0x80 :: repeat 0 24) 0 mod 2 ^ 32
     = spec_checksum (0x80 :: repeat 0 24)
  /\ ChecksumAdd 64 ([1] ++ [2; 3]) 0x80000001
     = ChecksumAdd 64 [2; 3] (ChecksumAdd 64 [1] 0x80000001)
  /\ ChecksumAdd 64 (rev [1; 2]) 0 <> ChecksumAdd 64 [1; 2] 0.
Proof.
  assert (Hbits : 32 <= 64) by lia.
  assert (Hc : 0 <= 0x80000001) by lia.
  destruct (C2_checksum_rotate_xor 64 0x80000001 0xFF (0x80 :: repeat 0 24)
              [1] [2; 3] Hbits Hc)
    as (_ & H2 & H3 & _ & H5 & _ & H7).
  split; [rewrite H2; vm_compute; reflexivity|].
  split; [exact H3|]. split; [exact H5 | exact H7].
Defined.

(* ===================================================================== *)
(** ** The keyboard poller and the clock *)
(* ===================================================================== *)

(** Not paused, nothing pending: one poll, no wait, result 0. *)
Lemma KeyboardCheck_idle w :
  KeyboardCheck 0 w
  = match kbd (env w) with
    | [] => Ret 0 (add_event ESelect w)
    | None :: rest => Ret 0 (add_event ESelect (upd_env (set_kbd rest) w))
    | Some _ :: _ => KeyboardCheck 0 w
    end.
Proof.
  destruct (kbd (env w)) as [|[c|] rest] eqn:E; [|reflexivity|];
    unfold KeyboardCheck; cbn; rewrite E; reflexivity.
Qed.

(** The poller returns 0 or the user-stop code, nothing else. *)
Lemma KeyboardCheck_loop_returns script : forall iPause w e w',
  KeyboardCheck_loop script iPause w = Ret e w' ->
  e = 0 \/ e = ERROR_TCPY_STOP.
Proof.
  induction script as [|[c|] rest IH]; intros iPause w e w' H; simpl in H;
    unfold bind, put_env, emit, EchoPrint, printf, puts, ret, when,
      halt_with in H;
    repeat match type of H with
           | context [if ?b then _ else _] => destruct b; simpl in H
           end;
    solve [ eapply IH; exact H | inversion H; auto | discriminate ].
Qed.

(** A paused poller that returns 0 has read the key that resumes. *)
Lemma KeyboardCheck_loop_resumes script : forall iPause w w',
  truthy iPause = true ->
  KeyboardCheck_loop script iPause w = Ret 0 w' ->
  exists evs, trace w' = trace w ++ evs
              /\ In (EPrint (line "Resume...")) evs.
Proof.
  induction script as [|[c|] rest IH]; intros iPause w w' Hp H;
    cbn [KeyboardCheck_loop] in H;
    unfold bind, put_env, emit, EchoPrint, printf, puts, ret, when,
      halt_with in H.
  - rewrite Hp in H. discriminate.
  - destruct (is_key c [32; 112; 80]).
    { rewrite Hp in H. cbn -[is_key truthy] in H.
      change (truthy 0) with false in H. cbn -[is_key truthy] in H.
      inversion H; subst. cbn.
      exists [ESelect; EGetchar c; EPrint (line "Resume...")].
      rewrite <- ?app_assoc. cbn. auto. }
    destruct (is_key c [27; 113; 81]).
    { cbn -[is_key truthy] in H. rewrite Hp in H.
      change (truthy ERROR_TCPY_STOP) with true in H.
      cbn -[is_key truthy] in H. discriminate. }
    destruct (is_key c [118; 86]); cbn -[is_key truthy] in H;
      rewrite Hp in H; change (truthy 0) with false in H;
      cbn -[is_key truthy] in H;
      destruct (IH _ _ _ Hp H) as (evs & E & Hin); rewrite E; cbn;
      rewrite <- ?app_assoc; eexists; (split; [reflexivity|]);
      repeat (apply in_or_app; right); exact Hin.
  - rewrite Hp in H.
    destruct (IH _ _ _ Hp H) as (evs & E & Hin). rewrite E. cbn.
    rewrite <- ?app_assoc. eexists. split; [reflexivity|].
    repeat (apply in_or_app; right). exact Hin.
Qed.

(** C9: while paused, an iteration of the re-poll loop that finds no
    key pending polls again at once, with no sleep in between (the
    [usleep] sits inside the branch that read a key).  Evaluated on an
    induced pause followed by two empty polls and then the space key:
    three [select] calls in a row and no sleep anywhere. *)
Theorem C9_paused_repoll_without_sleep :
  (forall rest w,
     KeyboardCheck_loop (None :: rest) 1 w
     = KeyboardCheck_loop rest 1
         (add_event ESelect (upd_env (set_kbd rest) w)))
  /\ KeyboardCheck 1 (upd_env (set_kbd [None; None; Some 32]) world0)
     = Ret 0 (mkWorld globals0 env0
                [EPrint ("Pause..." +:+ nl); ESelect; ESelect; ESelect;
                 EGetchar 32; EPrint ("Resume..." +:+ nl)]).
Proof. split; [intros; reflexivity | reflexivity]. Qed.

(** [NanoTime] is 0 whenever [clock_gettime] succeeds. *)
Lemma NanoTime_success w tv_sec tv_nsec rest :
  clk (env w) = (0, tv_sec, tv_nsec) :: rest ->
  NanoTime w = Ret 0 (upd_env (set_clk rest) (add_event EClock w)).
Proof.
  intros H. unfold NanoTime, bind, sys_clock_gettime, emit. cbn. rewrite H.
  reflexivity.
Qed.

(** C4: the duration recorded after a write is not the elapsed time.
    [NanoTime] tests the return code of [clock_gettime] the wrong way
    round, so every successful clock read yields 0: after a write that
    the clock brackets with readings 5000 ns apart, both
    [giNanoPrev] and [giNanoFastest] are 0.  Only a failed read makes
    [NanoTime] use the timespec. *)
Theorem C4_elapsed_time_not_recorded :
  (exists w', NanoTime (upd_env (set_clk [(0, 100, 5000)]) world0) = Ret 0 w')
  /\ (exists w', NanoTime (upd_env (set_clk [(-1, 100, 5000)]) world0)
                 = Ret 100000005000 w')
  /\ (exists w', copy_buffer 64 "d" "d" 3 [1; 2; 3] 0 clock_world
                 = Ret (0, ChecksumAdd 64 [1; 2; 3] 0) w'
                 /\ trace w' = [ENanosleep 0 0; EClock; EWrite "d" [1; 2; 3]; EClock]
                 /\ giNanoPrev (glob w') = 0
                 /\ giNanoFastest (glob w') = 0).
Proof.
  split; [eexists; reflexivity|].
  split; [eexists; reflexivity|].
  eexists. split; [vm_compute; reflexivity|]. vm_compute. auto.
Qed.

(* ===================================================================== *)
(** ** What every run preserves *)
(* ===================================================================== *)

Lemma fs_dirs_only_refl f : fs_dirs_only f f.
Proof. split; [auto | intros k n H1 H2; congruence]. Qed.

Lemma fs_dirs_only_trans f1 f2 f3 :
  fs_dirs_only f1 f2 -> fs_dirs_only f2 f3 -> fs_dirs_only f1 f3.
Proof.
  intros [A1 B1] [A2 B2]. split; [auto|].
  intros k n H3 H1. destruct (f2 !! k) as [n2|] eqn:E2.
  - pose proof (A2 _ _ E2) as H. rewrite H in H3. inversion H3; subst. eauto.
  - eauto.
Qed.

Lemma evolves_refl P w : evolves P w w.
Proof.
  split; auto using fs_dirs_only_refl.
  exists []. rewrite app_nil_r. auto.
Qed.

Lemma evolves_trans P w1 w2 w3 :
  evolves P w1 w2 -> evolves P w2 w3 -> evolves P w1 w3.
Proof.
  intros [T1 [F1 F1'] G1 H1 R1 D1] [T2 [F2 F2'] G2 H2 R2 D2]. split.
  - destruct T1 as (e1 & E1 & A1), T2 as (e2 & E2 & A2).
    exists (e1 ++ e2). rewrite E2, E1, app_assoc. split; [reflexivity|].
    apply Forall_app. split; [exact A1|]. rewrite <- F1. exact A2.
  - split; congruence.
  - intros G. destruct (G1 G) as [a b].
    assert (G' : guard_set (glob w2)) by (unfold guard_set in *; rewrite a, b; exact G).
    destruct (G2 G'). split; congruence.
  - auto.
  - intros k Hk. rewrite R2, R1; auto.
  - intros Ht. eapply fs_dirs_only_trans; [apply D1; exact Ht|].
    apply D2. rewrite F1. exact Ht.
Qed.

Lemma ev_ok_mono (P Q : string -> Prop) t e :
  (forall p, P p -> Q p) -> ev_ok P t e -> ev_ok Q t e.
Proof. intros H [A B]. split; auto. Qed.

Lemma evolves_mono (P Q : string -> Prop) w w' :
  (forall p, P p -> Q p) -> evolves P w w' -> evolves Q w w'.
Proof.
  intros H [T F G Th R D]. split; auto.
  - destruct T as (evs & E & A). exists evs. split; [exact E|].
    eapply Forall_impl; [exact A|]. intros e. apply ev_ok_mono, H.
Qed.

(** *** The atomic changes of the world *)

Lemma evolves_event P w e :
  ev_ok P (giTestRun (glob w)) e -> evolves P w (add_event e w).
Proof.
  intros H. split; simpl; auto using fs_dirs_only_refl.
  exists [e]. auto.
Qed.

Lemma evolves_env P w (f : Env -> Env) :
  fs (f (env w)) = fs (env w) -> evolves P w (upd_env f w).
Proof.
  intros H. split; simpl; auto.
  - exists []. rewrite app_nil_r. auto.
  - intros. rewrite H. reflexivity.
  - intros. rewrite H. apply fs_dirs_only_refl.
Qed.

Lemma evolves_glob P w (f : Globals -> Globals) :
  giTestRun (f (glob w)) = giTestRun (glob w) ->
  giFaster (f (glob w)) = giFaster (glob w) ->
  giSt_dev (f (glob w)) = giSt_dev (glob w) ->
  giSt_ino (f (glob w)) = giSt_ino (glob w) ->
  giNanoPrev (f (glob w)) = giNanoPrev (glob w) ->
  giNanoFastest (f (glob w)) = giNanoFastest (glob w) ->
  evolves P w (upd_glob f w).
Proof.
  intros H1 H2 H3 H4 H5 H6. split; simpl; auto using fs_dirs_only_refl.
  - exists []. rewrite app_nil_r. auto.
  - unfold throttle_ok. rewrite H5, H6. auto.
Qed.

Lemma evolves_set_guard P w dev ino :
  ~ guard_set (glob w) -> evolves P w (upd_glob (set_giSt dev ino) w).
Proof.
  intros H. split; simpl; auto using fs_dirs_only_refl.
  - exists []. rewrite app_nil_r. auto.
  - intros G. contradiction.
Qed.

Lemma throttle_fastest_ok fastest m :
  0 <= fastest -> 0 <= m < 2 ^ 64 ->
  0 <= throttle_fastest fastest m <= m
  /\ (throttle_fastest fastest m = 0 -> m = 0).
Proof.
  intros Hf Hm. unfold throttle_fastest, truthy.
  destruct (Z.eqb_spec fastest 0); simpl; [lia|].
  destruct (Z.ltb_spec m fastest); lia.
Qed.

Lemma throttle_measure_range t0 t1 iRead :
  0 < iRead -> 0 <= throttle_measure t0 t1 iRead < 2 ^ 64.
Proof.
  intros Hr. unfold throttle_measure, wrap64, wrap.
  destruct (negb (iRead =? LNBIGBUFFER)).
  - pose proof (Z.mod_pos_bound ((t1 - t0) mod 2 ^ 64 * LNBIGBUFFER) (2 ^ 64)
                  ltac:(lia)) as H.
    split; [apply Z.div_pos; lia|].
    apply Z.div_lt_upper_bound; [lia|]. nia.
  - apply Z.mod_pos_bound. lia.
Qed.

Lemma evolves_throttle P w m :
  0 <= m < 2 ^ 64 ->
  evolves P w
    (upd_glob (fun g => set_giNanoFastest (throttle_fastest (giNanoFastest g) m)
                          (set_giNanoPrev m g)) w).
Proof.
  intros Hm. split; simpl; auto using fs_dirs_only_refl.
  - exists []. rewrite app_nil_r. auto.
  - intros (A & B & C). unfold throttle_ok. simpl.
    pose proof (throttle_fastest_ok (giNanoFastest (glob w)) m ltac:(lia) Hm).
    lia.
Qed.

(** A change of the file system at the one key [canon p]. *)
Lemma evolves_fs P w p (f : Env -> Env) :
  P p ->
  (giTestRun (glob w) = 0 \/ fs_dirs_only (fs (env w)) (fs (f (env w)))) ->
  (forall k, k <> canon p -> fs (f (env w)) !! k = fs (env w) !! k) ->
  evolves P w (upd_env f w).
Proof.
  intros Hp Ht Hk. split; simpl; auto.
  - exists []. rewrite app_nil_r. auto.
  - intros k Hn. apply Hk. intros ->. eapply Hn; eauto.
  - intros Hne. destruct Ht; [contradiction | assumption].
Qed.

(** *** Sequencing *)

Lemma evolves_bind P {A B} (m : M A) (f : A -> M B) w :
  evolves P w (world_of (m w)) ->
  (forall a w1, m w = Ret a w1 -> evolves P w w1 ->
                evolves P w1 (world_of (f a w1))) ->
  evolves P w (world_of (bind m f w)).
Proof.
  intros H1 H2. unfold bind. destruct (m w) as [a w1|h w1] eqn:E; simpl in *.
  - eapply evolves_trans; [exact H1|]. apply H2; auto.
  - exact H1.
Qed.

(** *** Walking through monadic code *)

Create HintDb evo.

Ltac inv_reads :=
  repeat match goal with
         | H : gets _ _ = Ret _ _ |- _ =>
             unfold gets in H; inversion H; subst; clear H
         | H : get_env _ _ = Ret _ _ |- _ =>
             unfold get_env in H; inversion H; subst; clear H
         | H : get_errno _ = Ret _ _ |- _ =>
             unfold get_errno, get_env in H; inversion H; subst; clear H
         | H : ret _ _ = Ret _ _ |- _ =>
             unfold ret in H; inversion H; subst; clear H
         end.

Lemma truthy_false x : truthy x = false -> x = 0.
Proof. unfold truthy. destruct (Z.eqb_spec x 0); [auto | discriminate]. Qed.

Lemma truthy_true x : truthy x = true -> x <> 0.
Proof. unfold truthy. destruct (Z.eqb_spec x 0); [discriminate | auto]. Qed.

Lemma negb_truthy_true x : negb (truthy x) = true -> x = 0.
Proof. intros H. apply truthy_false. destruct (truthy x); [discriminate | auto]. Qed.

Lemma negb_truthy_false x : negb (truthy x) = false -> x <> 0.
Proof. intros H. apply truthy_true. destruct (truthy x); [auto | discriminate]. Qed.

(** The [sprintf] into [sz2] returns and leaves the world as it is; a
    text that fits leaves the checksums as they are. *)
Lemma sz2_overrun_ret text a b w :
  exists c, sz2_overrun text a b w = Ret c w
            /\ (strlen text < LNSZ -> c = (a, b)).
Proof.
  unfold sz2_overrun.
  destruct (Z.ltb_spec (strlen text) LNSZ); eexists;
    (split; [reflexivity|]); [auto | lia].
Qed.

Lemma sz2_overrun_fits text a b w :
  strlen text < LNSZ -> sz2_overrun text a b w = Ret (a, b) w.
Proof.
  intros H. unfold sz2_overrun.
  destruct (Z.ltb_spec (strlen text) LNSZ); [reflexivity | lia].
Qed.

Ltac step_overrun :=
  match goal with
  | |- context [sz2_overrun ?t ?a ?b ?w] =>
      let c := fresh "c" in
      let E := fresh "E" in
      destruct (sz2_overrun_ret t a b w) as (c & E & _); rewrite E; clear E
  end.

(** [giTestRun] at a later world, from the [evolves] facts in context. *)
Ltac flags_tac :=
  repeat match goal with
         | H : truthy _ = false |- _ => apply truthy_false in H
         | H : negb (truthy _) = true |- _ => apply negb_truthy_true in H
         end;
  repeat match goal with
         | H : evolves _ ?a ?b |- _ =>
             let n := fresh "Hfl" in
             pose proof (proj1 (ev_flags _ _ _ H)) as n; clear H
         end;
  simpl in *; congruence.

Ltac benign :=
  first [ apply evolves_refl
        | apply evolves_env; reflexivity
        | apply evolves_glob; reflexivity
        | apply evolves_event; split; intros; discriminate ].

Ltac walk_step :=
  match goal with
  | |- evolves _ ?w ?w => apply evolves_refl
  | |- evolves _ ?w (world_of (bind _ _ ?w)) =>
      apply evolves_bind; [ | intros ? ? ? ?; inv_reads ]
  | |- evolves _ ?w (world_of (ret _ ?w)) => apply evolves_refl
  | |- evolves _ ?w (world_of (gets _ ?w)) => apply evolves_refl
  | |- evolves _ ?w (world_of (get_env _ ?w)) => apply evolves_refl
  | |- evolves _ ?w (world_of (get_errno ?w)) => apply evolves_refl
  | |- evolves _ ?w (world_of (halt_with _ ?w)) => apply evolves_refl
  | |- evolves _ ?w (world_of (sz2_overrun _ _ _ ?w)) => unfold sz2_overrun
  | |- evolves _ ?w (world_of (put_env _ ?w)) => apply evolves_env; reflexivity
  | |- evolves _ ?w (world_of (puts _ ?w)) => apply evolves_glob; reflexivity
  | |- evolves _ ?w (world_of (emit _ ?w)) =>
      apply evolves_event; split; intros; discriminate
  | |- evolves _ ?w (world_of (printf _ ?w)) =>
      apply evolves_event; split; intros; discriminate
  | |- evolves _ ?w (world_of (EchoPrint _ ?w)) =>
      apply evolves_event; split; intros; discriminate
  | |- evolves _ ?w (world_of (when ?b _ ?w)) =>
      destruct b eqn:?; unfold when
  | |- evolves _ ?w (world_of ((if ?b then _ else _) ?w)) => destruct b eqn:?
  | |- evolves _ ?w (world_of ((match ?x with _ => _ end) ?w)) =>
      destruct x eqn:?
  end.

Ltac walk := repeat walk_step.

Section Primitives.

Variable P : string -> Prop.

Lemma ev_pop_fault w : evolves P w (world_of (pop_fault w)).
Proof. unfold pop_fault. destruct (flt (env w)); simpl; benign. Qed.

Lemma ev_set_errno_ret {A} e (a : A) w :
  evolves P w (world_of (set_errno_ret e a w)).
Proof. unfold set_errno_ret. walk. Qed.

Hint Resolve ev_pop_fault ev_set_errno_ret : evo.

Ltac walk' := repeat first [ walk_step | solve [ auto with evo ] ].

Lemma ev_sys_stat path buf w : evolves P w (world_of (sys_stat path buf w)).
Proof. unfold sys_stat. walk'. Qed.

Lemma ev_sys_open_rdonly path w :
  evolves P w (world_of (sys_open_rdonly path w)).
Proof. unfold sys_open_rdonly. walk'. Qed.

Lemma ev_sys_read path chunk w :
  evolves P w (world_of (sys_read path chunk w)).
Proof. unfold sys_read. walk'. Qed.

Lemma ev_sys_close path w : evolves P w (world_of (sys_close path w)).
Proof. unfold sys_close. walk'. Qed.

Lemma ev_sys_malloc w : evolves P w (world_of (sys_malloc w)).
Proof. unfold sys_malloc. walk'. Qed.

Lemma ev_sys_clock_gettime w :
  evolves P w (world_of (sys_clock_gettime w)).
Proof.
  unfold sys_clock_gettime. apply evolves_bind; [walk'|].
  intros a w1 _ _. destruct (clk (env w1)); simpl; benign.
Qed.

Lemma ev_sys_opendir path w : evolves P w (world_of (sys_opendir path w)).
Proof. unfold sys_opendir. walk'. Qed.

Lemma ev_file_data path w : evolves P w (world_of (file_data path w)).
Proof. unfold file_data. walk'. Qed.

Hint Resolve ev_sys_clock_gettime : evo.

Lemma ev_NanoTime w : evolves P w (world_of (NanoTime w)).
Proof. unfold NanoTime. walk'. Qed.

Lemma ev_KeyboardCheck_loop script : forall iPause w,
  evolves P w (world_of (KeyboardCheck_loop script iPause w)).
Proof.
  induction script as [|[c|] rest IH]; intros iPause w; simpl; walk'.
Qed.

Hint Resolve ev_KeyboardCheck_loop : evo.

Lemma ev_KeyboardCheck iInducedPause w :
  evolves P w (world_of (KeyboardCheck iInducedPause w)).
Proof. unfold KeyboardCheck. walk'. Qed.

Lemma fs_dirs_only_insert_dir (f : gmap string inode) k n :
  f !! k = None -> is_dir n = true -> fs_dirs_only f (<[k := n]> f).
Proof.
  intros Hk Hn. split.
  - intros k' n' H. destruct (decide (k = k')) as [->|Hne]; [congruence|].
    rewrite lookup_insert_ne; auto.
  - intros k' n' H H'. destruct (decide (k = k')) as [->|Hne].
    + rewrite lookup_insert_eq in H. congruence.
    + rewrite lookup_insert_ne in H; congruence.
Qed.

Lemma ev_sys_creat path mode w :
  P path -> giTestRun (glob w) = 0 ->
  evolves P w (world_of (sys_creat path mode w)).
Proof.
  intros Hp Ht. unfold sys_creat.
  apply evolves_bind; [apply evolves_event; split; auto|].
  intros ? w1 _ H1. walk'.
  all:  (apply evolves_fs with (p := path); auto;
     [ left; flags_tac | intros k Hk; simpl; apply lookup_insert_ne; auto ]).
Qed.

Lemma ev_sys_write path buf w :
  P path -> giTestRun (glob w) = 0 ->
  evolves P w (world_of (sys_write path buf w)).
Proof.
  intros Hp Ht. unfold sys_write.
  apply evolves_bind; [apply evolves_event; split; auto|].
  intros ? w1 _ H1. walk';
    (apply evolves_fs with (p := path); auto;
     [ left; flags_tac | intros k Hk; simpl; apply lookup_insert_ne; auto ]).
Qed.

Lemma ev_sys_unlink path w :
  P path -> giTestRun (glob w) = 0 ->
  evolves P w (world_of (sys_unlink path w)).
Proof.
  intros Hp Ht. unfold sys_unlink.
  apply evolves_bind; [apply evolves_event; split; auto|].
  intros ? w1 _ H1. walk';
    (apply evolves_fs with (p := path); auto;
     [ left; flags_tac | intros k Hk; simpl; apply lookup_delete_ne; auto ]).
Qed.

Lemma ev_sys_utimensat path sec nsec w :
  P path -> giTestRun (glob w) = 0 ->
  evolves P w (world_of (sys_utimensat path sec nsec w)).
Proof.
  intros Hp Ht. unfold sys_utimensat.
  apply evolves_bind; [apply evolves_event; split; auto|].
  intros ? w1 _ H1. walk';
    (apply evolves_fs with (p := path); auto;
     [ left; flags_tac | intros k Hk; simpl; apply lookup_insert_ne; auto ]).
Qed.

Lemma ev_sys_mkdir path mode w :
  P path -> evolves P w (world_of (sys_mkdir path mode w)).
Proof.
  intros Hp. unfold sys_mkdir.
  apply evolves_bind; [apply evolves_event; split; [auto | discriminate]|].
  intros ? w1 _ H1. walk'.
  all: apply evolves_fs with (p := path); auto.
  all: try (intros k Hk; simpl; apply lookup_insert_ne; auto).
  all: right; simpl; apply fs_dirs_only_insert_dir; [assumption|].
  all: unfold is_dir, new_mode; simpl.
  all: match goal with
       | |- (Z.land (Z.lor S_IFDIR (Z.land ?m 4095)) S_IFMT =? S_IFDIR) = true =>
           replace (Z.land (Z.lor S_IFDIR (Z.land m 4095)) S_IFMT) with S_IFDIR;
           [reflexivity|]
       end.
  all: rewrite Z.land_lor_distr_l, <- Z.land_assoc.
  all: change (Z.land 4095 S_IFMT) with 0; rewrite Z.land_0_r; reflexivity.
Qed.

End Primitives.

#[global] Hint Resolve ev_pop_fault ev_set_errno_ret ev_sys_stat
  ev_sys_open_rdonly ev_sys_read ev_sys_close ev_sys_malloc
  ev_sys_clock_gettime ev_sys_opendir ev_file_data ev_NanoTime
  ev_KeyboardCheck_loop ev_KeyboardCheck : evo.

Ltac walk' := repeat first [ walk_step | solve [ auto with evo ] ].

(** *** The functions of the program *)

Section Functions.

Variable ulong_bits : Z.
Variable P : string -> Prop.

Lemma ev_DirectoryExist path buf w :
  evolves P w (world_of (DirectoryExist path buf w)).
Proof. unfold DirectoryExist. walk'. Qed.

Lemma ev_FilenameExist path buf w :
  evolves P w (world_of (FilenameExist path buf w)).
Proof. unfold FilenameExist. walk'. Qed.

Hint Resolve ev_DirectoryExist ev_FilenameExist : evo.

Lemma ev_DirectoryValidate_rec fuel : forall path pStat w,
  (forall p, P p) ->
  evolves P w (world_of (DirectoryValidate_rec fuel path pStat w)).
Proof.
  induction fuel as [|fuel IH]; intros path pStat w HP; simpl; [benign|].
  walk'; try (apply IH; exact HP); try (apply ev_sys_mkdir; apply HP).
Qed.

Lemma ev_DirectoryValidate path pStat w :
  (forall p, P p) ->
  evolves P w (world_of (DirectoryValidate path pStat w)).
Proof.
  intros HP. unfold DirectoryValidate.
  apply evolves_bind; [apply ev_DirectoryValidate_rec; exact HP|].
  intros. walk'.
Qed.

Lemma ev_checksum_iter path chunk c w :
  evolves P w (world_of (checksum_iter ulong_bits path chunk c w)).
Proof. unfold checksum_iter. walk'. Qed.

Hint Resolve ev_checksum_iter : evo.

Lemma ev_checksum_loop path chunks : forall c w,
  evolves P w (world_of (checksum_loop ulong_bits path chunks c w)).
Proof. induction chunks as [|chunk rest IH]; intros c w; simpl; walk'. Qed.

Hint Resolve ev_checksum_loop : evo.

Lemma ev_FilenameChecksum path w :
  evolves P w (world_of (FilenameChecksum ulong_bits path w)).
Proof. unfold FilenameChecksum. walk'. Qed.

Hint Resolve ev_FilenameChecksum : evo.

Lemma ev_tcf_compare iErr sS sD src dst szS szD w :
  evolves P w (world_of (tcf_compare ulong_bits iErr sS sD src dst szS szD w)).
Proof. unfold tcf_compare. walk'. Qed.

Hint Resolve ev_tcf_compare : evo.

Lemma ev_tcf_probe src dst szS szD w :
  evolves P w (world_of (tcf_probe ulong_bits src dst szS szD w)).
Proof. unfold tcf_probe. walk'. Qed.

Lemma ev_tcf_bookkeeping iErr w :
  evolves P w (world_of (tcf_bookkeeping iErr w)).
Proof. unfold tcf_bookkeeping. walk'. Qed.

Section Dest.

Variable dst : string.
Hypothesis Pdst : P dst.

Lemma ev_copy_buffer szDest iRead buf c w :
  giTestRun (glob w) = 0 -> 0 < iRead ->
  evolves P w (world_of (copy_buffer ulong_bits dst szDest iRead buf c w)).
Proof.
  intros Ht Hr. unfold copy_buffer. walk'.
  - apply ev_sys_write; [exact Pdst | flags_tac].
  - apply evolves_throttle. apply throttle_measure_range. exact Hr.
Qed.

Lemma ev_copy_iter src szDest chunk c w :
  giTestRun (glob w) = 0 ->
  evolves P w (world_of (copy_iter ulong_bits src dst szDest chunk c w)).
Proof.
  intros Ht. unfold copy_iter. walk'.
  apply ev_copy_buffer; [flags_tac | lia].
Qed.

Lemma ev_copy_loop src szDest chunks : forall c w,
  giTestRun (glob w) = 0 ->
  evolves P w (world_of (copy_loop ulong_bits src dst szDest chunks c w)).
Proof.
  induction chunks as [|chunk rest IH]; intros c w Ht; simpl; walk';
    try (apply ev_copy_iter; flags_tac); try (apply IH; flags_tac).
Qed.

Lemma ev_tcf_delete_dest iExistDest sS sD sc dc szDest w :
  evolves P w
    (world_of (tcf_delete_dest iExistDest sS sD sc dc dst szDest w)).
Proof.
  unfold tcf_delete_dest. walk'.
  apply ev_sys_unlink; [exact Pdst | flags_tac].
Qed.

Lemma ev_tcf_copy_io sS sc dc src szS szD w :
  giTestRun (glob w) = 0 ->
  evolves P w (world_of (tcf_copy_io ulong_bits sS sc dc src dst szS szD w)).
Proof.
  intros Ht. unfold tcf_copy_io.
  walk'; try (apply ev_sys_creat; [exact Pdst | flags_tac]);
    try (apply ev_copy_loop; flags_tac);
    try (apply ev_sys_unlink; [exact Pdst | flags_tac]);
    try (apply ev_sys_utimensat; [exact Pdst | flags_tac]).
Qed.

Lemma ev_tcf_copy sS sc src szS szD w :
  evolves P w (world_of (tcf_copy ulong_bits sS sc src dst szS szD w)).
Proof.
  unfold tcf_copy. walk'. apply ev_tcf_copy_io. flags_tac.
Qed.

Lemma ev_tcf_verify_dest sc szD w :
  evolves P w (world_of (tcf_verify_dest ulong_bits sc dst szD w)).
Proof.
  unfold tcf_verify_dest.
  apply evolves_bind; [walk'|]. intros ? w1 _ H1.
  apply evolves_bind; [walk'|]. intros t w2 Hr _. inv_reads.
  destruct (truthy (giTestRun (glob w2))) eqn:Et; [walk'|].
  apply truthy_false in Et. clear H1.
  walk'; apply ev_sys_unlink; [exact Pdst | flags_tac].
Qed.

Hint Resolve ev_tcf_delete_dest ev_tcf_copy ev_tcf_verify_dest ev_tcf_probe : evo.

Lemma ev_tcf_transfer iErr iExistDest sS sD sc dc src szS szD w :
  evolves P w
    (world_of (tcf_transfer ulong_bits iErr iExistDest sS sD sc dc src dst
                 szS szD w)).
Proof. unfold tcf_transfer. walk'. Qed.

Hint Resolve ev_tcf_transfer : evo.

Lemma ev_tcf_copy_verify src w :
  evolves P w (world_of (tcf_copy_verify ulong_bits src dst w)).
Proof. unfold tcf_copy_verify. walk'. Qed.

End Dest.

Lemma ev_tcf_delete_source iMode iErr src szS szD w :
  P src ->
  evolves P w (world_of (tcf_delete_source iMode iErr src szS szD w)).
Proof.
  intros Psrc. unfold tcf_delete_source. walk'.
  apply ev_sys_unlink; [exact Psrc | flags_tac].
Qed.

Lemma ev_TimedCopyFile iMode src dst w :
  P src -> P dst ->
  evolves P w (world_of (TimedCopyFile ulong_bits iMode src dst w)).
Proof.
  intros Ps Pd. unfold TimedCopyFile. walk'.
  - apply ev_tcf_copy_verify. exact Pd.
  - apply ev_tcf_delete_source. exact Ps.
  - apply ev_tcf_bookkeeping.
Qed.

Hypothesis Pall : forall p, P p.

Lemma ev_copy_entry (rec : string -> string -> M Z) iMode sdir ddir de w :
  (forall s d w, evolves P w (world_of (rec s d w))) ->
  evolves P w (world_of (copy_entry ulong_bits rec iMode sdir ddir de w)).
Proof.
  intros Hrec. unfold copy_entry. walk'; auto using ev_DirectoryValidate,
    ev_TimedCopyFile.
Qed.

Lemma ev_copy_entries (rec : string -> string -> M Z) iMode sdir ddir entries :
  (forall s d w, evolves P w (world_of (rec s d w))) ->
  forall w,
  evolves P w (world_of (copy_entries ulong_bits rec iMode sdir ddir entries w)).
Proof.
  intros Hrec. induction entries as [|de rest IH]; intros w; simpl; walk';
    try (apply ev_copy_entry; exact Hrec); try apply IH.
Qed.

Lemma ev_mirror_entry sdir ddir de w :
  evolves P w (world_of (mirror_entry sdir ddir de w)).
Proof.
  unfold mirror_entry. walk'.
  apply ev_sys_unlink; [apply Pall | flags_tac].
Qed.

Lemma ev_mirror_entries sdir ddir entries : forall w,
  evolves P w (world_of (mirror_entries sdir ddir entries w)).
Proof.
  induction entries as [|de rest IH]; intros w; simpl; walk'; auto.
  apply ev_mirror_entry.
Qed.

Lemma ev_mirror_cleanup iMode iErr sdir sfile ddir w :
  evolves P w (world_of (mirror_cleanup iMode iErr sdir sfile ddir w)).
Proof. unfold mirror_cleanup. walk'. apply ev_mirror_entries. Qed.

Lemma ev_resolve_dirs sdir ddir w :
  evolves P w (world_of (resolve_dirs sdir ddir w)).
Proof.
  unfold resolve_dirs. walk'.
  apply evolves_set_guard. unfold guard_set.
  match goal with
  | H : negb ?b = true |- ?b <> true => destruct b; [discriminate | auto]
  end.
Qed.

Lemma ev_TimedCopy fuel : forall iMode sdir sfile ddir dfile w,
  evolves P w
    (world_of (TimedCopy ulong_bits fuel iMode sdir sfile ddir dfile w)).
Proof.
  induction fuel as [|fuel IH]; intros; simpl; [benign|].
  walk'; auto using ev_resolve_dirs, ev_TimedCopyFile, ev_copy_entries,
    ev_mirror_cleanup.
Qed.

End Functions.

(* ===================================================================== *)
(** ** The throttle *)
(* ===================================================================== *)

Lemma throttle_delay_props nanoPrev nanoFastest iRead :
  0 <= nanoFastest <= nanoPrev -> nanoPrev < 2 ^ 64 ->
  0 < iRead <= LNBIGBUFFER ->
  let d := throttle_delay nanoPrev nanoFastest iRead in
  wrap64 (nanoPrev - nanoFastest) = nanoPrev - nanoFastest
  /\ 0 <= d <= nanoPrev - nanoFastest
  /\ (iRead = LNBIGBUFFER -> d = nanoPrev - nanoFastest)
  /\ (iRead <> LNBIGBUFFER -> (nanoPrev - nanoFastest) * iRead < 2 ^ 64 ->
      d = (nanoPrev - nanoFastest) * iRead / LNBIGBUFFER).
Proof.
  intros H1 H2 Hr. unfold throttle_delay, wrap64, wrap, LNBIGBUFFER in *.
  assert (Hx : (nanoPrev - nanoFastest) mod 2 ^ 64 = nanoPrev - nanoFastest)
    by (apply Z.mod_small; lia).
  rewrite Hx. set (x := nanoPrev - nanoFastest) in *.
  split; [reflexivity|].
  destruct (Z.eqb_spec iRead 32768) as [->|Hne]; simpl.
  - repeat split; try lia.
  - assert (Hm := Z.mod_pos_bound (x * iRead) (2 ^ 64) ltac:(lia)).
    split; [|split; [lia|]].
    + split; [apply Z.div_pos; lia|].
      destruct (Z.lt_ge_cases (x * iRead) (2 ^ 64)) as [Hlt|Hge].
      * rewrite Z.mod_small by nia.
        apply Z.div_le_upper_bound; [lia|]. nia.
      * assert (x * iRead mod 2 ^ 64 / 32768 < 2 ^ 49).
        { apply Z.div_lt_upper_bound; [lia|]. change (32768 * 2 ^ 49) with (2 ^ 64). lia. }
        assert (2 ^ 49 <= x) by nia. lia.
    + intros _ Hlt. rewrite Z.mod_small by nia. reflexivity.
Qed.

Lemma world_eta w : mkWorld (glob w) (env w) (trace w) = w.
Proof. destruct w; reflexivity. Qed.

(** The calls one buffer of the copy loop issues. *)
Lemma copy_buffer_trace bits dst szDest iRead buf c w :
  trace (world_of (copy_buffer bits dst szDest iRead buf c w))
  = trace w
    ++ (if truthy (giFaster (glob w)) then []
        else let d := throttle_delay (giNanoPrev (glob w))
                        (giNanoFastest (glob w)) iRead in
             [ENanosleep (d / ONESECINNANO) (d mod ONESECINNANO)])
    ++ [EClock; EWrite dst buf; EClock].
Proof.
  unfold copy_buffer, NanoTime, sys_write, sys_clock_gettime, pop_fault,
    set_errno_ret, get_errno, bind, gets, puts, when, emit, ret, get_env,
    put_env.
  cbn.
  destruct (truthy (giFaster (glob w))); cbn;
    repeat match goal with
           | |- context [match ?x with _ => _ end] =>
               lazymatch x with
               | context [match _ with _ => _ end] => fail
               | _ => destruct x; cbn
               end
           end;
    rewrite <- ?app_assoc; reflexivity.
Qed.

(** C5: at every buffer of the copy loop the delay is
    [giNanoPrev - giNanoFastest]; the unsigned subtraction does not
    wrap because [giNanoFastest <= giNanoPrev] holds whenever it is
    computed (it holds initially and every run of the program keeps
    it); a partial buffer scales the delay down by [iRead/LNBIGBUFFER]
    (exactly so when the 64-bit product does not overflow); the delay
    is never negative, is 0 while [giNanoFastest] is still 0, and the
    sleep is issued only when [giFaster] is off. *)
Theorem C5_throttle_delay bits fuel iMode sdir sfile ddir dfile
    dst szDest iRead buf c w
    (Hinv : throttle_ok (glob w)) (Hread : 0 < iRead <= LNBIGBUFFER) :
  let prev := giNanoPrev (glob w) in
  let fastest := giNanoFastest (glob w) in
  let d := throttle_delay prev fastest iRead in
  throttle_ok globals0
  /\ throttle_ok
       (glob (world_of (TimedCopy bits fuel iMode sdir sfile ddir dfile w)))
  /\ (giTestRun (glob w) = 0 ->
      throttle_ok (glob (world_of (copy_buffer bits dst szDest iRead buf c w))))
  /\ wrap64 (prev - fastest) = prev - fastest
  /\ 0 <= d <= prev - fastest
  /\ (iRead = LNBIGBUFFER -> d = prev - fastest)
  /\ (iRead <> LNBIGBUFFER -> (prev - fastest) * iRead < 2 ^ 64 ->
      d = (prev - fastest) * iRead / LNBIGBUFFER)
  /\ (fastest = 0 -> d = 0)
  /\ trace (world_of (copy_buffer bits dst szDest iRead buf c w))
     = trace w
       ++ (if truthy (giFaster (glob w)) then []
           else [ENanosleep (d / ONESECINNANO) (d mod ONESECINNANO)])
       ++ [EClock; EWrite dst buf; EClock].
Proof.
  intros prev fastest d.
  destruct Hinv as (H1 & H2 & H3).
  destruct (throttle_delay_props prev fastest iRead H1 H2 Hread)
    as (A & B & C & D).
  split; [unfold throttle_ok; simpl; lia|].
  split.
  { apply (ev_throttle (fun _ => True) w).
    - apply ev_TimedCopy. auto.
    - unfold throttle_ok. auto. }
  split.
  { intros Ht. apply (ev_throttle (fun _ => True) w).
    - apply ev_copy_buffer; [exact I | exact Ht | lia].
    - unfold throttle_ok. auto. }
  repeat (split; [assumption|]).
  split.
  { intros Hz. fold prev fastest in H3. specialize (H3 Hz).
    fold d in B. lia. }
  apply copy_buffer_trace.
Qed.

Lemma C5_throttle_delay_witness :
  throttle_delay 9000 4000 16384 = 2500
  /\ throttle_delay 9000 4000 LNBIGBUFFER = 5000
  /\ trace (world_of (copy_buffer 64 "d" "d" 16384 [1] 0 throttle_world))
     = [ENanosleep 0 2500; EClock; EWrite "d" [1]; EClock].
Proof.
  assert (Hinv : throttle_ok (glob throttle_world))
    by (unfold throttle_ok; simpl; lia).
  assert (Hr1 : 0 < 16384 <= LNBIGBUFFER) by (unfold LNBIGBUFFER; lia).
  assert (Hr2 : 0 < LNBIGBUFFER <= LNBIGBUFFER) by (unfold LNBIGBUFFER; lia).
  pose proof (C5_throttle_delay 64 1 TCPY_MODE_COPY "s/" "" "d/" "" "d" "d"
                16384 [1] 0 throttle_world Hinv Hr1) as T1.
  pose proof (C5_throttle_delay 64 1 TCPY_MODE_COPY "s/" "" "d/" "" "d" "d"
                LNBIGBUFFER [1] 0 throttle_world Hinv Hr2) as T2.
  cbv zeta in T1, T2.
  destruct T1 as (_ & _ & _ & _ & _ & _ & S1 & _ & Tr).
  destruct T2 as (_ & _ & _ & _ & _ & F2 & _).
  split; [exact (S1 ltac:(discriminate) ltac:(reflexivity))|].
  split; [exact (F2 eq_refl)|].
  exact Tr.
Defined.

(* ===================================================================== *)
(** ** The test run *)
(* ===================================================================== *)


(** In a test run the transfer of a differing pair is its log lines. *)
Lemma tcf_transfer_dry bits iExistDest sS sD sc dc src dst szS szD w :
  giTestRun (glob w) <> 0 ->
  differ sS sD sc dc = true ->
  tcf_transfer bits 0 iExistDest sS sD sc dc src dst szS szD w
  = Ret 0 (mkWorld (glob w) (env w)
             (trace w
              ++ (if truthy iExistDest
                  then [EPrint (line (delete_line sS sD sc dc szD))] else [])
              ++ [EPrint (line ("Copy " +:+ szS +:+ " to " +:+ szD));
                  EPrint (line ("Verify " +:+ szD))])).
Proof.
  intros Ht Hd. unfold tcf_transfer. rewrite Hd. cbn [truthy negb andb Z.eqb].
  unfold tcf_delete_dest, tcf_copy, tcf_verify_dest, bind, EchoPrint, printf,
    emit, gets, ret.
  assert (E : truthy (giTestRun (glob w)) = true).
  { unfold truthy. destruct (Z.eqb_spec (giTestRun (glob w)) 0); [contradiction | auto]. }
  destruct (truthy iExistDest);
    repeat (progress (cbn -[FilenameChecksum sys_unlink sys_open_rdonly
                            sys_creat copy_loop sys_utimensat file_data
                            sys_close String.append line tcf_copy_io
                            sz2_overrun];
                      rewrite ?E));
    step_overrun;
    repeat (progress (cbn -[FilenameChecksum sys_unlink sys_open_rdonly
                            sys_creat copy_loop sys_utimensat file_data
                            sys_close String.append line tcf_copy_io
                            sz2_overrun];
                      rewrite ?E));
    unfold add_event; cbn [glob env trace]; rewrite <- ?app_assoc;
    reflexivity.
Qed.



(* ===================================================================== *)
(** ** The circular-copy guard *)
(* ===================================================================== *)

(** Case analysis on every scrutinee of a hypothesis, innermost first. *)
Ltac crunch_in H :=
  repeat match type of H with
         | context [match ?x with _ => _ end] =>
             lazymatch x with
             | context [match _ with _ => _ end] => fail
             | _ => destruct x eqn:?; cbn in H
             end
         end.

Lemma sys_malloc_inv w b w1 :
  sys_malloc w = Ret b w1 ->
  glob w1 = glob w /\ fs (env w1) = fs (env w) /\ junk (env w1) = junk (env w)
  /\ trace w1 = trace w ++ [EMalloc].
Proof.
  intros H. unfold sys_malloc, pop_fault, set_errno_ret, bind, emit, put_env,
    ret in H. cbn in H. crunch_in H; inversion H; subst; cbn; auto.
Qed.

Lemma DirectoryExist_inv path buf w i st w1 :
  DirectoryExist path buf w = Ret (i, st) w1 ->
  glob w1 = glob w /\ fs (env w1) = fs (env w)
  /\ trace w1 = trace w ++ [EStat path]
  /\ (i <> 0 -> exists n, resolve (fs (env w)) path = inr n /\ st = stat_of n).
Proof.
  intros H. unfold DirectoryExist, sys_stat, pop_fault, set_errno_ret, bind,
    emit, put_env, get_env, ret in H. cbn in H.
  crunch_in H; inversion H; subst; cbn; repeat split; auto;
    intros Hi; try (exfalso; apply Hi; reflexivity); eauto.
Qed.

Lemma TimedCopy_circular bits fuel iMode sdir sfile ddir dfile w w1 w2 w3 i st :
  sys_malloc w = Ret true w1 ->
  sys_malloc w1 = Ret true w2 ->
  DirectoryExist sdir (junk (env w2)) w2 = Ret (i, st) w3 ->
  i <> 0 -> sdir <> ddir ->
  st_dev st = giSt_dev (glob w) -> st_ino st = giSt_ino (glob w) ->
  TimedCopy bits (S fuel) iMode sdir sfile ddir dfile w = Ret ERROR_TCPY_CIRC w3
  /\ trace w3 = trace w ++ [EMalloc; EMalloc; EStat sdir]
  /\ fs (env w3) = fs (env w).
Proof.
  intros H1 H2 H3 Hi Hne Hd Hino.
  destruct (sys_malloc_inv _ _ _ H1) as (G1 & F1 & J1 & T1).
  destruct (sys_malloc_inv _ _ _ H2) as (G2 & F2 & J2 & T2).
  destruct (DirectoryExist_inv _ _ _ _ _ _ H3) as (G3 & F3 & T3 & _).
  split; [|split].
  - cbn [TimedCopy]. unfold bind at 1. rewrite H1. unfold bind at 1. rewrite H2.
    cbn [andb negb].
    assert (E : String.eqb sdir ddir = false) by (apply String.eqb_neq; exact Hne).
    rewrite E. cbn [negb].
    unfold bind at 1. unfold resolve_dirs. unfold bind at 1, get_env at 1.
    unfold bind at 1. rewrite H3. unfold bind at 1, gets at 1.
    assert (Et : truthy i = true)
      by (unfold truthy; destruct (Z.eqb_spec i 0); [contradiction | auto]).
    rewrite Et. rewrite G3, G2, G1, Hd, Hino, !Z.eqb_refl. reflexivity.
  - rewrite T3, T2, T1, <- !app_assoc. reflexivity.
  - congruence.
Qed.

(** The destination root recorded by an unset guard. *)
Lemma resolve_dirs_records sdir ddir w w1 :
  ~ guard_set (glob w) ->
  resolve_dirs sdir ddir w = Ret 0 w1 ->
  exists n, resolve (fs (env w)) ddir = inr n
            /\ giSt_dev (glob w1) = i_dev n /\ giSt_ino (glob w1) = i_ino n.
Proof.
  intros Hg H. unfold guard_set in Hg.
  unfold resolve_dirs in H. unfold bind at 1, get_env at 1 in H.
  unfold bind at 1 in H.
  destruct (DirectoryExist sdir (junk (env w)) w) as [[i st] wa|] eqn:Ea;
    [|discriminate].
  destruct (DirectoryExist_inv _ _ _ _ _ _ Ea) as (Ga & Fa & _ & _).
  unfold bind at 1, gets at 1 in H.
  destruct (truthy i); [|discriminate].
  destruct ((st_dev st =? giSt_dev (id (glob wa)))
            && (st_ino st =? giSt_ino (id (glob wa)))); [discriminate|].
  cbn [truthy negb Z.eqb] in H. unfold bind at 1 in H.
  destruct (DirectoryExist ddir st wa) as [[i2 st2] wb|] eqn:Eb; [|discriminate].
  destruct (DirectoryExist_inv _ _ _ _ _ _ Eb) as (Gb & Fb & _ & Rb).
  destruct (truthy i2) eqn:Ei2; [|discriminate].
  destruct Rb as (n & Rn & ->).
  { intros ->. discriminate. }
  exists n. rewrite <- Fa. split; [exact Rn|].
  unfold bind, gets, when, puts, ret in H. unfold id in H.
  rewrite Gb, Ga in H.
  destruct (truthy (giSt_dev (glob w)) || truthy (giSt_ino (glob w)));
    [exfalso; apply Hg; reflexivity|].
  cbn in H. inversion H; subst. cbn. auto.
Qed.

(** An error of the call on a sub-directory is the error of the loop
    over the entries: no later entry is visited. *)
Lemma copy_entries_unwinds bits fuel iMode sdir ddir de rest w wv e w' :
  String.eqb (d_name de) "." = false ->
  String.eqb (d_name de) ".." = false ->
  strlen (d_name de) <= LNSZ ->
  Z.land (d_type de) DT_DIR = DT_DIR ->
  DirectoryValidate (with_slash (ddir +:+ d_name de)) None w = Ret 0 wv ->
  TimedCopy bits fuel iMode (with_slash (sdir +:+ d_name de)) ""
    (with_slash (ddir +:+ d_name de)) "" wv = Ret e w' ->
  e <> 0 ->
  copy_entries bits (fun s d => TimedCopy bits fuel iMode s "" d "") iMode
    sdir ddir (de :: rest) w = Ret e w'.
Proof.
  intros H1 H2 H3 H4 Hv Hr He.
  cbn [copy_entries]. unfold bind at 1, copy_entry.
  rewrite H1, H2. cbn [negb andb].
  destruct (Z.gtb_spec (strlen (d_name de)) LNSZ); [lia|].
  rewrite H4, Z.eqb_refl. unfold bind at 1. rewrite Hv.
  cbn [truthy Z.eqb negb]. rewrite Hr.
  assert (Et : truthy e = true)
    by (unfold truthy; destruct (Z.eqb_spec e 0); [contradiction | auto]).
  rewrite Et. reflexivity.
Qed.

(** An error of the loop over the entries is the error of the call:
    the mirror cleanup is skipped. *)
Lemma TimedCopy_unwinds bits fuel iMode sdir ddir w w1 w2 w3 entries w4 e w5 :
  sys_malloc w = Ret true w1 ->
  sys_malloc w1 = Ret true w2 ->
  sdir <> ddir ->
  resolve_dirs sdir ddir w2 = Ret 0 w3 ->
  sys_opendir sdir w3 = Ret (Some entries) w4 ->
  copy_entries bits (fun s d => TimedCopy bits fuel iMode s "" d "") iMode
    sdir ddir entries w4 = Ret e w5 ->
  e <> 0 ->
  TimedCopy bits (S fuel) iMode sdir "" ddir "" w = Ret e w5.
Proof.
  intros H1 H2 Hne H3 H4 H5 He.
  cbn [TimedCopy]. unfold bind at 1. rewrite H1. unfold bind at 1. rewrite H2.
  cbn [andb negb].
  assert (E : String.eqb sdir ddir = false) by (apply String.eqb_neq; exact Hne).
  rewrite E. cbn [negb]. unfold bind at 1. rewrite H3.
  cbn [truthy Z.eqb negb String.eqb]. unfold bind at 1. rewrite H4.
  unfold bind at 1. rewrite H5.
  unfold mirror_cleanup.
  assert (Et : truthy e = true)
    by (unfold truthy; destruct (Z.eqb_spec e 0); [contradiction | auto]).
  rewrite Et. reflexivity.
Qed.

(** C7, as stated, fails in its last part: when the walker meets the
    source directory [a/b] that matches the guard and aborts with the
    Circular error, the file [a/b/f] of that directory has already been
    written (it is the copy of [a/f], made by the enclosing level), and
    [a/b/b] has been created. *)
Lemma C7_file_written_before_circular_abort :
  exists w',
    TimedCopy 64 3 TCPY_MODE_COPY "a/" "" "a/b/" "" circ_world
    = Ret ERROR_TCPY_CIRC w'
    /\ (giSt_dev (glob w'), giSt_ino (glob w')) = (i_dev (dirnode 11), i_ino (dirnode 11))
    /\ trace w'
       = [EMalloc; EMalloc; EStat "a/"; EStat "a/b/"; EOpendir "a/";
          EStat "a/f"; EStat "a/b/f"; EPrint (line "Copy a/f to a/b/f");
          EOpen "a/f"; ECreat "a/b/f" 33188; ERead "a/f"; ENanosleep 0 0;
          EClock; EWrite "a/b/f" [1]; EClock; ESelect; EClose "a/b/f";
          EClose "a/f"; EUtimens "a/b/f" 5 0; EPrint (line "Verify a/b/f");
          EOpen "a/b/f"; ERead "a/b/f"; ESelect; EClose "a/b/f";
          EStat "a/b/b/"; EMalloc; EStat "a/b";
          EPrint (line "mkdir(a/b/b, Mode=040755)"); EMkdir "a/b/b" 16877;
          EStat "a/b/b"; EMalloc; EMalloc; EStat "a/b/"]
    /\ fs (env circ_world) !! "a/b/f" = None
    /\ fs (env w') !! "a/b/f" = Some (mkInode 33188 1 100 5 0 [1]).
Proof.
  eexists. split; [vm_compute; reflexivity|].
  split; [vm_compute; reflexivity|].
  split; [vm_compute; reflexivity|].
  split; vm_compute; reflexivity.
Qed.

(** C7 (amended): the guard is recorded at most once, from the first
    destination root resolved (an unset guard takes the identity of the
    destination directory just resolved), and a recorded guard is never
    overwritten, at any depth.  A call of the walker on a source
    directory whose identity equals the guard returns the Circular
    error at once: it has issued two allocations and one [stat], and
    has read or written nothing.  The error unwinds the run: the loop
    of the enclosing level visits no further entry and its mirror
    cleanup is skipped.  What the enclosing levels did before (files
    copied into the destination root, directories created) stays. *)
Theorem C7_traversal_guard bits fuel iMode sdir sfile ddir dfile w :
  (guard_set (glob w) ->
   let w' := world_of (TimedCopy bits fuel iMode sdir sfile ddir dfile w) in
   giSt_dev (glob w') = giSt_dev (glob w)
   /\ giSt_ino (glob w') = giSt_ino (glob w))
  /\ (~ guard_set (glob w) ->
      forall w1, resolve_dirs sdir ddir w = Ret 0 w1 ->
      exists n, resolve (fs (env w)) ddir = inr n
                /\ giSt_dev (glob w1) = i_dev n
                /\ giSt_ino (glob w1) = i_ino n)
  /\ (forall w1 w2 w3 i st,
      sys_malloc w = Ret true w1 ->
      sys_malloc w1 = Ret true w2 ->
      DirectoryExist sdir (junk (env w2)) w2 = Ret (i, st) w3 ->
      i <> 0 -> sdir <> ddir ->
      st_dev st = giSt_dev (glob w) -> st_ino st = giSt_ino (glob w) ->
      TimedCopy bits (S fuel) iMode sdir sfile ddir dfile w
      = Ret ERROR_TCPY_CIRC w3
      /\ trace w3 = trace w ++ [EMalloc; EMalloc; EStat sdir]
      /\ fs (env w3) = fs (env w))
  /\ (forall de rest wv e w',
      String.eqb (d_name de) "." = false ->
      String.eqb (d_name de) ".." = false ->
      strlen (d_name de) <= LNSZ ->
      Z.land (d_type de) DT_DIR = DT_DIR ->
      DirectoryValidate (with_slash (ddir +:+ d_name de)) None w = Ret 0 wv ->
      TimedCopy bits fuel iMode (with_slash (sdir +:+ d_name de)) ""
        (with_slash (ddir +:+ d_name de)) "" wv = Ret e w' ->
      e <> 0 ->
      copy_entries bits (fun s d => TimedCopy bits fuel iMode s "" d "") iMode
        sdir ddir (de :: rest) w = Ret e w')
  /\ (forall w1 w2 w3 entries w4 e w5,
      sys_malloc w = Ret true w1 ->
      sys_malloc w1 = Ret true w2 ->
      sdir <> ddir ->
      resolve_dirs sdir ddir w2 = Ret 0 w3 ->
      sys_opendir sdir w3 = Ret (Some entries) w4 ->
      copy_entries bits (fun s d => TimedCopy bits fuel iMode s "" d "") iMode
        sdir ddir entries w4 = Ret e w5 ->
      e <> 0 ->
      TimedCopy bits (S fuel) iMode sdir "" ddir "" w = Ret e w5).
Proof.
  split.
  { intros Hg w'.
    apply (ev_guard (fun _ => True) w w'); [|exact Hg].
    apply ev_TimedCopy. auto. }
  split; [intros Hg w1; apply resolve_dirs_records; exact Hg|].
  split; [intros; eapply TimedCopy_circular; eauto|].
  split; [intros; eapply copy_entries_unwinds; eauto|].
  intros; eapply TimedCopy_unwinds; eauto.
Qed.

Lemma C7_traversal_guard_witness :
  (giSt_dev (glob (world_of (TimedCopy 64 3 TCPY_MODE_COPY "a/" "" "c/" ""
                               guarded_world))) = 1
   /\ giSt_ino (glob (world_of (TimedCopy 64 3 TCPY_MODE_COPY "a/" "" "c/" ""
                                  guarded_world))) = 11)
  /\ exists w3,
       TimedCopy 64 1 TCPY_MODE_COPY "a/b/" "" "a/b/b/" "" guarded_world
       = Ret ERROR_TCPY_CIRC w3
       /\ trace w3 = [EMalloc; EMalloc; EStat "a/b/"]
       /\ fs (env w3) = circ_fs.
Proof.
  split.
  - destruct (C7_traversal_guard 64 3 TCPY_MODE_COPY "a/" "" "c/" ""
                guarded_world) as (A & _).
    apply A. reflexivity.
  - destruct (C7_traversal_guard 64 0 TCPY_MODE_COPY "a/b/" "" "a/b/b/" ""
                guarded_world) as (_ & _ & C & _).
    eexists.
    eapply (C _ _ _ 16384 (stat_of (dirnode 11)));
      try (vm_compute; reflexivity); discriminate.
Defined.

(* ===================================================================== *)
(** ** After an error *)
(* ===================================================================== *)

Ltac crunch_goal :=
  repeat match goal with
         | |- context [match ?x with _ => _ end] =>
             lazymatch x with
             | context [match _ with _ => _ end] => fail
             | _ => destruct x eqn:?; cbn
             end
         end.

Lemma truthy_neq x : x <> 0 -> truthy x = true.
Proof. intros H. unfold truthy. destruct (Z.eqb_spec x 0); [contradiction | auto]. Qed.

Lemma tcf_delete_source_error iMode iErr src szS szD w :
  iErr <> 0 -> tcf_delete_source iMode iErr src szS szD w = Ret iErr w.
Proof.
  intros H. unfold tcf_delete_source. rewrite (truthy_neq _ H). reflexivity.
Qed.

Lemma tcf_bookkeeping_error iErr w :
  iErr <> 0 -> tcf_bookkeeping iErr w = Ret iErr w.
Proof.
  intros H. unfold tcf_bookkeeping. rewrite (truthy_neq _ H). reflexivity.
Qed.

(* ===================================================================== *)
(** ** The absent destination *)
(* ===================================================================== *)

Lemma reg_bit m : Z.land m S_IFMT = S_IFREG -> Z.land m S_IFREG = S_IFREG.
Proof.
  intros H. change S_IFREG with (Z.land S_IFMT S_IFREG) at 1.
  rewrite Z.land_assoc, H. reflexivity.
Qed.

Lemma reg_not_dir n : Z.land (i_mode n) S_IFMT = S_IFREG -> is_dir n = false.
Proof. intros H. unfold is_dir. rewrite H. reflexivity. Qed.

Lemma resolve_absent (f : gmap string inode) p :
  f !! canon p = None -> resolve f p = inl ENOENT.
Proof. intros H. unfold resolve. rewrite H. reflexivity. Qed.

(** The counters and pacing pauses return 0 when no pause was asked. *)
Lemma tcf_bookkeeping_ok w :
  giPauseAfterVerif (glob w) = 0 ->
  exists w', tcf_bookkeeping 0 w = Ret 0 w' /\ fs (env w') = fs (env w).
Proof.
  intros H.
  unfold tcf_bookkeeping, bind, puts, gets, EchoPrint, printf, emit, when, ret.
  cbn. rewrite H. cbn.
  crunch_goal; eexists; split; reflexivity.
Qed.

Section EmptyEpochFile.

Variables (bits : Z) (src dst : string) (w : World) (n : inode).
Hypothesis Hflt : flt (env w) = [].
Hypothesis Hsrc : resolve (fs (env w)) src = inr n.
Hypothesis Hreg : Z.land (i_mode n) S_IFMT = S_IFREG.
Hypothesis Hsize : i_data n = [].
Hypothesis Hsec : i_mtim_sec n = 0.
Hypothesis Hnsec : i_mtim_nsec n = 0.
Hypothesis Hdst : fs (env w) !! canon dst = None.

Lemma tcf_probe_empty :
  tcf_probe bits src dst (StringShortner src (LNSZ - 80))
    (StringShortner dst (LNSZ - 80)) w
  = Ret (0, 0, stat_of n, zero_dest 0 (junk (env w)), 0, 0) (probed w src dst).
Proof.
  unfold tcf_probe, FilenameExist, sys_stat, pop_fault, set_errno_ret, bind,
    emit, get_env, put_env, puts, ret.
  cbn. rewrite Hflt. cbn. rewrite Hsrc. cbn.
  rewrite (reg_bit _ Hreg). cbn. rewrite Hflt. cbn.
  rewrite (resolve_absent _ _ Hdst). cbn.
  unfold tcf_compare. unfold stat_of at 1. cbn [st_size]. rewrite Hsize. cbn.
  unfold probed, add_event, upd_env. cbn. rewrite <- app_assoc. reflexivity.
Qed.

Lemma tcf_copy_verify_empty :
  tcf_copy_verify bits src dst w = Ret 0 (probed w src dst).
Proof.
  unfold tcf_copy_verify. cbv zeta. unfold bind.
  rewrite tcf_probe_empty. unfold tcf_transfer, differ, stat_of, zero_dest.
  cbn. rewrite Hsize, Hsec, Hnsec. reflexivity.
Qed.

Lemma TimedCopyFile_empty_copy iMode :
  giPauseAfterVerif (glob w) = 0 ->
  iMode <> TCPY_MODE_DEL \/ giTestRun (glob w) <> 0 ->
  exists w', TimedCopyFile bits iMode src dst w = Ret 0 w'
             /\ fs (env w') = fs (env w).
Proof.
  intros Hp Hm. unfold TimedCopyFile. cbv zeta. unfold bind at 1.
  rewrite tcf_copy_verify_empty. unfold bind at 1.
  assert (Hd : exists w2, tcf_delete_source iMode 0 src
                            (StringShortner src (LNSZ - 80))
                            (StringShortner dst (LNSZ - 80)) (probed w src dst)
                          = Ret 0 w2
                          /\ fs (env w2) = fs (env w)
                          /\ giPauseAfterVerif (glob w2) = 0).
  { unfold tcf_delete_source. cbn [truthy Z.eqb negb andb].
    destruct (Z.eqb_spec iMode TCPY_MODE_DEL) as [->|Hne].
    - destruct Hm as [Hm|Hm]; [contradiction|].
      unfold bind, EchoPrint, printf, emit, gets, ret. cbn.
      rewrite (truthy_neq _ Hm). cbn. eexists. split; [reflexivity|]. auto.
    - eexists. split; [reflexivity|]. auto. }
  destruct Hd as (w2 & -> & Hf & Hp2).
  destruct (tcf_bookkeeping_ok w2 Hp2) as (w' & -> & Hf').
  exists w'. split; [reflexivity | congruence].
Qed.

Lemma TimedCopyFile_empty_move :
  giPauseAfterVerif (glob w) = 0 ->
  giTestRun (glob w) = 0 ->
  exists w', TimedCopyFile bits TCPY_MODE_DEL src dst w = Ret 0 w'
             /\ fs (env w') = delete (canon src) (fs (env w)).
Proof.
  intros Hp Ht. unfold TimedCopyFile. cbv zeta. unfold bind at 1.
  rewrite tcf_copy_verify_empty. unfold bind at 1.
  assert (Hd : exists w2, tcf_delete_source TCPY_MODE_DEL 0 src
                            (StringShortner src (LNSZ - 80))
                            (StringShortner dst (LNSZ - 80)) (probed w src dst)
                          = Ret 0 w2
                          /\ fs (env w2) = delete (canon src) (fs (env w))
                          /\ giPauseAfterVerif (glob w2) = 0).
  { unfold tcf_delete_source, sys_unlink, pop_fault, set_errno_ret, bind,
      EchoPrint, printf, emit, gets, get_env, put_env, ret.
    cbn. rewrite Ht. cbn. rewrite Hflt. cbn. rewrite Hsrc.
    rewrite (reg_not_dir _ Hreg). cbn.
    eexists. split; [reflexivity|]. auto. }
  destruct Hd as (w2 & -> & Hf & Hp2).
  destruct (tcf_bookkeeping_ok w2 Hp2) as (w' & -> & Hf').
  exists w'. split; [reflexivity | congruence].
Qed.

End EmptyEpochFile.

(** C10: an absent destination is the zeroed snapshot (size 0, mtime
    0 s 0 ns); so for an empty source file whose modification time is
    (0 s, 0 ns) a missing destination compares equal on all four
    dimensions: the probe issues its two [stat] calls, the copy is
    skipped, the destination is never created and the function returns
    0; in Move mode the source is deleted all the same.  (No system
    call is made to fail and no pause after verification is pending.) *)
Theorem C10_empty_epoch_source_absent_dest bits iMode src dst w n
    (Hflt : flt (env w) = [])
    (Hsrc : resolve (fs (env w)) src = inr n)
    (Hreg : Z.land (i_mode n) S_IFMT = S_IFREG)
    (Hsize : i_data n = [])
    (Hsec : i_mtim_sec n = 0) (Hnsec : i_mtim_nsec n = 0)
    (Hdst : fs (env w) !! canon dst = None)
    (Hpause : giPauseAfterVerif (glob w) = 0) :
  (forall st, st_size (zero_dest 0 st) = 0
              /\ st_mtim_sec (zero_dest 0 st) = 0
              /\ st_mtim_nsec (zero_dest 0 st) = 0)
  /\ tcf_probe bits src dst (StringShortner src (LNSZ - 80))
       (StringShortner dst (LNSZ - 80)) w
     = Ret (0, 0, stat_of n, zero_dest 0 (junk (env w)), 0, 0)
           (probed w src dst)
  /\ differ (stat_of n) (zero_dest 0 (junk (env w))) 0 0 = false
  /\ tcf_copy_verify bits src dst w = Ret 0 (probed w src dst)
  /\ (exists w', TimedCopyFile bits iMode src dst w = Ret 0 w'
                 /\ fs (env w') !! canon dst = None
                 /\ (iMode = TCPY_MODE_DEL -> giTestRun (glob w) = 0 ->
                     fs (env w') !! canon src = None)
                 /\ (iMode <> TCPY_MODE_DEL \/ giTestRun (glob w) <> 0 ->
                     fs (env w') = fs (env w))).
Proof.
  split; [intros st; cbn; auto|].
  split; [eapply tcf_probe_empty; eassumption|].
  split; [unfold differ, stat_of, zero_dest; cbn; rewrite Hsize, Hsec, Hnsec;
          reflexivity|].
  split; [eapply tcf_copy_verify_empty; eassumption|].
  destruct (Z.eq_dec iMode TCPY_MODE_DEL) as [->|Hm].
  - destruct (Z.eq_dec (giTestRun (glob w)) 0) as [Ht|Ht].
    + destruct (TimedCopyFile_empty_move bits src dst w n Hflt Hsrc Hreg Hsize
                  Hsec Hnsec Hdst Hpause Ht) as (w' & E & Hf).
      exists w'. split; [exact E|]. rewrite Hf.
      split; [rewrite lookup_delete_None; auto|].
      split; [intros; apply lookup_delete_eq|].
      intros [H|H]; contradiction.
    + destruct (TimedCopyFile_empty_copy bits src dst w n Hflt Hsrc Hreg Hsize
                  Hsec Hnsec Hdst TCPY_MODE_DEL Hpause (or_intror Ht))
        as (w' & E & Hf).
      exists w'. split; [exact E|]. rewrite Hf.
      split; [exact Hdst|]. split; [intros; contradiction | auto].
  - destruct (TimedCopyFile_empty_copy bits src dst w n Hflt Hsrc Hreg Hsize
                Hsec Hnsec Hdst iMode Hpause (or_introl Hm)) as (w' & E & Hf).
    exists w'. split; [exact E|]. rewrite Hf.
    split; [exact Hdst|]. split; [intros; contradiction | auto].
Qed.

Lemma C10_empty_epoch_source_absent_dest_witness :
  exists w',
    TimedCopyFile 64 TCPY_MODE_DEL "src/e" "dst/e" epoch_world = Ret 0 w'
    /\ fs (env w') !! "dst/e" = None
    /\ fs (env w') !! "src/e" = None.
Proof.
  assert (Hsrc : resolve (fs (env epoch_world)) "src/e"
                 = inr (filenode 5 0 0 [])) by (vm_compute; reflexivity).
  assert (Hdst : fs (env epoch_world) !! canon "dst/e" = None)
    by (vm_compute; reflexivity).
  destruct (C10_empty_epoch_source_absent_dest 64 TCPY_MODE_DEL "src/e"
              "dst/e" epoch_world (filenode 5 0 0 []) eq_refl Hsrc eq_refl
              eq_refl eq_refl eq_refl Hdst eq_refl)
    as (_ & _ & _ & _ & w' & E & Hd & Hs & _).
  exists w'. split; [exact E|]. split; [exact Hd|].
  apply Hs; reflexivity.
Defined.

(* ===================================================================== *)
(** ** The decision to copy *)
(* ===================================================================== *)

Lemma string_app_assoc (a b c : string) : (a +:+ b) +:+ c = a +:+ (b +:+ c).
Proof.
  induction a as [|x a IH]; [reflexivity|].
  change (String x ((a +:+ b) +:+ c) = String x (a +:+ (b +:+ c))).
  rewrite IH. reflexivity.
Qed.

Lemma delete_line_words sS sD sc dc szD :
  delete_line sS sD sc dc szD
  = "Delete " +:+ szD +:+ " (diff"
    +:+ String.concat "" (diff_words sS sD sc dc) +:+ ")".
Proof.
  unfold delete_line, diff_words.
  destruct (negb (st_size sS =? st_size sD)),
    (negb (st_mtim_sec sS =? st_mtim_sec sD)),
    (negb (st_mtim_nsec sS =? st_mtim_nsec sD)), (negb (sc =? dc));
    cbn [app String.concat]; rewrite ?string_app_assoc; reflexivity.
Qed.

Lemma differ_false_iff sS sD sc dc :
  differ sS sD sc dc = false
  <-> (st_size sS = st_size sD /\ st_mtim_sec sS = st_mtim_sec sD
       /\ st_mtim_nsec sS = st_mtim_nsec sD /\ sc = dc).
Proof.
  unfold differ.
  destruct (Z.eqb_spec (st_size sS) (st_size sD)),
    (Z.eqb_spec (st_mtim_sec sS) (st_mtim_sec sD)),
    (Z.eqb_spec (st_mtim_nsec sS) (st_mtim_nsec sD)), (Z.eqb_spec sc dc);
    cbn; split; intros H; try discriminate; try tauto.
Qed.

(** The deletion of a stale destination: what it logs and calls. *)
Lemma tcf_delete_dest_spec iExistDest sS sD sc dc dst szD w :
  exists e w2,
    tcf_delete_dest iExistDest sS sD sc dc dst szD w = Ret e w2
    /\ trace w2
       = trace w
         ++ (if truthy iExistDest
             then EPrint (line (delete_line sS sD sc dc szD))
                  :: (if truthy (giTestRun (glob w)) then []
                      else [EUnlink dst])
             else [])
    /\ glob w2 = (if truthy e then upd_glob (set_gszErr (gszErr (glob w2))) w
                  else w).(glob)
    /\ (e = 0 -> truthy iExistDest = true -> giTestRun (glob w) = 0 ->
        fs (env w2) !! canon dst = None).
Proof.
  unfold tcf_delete_dest, sys_unlink, pop_fault, set_errno_ret, get_errno,
    bind, EchoPrint, printf, emit, gets, puts, put_env, get_env, ret.
  destruct (truthy iExistDest); cbn;
    [|eexists; eexists; split; [reflexivity|]; cbn;
      rewrite app_nil_r; repeat split; auto; discriminate].
  destruct (truthy (giTestRun (glob w))) eqn:Et; cbn.
  { eexists; eexists; split; [reflexivity|]; cbn. repeat split; auto.
    intros _ _ H. rewrite H in Et. discriminate. }
  crunch_goal; eexists; eexists; (split; [reflexivity|]); cbn;
    rewrite <- ?app_assoc; repeat split; auto; try discriminate;
    intros; apply lookup_delete_eq.
Qed.

(** A pair that was probed and compared without error: the copy is
    skipped exactly when the probe found size, mtime seconds, mtime
    nanoseconds and the two checksum variables equal, and then nothing
    happens after the probe.  When they differ, a destination that
    exists is deleted first: the log line naming each mismatched
    dimension, then the [unlink], come before anything else, and only
    then does the copy start with its own log line.  (In a test run the
    deletion and the copy are their log lines.) *)
Lemma transfer_after_probe bits src dst w iExistDest sS sD sc dc w1
    (Hprobe : tcf_probe bits src dst (StringShortner src (LNSZ - 80))
                (StringShortner dst (LNSZ - 80)) w
              = Ret (0, iExistDest, sS, sD, sc, dc) w1) :
  let szS := StringShortner src (LNSZ - 80) in
  let szD := StringShortner dst (LNSZ - 80) in
  let agree := st_size sS = st_size sD /\ st_mtim_sec sS = st_mtim_sec sD
               /\ st_mtim_nsec sS = st_mtim_nsec sD /\ sc = dc in
  let r := tcf_copy_verify bits src dst w in
  (agree -> r = Ret 0 w1)
  /\ (~ agree ->
      exists e w2,
        tcf_delete_dest iExistDest sS sD sc dc dst szD w1 = Ret e w2
        /\ trace w2
           = trace w1
             ++ (if truthy iExistDest
                 then EPrint (line (delete_line sS sD sc dc szD))
                      :: (if truthy (giTestRun (glob w1)) then []
                          else [EUnlink dst])
                 else [])
        /\ (e <> 0 -> r = Ret e w2)
        /\ (e = 0 ->
            (truthy iExistDest = true -> giTestRun (glob w1) = 0 ->
             fs (env w2) !! canon dst = None)
            /\ exists rest,
                 trace (world_of r)
                 = trace w2
                   ++ EPrint (line ("Copy " +:+ szS +:+ " to " +:+ szD))
                      :: rest)).
Proof.
  intros szS szD agree r.
  assert (Hr : r = tcf_transfer bits 0 iExistDest sS sD sc dc src dst szS szD w1).
  { unfold r, tcf_copy_verify. cbv zeta. unfold bind.
    rewrite Hprobe. reflexivity. }
  split.
  - intros Ha. rewrite Hr. unfold tcf_transfer.
    rewrite (proj2 (differ_false_iff sS sD sc dc) Ha). reflexivity.
  - intros Hna.
    assert (Hd : differ sS sD sc dc = true).
    { destruct (differ sS sD sc dc) eqn:E; [reflexivity|].
      exfalso. apply Hna. apply differ_false_iff. exact E. }
    destruct (tcf_delete_dest_spec iExistDest sS sD sc dc dst szD w1)
      as (e & w2 & Ed & Et & _ & Hfs).
    exists e, w2. split; [exact Ed|]. split; [exact Et|].
    assert (Hr2 : r = bind (if negb (truthy e)
                            then tcf_copy bits sS sc src dst szS szD
                            else ret (e, sc, dc))
                        (fun r => let '(iErr, iSourceChecksum, _) := r in
                                  if negb (truthy iErr)
                                  then tcf_verify_dest bits iSourceChecksum
                                         dst szD
                                  else ret iErr) w2).
    { rewrite Hr. unfold tcf_transfer. rewrite Hd. cbn [truthy Z.eqb negb andb].
      unfold bind at 1. rewrite Ed. reflexivity. }
    split.
    + intros He. rewrite Hr2, (truthy_neq _ He). cbn. rewrite (truthy_neq _ He).
      reflexivity.
    + intros ->. split; [apply Hfs; reflexivity|].
      rewrite Hr2. cbn [truthy Z.eqb negb].
      destruct (sz2_overrun_ret ("Copy " +:+ szS +:+ " to " +:+ szD) sc 0 w2)
        as (c & Ec & _).
      set (w3 := add_event
                   (EPrint (line ("Copy " +:+ szS +:+ " to " +:+ szD))) w2).
      set (k := fun r : Z * Z * Z =>
                  let '(iErr, iSourceChecksum, _) := r in
                  if negb (truthy iErr)
                  then tcf_verify_dest bits iSourceChecksum dst szD
                  else ret iErr).
      assert (Hev : evolves (fun p => p = dst) w3
                (world_of
                   (bind (bind (gets giTestRun)
                            (fun t => if truthy t then ret (0, c.1, 0)
                                      else tcf_copy_io bits sS c.1 0 src dst
                                             szS szD)) k w3))).
      { unfold k. walk'.
        - apply ev_tcf_copy_io; [reflexivity | flags_tac].
        - apply ev_tcf_verify_dest. reflexivity. }
      assert (Hw : bind (tcf_copy bits sS sc src dst szS szD) k w2
                   = bind (bind (gets giTestRun)
                             (fun t => if truthy t then ret (0, c.1, 0)
                                       else tcf_copy_io bits sS c.1 0 src dst
                                              szS szD)) k w3).
      { unfold tcf_copy, bind. fold szS szD. rewrite Ec. reflexivity. }
      rewrite Hw.
      destruct (ev_trace _ _ _ Hev) as (rest & Erest & _).
      exists rest. rewrite Erest. unfold w3. cbn. rewrite <- app_assoc.
      reflexivity.
Qed.

(* ===================================================================== *)
(** ** The mirror cleanup *)
(* ===================================================================== *)

Lemma shrinks_refl f : shrinks f f.
Proof. intros k. auto. Qed.

Lemma shrinks_trans f1 f2 f3 : shrinks f1 f2 -> shrinks f2 f3 -> shrinks f1 f3.
Proof.
  intros A B k. destruct (B k) as [E|E]; [|auto].
  rewrite E. apply A.
Qed.

Lemma shrinks_delete (f : gmap string inode) k : shrinks f (delete k f).
Proof.
  intros k'. destruct (decide (k = k')) as [->|Hne].
  - right. apply lookup_delete_eq.
  - left. apply lookup_delete_ne. exact Hne.
Qed.

Lemma resolve_ext (f f' : gmap string inode) p :
  f' !! canon p = f !! canon p -> resolve f' p = resolve f p.
Proof. intros H. unfold resolve. rewrite H. reflexivity. Qed.

Lemma no_regular_shrinks f f' p :
  shrinks f f' -> no_regular f p -> no_regular f' p.
Proof.
  intros Hs Hn ns Hr. destruct (Hs (canon p)) as [E|E].
  - apply Hn. rewrite <- (resolve_ext f f' p E). exact Hr.
  - unfold resolve in Hr. rewrite E in Hr. discriminate.
Qed.

Lemma removable_shrinks f f' p :
  shrinks f f' -> removable f p -> removable f' p.
Proof.
  intros Hs Hr. destruct (Hs (canon p)) as [E|E]; [|left; exact E].
  destruct Hr as [Hr|(nd & Hr & Hd)].
  - left. rewrite E. exact Hr.
  - right. exists nd. rewrite (resolve_ext f f' p E). auto.
Qed.

(** One entry of the cleanup never stops the run. *)
Lemma mirror_entry_returns sdir ddir de w :
  exists w', mirror_entry sdir ddir de w = Ret tt w'.
Proof.
  unfold mirror_entry, FilenameExist, sys_stat, sys_unlink, pop_fault,
    set_errno_ret, get_errno, bind, EchoPrint, printf, emit, gets, puts,
    put_env, get_env, ret.
  cbn. crunch_goal; eexists; reflexivity.
Qed.

Lemma mirror_entries_returns sdir ddir entries : forall w,
  exists w', mirror_entries sdir ddir entries w = Ret tt w'.
Proof.
  induction entries as [|de rest IH]; intros w; cbn [mirror_entries].
  - eexists. reflexivity.
  - destruct (mirror_entry_returns sdir ddir de w) as (w1 & E).
    unfold bind. rewrite E. apply IH.
Qed.

Lemma mirror_cleanup_returns iMode iErr sdir sfile ddir w :
  exists w', mirror_cleanup iMode iErr sdir sfile ddir w = Ret tt w'.
Proof.
  unfold mirror_cleanup.
  destruct (negb (truthy iErr) && (iMode =? TCPY_MODE_MIRROR)
            && String.eqb sfile ""); [|eexists; reflexivity].
  unfold bind.
  destruct (sys_opendir ddir w) as [[entries|] w1|h w1] eqn:E.
  - apply mirror_entries_returns.
  - eexists. reflexivity.
  - exfalso. revert E.
    unfold sys_opendir, pop_fault, set_errno_ret, bind, emit, put_env,
      get_env, ret.
    cbn. crunch_goal; discriminate.
Qed.

(** One entry of the cleanup when no call is made to fail, outside a
    test run. *)
Lemma mirror_entry_step sdir ddir de w :
  flt (env w) = [] -> giTestRun (glob w) = 0 ->
  exists w',
    mirror_entry sdir ddir de w = Ret tt w'
    /\ flt (env w') = [] /\ giTestRun (glob w') = 0
    /\ shrinks (fs (env w)) (fs (env w'))
    /\ (Z.land (d_type de) DT_REG = DT_REG ->
        no_regular (fs (env w)) (sdir +:+ d_name de) ->
        removable (fs (env w)) (ddir +:+ d_name de) ->
        fs (env w') !! canon (ddir +:+ d_name de) = None).
Proof.
  intros Hf Ht.
  unfold mirror_entry.
  destruct (Z.eqb_spec (Z.land (d_type de) DT_REG) DT_REG) as [Hreg|Hreg].
  2:{ exists w. split; [reflexivity|]. repeat split; auto using shrinks_refl.
      intros H. contradiction. }
  unfold FilenameExist, sys_stat, sys_unlink, pop_fault, set_errno_ret,
    get_errno, bind, EchoPrint, printf, emit, gets, puts, put_env, get_env,
    ret.
  cbn. rewrite Hf. cbn.
  destruct (resolve (fs (env w)) (sdir +:+ d_name de)) as [en|ns] eqn:Es; cbn.
  - rewrite Ht. cbn. rewrite Hf. cbn.
    destruct (resolve (fs (env w)) (ddir +:+ d_name de)) as [en2|nd] eqn:Ed;
      cbn.
    + eexists. split; [reflexivity|]. cbn.
      repeat split; auto using shrinks_refl.
      intros _ _ [Hr|(nd & Hr & _)]; [exact Hr | congruence].
    + destruct (is_dir nd) eqn:Edir; cbn.
      * eexists. split; [reflexivity|]. cbn.
        repeat split; auto using shrinks_refl.
        intros _ _ [Hr|(nd' & Hr & Hd')]; [exact Hr | congruence].
      * eexists. split; [reflexivity|]. cbn.
        repeat split; auto using shrinks_delete.
        intros. apply lookup_delete_eq.
  - destruct (truthy (Z.land (i_mode ns) S_IFREG)) eqn:Er; cbn.
    + eexists. split; [reflexivity|].
      cbn. repeat split; auto using shrinks_refl.
      intros _ Hn _. specialize (Hn ns Es). rewrite Hn in Er. discriminate.
    + rewrite Ht. cbn. rewrite Hf. cbn.
      destruct (resolve (fs (env w)) (ddir +:+ d_name de)) as [en2|nd] eqn:Ed;
        cbn.
      * eexists. split; [reflexivity|]. cbn.
        repeat split; auto using shrinks_refl.
        intros _ _ [Hr|(nd & Hr & _)]; [exact Hr | congruence].
      * destruct (is_dir nd) eqn:Edir; cbn.
        -- eexists. split; [reflexivity|]. cbn.
           repeat split; auto using shrinks_refl.
           intros _ _ [Hr|(nd' & Hr & Hd')]; [exact Hr | congruence].
        -- eexists. split; [reflexivity|]. cbn.
           repeat split; auto using shrinks_delete.
           intros. apply lookup_delete_eq.
Qed.

Lemma mirror_entries_deletes sdir ddir entries : forall w,
  flt (env w) = [] -> giTestRun (glob w) = 0 ->
  exists w',
    mirror_entries sdir ddir entries w = Ret tt w'
    /\ shrinks (fs (env w)) (fs (env w'))
    /\ (forall de, In de entries ->
        Z.land (d_type de) DT_REG = DT_REG ->
        no_regular (fs (env w)) (sdir +:+ d_name de) ->
        removable (fs (env w)) (ddir +:+ d_name de) ->
        fs (env w') !! canon (ddir +:+ d_name de) = None).
Proof.
  induction entries as [|d0 rest IH]; intros w Hf Ht; cbn [mirror_entries].
  - exists w. split; [reflexivity|]. split; [apply shrinks_refl|].
    intros de [].
  - destruct (mirror_entry_step sdir ddir d0 w Hf Ht)
      as (w1 & E1 & Hf1 & Ht1 & Hs1 & Hdel1).
    destruct (IH w1 Hf1 Ht1) as (w' & E' & Hs' & Hdel').
    exists w'. unfold bind. rewrite E1. split; [exact E'|].
    split; [eapply shrinks_trans; eauto|].
    intros de [<-|Hin] Hreg Hn Hr.
    + destruct (Hs' (canon (ddir +:+ d_name d0))) as [E|E]; [|exact E].
      rewrite E. apply Hdel1; assumption.
    + apply Hdel'; auto.
      * eapply no_regular_shrinks; eauto.
      * eapply removable_shrinks; eauto.
Qed.

(** The cleanup of a whole directory when no call is made to fail,
    outside a test run. *)
Lemma mirror_cleanup_deletes sdir ddir w dn de :
  flt (env w) = [] -> giTestRun (glob w) = 0 ->
  resolve (fs (env w)) ddir = inr dn -> is_dir dn = true ->
  In de (dir_entries (fs (env w)) (canon ddir)) ->
  Z.land (d_type de) DT_REG = DT_REG ->
  no_regular (fs (env w)) (sdir +:+ d_name de) ->
  removable (fs (env w)) (ddir +:+ d_name de) ->
  exists w',
    mirror_cleanup TCPY_MODE_MIRROR 0 sdir "" ddir w = Ret tt w'
    /\ shrinks (fs (env w)) (fs (env w'))
    /\ fs (env w') !! canon (ddir +:+ d_name de) = None.
Proof.
  intros Hf Ht Hd Hdir Hin Hreg Hn Hr.
  unfold mirror_cleanup. cbn [truthy Z.eqb negb andb String.eqb].
  unfold sys_opendir, pop_fault, set_errno_ret, bind at 1 2 3 4, emit, get_env,
    ret.
  cbn. rewrite Hf. cbn. rewrite Hd, Hdir.
  destruct (mirror_entries_deletes sdir ddir
              (dir_entries (fs (env w)) (canon ddir))
              (add_event (EOpendir ddir) w) Hf Ht) as (w' & E & Hs & Hdel).
  exists w'. split; [exact E|]. split; [exact Hs|].
  apply Hdel; assumption.
Qed.

(** The cleanup starts from the world the copy pass leaves. *)
Lemma TimedCopy_mirror_after_copy bits fuel sdir ddir w w1 w2 w3 entries w4 w5 :
  sys_malloc w = Ret true w1 ->
  sys_malloc w1 = Ret true w2 ->
  sdir <> ddir ->
  resolve_dirs sdir ddir w2 = Ret 0 w3 ->
  sys_opendir sdir w3 = Ret (Some entries) w4 ->
  copy_entries bits
    (fun s d => TimedCopy bits fuel TCPY_MODE_MIRROR s "" d "")
    TCPY_MODE_MIRROR sdir ddir entries w4 = Ret 0 w5 ->
  TimedCopy bits (S fuel) TCPY_MODE_MIRROR sdir "" ddir "" w
  = bind (mirror_cleanup TCPY_MODE_MIRROR 0 sdir "" ddir) (fun _ => ret 0) w5.
Proof.
  intros H1 H2 Hne H3 H4 H5.
  cbn [TimedCopy]. unfold bind at 1. rewrite H1. unfold bind at 1. rewrite H2.
  cbn [andb negb].
  assert (E : String.eqb sdir ddir = false) by (apply String.eqb_neq; exact Hne).
  rewrite E. cbn [negb]. unfold bind at 1. rewrite H3.
  cbn [truthy Z.eqb negb String.eqb]. unfold bind at 1. rewrite H4.
  unfold bind at 1. rewrite H5. reflexivity.
Qed.

(** With an explicit source file the mode matters only for Move. *)
Lemma TimedCopyFile_mirror_is_copy bits src dst w :
  TimedCopyFile bits TCPY_MODE_MIRROR src dst w
  = TimedCopyFile bits TCPY_MODE_COPY src dst w.
Proof.
  unfold TimedCopyFile. cbv zeta. unfold bind.
  destruct (tcf_copy_verify bits src dst w) as [a w1|]; [|reflexivity].
  unfold tcf_delete_source. cbn [Z.eqb TCPY_MODE_MIRROR TCPY_MODE_COPY
    TCPY_MODE_DEL Pos.eqb]. rewrite !andb_false_r. reflexivity.
Qed.

Lemma TimedCopy_single_file_mirror bits fuel sdir sfile ddir dfile w :
  sfile <> "" ->
  TimedCopy bits fuel TCPY_MODE_MIRROR sdir sfile ddir dfile w
  = TimedCopy bits fuel TCPY_MODE_COPY sdir sfile ddir dfile w.
Proof.
  intros Hs. destruct fuel as [|fuel]; [reflexivity|].
  assert (E : String.eqb sfile "" = false) by (apply String.eqb_neq; exact Hs).
  cbn [TimedCopy]. rewrite E. cbn [negb]. unfold bind.
  destruct (sys_malloc w) as [a w1|]; [|reflexivity].
  destruct (sys_malloc w1) as [b w2|]; [|reflexivity].
  destruct (negb (a && b)); [reflexivity|].
  destruct (negb (String.eqb sdir ddir)).
  - destruct (resolve_dirs sdir ddir w2) as [e w3|]; [|reflexivity].
    destruct (negb (truthy e)); [|reflexivity].
    apply TimedCopyFile_mirror_is_copy.
  - destruct (negb (String.eqb sfile dfile)); [|reflexivity].
    apply TimedCopyFile_mirror_is_copy.
Qed.

Lemma mirror_cleanup_skipped iMode iErr sdir sfile ddir w :
  sfile <> "" \/ iMode <> TCPY_MODE_MIRROR \/ iErr <> 0 ->
  mirror_cleanup iMode iErr sdir sfile ddir w = Ret tt w.
Proof.
  intros H. unfold mirror_cleanup.
  replace (negb (truthy iErr) && (iMode =? TCPY_MODE_MIRROR)
           && String.eqb sfile "") with false; [reflexivity|].
  symmetry. destruct H as [H|[H|H]].
  - apply String.eqb_neq in H. rewrite H. apply andb_false_r.
  - apply Z.eqb_neq in H. rewrite H, andb_false_r. reflexivity.
  - rewrite (truthy_neq _ H). reflexivity.
Qed.

(** A deletion that fails is a warning, and the loop goes on. *)
Lemma mirror_entry_unlink_fails sdir ddir de w en rest :
  giTestRun (glob w) = 0 ->
  flt (env w) = NoFault :: Fail en :: rest ->
  Z.land (d_type de) DT_REG = DT_REG ->
  no_regular (fs (env w)) (sdir +:+ d_name de) ->
  exists w',
    mirror_entry sdir ddir de w = Ret tt w'
    /\ fs (env w') = fs (env w)
    /\ exists stat_events,
         trace w'
         = trace w ++ stat_events
           ++ [EPrint (line ("Delete "
                 +:+ StringShortner (ddir +:+ d_name de) (LNSZ - 30)));
               EUnlink (ddir +:+ d_name de);
               EPrint (nl +:+ "WARNING: Failed to delete "
                 +:+ StringShortner (ddir +:+ d_name de) (LNSZ - 30) +:+ nl)].
Proof.
  intros Ht Hf Hreg Hn.
  unfold mirror_entry. rewrite Hreg, Z.eqb_refl.
  unfold FilenameExist, sys_stat, sys_unlink, pop_fault, set_errno_ret,
    get_errno, bind, EchoPrint, printf, emit, gets, puts, put_env, get_env,
    ret.
  cbn. rewrite Hf. cbn.
  destruct (resolve (fs (env w)) (sdir +:+ d_name de)) as [e2|ns] eqn:Es; cbn.
  - rewrite Ht. cbn. eexists. split; [reflexivity|]. cbn.
    split; [reflexivity|]. exists [EStat (sdir +:+ d_name de)].
    rewrite <- !app_assoc. reflexivity.
  - rewrite (Hn ns Es). cbn. rewrite Ht. cbn.
    eexists. split; [reflexivity|]. cbn.
    split; [reflexivity|]. exists [EStat (sdir +:+ d_name de)].
    rewrite <- !app_assoc. reflexivity.
Qed.

(** An entry whose source counterpart is a regular file is only probed. *)
Lemma mirror_entry_keeps sdir ddir de w ns :
  flt (env w) = [] ->
  resolve (fs (env w)) (sdir +:+ d_name de) = inr ns ->
  Z.land (i_mode ns) S_IFREG <> 0 ->
  exists w', mirror_entry sdir ddir de w = Ret tt w'
             /\ fs (env w') = fs (env w).
Proof.
  intros Hf Hs Hr. unfold mirror_entry.
  destruct (Z.land (d_type de) DT_REG =? DT_REG);
    [|eexists; split; reflexivity].
  unfold FilenameExist, sys_stat, pop_fault, bind, emit, get_env, ret.
  cbn. rewrite Hf. cbn. rewrite Hs. cbn. rewrite (truthy_neq _ Hr). cbn.
  eexists. split; reflexivity.
Qed.

(** C8: in Mirror mode on a whole directory the cleanup runs after the
    copy pass of that directory, from the world that pass leaves; it
    re-enumerates the destination directory and deletes every regular
    file of it that has no regular file of the same name in the source
    (when no call is made to fail, outside a test run), while an entry
    with such a counterpart is only probed.  A deletion that fails
    prints a warning and the loop goes on: the cleanup always returns,
    and has no error code to return.  With an explicit source file
    there is no cleanup at all: Mirror mode then runs exactly as Copy
    mode. *)
Theorem C8_mirror_cleanup bits fuel iMode iErr sdir sfile ddir dfile w :
  (exists w', mirror_cleanup iMode iErr sdir sfile ddir w = Ret tt w')
  /\ (sfile <> "" ->
      mirror_cleanup iMode iErr sdir sfile ddir w = Ret tt w
      /\ TimedCopy bits fuel TCPY_MODE_MIRROR sdir sfile ddir dfile w
         = TimedCopy bits fuel TCPY_MODE_COPY sdir sfile ddir dfile w)
  /\ (iMode <> TCPY_MODE_MIRROR \/ iErr <> 0 ->
      mirror_cleanup iMode iErr sdir sfile ddir w = Ret tt w)
  /\ (forall dn de,
      flt (env w) = [] -> giTestRun (glob w) = 0 ->
      resolve (fs (env w)) ddir = inr dn -> is_dir dn = true ->
      In de (dir_entries (fs (env w)) (canon ddir)) ->
      Z.land (d_type de) DT_REG = DT_REG ->
      no_regular (fs (env w)) (sdir +:+ d_name de) ->
      removable (fs (env w)) (ddir +:+ d_name de) ->
      exists w',
        mirror_cleanup TCPY_MODE_MIRROR 0 sdir "" ddir w = Ret tt w'
        /\ shrinks (fs (env w)) (fs (env w'))
        /\ fs (env w') !! canon (ddir +:+ d_name de) = None)
  /\ (forall de ns,
      flt (env w) = [] ->
      resolve (fs (env w)) (sdir +:+ d_name de) = inr ns ->
      Z.land (i_mode ns) S_IFREG <> 0 ->
      exists w', mirror_entry sdir ddir de w = Ret tt w'
                 /\ fs (env w') = fs (env w))
  /\ (forall w1 w2 w3 entries w4 w5,
      sys_malloc w = Ret true w1 ->
      sys_malloc w1 = Ret true w2 ->
      sdir <> ddir ->
      resolve_dirs sdir ddir w2 = Ret 0 w3 ->
      sys_opendir sdir w3 = Ret (Some entries) w4 ->
      copy_entries bits
        (fun s d => TimedCopy bits fuel TCPY_MODE_MIRROR s "" d "")
        TCPY_MODE_MIRROR sdir ddir entries w4 = Ret 0 w5 ->
      TimedCopy bits (S fuel) TCPY_MODE_MIRROR sdir "" ddir "" w
      = bind (mirror_cleanup TCPY_MODE_MIRROR 0 sdir "" ddir)
             (fun _ => ret 0) w5)
  /\ (forall de en rest,
      giTestRun (glob w) = 0 ->
      flt (env w) = NoFault :: Fail en :: rest ->
      Z.land (d_type de) DT_REG = DT_REG ->
      no_regular (fs (env w)) (sdir +:+ d_name de) ->
      exists w',
        mirror_entry sdir ddir de w = Ret tt w'
        /\ fs (env w') = fs (env w)
        /\ exists stat_events,
             trace w'
             = trace w ++ stat_events
               ++ [EPrint (line ("Delete "
                     +:+ StringShortner (ddir +:+ d_name de) (LNSZ - 30)));
                   EUnlink (ddir +:+ d_name de);
                   EPrint (nl +:+ "WARNING: Failed to delete "
                     +:+ StringShortner (ddir +:+ d_name de) (LNSZ - 30)
                     +:+ nl)]).
Proof.
  split; [apply mirror_cleanup_returns|].
  split.
  { intros Hs. split; [apply mirror_cleanup_skipped; auto|].
    apply TimedCopy_single_file_mirror. exact Hs. }
  split; [intros H; apply mirror_cleanup_skipped; auto|].
  split; [intros; eapply mirror_cleanup_deletes; eauto|].
  split; [intros; eapply mirror_entry_keeps; eauto|].
  split; [intros; eapply TimedCopy_mirror_after_copy; eauto|].
  intros. eapply mirror_entry_unlink_fails; eauto.
Qed.

Lemma C8_mirror_cleanup_witness :
  (exists w',
     mirror_cleanup TCPY_MODE_MIRROR 0 "src/" "" "dst/" mirror_world = Ret tt w'
     /\ fs (env w') !! "dst/c" = None)
  /\ exists w',
       TimedCopy 64 2 TCPY_MODE_MIRROR "src/" "" "dst/" "" mirror_world
       = Ret 0 w'
       /\ map_to_list (fs (env w'))
          = [("src/a", filenode 5 50 7 [1; 2; 3]);
             ("src/b", filenode 6 60 7 [4; 5]); ("src", dirnode 3);
             ("dst/a", filenode 8 50 7 [1; 2; 3]);
             ("dst/b", filenode 9 60 7 [4; 5]); ("dst", dirnode 7)].
Proof.
  split.
  - destruct (C8_mirror_cleanup 64 2 TCPY_MODE_MIRROR 0 "src/" "" "dst/" ""
                mirror_world) as (_ & _ & _ & D & _).
    destruct (D (dirnode 7) (mkDirent "c" 8)) as (w' & E & _ & Hgone);
      try (vm_compute; reflexivity).
    + vm_compute. auto 10.
    + intros ns H. vm_compute in H. discriminate.
    + right. exists (filenode 10 70 7 [6]). split; vm_compute; reflexivity.
    + exists w'. split; [exact E | exact Hgone].
  - eexists. split; vm_compute; reflexivity.
Defined.

(* ===================================================================== *)
(** ** Further properties of the program *)
(* ===================================================================== *)

(** *** Strings as lists of characters *)

Lemma chars_app (a b : string) : chars (a +:+ b) = chars a ++ chars b.
Proof.
  induction a as [|c a IH]; [reflexivity|].
  change (String c a +:+ b) with (String c (a +:+ b)).
  cbn [String.list_ascii_of_string]. rewrite IH. reflexivity.
Qed.

Lemma chars_length (s : string) : String.length s = length (chars s).
Proof. induction s as [|c s IH]; [reflexivity|]. cbn. rewrite IH. reflexivity. Qed.

Lemma chars_inj (a b : string) : chars a = chars b -> a = b.
Proof.
  intros H. rewrite <- (String.string_of_list_ascii_of_string a),
    <- (String.string_of_list_ascii_of_string b), H. reflexivity.
Qed.

Lemma chars_substring (s : string) : forall n m,
  chars (String.substring n m s) = take m (drop n (chars s)).
Proof.
  induction s as [|c s IH]; intros n m.
  - destruct n, m; reflexivity.
  - destruct n as [|n].
    + destruct m as [|m]; [reflexivity|]. cbn. rewrite IH. reflexivity.
    + cbn. apply IH.
Qed.

Lemma chars_get (s : string) : forall n, String.get n s = chars s !! n.
Proof.
  induction s as [|c s IH]; intros n.
  - destruct n; reflexivity.
  - destruct n as [|n]; [reflexivity|]. cbn. apply IH.
Qed.

Lemma strlen_app (a b : string) : strlen (a +:+ b) = strlen a + strlen b.
Proof.
  unfold strlen. rewrite !chars_length, chars_app, length_app. lia.
Qed.

Lemma strlen_nonneg s : 0 <= strlen s.
Proof. unfold strlen. lia. Qed.

Lemma strlen_substr n m s :
  (n + m <= String.length s)%nat -> strlen (substr n m s) = Z.of_nat m.
Proof.
  intros H. unfold strlen, substr.
  rewrite chars_length, chars_substring, length_take, length_drop.
  rewrite chars_length in H. lia.
Qed.

(** *** [StringShortner] *)

Lemma kept_range i iMax :
  5 <= iMax -> iMax <= i ->
  0 <= kept i iMax /\ 2 * kept i iMax + 5 <= i
  /\ 2 * kept i iMax + 5 <= iMax + 5 /\ iMax - 1 <= 2 * kept i iMax + 5.
Proof.
  intros H5 Hi. unfold kept.
  destruct (Z.leb_spec i (iMax + 5)).
  - pose proof (Z.quot_rem' (iMax - 5) 2).
    pose proof (Z.rem_bound_pos (iMax - 5) 2 ltac:(lia) ltac:(lia)).
    lia.
  - pose proof (Z.quot_rem' iMax 2).
    pose proof (Z.rem_bound_pos iMax 2 ltac:(lia) ltac:(lia)).
    lia.
Qed.

Lemma StringShortner_long pLongSz iMax :
  iMax <= strlen pLongSz ->
  StringShortner pLongSz iMax
  = substr 0 (Z.to_nat (kept (strlen pLongSz) iMax)) pLongSz +:+ " ... "
    +:+ substr (Z.to_nat (strlen pLongSz - kept (strlen pLongSz) iMax))
          (Z.to_nat (kept (strlen pLongSz) iMax)) pLongSz.
Proof.
  intros H. unfold StringShortner, kept.
  destruct (Z.ltb_spec (strlen pLongSz) iMax); [lia|]. reflexivity.
Qed.

Lemma StringShortner_cases (pLongSz : string) (iMax : Z) :
  5 <= iMax ->
  (strlen pLongSz < iMax -> StringShortner pLongSz iMax = pLongSz)
  /\ (iMax <= strlen pLongSz ->
      exists head middle tail_,
        pLongSz = head +:+ middle +:+ tail_
        /\ StringShortner pLongSz iMax = head +:+ " ... " +:+ tail_
        /\ strlen head = strlen tail_
        /\ strlen head = kept (strlen pLongSz) iMax
        /\ 5 <= strlen middle).
Proof.
  intros H5. split.
  { intros H. unfold StringShortner.
    destruct (Z.ltb_spec (strlen pLongSz) iMax); [reflexivity | lia]. }
  intros H. rewrite (StringShortner_long _ _ H).
  destruct (kept_range (strlen pLongSz) iMax H5 H) as (K0 & K1 & K2 & K3).
  set (k := kept (strlen pLongSz) iMax) in *.
  set (i := strlen pLongSz) in *.
  assert (Hi : i = Z.of_nat (String.length pLongSz)) by reflexivity.
  exists (substr 0 (Z.to_nat k) pLongSz),
         (substr (Z.to_nat k) (Z.to_nat (i - 2 * k)) pLongSz),
         (substr (Z.to_nat (i - k)) (Z.to_nat k) pLongSz).
  split.
  { apply chars_inj. rewrite !chars_app. unfold substr.
    rewrite !chars_substring. rewrite drop_0.
    rewrite <- (take_drop (Z.to_nat k) (chars pLongSz)) at 1.
    f_equal.
    rewrite <- (take_drop (Z.to_nat (i - 2 * k)) (drop (Z.to_nat k) (chars pLongSz))) at 1.
    f_equal. rewrite drop_drop.
    replace (Z.to_nat k + Z.to_nat (i - 2 * k))%nat with (Z.to_nat (i - k)) by lia.
    symmetry. apply take_ge. rewrite length_drop, <- chars_length. lia. }
  split; [reflexivity|].
  rewrite !strlen_substr by lia.
  repeat split; lia.
Qed.

(** X1: [StringShortner] returns a name shorter than [iMax] as it is; a
    longer one is cut down to its first and its last [kept] characters
    around the five characters of the dots separator, and loses five
    characters or more.  The result is never longer than the name nor
    than [iMax + 5] characters, so it fits a buffer of [LNSZ]
    characters whenever [iMax <= LNSZ - 6]. *)
Theorem X1_StringShortner_shape (pLongSz : string) (iMax : Z)
    (H5 : 5 <= iMax) :
  (strlen pLongSz < iMax -> StringShortner pLongSz iMax = pLongSz)
  /\ (iMax <= strlen pLongSz ->
      exists head middle tail_,
        pLongSz = head +:+ middle +:+ tail_
        /\ StringShortner pLongSz iMax = head +:+ " ... " +:+ tail_
        /\ strlen head = strlen tail_
        /\ strlen head = kept (strlen pLongSz) iMax
        /\ 5 <= strlen middle)
  /\ strlen (StringShortner pLongSz iMax) <= strlen pLongSz
  /\ strlen (StringShortner pLongSz iMax) <= iMax + 5
  /\ (iMax <= LNSZ - 6 -> strlen (StringShortner pLongSz iMax) < LNSZ).
Proof.
  destruct (StringShortner_cases pLongSz iMax H5) as (Hshort & Hlong).
  split; [exact Hshort|]. split; [exact Hlong|].
  destruct (Z.lt_ge_cases (strlen pLongSz) iMax) as [Hlt|Hge].
  - rewrite (Hshort Hlt). unfold LNSZ. repeat split; lia.
  - destruct (Hlong Hge) as (h & m & t & E1 & E2 & L1 & L2 & L3).
    destruct (kept_range (strlen pLongSz) iMax H5 Hge) as (K0 & K1 & K2 & K3).
    rewrite E2, !strlen_app. change (strlen " ... ") with 5.
    unfold LNSZ. repeat split; lia.
Qed.

Lemma X1_StringShortner_shape_witness :
  StringShortner "abcdefghijklmnopqrstuvwxyz" 12 = "abcdef ... uvwxyz"
  /\ strlen (StringShortner "abcdefghijklmnopqrstuvwxyz" 12) <= 12 + 5.
Proof.
  assert (H5 : 5 <= 12) by lia.
  destruct (X1_StringShortner_shape "abcdefghijklmnopqrstuvwxyz" 12 H5)
    as (_ & _ & _ & Hb & _).
  split; [vm_compute; reflexivity | exact Hb].
Defined.

Lemma StringShortner_keeps n s iMax :
  5 <= iMax -> n <= iMax - 1 -> n <= strlen s ->
  n <= strlen (StringShortner s iMax).
Proof.
  intros H5 Hn Hs.
  destruct (StringShortner_cases s iMax H5) as (Hshort & Hlong).
  destruct (Z.lt_ge_cases (strlen s) iMax) as [Hlt|Hge].
  - rewrite (Hshort Hlt). exact Hs.
  - destruct (Hlong Hge) as (h & m & t & E1 & E2 & L1 & L2 & L3).
    destruct (kept_range (strlen s) iMax H5 Hge) as (K0 & K1 & K2 & K3).
    rewrite E2, !strlen_app. change (strlen " ... ") with 5. lia.
Qed.

(** X2: the line [Copy <source> to <destination>] that [TimedCopyFile]
    formats into [sz2] has [LNSZ] characters or more, hence does not
    fit [sz2] with its final NUL, as soon as both names have 146
    characters: each name is shortened to [LNSZ - 80] characters, not
    to what the buffer has left. *)
Theorem X2_copy_line_exceeds_buffer bits sS sc src dst w
    (Hs : 146 <= strlen src) (Hd : 146 <= strlen dst) :
  exists text rest,
    trace (world_of (tcf_copy bits sS sc src dst
                       (StringShortner src (LNSZ - 80))
                       (StringShortner dst (LNSZ - 80)) w))
    = trace w ++ EPrint (line text) :: rest
    /\ text = "Copy " +:+ StringShortner src (LNSZ - 80) +:+ " to "
              +:+ StringShortner dst (LNSZ - 80)
    /\ LNSZ <= strlen text.
Proof.
  eexists. 
  pose proof (ev_trace _ _ _
    (ev_tcf_copy bits (fun _ => True) dst I sS sc src
       (StringShortner src (LNSZ - 80)) (StringShortner dst (LNSZ - 80)) w))
    as (evs & E & _).
  assert (Hfirst : exists rest, evs = EPrint (line ("Copy " +:+ StringShortner src (LNSZ - 80) +:+ " to "
              +:+ StringShortner dst (LNSZ - 80))) :: rest).
  { revert E. unfold tcf_copy. cbv zeta.
    destruct (sz2_overrun_ret
                ("Copy " +:+ StringShortner src (LNSZ - 80) +:+ " to "
                 +:+ StringShortner dst (LNSZ - 80)) sc 0 w) as (c & Ec & _).
    unfold bind at 1. rewrite Ec.
    unfold bind at 1. unfold EchoPrint at 1, printf, emit.
    set (w1 := add_event _ w).
    intros E.
    assert (E1 : exists r, trace (world_of ((t <- gets giTestRun;;
            (if truthy t
             then ret (0, c.1, 0)
             else
              tcf_copy_io bits sS c.1 0 src dst (StringShortner src (LNSZ - 80))
                (StringShortner dst (LNSZ - 80)))) w1)) = trace w1 ++ r).
    { unfold bind, gets.
      destruct (truthy (giTestRun (glob w1))) eqn:Et.
      - exists []. cbn. rewrite app_nil_r. reflexivity.
      - pose proof (ev_trace _ _ _
          (ev_tcf_copy_io bits (fun _ => True) dst I sS c.1 0 src
             (StringShortner src (LNSZ - 80)) (StringShortner dst (LNSZ - 80)) w1
             (truthy_false _ Et))) as (r & Er & _).
        exists r. exact Er. }
    destruct E1 as (r & Er). rewrite Er in E. subst w1. cbn [trace add_event] in E.
    rewrite <- app_assoc in E. apply app_inv_head in E. exists r. rewrite <- E. reflexivity. }
  destruct Hfirst as (rest & ->).
  exists rest. split; [exact E|]. split; [reflexivity|].
  rewrite !strlen_app.
  pose proof (StringShortner_keeps 146 src (LNSZ - 80) ltac:(unfold LNSZ; lia)
                ltac:(unfold LNSZ; lia) Hs).
  pose proof (StringShortner_keeps 146 dst (LNSZ - 80) ltac:(unfold LNSZ; lia)
                ltac:(unfold LNSZ; lia) Hd).
  change (strlen "Copy ") with 5. change (strlen " to ") with 4.
  unfold LNSZ in *. lia.
Qed.

Lemma X2_copy_line_exceeds_buffer_witness :
  exists text rest,
    trace (world_of (tcf_copy 64 stat_zero 0 (long_name "a") (long_name "b")
                       (StringShortner (long_name "a") (LNSZ - 80))
                       (StringShortner (long_name "b") (LNSZ - 80)) world0))
    = trace world0 ++ EPrint (line text) :: rest
    /\ text = "Copy " +:+ StringShortner (long_name "a") (LNSZ - 80) +:+ " to "
              +:+ StringShortner (long_name "b") (LNSZ - 80)
    /\ LNSZ <= strlen text.
Proof.
  apply (X2_copy_line_exceeds_buffer 64 stat_zero 0 (long_name "a")
           (long_name "b") world0); vm_compute; discriminate.
Defined.

(** *** [KeyboardCheck] *)

Lemma KeyboardCheck_loop_nil p w :
  KeyboardCheck_loop [] p w
  = if truthy p then Halt Hangs (add_event ESelect w)
    else Ret 0 (add_event ESelect w).
Proof. cbn. unfold bind, emit. destruct (truthy p); reflexivity. Qed.

Lemma KeyboardCheck_loop_none rest p w :
  KeyboardCheck_loop (None :: rest) p w
  = if truthy p
    then KeyboardCheck_loop rest p (add_event ESelect (upd_env (set_kbd rest) w))
    else Ret 0 (add_event ESelect (upd_env (set_kbd rest) w)).
Proof. cbn. unfold bind, emit, put_env. destruct (truthy p); reflexivity. Qed.

Lemma KeyboardCheck_loop_some c rest p w :
  KeyboardCheck_loop (Some c :: rest) p w
  = let w1 := add_event (EGetchar c)
                (add_event ESelect (upd_env (set_kbd rest) w)) in
    if pause_key c then
      if truthy p then Ret 0 (add_event (EPrint (line "Resume...")) w1)
      else KeyboardCheck_loop rest 1
             (add_event (EUsleep 3000)
                (add_event (EPrint (line "Pause...")) w1))
    else if quit_key c then
      Ret ERROR_TCPY_STOP (if truthy p then add_event (EUsleep 3000) w1 else w1)
    else
      let w2 := if verif_key c
                then add_event (EPrint (line "Pause Requested!"))
                       (upd_glob (set_giPauseAfterVerif 1) w1)
                else w1 in
      if truthy p then KeyboardCheck_loop rest p (add_event (EUsleep 3000) w2)
      else Ret 0 w2.
Proof.
  cbn [KeyboardCheck_loop]. unfold pause_key, quit_key, verif_key.
  unfold bind, emit, put_env, EchoPrint, printf, puts, ret, when.
  destruct (is_key c [32; 112; 80]).
  { destruct (truthy p) eqn:Ep; cbn -[is_key truthy]; rewrite ?Ep; reflexivity. }
  destruct (is_key c [27; 113; 81]).
  { destruct (truthy p) eqn:Ep; cbn -[is_key truthy]; rewrite ?Ep; reflexivity. }
  destruct (is_key c [118; 86]);
    destruct (truthy p) eqn:Ep; cbn -[is_key truthy]; rewrite ?Ep; reflexivity.
Qed.

Lemma quit_not_pause c : quit_key c = true -> pause_key c = false.
Proof.
  unfold quit_key, pause_key, is_key. cbn.
  repeat match goal with
         | |- context [Z.eqb ?a ?b] => destruct (Z.eqb_spec a b); subst; cbn
         end; congruence.
Qed.

Lemma set_pav_idem g : set_giPauseAfterVerif 1 (set_giPauseAfterVerif 1 g) = set_giPauseAfterVerif 1 g.
Proof. reflexivity. Qed.

Lemma KeyboardCheck_loop_outcome script : forall p w e w',
  KeyboardCheck_loop script p w = Ret e w' ->
  exists read rest,
    script = read ++ rest
    /\ kbd (env w') = match read with [] => kbd (env w) | _ => rest end
    /\ KC_post (truthy p) read e (glob w) (glob w')
    /\ fs (env w') = fs (env w) /\ flt (env w') = flt (env w).
Proof.
  induction script as [|[c|] rest IH]; intros p w e w' H.
  - rewrite KeyboardCheck_loop_nil in H.
    destruct (truthy p) eqn:Ep; [discriminate|]. injection H as <- <-.
    exists [], [].
    split; [reflexivity|]. split; [reflexivity|]. split; [|auto].
    split; [left; cbn; auto | reflexivity].
  - rewrite KeyboardCheck_loop_some in H. cbv zeta in H.
    destruct (pause_key c) eqn:Epk.
    { destruct (truthy p) eqn:Ep.
      - injection H as <- <-. exists [Some c], rest.
        assert (Hq : quit_key c = false).
        { destruct (quit_key c) eqn:Eq; [|reflexivity].
          apply quit_not_pause in Eq. congruence. }
        assert (Hv : verif_key c = false).
        { revert Epk. unfold pause_key, verif_key, is_key. cbn.
          repeat match goal with
                 | |- context [Z.eqb ?a ?b] => destruct (Z.eqb_spec a b); subst; cbn
                 end; congruence. }
        split; [reflexivity|]. split; [reflexivity|]. split; [|auto].
        split.
        + left. cbn [paused_after poll_is]. rewrite Epk.
          repeat split; auto.
        + cbn [existsb poll_is orb]. rewrite Hv. reflexivity.
      - destruct (IH _ _ _ _ H) as (read & rest' & E & Hk & (Hc & Hg) & Hfs & Hfl).
        exists (Some c :: read), rest'. subst rest. cbn [app].
        assert (Hq : quit_key c = false).
        { destruct (quit_key c) eqn:Eq; [|reflexivity].
          apply quit_not_pause in Eq. congruence. }
        assert (Hv : verif_key c = false).
        { revert Epk. unfold pause_key, verif_key, is_key. cbn.
          repeat match goal with
                 | |- context [Z.eqb ?a ?b] => destruct (Z.eqb_spec a b); subst; cbn
                 end; congruence. }
        split; [reflexivity|]. split.
        { rewrite Hk. destruct read; reflexivity. }
        split; [|auto].
        split.
        + cbn [paused_after poll_is]. rewrite Epk. cbn [negb].
          change (truthy 1) with true in Hc.
          destruct Hc as [(He & Hp & Hf)|(He & pre & c' & Er & Hq' & Hf)].
          * left. repeat split; auto.
          * right. split; [exact He|]. exists (Some c :: pre), c'.
            rewrite Er. repeat split; auto.
        + cbn [existsb poll_is]. rewrite Hv. cbn [orb]. exact Hg. }
    destruct (quit_key c) eqn:Eqk.
    { injection H as <- <-. exists [Some c], rest.
      assert (Hv : verif_key c = false).
      { revert Eqk. unfold quit_key, verif_key, is_key. cbn.
        repeat match goal with
               | |- context [Z.eqb ?a ?b] => destruct (Z.eqb_spec a b); subst; cbn
               end; congruence. }
      split; [reflexivity|].
      split; [destruct (truthy p); reflexivity|].
      split; [|destruct (truthy p); auto].
      split.
      - right. split; [reflexivity|]. exists [], c. auto.
      - cbn [existsb poll_is orb]. rewrite Hv.
        destruct (truthy p); reflexivity. }
    destruct (truthy p) eqn:Ep.
    + destruct (IH _ _ _ _ H) as (read & rest' & E & Hk & (Hc & Hg) & Hfs & Hfl).
      exists (Some c :: read), rest'. subst rest. cbn [app].
      split; [reflexivity|]. split.
      { rewrite Hk. destruct read; [|reflexivity].
        destruct (verif_key c); reflexivity. }
      split; [|destruct (verif_key c); auto].
      split.
      * cbn [paused_after poll_is]. rewrite Epk. rewrite Ep in Hc.
        destruct Hc as [(He & Hp & Hf)|(He & pre & c' & Er & Hq' & Hf)].
        -- left. repeat split; auto.
        -- right. split; [exact He|]. exists (Some c :: pre), c'.
           rewrite Er. repeat split; auto.
      * cbn [existsb poll_is]. rewrite Hg.
        destruct (verif_key c); cbn [orb];
          destruct (existsb (poll_is verif_key) read); reflexivity.
    + injection H as <- <-. exists [Some c], rest.
      split; [reflexivity|].
      split; [destruct (verif_key c); reflexivity|].
      split; [|destruct (verif_key c); auto].
      split.
      * left. cbn [paused_after poll_is]. rewrite Epk.
        repeat split; auto.
      * cbn [existsb poll_is orb]. destruct (verif_key c); reflexivity.
  - rewrite KeyboardCheck_loop_none in H.
    destruct (truthy p) eqn:Ep.
    + destruct (IH _ _ _ _ H) as (read & rest' & E & Hk & (Hc & Hg) & Hfs & Hfl).
      exists (None :: read), rest'. subst rest. cbn [app].
      split; [reflexivity|]. split.
      { rewrite Hk. destruct read; reflexivity. }
      split; [|auto]. split.
      * cbn [paused_after poll_is]. rewrite Ep in Hc.
        destruct Hc as [(He & Hp & Hf)|(He & pre & c' & Er & Hq' & Hf)].
        -- left. repeat split; auto.
        -- right. split; [exact He|]. exists (None :: pre), c'.
           rewrite Er. repeat split; auto.
      * cbn [existsb poll_is orb]. exact Hg.
    + injection H as <- <-. exists [None], rest.
      split; [reflexivity|]. split; [reflexivity|].
      split; [|auto]. split; [|reflexivity].
      left. cbn. auto.
Qed.

(** X3: when [KeyboardCheck] returns, it has consumed a prefix [read] of
    the pending polls of the keyboard.  Either it returns 0, no quit
    key was read and the pause keys read leave it un-paused; or it
    returns [ERROR_TCPY_STOP] and the last key read is the first quit
    key.  [giPauseAfterVerif] is set exactly when a verify key was
    read; no other global, no file and no fault script has changed. *)
Theorem X3_KeyboardCheck_outcome iInducedPause w e w'
    (H : KeyboardCheck iInducedPause w = Ret e w') :
  exists read,
    kbd (env w) = read ++ kbd (env w')
    /\ ((e = 0 /\ paused_after read (truthy iInducedPause) = false
         /\ Forall (fun k => poll_is quit_key k = false) read)
        \/ (e = ERROR_TCPY_STOP
            /\ exists pre c, read = pre ++ [Some c] /\ quit_key c = true
                 /\ Forall (fun k => poll_is quit_key k = false) pre))
    /\ glob w' = (if existsb (poll_is verif_key) read
                  then set_giPauseAfterVerif 1 (glob w) else glob w)
    /\ fs (env w') = fs (env w) /\ flt (env w') = flt (env w).
Proof.
  unfold KeyboardCheck in H.
  set (w0 := if truthy iInducedPause then add_event (EPrint (line "Pause...")) w else w).
  assert (H0 : KeyboardCheck_loop (kbd (env w)) iInducedPause w0 = Ret e w').
  { revert H. unfold bind, when, EchoPrint, printf, emit, get_env, ret. subst w0.
    destruct (truthy iInducedPause); cbn; auto. }
  assert (Hw0 : glob w0 = glob w /\ env w0 = env w).
  { subst w0. destruct (truthy iInducedPause); auto. }
  destruct Hw0 as (Hg0 & He0).
  destruct (KeyboardCheck_loop_outcome _ _ _ _ _ H0)
    as (read & rest & E & Hk & (Hc & Hg) & Hfs & Hfl).
  rewrite Hg0 in Hg. rewrite He0 in Hk, Hfs, Hfl.
  exists read. split.
  { rewrite Hk. destruct read; [|exact E]. cbn in E |- *. reflexivity. }
  auto.
Qed.

Lemma X3_KeyboardCheck_outcome_witness :
  exists read,
    [Some 118; None; Some 32; Some 27] = read ++ [Some 27]
    /\ paused_after read true = false.
Proof.
  destruct (KeyboardCheck 1 (kbd_world [Some 118; None; Some 32; Some 27]))
    as [e w'|h w'] eqn:E; vm_compute in E; [|discriminate].
  injection E as <- <-.
  destruct (X3_KeyboardCheck_outcome 1
              (kbd_world [Some 118; None; Some 32; Some 27]) 0 _ eq_refl)
    as (read & Hk & [(_ & Hp & _)|(He & _)] & _); [|discriminate].
  exists read. split; [exact Hk | exact Hp].
Defined.

(** *** One file, when no call fails and no key is pressed *)

Lemma steady_refl w : steady w w.
Proof. unfold steady. repeat split; reflexivity. Qed.

Lemma steady_trans w1 w2 w3 : steady w1 w2 -> steady w2 w3 -> steady w1 w3.
Proof. unfold steady. intros H1 H2. intuition congruence. Qed.

Lemma quiet_steady w w' : quiet w -> steady w w' -> quiet w'.
Proof. unfold quiet, steady. intros [A B] H. intuition congruence. Qed.

Lemma checksum_loop_quiet bits p chunks : forall c w,
  quiet w -> wf_chunks chunks ->
  exists w',
    checksum_loop bits p chunks c w
    = Ret (0, ChecksumAdd bits (concat chunks) c) w'
    /\ glob w' = glob w /\ env w' = env w.
Proof.
  induction chunks as [|chunk rest IH]; intros c w [Hf Hk] Hw;
    cbn [checksum_loop]; unfold bind; rewrite checksum_iter_quiet by assumption.
  - cbn. eexists. split; [reflexivity|]. auto.
  - assert (Hpos : (0 < length chunk)%nat).
    { cbn [wf_chunks] in Hw. destruct rest; [lia|]. destruct Hw as [Hl _].
      rewrite Hl. unfold LNBIGBUFFER. lia. }
    assert (Hgt : (Z.of_nat (length chunk) >? 0) = true)
      by (apply Z.gtb_lt; lia).
    rewrite Hgt. cbn [concat]. rewrite ChecksumAdd_app.
    destruct (Z.eqb_spec (Z.of_nat (length chunk)) LNBIGBUFFER) as [Hfull|Hpart];
      cbn [andb].
    + assert (Hw' : wf_chunks rest).
      { cbn [wf_chunks] in Hw. destruct rest; [exact I | tauto]. }
      destruct (IH (ChecksumAdd bits chunk c)
                  (add_event ESelect (add_event (ERead p) w))
                  (conj Hf Hk) Hw')
        as (w' & E & A & B).
      exists w'. split; [exact E|]. auto.
    + assert (rest = []).
      { cbn [wf_chunks] in Hw. destruct rest; [reflexivity|].
        destruct Hw as [Hl _]. exfalso. apply Hpart. rewrite Hl.
        unfold LNBIGBUFFER. reflexivity. }
      subst rest. cbn. eexists. split; [reflexivity|]. auto.
Qed.

Lemma resolve_lookup (f : gmap string inode) p n :
  resolve f p = inr n -> f !! canon p = Some n.
Proof.
  unfold resolve. destruct (f !! canon p) as [n'|]; [|discriminate].
  destruct (ends_with_slash p && negb (is_dir n')); [discriminate|].
  congruence.
Qed.

Lemma read_chunks_spec data :
  concat (read_chunks data) = data /\ wf_chunks (read_chunks data).
Proof.
  destruct (chunks_of_spec (length data) (Z.to_nat LNBIGBUFFER) data)
    as [Hc Hw]; [unfold LNBIGBUFFER; lia | lia |].
  split; [exact Hc | exact (Hw eq_refl)].
Qed.

(** The checksum pass over an existing file when no call is made to
    fail and no key is pressed: only the trace changes. *)
Lemma FilenameChecksum_quiet bits p w n :
  quiet w -> resolve (fs (env w)) p = inr n ->
  exists w',
    FilenameChecksum bits p w = Ret (0, ChecksumAdd bits (i_data n) 0) w'
    /\ glob w' = glob w /\ env w' = env w.
Proof.
  intros [Hf Hk] Hr.
  pose proof (resolve_lookup _ _ _ Hr) as Hl.
  unfold FilenameChecksum, sys_open_rdonly, pop_fault, file_data, sys_close,
    bind at 1 2 3 4 5, emit, get_env, ret.
  cbn. rewrite Hf. cbn. rewrite Hr. cbn. rewrite Hl.
  destruct (read_chunks_spec (i_data n)) as [Hc Hw].
  destruct (checksum_loop_quiet bits p (read_chunks (i_data n)) 0
              (add_event (EOpen p) w) (conj Hf Hk) Hw)
    as (w' & E & A & B).
  unfold bind. rewrite E. rewrite Hc.
  eexists. split; [reflexivity|]. cbn. auto.
Qed.

(** One buffer of the copy loop when no call is made to fail. *)
Lemma copy_buffer_quiet bits dst szD buf c w nd :
  quiet w -> fs (env w) !! canon dst = Some nd ->
  exists w',
    copy_buffer bits dst szD (Z.of_nat (length buf)) buf c w
    = Ret (0, ChecksumAdd bits buf c) w'
    /\ steady w w' /\ next_ino (env w') = next_ino (env w)
    /\ fs (env w')
       = <[canon dst := touch (env w) nd (i_data nd ++ buf)]> (fs (env w)).
Proof.
  intros [Hf Hk] Hl.
  unfold copy_buffer, NanoTime, sys_write, sys_clock_gettime, pop_fault,
    set_errno_ret, get_errno, bind, gets, puts, when, emit, ret, get_env,
    put_env.
  repeat (repeat (progress
            (cbn -[canon touch throttle_delay throttle_measure
                   throttle_fastest ChecksumAdd Z.eqb Z.add];
             rewrite ?Hf, ?Hl, ?Z.eqb_refl;
             try change (truthy 0) with false));
          match goal with
          | |- context [match ?x with _ => _ end] =>
              lazymatch x with
              | context [match _ with _ => _ end] => fail
              | _ => destruct x eqn:?
              end
          end).
  all: (eexists; split; [reflexivity|]);
    unfold steady; cbn -[canon touch]; rewrite ?Hf, ?Hk; auto 12.
Qed.

Lemma KeyboardCheck_quiet w :
  kbd (env w) = [] -> KeyboardCheck 0 w = Ret 0 (add_event ESelect w).
Proof. intros H. rewrite KeyboardCheck_idle, H. reflexivity. Qed.

Lemma sys_read_quiet p chunk w :
  flt (env w) = [] ->
  sys_read p chunk w
  = Ret (Z.of_nat (length chunk), chunk) (add_event (ERead p) w).
Proof.
  intros H. unfold sys_read, pop_fault, bind, emit, ret. cbn. rewrite H.
  reflexivity.
Qed.

(** One iteration of the copy loop when no call is made to fail and no
    key is pressed. *)
Lemma copy_iter_quiet bits src dst szD chunk c w nd :
  quiet w -> fs (env w) !! canon dst = Some nd ->
  (0 < length chunk)%nat ->
  exists w',
    copy_iter bits src dst szD chunk c w
    = Ret (Z.of_nat (length chunk) =? LNBIGBUFFER, 0, ChecksumAdd bits chunk c) w'
    /\ steady w w' /\ next_ino (env w') = next_ino (env w)
    /\ fs (env w')
       = <[canon dst := touch (env w) nd (i_data nd ++ chunk)]> (fs (env w)).
Proof.
  intros [Hf Hk] Hl Hpos.
  unfold copy_iter. unfold bind at 1. rewrite sys_read_quiet by exact Hf.
  assert (Hgt : (Z.of_nat (length chunk) >? 0) = true) by (apply Z.gtb_lt; lia).
  rewrite Hgt.
  destruct (copy_buffer_quiet bits dst szD chunk c (add_event (ERead src) w) nd
              (conj Hf Hk) Hl) as (w1 & E1 & Hs1 & Hn1 & Hfs1).
  unfold bind at 1. rewrite E1. cbn [truthy Z.eqb negb].
  unfold bind at 1.
  destruct Hs1 as (S1 & S2 & S3 & S4 & S5 & S6 & S7 & S8).
  assert (Ek : KeyboardCheck 0 w1 = Ret 0 (add_event ESelect w1))
    by (apply KeyboardCheck_quiet; rewrite S2; exact Hk).
  exists (add_event ESelect w1). rewrite Ek.
  unfold ret. cbn [truthy Z.eqb negb]. rewrite andb_true_r.
  split; [reflexivity|].
  split; [unfold steady; cbn; auto 12|]. split; [exact Hn1 | exact Hfs1].
Qed.

Lemma copy_iter_eof bits src dst szD c w :
  quiet w ->
  copy_iter bits src dst szD [] c w
  = Ret (false, 0, c) (add_event ESelect (add_event (ERead src) w)).
Proof.
  intros [Hf Hk].
  unfold copy_iter. unfold bind at 1. rewrite sys_read_quiet by exact Hf.
  change (Z.of_nat (length (@nil Z)) >? 0) with false. cbv iota.
  unfold bind at 1. unfold ret at 1. change (negb (truthy 0)) with true.
  cbv iota. unfold bind at 1.
  rewrite KeyboardCheck_quiet by exact Hk. reflexivity.
Qed.

Lemma touch_touch e n d1 d2 :
  touch e (touch e n d1) d2 = touch e n d2.
Proof. reflexivity. Qed.

(** The copy loop when no call is made to fail and no key is pressed:
    every byte read is appended to the destination. *)
Lemma copy_loop_quiet bits src dst szD chunks : forall c w nd,
  quiet w -> fs (env w) !! canon dst = Some nd -> wf_chunks chunks ->
  exists w' nd',
    copy_loop bits src dst szD chunks c w
    = Ret (0, ChecksumAdd bits (concat chunks) c) w'
    /\ steady w w' /\ next_ino (env w') = next_ino (env w)
    /\ fs (env w') = <[canon dst := nd']> (fs (env w))
    /\ i_mode nd' = i_mode nd /\ i_dev nd' = i_dev nd /\ i_ino nd' = i_ino nd
    /\ i_data nd' = i_data nd ++ concat chunks.
Proof.
  induction chunks as [|chunk rest IH]; intros c w nd Hq Hl Hw;
    cbn [copy_loop].
  - unfold bind. rewrite copy_iter_eof by exact Hq. cbn.
    eexists. exists nd. split; [reflexivity|].
    split; [unfold steady; cbn; auto 12|].
    split; [reflexivity|]. split; [symmetry; apply insert_id; exact Hl|].
    rewrite app_nil_r. auto.
  - assert (Hpos : (0 < length chunk)%nat).
    { cbn [wf_chunks] in Hw. destruct rest; [lia|]. destruct Hw as [Hlen _].
      rewrite Hlen. unfold LNBIGBUFFER. lia. }
    destruct (copy_iter_quiet bits src dst szD chunk c w nd Hq Hl Hpos)
      as (w1 & E1 & Hs1 & Hn1 & Hfs1).
    unfold bind. rewrite E1. cbn [concat]. rewrite ChecksumAdd_app.
    destruct (Z.eqb_spec (Z.of_nat (length chunk)) LNBIGBUFFER) as [Hfull|Hpart].
    + assert (Hw' : wf_chunks rest).
      { cbn [wf_chunks] in Hw. destruct rest; [exact I | tauto]. }
      assert (Hl1 : fs (env w1) !! canon dst
                    = Some (touch (env w) nd (i_data nd ++ chunk))).
      { rewrite Hfs1. apply lookup_insert_eq. }
      destruct (IH (ChecksumAdd bits chunk c) w1 _ (quiet_steady _ _ Hq Hs1)
                  Hl1 Hw')
        as (w' & nd' & E & Hs & Hn & Hfs & M1 & M2 & M3 & M4).
      exists w', nd'. split; [exact E|].
      split; [eapply steady_trans; eauto|].
      split; [congruence|].
      split; [rewrite Hfs, Hfs1; apply insert_insert_eq|].
      cbn in M1, M2, M3, M4. rewrite M4, <- app_assoc. auto.
    + assert (rest = []).
      { cbn [wf_chunks] in Hw. destruct rest; [reflexivity|].
        destruct Hw as [Hlen _]. exfalso. apply Hpart. rewrite Hlen.
        unfold LNBIGBUFFER. reflexivity. }
      subst rest. cbn [concat]. rewrite app_nil_r.
      exists w1, (touch (env w) nd (i_data nd ++ chunk)).
      split; [reflexivity|]. cbn. auto 12.
Qed.

Lemma resolve_insert_ne (f : gmap string inode) k v p :
  k <> canon p -> resolve (<[k := v]> f) p = resolve f p.
Proof. intros H. unfold resolve. rewrite lookup_insert_ne by exact H. reflexivity. Qed.

Lemma resolve_delete_ne (f : gmap string inode) k p :
  k <> canon p -> resolve (delete k f) p = resolve f p.
Proof. intros H. unfold resolve. rewrite lookup_delete_ne by exact H. reflexivity. Qed.

Lemma resolve_insert_eq (f : gmap string inode) p v :
  ends_with_slash p = false -> resolve (<[canon p := v]> f) p = inr v.
Proof.
  intros H. unfold resolve. rewrite lookup_insert_eq, H. reflexivity.
Qed.

Lemma parent_dir_is_dir (f : gmap string inode) p d :
  parent_dir f p = Some d -> f !! parent_of (canon p) = Some d /\ is_dir d = true.
Proof.
  unfold parent_dir. destruct (f !! parent_of (canon p)) as [n|]; [|discriminate].
  destruct (is_dir n) eqn:E; [|discriminate]. intros [= ->]. auto.
Qed.

Ltac sim_cbn :=
  cbn -[canon resolve parent_dir touch throttle_delay throttle_measure
        throttle_fastest ChecksumAdd Z.eqb Z.add Z.ltb Z.gtb Z.geb Z.land Z.lor
        StringShortner fmt_d fmt_o read_chunks copy_loop checksum_loop
        FilenameChecksum KeyboardCheck delete_line differ String.append line
        new_mode sz2_overrun].

Ltac sim_consts :=
  try change (0 =? 0) with true; try change (-1 =? 0) with false;
  try change (truthy 1) with true; try change (truthy S_IFREG) with true;
  try change (truthy (-1)) with true;
  try change (truthy 0) with false;
  try change (truthy ERROR_TCPY) with true;
  try change (3 <? 0) with false; try change (4 <? 0) with false;
  try change (-1 <? 0) with true;
  try change (3 >=? 0) with true; try change (4 >=? 0) with true;
  try change (-1 >=? 0) with false.

Section CopyIO.

Variables (bits : Z) (sS : stat) (src dst szS szD : string) (w : World)
          (n d : inode).
Hypothesis Hq : quiet w.
Hypothesis Hsrc : resolve (fs (env w)) src = inr n.
Hypothesis Hdst : fs (env w) !! canon dst = None.
Hypothesis Hslash : ends_with_slash dst = false.
Hypothesis Hdir : parent_dir (fs (env w)) dst = Some d.

Lemma canon_src_dst : canon dst <> canon src.
Proof.
  intros E. apply resolve_lookup in Hsrc. rewrite <- E in Hsrc. congruence.
Qed.

Lemma tcf_copy_io_quiet sc :
  sc = 0 \/ sc = ChecksumAdd bits (i_data n) 0 ->
  exists w',
    tcf_copy_io bits sS sc 0 src dst szS szD w
    = Ret (0, ChecksumAdd bits (i_data n) 0, ChecksumAdd bits (i_data n) 0) w'
    /\ steady w w'
    /\ fs (env w')
       = <[canon dst :=
             mkInode (Z.lor S_IFREG (new_mode (env w) (st_mode sS))) (i_dev d)
               (next_ino (env w)) (st_mtim_sec sS) (st_mtim_nsec sS)
               (i_data n)]> (fs (env w)).
Proof.
  intros Hsc. destruct Hq as [Hf Hk].
  pose proof canon_src_dst as Hne.
  pose proof (resolve_lookup _ _ _ Hsrc) as Hl.
  unfold tcf_copy_io, sys_open_rdonly, sys_creat, file_data, sys_close,
    pop_fault, set_errno_ret, get_errno.
  unfold bind, emit, get_env, put_env, puts, when, ret, id.
  repeat (progress (sim_cbn; sim_consts;
                    rewrite ?Hf, ?Hsrc, ?(resolve_absent _ _ Hdst), ?Hdir,
                      ?(lookup_insert_ne _ _ _ _ Hne), ?Hl)).
  match goal with
  | |- context [copy_loop ?b ?s ?t ?z ?ch ?c ?w2] =>
      destruct (copy_loop_quiet b s t z ch c w2
                  (mkInode (Z.lor S_IFREG (new_mode (env w) (st_mode sS))) (i_dev d)
                     (next_ino (env w)) (now_sec (env w)) (now_nsec (env w)) []))
        as (w1 & nd' & E1 & Hs1 & Hn1 & Hfs1 & M1 & M2 & M3 & M4);
        [ split; [exact Hf | exact Hk]
        | cbn -[canon]; apply lookup_insert_eq
        | apply read_chunks_spec | ]
  end.
  cbn -[canon Z.add] in Hfs1, Hn1, M1, M2, M3, M4.
  destruct (read_chunks_spec (i_data n)) as [Hc _]. rewrite Hc in E1, M4.
  rewrite E1. clear E1.
  assert (Hq1 : flt (env w1) = [] /\ kbd (env w1) = []).
  { destruct Hs1 as (S1 & S2 & _). cbn in S1, S2. split; congruence. }
  destruct Hq1 as [Hf1 Hk1].
  assert (Hr1 : resolve (fs (env w1)) dst = inr nd').
  { rewrite Hfs1. apply resolve_insert_eq. exact Hslash. }
  unfold sys_unlink, sys_utimensat, pop_fault, set_errno_ret, get_errno,
    bind, emit, get_env, put_env, puts, when, ret, id.
  assert (Hfin : forall w2, fs (env w2) = fs (env w1) ->
            <[canon dst := mkInode (i_mode nd') (i_dev nd') (i_ino nd')
                             (st_mtim_sec sS) (st_mtim_nsec sS) (i_data nd')]>
              (fs (env w2))
            = <[canon dst :=
                  mkInode (Z.lor S_IFREG (new_mode (env w) (st_mode sS))) (i_dev d)
                    (next_ino (env w)) (st_mtim_sec sS) (st_mtim_nsec sS)
                    (i_data n)]> (fs (env w))).
  { intros w2 ->. rewrite Hfs1, M1, M2, M3, M4, !insert_insert_eq.
    reflexivity. }
  destruct Hs1 as (S1 & S2 & S3 & S4 & S5 & S6 & S7 & S8).
  cbn in S1, S2, S3, S4, S5, S6, S7, S8.
  destruct Hsc as [-> | ->].
  - repeat (progress (sim_cbn; sim_consts; rewrite ?Hf1, ?Hr1)).
    eexists. split; [reflexivity|]. split.
    + unfold steady. cbn. rewrite ?Hf1, ?Hk1. auto 12.
    + cbn -[canon]. apply Hfin. reflexivity.
  - rewrite Z.eqb_refl.
    destruct (truthy (ChecksumAdd bits (i_data n) 0));
      repeat (progress (sim_cbn; sim_consts; rewrite ?Hf1, ?Hr1));
      (eexists; split; [reflexivity|]); (split;
        [ unfold steady; cbn; rewrite ?Hf1, ?Hk1; auto 12
        | cbn -[canon]; apply Hfin; reflexivity ]).
Qed.

End CopyIO.

Lemma tcf_verify_dest_quiet bits sc dst szD w nd :
  quiet w -> giTestRun (glob w) = 0 ->
  resolve (fs (env w)) dst = inr nd ->
  sc = ChecksumAdd bits (i_data nd) 0 ->
  exists w', tcf_verify_dest bits sc dst szD w = Ret 0 w'
             /\ glob w' = glob w /\ env w' = env w.
Proof.
  intros Hq Ht Hr ->.
  unfold tcf_verify_dest, EchoPrint, printf.
  unfold bind at 1. unfold emit at 1. unfold bind at 1. unfold gets at 1.
  cbn [glob add_event]. rewrite Ht. change (truthy 0) with false. cbv iota.
  destruct (FilenameChecksum_quiet bits dst
              (add_event (EPrint (line ("Verify " +:+ szD))) w) nd Hq Hr)
    as (w1 & E & Hg & He).
  unfold bind at 1. rewrite E. change (truthy 0) with false.
  rewrite Z.eqb_refl. cbn [negb andb]. unfold ret.
  exists w1. split; [reflexivity|]. auto.
Qed.

Lemma tcf_probe_absent bits src dst szS szD w n :
  flt (env w) = [] ->
  resolve (fs (env w)) src = inr n ->
  Z.land (i_mode n) S_IFMT = S_IFREG ->
  fs (env w) !! canon dst = None ->
  tcf_probe bits src dst szS szD w
  = Ret (0, 0, stat_of n, zero_dest 0 (junk (env w)), 0, 0) (probed w src dst).
Proof.
  intros Hflt Hsrc Hreg Hdst.
  unfold tcf_probe, FilenameExist, sys_stat, pop_fault, set_errno_ret, bind,
    emit, get_env, put_env, puts, ret.
  cbn. rewrite Hflt. cbn. rewrite Hsrc. cbn.
  rewrite (reg_bit _ Hreg). cbn. rewrite Hflt. cbn.
  rewrite (resolve_absent _ _ Hdst). cbn.
  unfold tcf_compare. cbn [st_size zero_dest truthy Z.eqb negb andb].
  rewrite !andb_false_r. cbn [andb].
  unfold probed, add_event, upd_env, ret. cbn. rewrite <- app_assoc. reflexivity.
Qed.

Lemma differ_absent n st :
  i_data n <> [] \/ i_mtim_sec n <> 0 \/ i_mtim_nsec n <> 0 ->
  differ (stat_of n) (zero_dest 0 st) 0 0 = true.
Proof.
  intros H. unfold differ, stat_of, zero_dest. cbn.
  destruct H as [H|[H|H]].
  - destruct (i_data n) as [|x l]; [contradiction|]. reflexivity.
  - apply Z.eqb_neq in H. rewrite H. cbn [negb].
    rewrite !orb_true_r. reflexivity.
  - apply Z.eqb_neq in H. rewrite H. cbn [negb].
    rewrite !orb_true_r. reflexivity.
Qed.

Section CopyNew.

Variables (bits : Z) (src dst : string) (w : World) (n d : inode).
Hypothesis Hq : quiet w.
Hypothesis Hrun : giTestRun (glob w) = 0.
Hypothesis Hsrc : resolve (fs (env w)) src = inr n.
Hypothesis Hreg : Z.land (i_mode n) S_IFMT = S_IFREG.
Hypothesis Hnew : i_data n <> [] \/ i_mtim_sec n <> 0 \/ i_mtim_nsec n <> 0.
Hypothesis Hdst : fs (env w) !! canon dst = None.
Hypothesis Hslash : ends_with_slash dst = false.
Hypothesis Hdir : parent_dir (fs (env w)) dst = Some d.
Hypothesis Hfit : copy_fits src dst.

Lemma tcf_copy_verify_new :
  exists w',
    tcf_copy_verify bits src dst w = Ret 0 w'
    /\ steady w w'
    /\ fs (env w') = <[canon dst := copy_of (env w) n d]> (fs (env w)).
Proof.
  destruct Hq as [Hf Hk].
  unfold tcf_copy_verify. cbv zeta. unfold bind at 1.
  rewrite (tcf_probe_absent bits src dst _ _ w n Hf Hsrc Hreg Hdst).
  unfold tcf_transfer. rewrite (differ_absent n (junk (env w)) Hnew).
  unfold tcf_delete_dest, tcf_copy, bind, EchoPrint, printf, emit, gets, ret.
  repeat (progress (cbn -[tcf_copy_io tcf_verify_dest canon StringShortner
                          String.append line Z.sub sz2_overrun];
                    rewrite ?Hrun, ?(sz2_overrun_fits _ _ _ _ Hfit))).
  match goal with
  | |- context [tcf_copy_io _ _ _ _ _ _ _ _ ?w0] =>
      destruct (tcf_copy_io_quiet bits (stat_of n) src dst
              (StringShortner src (LNSZ - 80)) (StringShortner dst (LNSZ - 80))
              w0 n d (conj Hf Hk) Hsrc Hdst Hslash Hdir 0 (or_introl eq_refl))
        as (w1 & E1 & Hs1 & Hfs1);
      assert (Hq0 : quiet w0) by (split; assumption)
  end.
  cbn -[canon new_mode] in Hfs1.
  rewrite E1. change (negb (truthy 0)) with true. cbv iota.
  assert (Hq1 : quiet w1) by (eapply quiet_steady; [exact Hq0 | exact Hs1]).
  assert (Ht1 : giTestRun (glob w1) = 0).
  { destruct Hs1 as (_ & _ & _ & _ & _ & St & _). rewrite St. exact Hrun. }
  assert (Hr1 : resolve (fs (env w1)) dst
                = inr (copy_of (env w) n d)).
  { rewrite Hfs1. apply resolve_insert_eq. exact Hslash. }
  destruct (tcf_verify_dest_quiet bits (ChecksumAdd bits (i_data n) 0) dst
              (StringShortner dst (LNSZ - 80)) w1 _ Hq1 Ht1 Hr1 eq_refl)
    as (w2 & E2 & Hg2 & He2).
  exists w2. split; [exact E2|]. split.
  - destruct Hs1 as (S1 & S2 & S3 & S4 & S5 & S6 & S7 & S8).
    unfold steady. rewrite Hg2, He2. cbn in S1, S2, S3, S4, S5, S6, S7, S8.
    auto 12.
  - rewrite He2. exact Hfs1.
Qed.

End CopyNew.

Lemma tcf_delete_source_quiet iMode src szS szD w n :
  quiet w -> giTestRun (glob w) = 0 ->
  resolve (fs (env w)) src = inr n -> is_dir n = false ->
  exists w',
    tcf_delete_source iMode 0 src szS szD w = Ret 0 w'
    /\ steady w w'
    /\ fs (env w') = if iMode =? TCPY_MODE_DEL
                     then delete (canon src) (fs (env w)) else fs (env w).
Proof.
  intros [Hf Hk] Ht Hr Hd.
  unfold tcf_delete_source. change (negb (truthy 0)) with true. cbn [andb].
  destruct (iMode =? TCPY_MODE_DEL).
  - unfold sys_unlink, pop_fault, set_errno_ret, get_errno, bind, EchoPrint,
      printf, emit, gets, get_env, put_env, puts, ret, id.
    repeat (progress (sim_cbn; sim_consts; rewrite ?Hf, ?Ht, ?Hr, ?Hd)).
    eexists. split; [reflexivity|]. split; [|reflexivity].
    unfold steady. cbn. auto 12.
  - exists w. split; [reflexivity|]. split; [apply steady_refl | reflexivity].
Qed.

(** The copy of a regular file to a name that does not exist. *)
Lemma TimedCopyFile_new_file bits iMode src dst w n d
    (Hq : quiet w)
    (Hrun : giTestRun (glob w) = 0)
    (Hpause : giPauseAfterVerif (glob w) = 0)
    (Hsrc : resolve (fs (env w)) src = inr n)
    (Hreg : Z.land (i_mode n) S_IFMT = S_IFREG)
    (Hnew : i_data n <> [] \/ i_mtim_sec n <> 0 \/ i_mtim_nsec n <> 0)
    (Hdst : fs (env w) !! canon dst = None)
    (Hslash : ends_with_slash dst = false)
    (Hdir : parent_dir (fs (env w)) dst = Some d)
    (Hfit : copy_fits src dst) :
  exists w',
    TimedCopyFile bits iMode src dst w = Ret 0 w'
    /\ fs (env w')
       = let f1 := <[canon dst := copy_of (env w) n d]> (fs (env w)) in
         if iMode =? TCPY_MODE_DEL then delete (canon src) f1 else f1.
Proof.
  destruct (tcf_copy_verify_new bits src dst w n d Hq Hrun Hsrc Hreg Hnew Hdst
              Hslash Hdir Hfit) as (w1 & E1 & Hs1 & Hfs1).
  unfold TimedCopyFile. cbv zeta. unfold bind at 1. rewrite E1.
  assert (Hne : canon dst <> canon src).
  { intros E. apply resolve_lookup in Hsrc. rewrite <- E in Hsrc. congruence. }
  assert (Hr1 : resolve (fs (env w1)) src = inr n).
  { rewrite Hfs1, resolve_insert_ne by exact Hne. exact Hsrc. }
  assert (Hq1 : quiet w1) by (eapply quiet_steady; eauto).
  assert (Ht1 : giTestRun (glob w1) = 0).
  { destruct Hs1 as (_ & _ & _ & _ & _ & St & _). rewrite St. exact Hrun. }
  destruct (tcf_delete_source_quiet iMode src (StringShortner src (LNSZ - 80))
              (StringShortner dst (LNSZ - 80)) w1 n Hq1 Ht1 Hr1
              (reg_not_dir _ Hreg)) as (w2 & E2 & Hs2 & Hfs2).
  unfold bind at 1. rewrite E2.
  assert (Hp2 : giPauseAfterVerif (glob w2) = 0).
  { destruct Hs1 as (_ & _ & _ & _ & _ & _ & _ & Sp1).
    destruct Hs2 as (_ & _ & _ & _ & _ & _ & _ & Sp2). congruence. }
  destruct (tcf_bookkeeping_ok w2 Hp2) as (w3 & E3 & Hfs3).
  exists w3. split; [exact E3|]. cbv zeta. rewrite Hfs3, Hfs2, Hfs1.
  reflexivity.
Qed.

(** X4: with no fault and no key pending, outside a test run, and with
    names short enough for the line [Copy <source> to <destination>]
    to fit [sz2], [TimedCopyFile] on a regular source (not the empty
    file stamped zero) and a destination name that does not exist in
    an existing directory returns 0; afterwards the destination is a
    regular file with the bytes and the modification time of the
    source, and with the permission bits of the source that the umask
    of the process does not clear; in Move mode the source is gone.
    Nothing else in the file system has changed. *)
Theorem X4_copy_to_new_file bits iMode src dst w n d
    (Hq : quiet w)
    (Hrun : giTestRun (glob w) = 0)
    (Hpause : giPauseAfterVerif (glob w) = 0)
    (Hsrc : resolve (fs (env w)) src = inr n)
    (Hreg : Z.land (i_mode n) S_IFMT = S_IFREG)
    (Hnew : i_data n <> [] \/ i_mtim_sec n <> 0 \/ i_mtim_nsec n <> 0)
    (Hdst : fs (env w) !! canon dst = None)
    (Hslash : ends_with_slash dst = false)
    (Hdir : parent_dir (fs (env w)) dst = Some d)
    (Hfit : strlen ("Copy " +:+ StringShortner src (LNSZ - 80) +:+ " to "
                    +:+ StringShortner dst (LNSZ - 80)) < LNSZ) :
  exists w',
    TimedCopyFile bits iMode src dst w = Ret 0 w'
    /\ fs (env w')
       = let nd := mkInode (Z.lor S_IFREG
                              (Z.land (Z.land (i_mode n)
                                         (Z.lnot (umask (env w)))) 4095))
                     (i_dev d) (next_ino (env w))
                     (i_mtim_sec n) (i_mtim_nsec n) (i_data n) in
         let f1 := <[canon dst := nd]> (fs (env w)) in
         if iMode =? TCPY_MODE_DEL then delete (canon src) f1 else f1.
Proof.
  exact (TimedCopyFile_new_file bits iMode src dst w n d Hq Hrun Hpause Hsrc
           Hreg Hnew Hdst Hslash Hdir Hfit).
Qed.

Lemma X4_copy_to_new_file_witness :
  exists w',
    TimedCopyFile 64 TCPY_MODE_COPY "src/a" "dst/a" open_world = Ret 0 w'
    /\ fs (env w') !! "dst/a" = Some (mkInode 33188 1 100 50 7 [1; 2; 3])
    /\ fs (env w') !! "src/a" = Some (mkInode 33206 1 5 50 7 [1; 2; 3]).
Proof.
  assert (Hq : quiet open_world) by (split; reflexivity).
  assert (Hsrc : resolve (fs (env open_world)) "src/a"
                 = inr (mkInode 33206 1 5 50 7 [1; 2; 3]))
    by (vm_compute; reflexivity).
  assert (Hnew : i_data (mkInode 33206 1 5 50 7 [1; 2; 3]) <> []
                 \/ i_mtim_sec (mkInode 33206 1 5 50 7 [1; 2; 3]) <> 0
                 \/ i_mtim_nsec (mkInode 33206 1 5 50 7 [1; 2; 3]) <> 0)
    by (left; discriminate).
  assert (Hdst : fs (env open_world) !! canon "dst/a" = None)
    by (vm_compute; reflexivity).
  assert (Hdir : parent_dir (fs (env open_world)) "dst/a" = Some (dirnode 6))
    by (vm_compute; reflexivity).
  assert (Hfit : strlen ("Copy " +:+ StringShortner "src/a" (LNSZ - 80)
                         +:+ " to " +:+ StringShortner "dst/a" (LNSZ - 80))
                 < LNSZ) by (vm_compute; reflexivity).
  destruct (X4_copy_to_new_file 64 TCPY_MODE_COPY "src/a" "dst/a" open_world
              (mkInode 33206 1 5 50 7 [1; 2; 3]) (dirnode 6) Hq eq_refl eq_refl
              Hsrc eq_refl Hnew Hdst eq_refl Hdir Hfit) as (w' & E & Hfs).
  exists w'. split; [exact E|]. rewrite Hfs. split; vm_compute; reflexivity.
Defined.

Lemma tcf_probe_existing bits src dst szS szD w n nd :
  quiet w -> giTestRun (glob w) = 0 ->
  resolve (fs (env w)) src = inr n ->
  Z.land (i_mode n) S_IFMT = S_IFREG ->
  resolve (fs (env w)) dst = inr nd ->
  Z.land (i_mode nd) S_IFMT = S_IFREG ->
  exists w',
    tcf_probe bits src dst szS szD w
    = Ret (0, S_IFREG, stat_of n, stat_of nd,
           (if compared n nd then ChecksumAdd bits (i_data n) 0 else 0),
           (if compared n nd then ChecksumAdd bits (i_data nd) 0 else 0)) w'
    /\ glob w' = glob w /\ env w' = env w.
Proof.
  intros [Hf Hk] Ht Hsrc Hreg Hdst Hregd.
  unfold tcf_probe, FilenameExist, sys_stat, pop_fault, set_errno_ret, bind,
    emit, get_env, put_env, puts, ret.
  repeat (progress (sim_cbn; sim_consts;
                    rewrite ?Hf, ?Hsrc, ?Hdst, ?(reg_bit _ Hreg),
                      ?(reg_bit _ Hregd))).
  change (truthy S_IFREG) with true. cbv iota.
  repeat (progress (sim_cbn; sim_consts)).
  unfold tcf_compare.
  change (negb (truthy 0)) with true. cbn [andb].
  change (zero_dest S_IFREG (stat_of nd)) with (stat_of nd).
  change (truthy (st_size (stat_of n)) && truthy (st_size (stat_of nd))
          && (st_size (stat_of n) =? st_size (stat_of nd)))
    with (compared n nd).
  destruct (compared n nd).
  - cbv zeta. unfold bind at 1. step_overrun.
    unfold bind at 1. unfold EchoPrint at 1, printf, emit.
    unfold bind at 1. unfold gets at 1.
    cbn [glob add_event upd_env upd_glob]. rewrite Ht.
    change (negb (truthy 0)) with true. cbv iota.
    unfold bind.
    match goal with
    | |- context [FilenameChecksum _ src ?w0] =>
        destruct (FilenameChecksum_quiet bits src w0 n (conj Hf Hk) Hsrc)
          as (w1 & E1 & Hg1 & He1)
    end.
    rewrite E1. change (negb (truthy 0)) with true. cbv iota.
    cbn in Hg1, He1.
    assert (Hq1 : quiet w1) by (split; rewrite He1; assumption).
    assert (Hd1 : resolve (fs (env w1)) dst = inr nd) by (rewrite He1; exact Hdst).
    destruct (FilenameChecksum_quiet bits dst w1 nd Hq1 Hd1)
      as (w2 & E2 & Hg2 & He2).
    rewrite E2. unfold ret.
    exists w2. split; [reflexivity|]. split; congruence.
  - unfold ret. eexists. split; [reflexivity|]. auto.
Qed.

Lemma names_fit_copy src dst : names_fit src dst -> copy_fits src dst.
Proof.
  unfold names_fit, copy_fits, verify_line, copy_line.
  rewrite !strlen_app.
  change (strlen "Verify ") with 7. change (strlen "Copy ") with 5. lia.
Qed.

(** Names that add up to 288 characters at most fit both lines. *)
Lemma short_names_fit src dst :
  strlen src + strlen dst <= LNSZ - 12 -> names_fit src dst.
Proof.
  intros H. unfold names_fit, verify_line. rewrite !strlen_app.
  change (strlen "Verify ") with 7. change (strlen " to ") with 4.
  assert (H5 : 5 <= LNSZ - 80) by (unfold LNSZ; lia).
  destruct (StringShortner_cases src (LNSZ - 80) H5) as (Ss & Sl).
  destruct (StringShortner_cases dst (LNSZ - 80) H5) as (Ds & Dl).
  assert (Hs : strlen (StringShortner src (LNSZ - 80)) <= strlen src).
  { destruct (Z.lt_ge_cases (strlen src) (LNSZ - 80)) as [Hlt|Hge].
    - rewrite (Ss Hlt). lia.
    - destruct (Sl Hge) as (h & m & t & E1 & E2 & L1 & L2 & L3).
      rewrite E2, E1, !strlen_app. change (strlen " ... ") with 5. lia. }
  assert (Hd : strlen (StringShortner dst (LNSZ - 80)) <= strlen dst).
  { destruct (Z.lt_ge_cases (strlen dst) (LNSZ - 80)) as [Hlt|Hge].
    - rewrite (Ds Hlt). lia.
    - destruct (Dl Hge) as (h & m & t & E1 & E2 & L1 & L2 & L3).
      rewrite E2, E1, !strlen_app. change (strlen " ... ") with 5. lia. }
  unfold LNSZ in *. lia.
Qed.

Lemma compared_sizes n nd :
  compared n nd = false ->
  length (i_data n) = length (i_data nd) ->
  i_data n = [] /\ i_data nd = [].
Proof.
  unfold compared, stat_of, truthy. cbn [st_size]. intros H E.
  rewrite E, Z.eqb_refl, andb_true_r in H.
  destruct (i_data nd) as [|x l]; [|discriminate].
  destruct (i_data n); [auto | discriminate].
Qed.

Lemma stale_differ bits n nd :
  stale bits n nd <->
  differ (stat_of n) (stat_of nd)
    (if compared n nd then ChecksumAdd bits (i_data n) 0 else 0)
    (if compared n nd then ChecksumAdd bits (i_data nd) 0 else 0) = true.
Proof.
  unfold stale, differ, stat_of. cbn [st_size st_mtim_sec st_mtim_nsec].
  rewrite !orb_true_iff, !negb_true_iff, !Z.eqb_neq.
  split.
  - intros [H|[H|[H|H]]]; [left; left; left; lia | left; left; right; exact H
                           | left; right; exact H |].
    destruct (Nat.eq_dec (length (i_data n)) (length (i_data nd))) as [E|E];
      [|left; left; left; lia].
    destruct (compared n nd) eqn:Ec; [right; exact H|].
    destruct (compared_sizes n nd Ec E) as [E1 E2]. rewrite E1, E2 in H.
    contradiction.
  - intros [[[H|H]|H]|H]; [left; lia | right; left; exact H
                           | right; right; left; exact H |].
    destruct (compared n nd); [|contradiction]. right. right. right. exact H.
Qed.

Lemma tcf_delete_dest_quiet sS sD sc dc dst szD w nd :
  quiet w -> giTestRun (glob w) = 0 ->
  resolve (fs (env w)) dst = inr nd -> is_dir nd = false ->
  exists w',
    tcf_delete_dest S_IFREG sS sD sc dc dst szD w = Ret 0 w'
    /\ steady w w' /\ next_ino (env w') = next_ino (env w)
    /\ fs (env w') = delete (canon dst) (fs (env w))
    /\ umask (env w') = umask (env w).
Proof.
  intros [Hf Hk] Ht Hr Hd.
  unfold tcf_delete_dest. change (truthy S_IFREG) with true. cbv iota.
  unfold sys_unlink, pop_fault, set_errno_ret, get_errno, bind, EchoPrint,
    printf, emit, gets, get_env, put_env, puts, ret, id.
  repeat (progress (sim_cbn; sim_consts; rewrite ?Hf, ?Ht, ?Hr, ?Hd)).
  eexists. split; [reflexivity|]. split; [|repeat split; reflexivity].
  unfold steady. cbn. auto 12.
Qed.

Lemma resolve_file_no_slash (f : gmap string inode) p n :
  resolve f p = inr n -> is_dir n = false -> ends_with_slash p = false.
Proof.
  unfold resolve. destruct (f !! canon p) as [n'|]; [|discriminate].
  destruct (ends_with_slash p); [|reflexivity].
  destruct (is_dir n') eqn:E; cbn; [|discriminate].
  intros [= ->]. congruence.
Qed.

Section CopyOver.

Variables (bits : Z) (src dst : string) (w : World) (n nd d : inode).
Hypothesis Hq : quiet w.
Hypothesis Hrun : giTestRun (glob w) = 0.
Hypothesis Hsrc : resolve (fs (env w)) src = inr n.
Hypothesis Hreg : Z.land (i_mode n) S_IFMT = S_IFREG.
Hypothesis Hdst : resolve (fs (env w)) dst = inr nd.
Hypothesis Hregd : Z.land (i_mode nd) S_IFMT = S_IFREG.
Hypothesis Hne : canon src <> canon dst.
Hypothesis Hdir : parent_dir (fs (env w)) dst = Some d.
Hypothesis Hfit : copy_fits src dst.

Lemma parent_dir_delete :
  parent_dir (delete (canon dst) (fs (env w))) dst = Some d.
Proof.
  destruct (parent_dir_is_dir _ _ _ Hdir) as [Hl Hd].
  unfold parent_dir. rewrite lookup_delete_ne.
  - rewrite Hl, Hd. reflexivity.
  - intros E. rewrite <- E in Hl.
    rewrite (resolve_lookup _ _ _ Hdst) in Hl. injection Hl as ->.
    rewrite (reg_not_dir _ Hregd) in Hd. discriminate.
Qed.

Lemma tcf_copy_verify_stale :
  stale bits n nd ->
  exists w',
    tcf_copy_verify bits src dst w = Ret 0 w'
    /\ steady w w'
    /\ fs (env w') = <[canon dst := copy_of (env w) n d]> (fs (env w)).
Proof.
  intros Hst.
  destruct (tcf_probe_existing bits src dst (StringShortner src (LNSZ - 80))
              (StringShortner dst (LNSZ - 80)) w n nd Hq Hrun Hsrc Hreg Hdst
              Hregd) as (w1 & E1 & Hg1 & He1).
  unfold tcf_copy_verify. cbv zeta. unfold bind at 1. rewrite E1.
  unfold tcf_transfer. rewrite (proj1 (stale_differ bits n nd) Hst).
  change (negb (truthy 0) && true) with true. cbv iota.
  assert (Hq1 : quiet w1) by (destruct Hq; split; rewrite He1; assumption).
  assert (Ht1 : giTestRun (glob w1) = 0) by (rewrite Hg1; exact Hrun).
  assert (Hd1 : resolve (fs (env w1)) dst = inr nd) by (rewrite He1; exact Hdst).
  destruct (tcf_delete_dest_quiet (stat_of n) (stat_of nd)
              (if compared n nd then ChecksumAdd bits (i_data n) 0 else 0)
              (if compared n nd then ChecksumAdd bits (i_data nd) 0 else 0)
              dst (StringShortner dst (LNSZ - 80)) w1 nd Hq1 Ht1 Hd1
              (reg_not_dir _ Hregd)) as (w2 & E2 & Hs2 & Hn2 & Hfs2 & Hu2).
  unfold bind at 1. rewrite E2. change (negb (truthy 0)) with true. cbv iota.
  assert (Hq2 : quiet w2) by (eapply quiet_steady; eauto).
  assert (Ht2 : giTestRun (glob w2) = 0).
  { destruct Hs2 as (_ & _ & _ & _ & _ & St & _). rewrite St. exact Ht1. }
  unfold tcf_copy, bind, EchoPrint, printf, emit, gets, ret.
  repeat (progress (cbn -[tcf_copy_io tcf_verify_dest canon StringShortner
                          String.append line Z.sub compared ChecksumAdd
                          sz2_overrun];
                    rewrite ?Ht2, ?(sz2_overrun_fits _ _ _ _ Hfit))).
  destruct Hq2 as [Hf2 Hk2].
  assert (Hsc : (if compared n nd then ChecksumAdd bits (i_data n) 0 else 0) = 0
                \/ (if compared n nd then ChecksumAdd bits (i_data n) 0 else 0)
                   = ChecksumAdd bits (i_data n) 0)
    by (destruct (compared n nd); auto).
  match goal with
  | |- context [tcf_copy_io _ _ _ _ _ _ _ _ ?w0] =>
      assert (Hq0 : quiet w0) by (split; assumption);
      destruct (tcf_copy_io_quiet bits (stat_of n) src dst
              (StringShortner src (LNSZ - 80)) (StringShortner dst (LNSZ - 80))
              w0 n d Hq0) with (sc := if compared n nd then ChecksumAdd bits (i_data n) 0 else 0)
        as (w3 & E3 & Hs3 & Hfs3)
  end.
  { cbn. rewrite Hfs2, He1, resolve_delete_ne by (symmetry; exact Hne).
    exact Hsrc. }
  { cbn. rewrite Hfs2. apply lookup_delete_eq. }
  { eapply resolve_file_no_slash; [exact Hdst | exact (reg_not_dir _ Hregd)]. }
  { cbn. rewrite Hfs2, He1. apply parent_dir_delete. }
  { exact Hsc. }
  rewrite E3. change (negb (truthy 0)) with true. cbv iota.
  cbn -[canon new_mode] in Hfs3.
  assert (Hq3 : quiet w3) by (eapply quiet_steady; [exact Hq0 | exact Hs3]).
  assert (Ht3 : giTestRun (glob w3) = 0).
  { destruct Hs3 as (_ & _ & _ & _ & _ & St & _). rewrite St. exact Ht2. }
  assert (Hfin : fs (env w3)
                 = <[canon dst := copy_of (env w) n d]> (fs (env w))).
  { rewrite Hfs3, Hfs2. unfold copy_of, new_mode.
    rewrite Hn2, Hu2, He1, insert_delete_eq. reflexivity. }
  assert (Hr3 : resolve (fs (env w3)) dst
                = inr (copy_of (env w) n d)).
  { rewrite Hfin. apply resolve_insert_eq.
    eapply resolve_file_no_slash; [exact Hdst | exact (reg_not_dir _ Hregd)]. }
  destruct (tcf_verify_dest_quiet bits (ChecksumAdd bits (i_data n) 0) dst
              (StringShortner dst (LNSZ - 80)) w3 _ Hq3 Ht3 Hr3 eq_refl)
    as (w4 & E4 & Hg4 & He4).
  exists w4. split; [exact E4|]. split; [|rewrite He4; exact Hfin].
  destruct Hs2 as (A1 & A2 & A3 & A4 & A5 & A6 & A7 & A8).
  destruct Hs3 as (B1 & B2 & B3 & B4 & B5 & B6 & B7 & B8).
  cbn in B1, B2, B3, B4, B5, B6, B7, B8.
  unfold steady. rewrite Hg4, He4.
  rewrite B1, B2, B3, B4, B5, B6, B7, B8, A1, A2, A3, A4, A5, A6, A7, A8,
    Hg1, He1.
  auto 12.
Qed.

Lemma tcf_copy_verify_fresh :
  ~ stale bits n nd ->
  exists w',
    tcf_copy_verify bits src dst w = Ret 0 w'
    /\ glob w' = glob w /\ env w' = env w.
Proof.
  intros Hst.
  destruct (tcf_probe_existing bits src dst (StringShortner src (LNSZ - 80))
              (StringShortner dst (LNSZ - 80)) w n nd Hq Hrun Hsrc Hreg Hdst
              Hregd) as (w1 & E1 & Hg1 & He1).
  unfold tcf_copy_verify. cbv zeta. unfold bind at 1. rewrite E1.
  unfold tcf_transfer.
  destruct (differ _ _ _ _) eqn:Ed.
  - exfalso. apply Hst. apply stale_differ. exact Ed.
  - rewrite andb_false_r. exists w1. split; [reflexivity|]. auto.
Qed.

End CopyOver.

(** The end of [TimedCopyFile] after a transfer that succeeded. *)
Lemma TimedCopyFile_finish bits iMode src dst w w1 n :
  tcf_copy_verify bits src dst w = Ret 0 w1 ->
  quiet w1 -> giTestRun (glob w1) = 0 -> giPauseAfterVerif (glob w1) = 0 ->
  resolve (fs (env w1)) src = inr n -> is_dir n = false ->
  exists w',
    TimedCopyFile bits iMode src dst w = Ret 0 w'
    /\ fs (env w') = if iMode =? TCPY_MODE_DEL
                     then delete (canon src) (fs (env w1)) else fs (env w1).
Proof.
  intros E1 Hq1 Ht1 Hp1 Hr1 Hd.
  unfold TimedCopyFile. cbv zeta. unfold bind at 1. rewrite E1.
  destruct (tcf_delete_source_quiet iMode src (StringShortner src (LNSZ - 80))
              (StringShortner dst (LNSZ - 80)) w1 n Hq1 Ht1 Hr1 Hd)
    as (w2 & E2 & Hs2 & Hfs2).
  unfold bind at 1. rewrite E2.
  assert (Hp2 : giPauseAfterVerif (glob w2) = 0).
  { destruct Hs2 as (_ & _ & _ & _ & _ & _ & _ & Sp2). congruence. }
  destruct (tcf_bookkeeping_ok w2 Hp2) as (w3 & E3 & Hfs3).
  exists w3. split; [exact E3|]. rewrite Hfs3, Hfs2. reflexivity.
Qed.

(** X5: with no fault and no key pending, outside a test run, and with
    names short enough for the lines [Verify <source> to <destination>]
    and [Copy <source> to <destination>] to fit [sz2], [TimedCopyFile]
    on a regular source and an existing regular destination returns 0.
    If the destination differs in size, modification time or checksum
    it is deleted and a new file is created in its place: the bytes and
    the modification time of the source, the permission bits of the
    source that the umask of the process does not clear.  If not, it is
    left as it is.  In Move mode the source is deleted in both cases. *)
Theorem X5_existing_destination bits iMode src dst w n nd d
    (Hq : quiet w)
    (Hrun : giTestRun (glob w) = 0)
    (Hpause : giPauseAfterVerif (glob w) = 0)
    (Hsrc : resolve (fs (env w)) src = inr n)
    (Hreg : Z.land (i_mode n) S_IFMT = S_IFREG)
    (Hdst : resolve (fs (env w)) dst = inr nd)
    (Hregd : Z.land (i_mode nd) S_IFMT = S_IFREG)
    (Hne : canon src <> canon dst)
    (Hdir : parent_dir (fs (env w)) dst = Some d)
    (Hfit : names_fit src dst) :
  (stale bits n nd ->
   exists w',
     TimedCopyFile bits iMode src dst w = Ret 0 w'
     /\ fs (env w')
        = let f1 := <[canon dst := copy_of (env w) n d]> (fs (env w)) in
          if iMode =? TCPY_MODE_DEL then delete (canon src) f1 else f1)
  /\ (~ stale bits n nd ->
      exists w',
        TimedCopyFile bits iMode src dst w = Ret 0 w'
        /\ fs (env w')
           = if iMode =? TCPY_MODE_DEL then delete (canon src) (fs (env w))
             else fs (env w)).
Proof.
  split; intros Hst.
  - destruct (tcf_copy_verify_stale bits src dst w n nd d Hq Hrun Hsrc Hreg
                Hdst Hregd Hne Hdir (names_fit_copy _ _ Hfit) Hst)
      as (w1 & E1 & Hs1 & Hfs1).
    assert (Hq1 : quiet w1) by (eapply quiet_steady; eauto).
    destruct Hs1 as (_ & _ & _ & _ & _ & St & _ & Sp).
    destruct (TimedCopyFile_finish bits iMode src dst w w1 n E1 Hq1)
      as (w' & E & Hfs); try congruence.
    + rewrite Hfs1, resolve_insert_ne by (symmetry; exact Hne). exact Hsrc.
    + apply reg_not_dir. exact Hreg.
    + exists w'. split; [exact E|]. cbv zeta. rewrite Hfs, Hfs1. reflexivity.
  - destruct (tcf_copy_verify_fresh bits src dst w n nd Hq Hrun Hsrc Hreg
                Hdst Hregd Hst) as (w1 & E1 & Hg1 & He1).
    destruct (TimedCopyFile_finish bits iMode src dst w w1 n E1)
      as (w' & E & Hfs); try (rewrite ?Hg1, ?He1; assumption).
    + destruct Hq. split; rewrite He1; assumption.
    + apply reg_not_dir. exact Hreg.
    + exists w'. split; [exact E|]. rewrite Hfs, He1. reflexivity.
Qed.

Lemma X5_existing_destination_witness :
  exists w',
    TimedCopyFile 64 TCPY_MODE_COPY "src/a" "dst/a" stale_world = Ret 0 w'
    /\ fs (env w') !! "dst/a" = Some (mkInode 33188 1 100 50 7 [1; 2; 3]).
Proof.
  assert (Hq : quiet stale_world) by (split; reflexivity).
  assert (Hsrc : resolve (fs (env stale_world)) "src/a"
                 = inr (filenode 5 50 7 [1; 2; 3])) by (vm_compute; reflexivity).
  assert (Hdst : resolve (fs (env stale_world)) "dst/a"
                 = inr (filenode 7 50 7 [1; 2])) by (vm_compute; reflexivity).
  assert (Hne : canon "src/a" <> canon "dst/a") by (vm_compute; discriminate).
  assert (Hdir : parent_dir (fs (env stale_world)) "dst/a" = Some (dirnode 6))
    by (vm_compute; reflexivity).
  assert (Hfit : names_fit "src/a" "dst/a") by (vm_compute; reflexivity).
  destruct (X5_existing_destination 64 TCPY_MODE_COPY "src/a" "dst/a"
              stale_world (filenode 5 50 7 [1; 2; 3]) (filenode 7 50 7 [1; 2])
              (dirnode 6) Hq eq_refl eq_refl Hsrc eq_refl Hdst eq_refl Hne Hdir
              Hfit)
    as (Hstale & _).
  destruct Hstale as (w' & E & Hfs); [left; cbn; lia|].
  exists w'. split; [exact E|]. rewrite Hfs. vm_compute. reflexivity.
Defined.

(** *** The decision to copy, from the two files *)

Lemma tcf_delete_dest_dry sS sD sc dc dst szD w :
  giTestRun (glob w) <> 0 ->
  tcf_delete_dest S_IFREG sS sD sc dc dst szD w
  = Ret 0 (add_event (EPrint (line (delete_line sS sD sc dc szD))) w).
Proof.
  intros Ht. unfold tcf_delete_dest. change (truthy S_IFREG) with true.
  cbv iota. unfold bind, EchoPrint, printf, emit, gets, ret.
  cbn [glob add_event]. rewrite (truthy_neq _ Ht). reflexivity.
Qed.

(** The probe of two existing regular files in a test run: no checksum
    is computed. *)
Lemma tcf_probe_existing_dry bits src dst w n nd :
  flt (env w) = [] -> giTestRun (glob w) <> 0 ->
  resolve (fs (env w)) src = inr n ->
  Z.land (i_mode n) S_IFMT = S_IFREG ->
  resolve (fs (env w)) dst = inr nd ->
  Z.land (i_mode nd) S_IFMT = S_IFREG ->
  names_fit src dst ->
  exists w',
    tcf_probe bits src dst (StringShortner src (LNSZ - 80))
      (StringShortner dst (LNSZ - 80)) w
    = Ret (0, S_IFREG, stat_of n, stat_of nd, 0, 0) w'
    /\ glob w' = glob w /\ env w' = env w.
Proof.
  intros Hf Ht Hsrc Hreg Hdst Hregd Hfit.
  unfold tcf_probe, FilenameExist, sys_stat, pop_fault, set_errno_ret, bind,
    emit, get_env, put_env, puts, ret.
  repeat (progress (sim_cbn; sim_consts;
                    rewrite ?Hf, ?Hsrc, ?Hdst, ?(reg_bit _ Hreg),
                      ?(reg_bit _ Hregd))).
  change (truthy S_IFREG) with true. cbv iota.
  repeat (progress (sim_cbn; sim_consts)).
  unfold tcf_compare.
  change (negb (truthy 0)) with true. cbn [andb].
  change (zero_dest S_IFREG (stat_of nd)) with (stat_of nd).
  destruct (truthy (st_size (stat_of n)) && truthy (st_size (stat_of nd))
            && (st_size (stat_of n) =? st_size (stat_of nd))).
  - cbv zeta. unfold bind at 1.
    rewrite (sz2_overrun_fits _ _ _ _ Hfit).
    unfold bind at 1. unfold EchoPrint at 1, printf, emit.
    unfold bind at 1. unfold gets at 1.
    cbn [glob add_event upd_env upd_glob]. rewrite (truthy_neq _ Ht).
    cbn [negb fst snd]. unfold ret.
    eexists. split; [reflexivity|]. auto.
  - unfold ret. eexists. split; [reflexivity|]. auto.
Qed.

Lemma agree_stale bits n nd : agree bits true n nd <-> ~ stale bits n nd.
Proof.
  unfold agree, stale. split.
  - intros (A & B & C & D) [H|[H|[H|H]]]; auto.
  - intros H.
    destruct (Nat.eq_dec (length (i_data n)) (length (i_data nd)));
      [|exfalso; auto].
    destruct (Z.eq_dec (i_mtim_sec n) (i_mtim_sec nd)); [|exfalso; auto].
    destruct (Z.eq_dec (i_mtim_nsec n) (i_mtim_nsec nd)); [|exfalso; auto].
    destruct (Z.eq_dec (ChecksumAdd bits (i_data n) 0)
                (ChecksumAdd bits (i_data nd) 0)); [|exfalso; auto 6].
    auto.
Qed.

Lemma agree_differ_dry bits n nd :
  agree bits false n nd
  <-> differ (stat_of n) (stat_of nd) 0 0 = false.
Proof.
  rewrite differ_false_iff. unfold agree, stat_of.
  cbn [st_size st_mtim_sec st_mtim_nsec].
  split.
  - intros (A & B & C & _). repeat split; auto; try lia.
  - intros (A & B & C & _). repeat split; auto; try lia; try discriminate.
Qed.




Lemma sys_malloc_quiet w :
  flt (env w) = [] -> sys_malloc w = Ret true (add_event EMalloc w).
Proof.
  intros H. unfold sys_malloc, pop_fault, bind, emit, ret. cbn. rewrite H.
  reflexivity.
Qed.

Lemma DirectoryExist_quiet path buf w n :
  flt (env w) = [] -> resolve (fs (env w)) path = inr n ->
  DirectoryExist path buf w
  = Ret (Z.land (i_mode n) S_IFDIR, stat_of n) (add_event (EStat path) w).
Proof.
  intros Hf Hr.
  unfold DirectoryExist, sys_stat, pop_fault, bind, emit, get_env, ret.
  cbn. rewrite Hf. cbn. rewrite Hr. reflexivity.
Qed.

(** The resolution of the two directories when both exist and the
    source is not the guarded one. *)
Lemma resolve_dirs_quiet sdir ddir w ds dd :
  quiet w ->
  resolve (fs (env w)) sdir = inr ds -> Z.land (i_mode ds) S_IFDIR <> 0 ->
  ~ (i_dev ds = giSt_dev (glob w) /\ i_ino ds = giSt_ino (glob w)) ->
  resolve (fs (env w)) ddir = inr dd -> Z.land (i_mode dd) S_IFDIR <> 0 ->
  exists w',
    resolve_dirs sdir ddir w = Ret 0 w'
    /\ steady w w' /\ env w' = env w.
Proof.
  intros [Hf Hk] Hs Hsd Hnc Hd Hdd.
  assert (Hc : (i_dev ds =? giSt_dev (glob w)) && (i_ino ds =? giSt_ino (glob w))
               = false).
  { destruct (Z.eqb_spec (i_dev ds) (giSt_dev (glob w)));
      destruct (Z.eqb_spec (i_ino ds) (giSt_ino (glob w))); auto.
    exfalso. apply Hnc. auto. }
  unfold resolve_dirs, bind, get_env, gets, when, puts, ret, id.
  rewrite (DirectoryExist_quiet _ _ _ _ Hf Hs).
  cbn [glob add_event st_dev st_ino stat_of].
  rewrite (truthy_neq _ Hsd), Hc. change (negb (truthy 0)) with true.
  cbv beta iota.
  rewrite (DirectoryExist_quiet ddir _ (add_event (EStat sdir) w) dd Hf Hd).
  rewrite (truthy_neq _ Hdd).
  destruct (negb _); cbn; (eexists; split; [reflexivity|]);
    (split; [unfold steady; cbn; auto 12 | reflexivity]).
Qed.

(** With an explicit source file and two directory names that differ
    as strings, [TimedCopy] resolves the directories and hands the two
    path names to [TimedCopyFile]. *)
Lemma TimedCopy_file_quiet bits fuel iMode sdir sfile ddir dfile w ds dd :
  quiet w -> sdir <> ddir -> sfile <> "" ->
  resolve (fs (env w)) sdir = inr ds -> Z.land (i_mode ds) S_IFDIR <> 0 ->
  ~ (i_dev ds = giSt_dev (glob w) /\ i_ino ds = giSt_ino (glob w)) ->
  resolve (fs (env w)) ddir = inr dd -> Z.land (i_mode dd) S_IFDIR <> 0 ->
  exists w1,
    TimedCopy bits (S fuel) iMode sdir sfile ddir dfile w
    = TimedCopyFile bits iMode (sdir +:+ sfile) (ddir +:+ dfile) w1
    /\ steady w w1 /\ env w1 = env w.
Proof.
  intros [Hf Hk] Hne Hfile Hs Hsd Hnc Hd Hdd.
  destruct (resolve_dirs_quiet sdir ddir
              (add_event EMalloc (add_event EMalloc w)) ds dd
              (conj Hf Hk) Hs Hsd Hnc Hd Hdd) as (w1 & E1 & Hs1 & He1).
  exists w1. split; [|split; [exact Hs1 | exact He1]].
  cbn [TimedCopy]. unfold bind.
  rewrite (sys_malloc_quiet _ Hf).
  rewrite (sys_malloc_quiet (add_event EMalloc w) Hf). cbn [andb negb].
  apply String.eqb_neq in Hne. rewrite Hne. cbn [negb].
  apply String.eqb_neq in Hfile. rewrite Hfile. cbn [negb].
  rewrite E1. change (negb (truthy 0)) with true. cbv iota. reflexivity.
Qed.

(** X6: the protection of [TimedCopy] against a copy of a file onto
    itself compares the directory names as strings.  In Move mode,
    with two different names of the same directory and the same file
    name, it returns 0 and the file is gone: it was found up to date
    under the destination name, then deleted under the source name. *)
Theorem X6_move_onto_itself bits fuel sdir sfile ddir dfile w ds dd n
    (Hq : quiet w)
    (Hrun : giTestRun (glob w) = 0)
    (Hpause : giPauseAfterVerif (glob w) = 0)
    (Hnames : sdir <> ddir)
    (Hfile : sfile <> "")
    (Hs : resolve (fs (env w)) sdir = inr ds)
    (Hsd : Z.land (i_mode ds) S_IFDIR <> 0)
    (Hnc : ~ (i_dev ds = giSt_dev (glob w) /\ i_ino ds = giSt_ino (glob w)))
    (Hd : resolve (fs (env w)) ddir = inr dd)
    (Hdd : Z.land (i_mode dd) S_IFDIR <> 0)
    (Hsrc : resolve (fs (env w)) (sdir +:+ sfile) = inr n)
    (Hreg : Z.land (i_mode n) S_IFMT = S_IFREG)
    (Halias : canon (ddir +:+ dfile) = canon (sdir +:+ sfile))
    (Hslash : ends_with_slash (ddir +:+ dfile) = false) :
  exists w',
    TimedCopy bits (S fuel) TCPY_MODE_DEL sdir sfile ddir dfile w = Ret 0 w'
    /\ fs (env w') = delete (canon (sdir +:+ sfile)) (fs (env w))
    /\ fs (env w') !! canon (ddir +:+ dfile) = None.
Proof.
  destruct (TimedCopy_file_quiet bits fuel TCPY_MODE_DEL sdir sfile ddir dfile
              w ds dd Hq Hnames Hfile Hs Hsd Hnc Hd Hdd)
    as (w1 & E1 & Hs1 & He1).
  rewrite E1.
  assert (Hq1 : quiet w1) by (eapply quiet_steady; eauto).
  destruct Hs1 as (_ & _ & _ & _ & _ & St & _ & Sp).
  assert (Hsrc1 : resolve (fs (env w1)) (sdir +:+ sfile) = inr n)
    by (rewrite He1; exact Hsrc).
  assert (Hdst1 : resolve (fs (env w1)) (ddir +:+ dfile) = inr n).
  { unfold resolve. rewrite Halias, He1, (resolve_lookup _ _ _ Hsrc), Hslash.
    reflexivity. }
  assert (Hfresh : ~ stale bits n n).
  { intros [H|[H|[H|H]]]; contradiction. }
  destruct (tcf_copy_verify_fresh bits (sdir +:+ sfile) (ddir +:+ dfile) w1 n n
              Hq1 ltac:(congruence) Hsrc1 Hreg Hdst1 Hreg Hfresh)
    as (w2 & E2 & Hg2 & He2).
  destruct (TimedCopyFile_finish bits TCPY_MODE_DEL (sdir +:+ sfile)
              (ddir +:+ dfile) w1 w2 n E2) as (w' & E & Hfs);
    try (rewrite ?Hg2, ?He2; congruence).
  - destruct Hq1. split; rewrite He2; assumption.
  - apply reg_not_dir. exact Hreg.
  - exists w'. split; [exact E|]. cbn [Z.eqb TCPY_MODE_DEL Pos.eqb] in Hfs.
    rewrite Hfs, He2, He1. split; [reflexivity|].
    rewrite Halias. apply lookup_delete_eq.
Qed.

Lemma X6_move_onto_itself_witness :
  exists w',
    TimedCopy 64 1 TCPY_MODE_DEL "src/" "a" "./src/" "a" move_world = Ret 0 w'
    /\ fs (env w') !! "src/a" = None.
Proof.
  assert (Hq : quiet move_world) by (split; reflexivity).
  assert (Hnames : "src/" <> "./src/") by discriminate.
  assert (Hfile : "a" <> "") by discriminate.
  assert (Hs : resolve (fs (env move_world)) "src/" = inr (dirnode 3))
    by (vm_compute; reflexivity).
  assert (Hd : resolve (fs (env move_world)) "./src/" = inr (dirnode 3))
    by (vm_compute; reflexivity).
  assert (Hsd : Z.land (i_mode (dirnode 3)) S_IFDIR <> 0)
    by (vm_compute; discriminate).
  assert (Hnc : ~ (i_dev (dirnode 3) = giSt_dev (glob move_world)
                   /\ i_ino (dirnode 3) = giSt_ino (glob move_world)))
    by (intros [H _]; vm_compute in H; discriminate).
  assert (Hsrc : resolve (fs (env move_world)) ("src/" +:+ "a")
                 = inr (filenode 5 50 7 [1; 2; 3])) by (vm_compute; reflexivity).
  destruct (X6_move_onto_itself 64 0 "src/" "a" "./src/" "a" move_world
              (dirnode 3) (dirnode 3) (filenode 5 50 7 [1; 2; 3])
              Hq eq_refl eq_refl Hnames Hfile Hs Hsd Hnc Hd Hsd Hsrc eq_refl
              eq_refl eq_refl) as (w' & E & _ & Hgone).
  exists w'. split; [exact E | exact Hgone].
Defined.

(** *** Reads, writes and [opendir] that fail *)

Lemma copy_iter_read_fails bits src dst szD chunk c w en rest :
  flt (env w) = Fail en :: rest -> kbd (env w) = [] ->
  copy_iter bits src dst szD chunk c w
  = Ret (false, 0, c) (after_failed_read src en rest w).
Proof.
  intros Hf Hk.
  unfold copy_iter, sys_read, pop_fault, set_errno_ret, bind, emit, put_env, ret.
  cbn -[KeyboardCheck]. rewrite Hf. cbn -[KeyboardCheck].
  rewrite KeyboardCheck_quiet by exact Hk. reflexivity.
Qed.

(** A [read] that fails ends the copy loop like an end of file: no
    error is raised. *)
Lemma copy_loop_read_fails bits src dst szD chunks c w en rest :
  flt (env w) = Fail en :: rest -> kbd (env w) = [] ->
  copy_loop bits src dst szD chunks c w
  = Ret (0, c) (after_failed_read src en rest w).
Proof.
  intros Hf Hk.
  destruct chunks as [|chunk more]; cbn [copy_loop]; unfold bind;
    rewrite (copy_iter_read_fails _ _ _ _ _ _ _ _ _ Hf Hk); reflexivity.
Qed.

Ltac sim_cbn4 :=
  cbn -[canon resolve parent_dir touch throttle_delay throttle_measure
        throttle_fastest ChecksumAdd Z.eqb Z.add Z.ltb Z.gtb Z.geb Z.land Z.lor
        StringShortner fmt_d fmt_o read_chunks copy_loop checksum_loop
        FilenameChecksum KeyboardCheck delete_line differ String.append line
        tcf_bookkeeping Z.sub after_failed_read new_mode sz2_overrun].

Section ReadError.

Variables (bits : Z) (src dst : string) (w : World) (n d : inode) (en : Z).
Hypothesis Hflt : flt (env w) = [NoFault; NoFault; NoFault; NoFault; Fail en].
Hypothesis Hkbd : kbd (env w) = [].
Hypothesis Hrun : giTestRun (glob w) = 0.
Hypothesis Hsrc : resolve (fs (env w)) src = inr n.
Hypothesis Hreg : Z.land (i_mode n) S_IFMT = S_IFREG.
Hypothesis Hnew : i_data n <> [] \/ i_mtim_sec n <> 0 \/ i_mtim_nsec n <> 0.
Hypothesis Hdst : fs (env w) !! canon dst = None.
Hypothesis Hslash : ends_with_slash dst = false.
Hypothesis Hdir : parent_dir (fs (env w)) dst = Some d.
Hypothesis Hfit : copy_fits src dst.

Lemma tcf_copy_verify_read_error :
  exists w',
    tcf_copy_verify bits src dst w = Ret 0 w'
    /\ quiet w' /\ giTestRun (glob w') = 0
    /\ giPauseAfterVerif (glob w') = giPauseAfterVerif (glob w)
    /\ fs (env w')
       = <[canon dst :=
             mkInode (Z.lor S_IFREG (new_mode (env w) (i_mode n))) (i_dev d)
               (next_ino (env w)) (i_mtim_sec n) (i_mtim_nsec n) []]>
           (fs (env w))
    /\ trace w'
       = trace w
         ++ [EStat src; EStat dst; EPrint (line (copy_line src dst));
             EOpen src; ECreat dst (i_mode n); ERead src; ESelect;
             EClose dst; EClose src;
             EUtimens dst (i_mtim_sec n) (i_mtim_nsec n);
             EPrint (line ("Verify " +:+ StringShortner dst (LNSZ - 80)));
             EOpen dst; ERead dst; ESelect; EClose dst].
Proof.
  pose proof (resolve_lookup _ _ _ Hsrc) as Hl.
  assert (Hne : canon dst <> canon src).
  { intros E. rewrite <- E in Hl. congruence. }
  unfold tcf_copy_verify, tcf_probe, FilenameExist, tcf_compare, tcf_transfer,
    tcf_delete_dest, tcf_copy, tcf_copy_io, tcf_verify_dest, sys_stat,
    sys_open_rdonly, sys_creat, sys_unlink, sys_utimensat, sys_close,
    file_data, pop_fault, set_errno_ret, get_errno, EchoPrint, printf.
  unfold bind, emit, gets, get_env, put_env, puts, when, ret, id.
  assert (Hz : forall st, st_size (zero_dest 0 st) = 0) by reflexivity.
  repeat (progress (sim_cbn4; sim_consts;
                    rewrite ?Hflt, ?Hsrc, ?(resolve_absent _ _ Hdst), ?Hdir,
                      ?(reg_bit _ Hreg), ?Hrun, ?Hz, ?andb_false_r,
                      ?(differ_absent n _ Hnew),
                      ?(sz2_overrun_fits _ _ _ _ Hfit),
                      ?(lookup_insert_ne _ _ _ _ Hne), ?Hl)).
  match goal with
  | |- context [copy_loop ?b ?s ?t ?z ?ch ?c ?w2] =>
      rewrite (copy_loop_read_fails b s t z ch c w2 en [] eq_refl Hkbd)
  end.
  unfold after_failed_read.
  repeat (progress (sim_cbn4; sim_consts;
                    rewrite ?Hrun, ?insert_insert_eq,
                      ?(resolve_insert_eq _ _ _ Hslash))).
  unfold FilenameChecksum, sys_open_rdonly, file_data, sys_close, pop_fault.
  unfold bind, emit, gets, get_env, put_env, puts, when, ret, id.
  repeat (progress (sim_cbn4; sim_consts;
                    rewrite ?Hrun, ?insert_insert_eq, ?lookup_insert_eq,
                      ?(resolve_insert_eq _ _ _ Hslash))).
  change (read_chunks []) with (@nil (list Z)). cbn [checksum_loop].
  unfold bind, ret.
  rewrite checksum_iter_quiet; [|reflexivity|exact Hkbd].
  repeat (progress (sim_cbn4; sim_consts)).
  eexists. split; [reflexivity|].
  unfold quiet. cbn -[canon new_mode StringShortner String.append line].
  rewrite <- !app_assoc. cbn [app].
  repeat split; auto.
Qed.

End ReadError.

Lemma tcf_delete_source_trace iMode src szS szD w n :
  quiet w -> giTestRun (glob w) = 0 ->
  resolve (fs (env w)) src = inr n -> is_dir n = false ->
  trace (world_of (tcf_delete_source iMode 0 src szS szD w))
  = trace w ++ (if iMode =? TCPY_MODE_DEL
                then [EPrint (line ("Delete " +:+ szS)); EUnlink src]
                else []).
Proof.
  intros [Hf Hk] Ht Hr Hd.
  unfold tcf_delete_source. change (negb (truthy 0)) with true. cbn [andb].
  destruct (iMode =? TCPY_MODE_DEL).
  - unfold sys_unlink, pop_fault, set_errno_ret, get_errno, bind, EchoPrint,
      printf, emit, gets, get_env, put_env, puts, ret, id.
    repeat (progress (sim_cbn; sim_consts; rewrite ?Hf, ?Ht, ?Hr, ?Hd)).
    rewrite <- app_assoc. reflexivity.
  - cbn. rewrite app_nil_r. reflexivity.
Qed.

(** C6: the source is deleted after a copy that was not made.  A
    [read] of the source that fails is taken for the end of the file:
    when the first [read] of the copy loop fails (no other fault, no
    key, no test run, names short enough for the Copy line),
    [TimedCopyFile] returns 0 in every mode.  The calls are: the two
    [stat], the Copy line, the two [open], the failed [read] and the
    poll of the keyboard, the two [close], [utimensat], then the
    verification (its line, and the destination is read again: its
    checksum, 0, is the one of the bytes written) and, in Move mode,
    the line [Delete <source>] and the [unlink] of the source.
    Afterwards the
    destination is an empty file with the modification time of the
    source, and in Move mode the source, whose bytes were never copied,
    is gone. *)
Theorem C6_source_deleted_after_failed_read bits iMode src dst w n d en
    (Hflt : flt (env w) = [NoFault; NoFault; NoFault; NoFault; Fail en])
    (Hkbd : kbd (env w) = [])
    (Hrun : giTestRun (glob w) = 0)
    (Hpause : giPauseAfterVerif (glob w) = 0)
    (Hsrc : resolve (fs (env w)) src = inr n)
    (Hreg : Z.land (i_mode n) S_IFMT = S_IFREG)
    (Hdata : i_data n <> [])
    (Hdst : fs (env w) !! canon dst = None)
    (Hslash : ends_with_slash dst = false)
    (Hdir : parent_dir (fs (env w)) dst = Some d)
    (Hfit : copy_fits src dst) :
  exists w' rest,
    TimedCopyFile bits iMode src dst w = Ret 0 w'
    /\ trace w'
       = trace w
         ++ [EStat src; EStat dst; EPrint (line (copy_line src dst));
             EOpen src; ECreat dst (i_mode n); ERead src; ESelect;
             EClose dst; EClose src;
             EUtimens dst (i_mtim_sec n) (i_mtim_nsec n);
             EPrint (line ("Verify " +:+ StringShortner dst (LNSZ - 80)));
             EOpen dst; ERead dst; ESelect; EClose dst]
         ++ (if iMode =? TCPY_MODE_DEL
             then [EPrint (line ("Delete " +:+ StringShortner src (LNSZ - 80)));
                   EUnlink src]
             else [])
         ++ rest
    /\ fs (env w')
       = (let f1 := <[canon dst :=
                        mkInode (Z.lor S_IFREG (new_mode (env w) (i_mode n)))
                          (i_dev d) (next_ino (env w))
                          (i_mtim_sec n) (i_mtim_nsec n) []]>
                      (fs (env w)) in
          if iMode =? TCPY_MODE_DEL then delete (canon src) f1 else f1)
    /\ (exists nd, fs (env w') !! canon dst = Some nd
                   /\ i_data nd = [] /\ i_data nd <> i_data n)
    /\ (iMode = TCPY_MODE_DEL -> fs (env w') !! canon src = None).
Proof.
  destruct (tcf_copy_verify_read_error bits src dst w n d en Hflt Hkbd Hrun
              Hsrc Hreg (or_introl Hdata) Hdst Hslash Hdir Hfit)
    as (w1 & E1 & Hq1 & Ht1 & Hp1 & Hfs1 & Htr1).
  assert (Hne : canon dst <> canon src).
  { intros E. apply resolve_lookup in Hsrc. rewrite <- E in Hsrc. congruence. }
  assert (Hr1 : resolve (fs (env w1)) src = inr n).
  { rewrite Hfs1, resolve_insert_ne by exact Hne. exact Hsrc. }
  destruct (tcf_delete_source_quiet iMode src (StringShortner src (LNSZ - 80))
              (StringShortner dst (LNSZ - 80)) w1 n Hq1 Ht1 Hr1
              (reg_not_dir _ Hreg)) as (w2 & E2 & Hs2 & Hfs2).
  pose proof (tcf_delete_source_trace iMode src
                (StringShortner src (LNSZ - 80))
                (StringShortner dst (LNSZ - 80)) w1 n Hq1 Ht1 Hr1
                (reg_not_dir _ Hreg)) as Htr2.
  rewrite E2 in Htr2. cbn [world_of] in Htr2.
  assert (Hp2 : giPauseAfterVerif (glob w2) = 0).
  { destruct Hs2 as (_ & _ & _ & _ & _ & _ & _ & Sp2). congruence. }
  destruct (tcf_bookkeeping_ok w2 Hp2) as (w3 & E3 & Hfs3).
  pose proof (ev_trace _ _ _ (ev_tcf_bookkeeping (fun _ => True) 0 w2))
    as (rest & Htr3 & _).
  rewrite E3 in Htr3. cbn [world_of] in Htr3.
  exists w3, rest.
  split.
  { unfold TimedCopyFile. cbv zeta. unfold bind. rewrite E1, E2. exact E3. }
  split.
  { rewrite Htr3, Htr2, Htr1, <- !app_assoc. reflexivity. }
  assert (Hfs : fs (env w3)
                = if iMode =? TCPY_MODE_DEL
                  then delete (canon src) (fs (env w1)) else fs (env w1))
    by (rewrite Hfs3; exact Hfs2).
  cbv zeta. rewrite Hfs, Hfs1.
  split; [reflexivity|]. split.
  - exists (mkInode (Z.lor S_IFREG (new_mode (env w) (i_mode n))) (i_dev d)
              (next_ino (env w)) (i_mtim_sec n) (i_mtim_nsec n) []).
    split; [|split; [reflexivity|]].
    + destruct (iMode =? TCPY_MODE_DEL);
        [rewrite lookup_delete_ne by (intros X; apply Hne; symmetry; exact X)|];
        apply lookup_insert_eq.
    + cbn [i_data]. intros X. apply Hdata. symmetry. exact X.
  - intros ->. cbn [Z.eqb TCPY_MODE_DEL Pos.eqb]. apply lookup_delete_eq.
Qed.

Lemma C6_source_deleted_after_failed_read_witness :
  exists w',
    TimedCopyFile 64 TCPY_MODE_DEL "src/a" "dst/a" read_error_world = Ret 0 w'
    /\ fs (env read_error_world) !! "src/a" = Some (filenode 5 50 7 [1; 2; 3])
    /\ fs (env w') !! "src/a" = None
    /\ fs (env w') !! "dst/a" = Some (mkInode 33188 1 100 50 7 [])
    /\ trace w'
       = [EStat "src/a"; EStat "dst/a";
          EPrint (line "Copy src/a to dst/a");
          EOpen "src/a"; ECreat "dst/a" 33188; ERead "src/a"; ESelect;
          EClose "dst/a"; EClose "src/a"; EUtimens "dst/a" 50 7;
          EPrint (line "Verify dst/a");
          EOpen "dst/a"; ERead "dst/a"; ESelect; EClose "dst/a";
          EPrint (line "Delete src/a"); EUnlink "src/a"].
Proof.
  assert (Hsrc : resolve (fs (env read_error_world)) "src/a"
                 = inr (filenode 5 50 7 [1; 2; 3])) by (vm_compute; reflexivity).
  assert (Hdata : i_data (filenode 5 50 7 [1; 2; 3]) <> []) by discriminate.
  assert (Hdst : fs (env read_error_world) !! canon "dst/a" = None)
    by (vm_compute; reflexivity).
  assert (Hdir : parent_dir (fs (env read_error_world)) "dst/a"
                 = Some (dirnode 6)) by (vm_compute; reflexivity).
  assert (Hfit : copy_fits "src/a" "dst/a") by (vm_compute; reflexivity).
  destruct (C6_source_deleted_after_failed_read 64 TCPY_MODE_DEL "src/a"
              "dst/a" read_error_world (filenode 5 50 7 [1; 2; 3]) (dirnode 6)
              5 eq_refl eq_refl eq_refl eq_refl Hsrc eq_refl Hdata Hdst eq_refl
              Hdir Hfit) as (w' & rest & E & _ & Hfs & _ & Hgone).
  exists w'. split; [exact E|].
  split; [vm_compute; reflexivity|].
  split; [apply Hgone; reflexivity|].
  split; [rewrite Hfs; vm_compute; reflexivity|].
  assert (E' : Ret 0 w' = TimedCopyFile 64 TCPY_MODE_DEL "src/a" "dst/a"
                            read_error_world) by (symmetry; exact E).
  vm_compute in E'. injection E' as ->. reflexivity.
Defined.

Lemma copy_buffer_write_fails bits dst szD buf c w nd f rest :
  flt (env w) = f :: rest -> write_cut f (length buf) ->
  fs (env w) !! canon dst = Some nd ->
  exists w' nd',
    copy_buffer bits dst szD (Z.of_nat (length buf)) buf c w
    = Ret (ERROR_TCPY, ChecksumAdd bits buf c) w'
    /\ flt (env w') = rest /\ kbd (env w') = kbd (env w)
    /\ giTestRun (glob w') = giTestRun (glob w)
    /\ giPauseAfterVerif (glob w') = giPauseAfterVerif (glob w)
    /\ next_ino (env w') = next_ino (env w)
    /\ fs (env w') = <[canon dst := nd']> (fs (env w))
    /\ i_mode nd' = i_mode nd
    /\ exists en, gszErr (glob w')
                  = "Write to file " +:+ szD +:+ " Failed (errno="
                    +:+ fmt_d en +:+ ")".
Proof.
  intros Hf Hcut Hl.
  assert (Hneq : forall k, (Z.to_nat k < length buf)%nat ->
            (Z.of_nat (length (take (Z.to_nat k) buf)) =? Z.of_nat (length buf))
            = false).
  { intros k Hk. apply Z.eqb_neq. rewrite length_take. lia. }
  assert (Hm1 : (-1 =? Z.of_nat (length buf)) = false)
    by (apply Z.eqb_neq; lia).
  unfold copy_buffer, NanoTime, sys_write, sys_clock_gettime, pop_fault,
    set_errno_ret, get_errno, bind, gets, puts, when, emit, ret, get_env,
    put_env.
  destruct f as [|e|k]; [contradiction| |]; cbn [write_cut] in Hcut.
  - repeat (repeat (progress
              (cbn -[canon touch throttle_delay throttle_measure
                     throttle_fastest ChecksumAdd Z.eqb Z.add fmt_d
                     String.append];
               rewrite ?Hf, ?Hl, ?Hm1;
               try change (truthy 0) with false));
            match goal with
            | |- context [match ?x with _ => _ end] =>
                lazymatch x with
                | context [match _ with _ => _ end] => fail
                | _ => destruct x eqn:?
                end
            end).
    all: (eexists; exists nd; split; [reflexivity|]);
      cbn -[canon fmt_d String.append];
      repeat (split; [reflexivity|]);
      (split; [symmetry; apply insert_id; exact Hl|]);
      (split; [reflexivity|]); eexists; reflexivity.
  - repeat (repeat (progress
              (cbn -[canon touch throttle_delay throttle_measure
                     throttle_fastest ChecksumAdd Z.eqb Z.add fmt_d
                     String.append take];
               rewrite ?Hf, ?Hl, ?(Hneq k Hcut);
               try change (truthy 0) with false));
            match goal with
            | |- context [match ?x with _ => _ end] =>
                lazymatch x with
                | context [match _ with _ => _ end] => fail
                | _ => destruct x eqn:?
                end
            end).
    all: (eexists; eexists; split; [reflexivity|]);
      cbn -[canon fmt_d String.append take];
      repeat (split; [reflexivity|]); eexists; reflexivity.
Qed.

Lemma read_chunks_cons data :
  data <> [] ->
  exists c1 more, read_chunks data = c1 :: more /\ (0 < length c1)%nat.
Proof.
  intros H. destruct (read_chunks_spec data) as [Hc Hw].
  destruct (read_chunks data) as [|c1 more] eqn:E.
  - cbn in Hc. congruence.
  - exists c1, more. split; [reflexivity|].
    cbn [wf_chunks] in Hw. destruct more; [lia|]. destruct Hw as [Hl _].
    rewrite Hl. unfold LNBIGBUFFER. lia.
Qed.

(** A [write] that fails or falls short stops the copy loop with
    ERROR_TCPY. *)
Lemma copy_loop_write_fails bits src dst szD c1 more c w nd f rest :
  flt (env w) = NoFault :: f :: rest -> write_cut f (length c1) ->
  (0 < length c1)%nat ->
  fs (env w) !! canon dst = Some nd ->
  exists w' nd',
    copy_loop bits src dst szD (c1 :: more) c w
    = Ret (ERROR_TCPY, ChecksumAdd bits c1 c) w'
    /\ flt (env w') = rest /\ kbd (env w') = kbd (env w)
    /\ giTestRun (glob w') = giTestRun (glob w)
    /\ giPauseAfterVerif (glob w') = giPauseAfterVerif (glob w)
    /\ next_ino (env w') = next_ino (env w)
    /\ fs (env w') = <[canon dst := nd']> (fs (env w))
    /\ i_mode nd' = i_mode nd
    /\ exists en, gszErr (glob w')
                  = "Write to file " +:+ szD +:+ " Failed (errno="
                    +:+ fmt_d en +:+ ")".
Proof.
  intros Hf Hcut Hpos Hl.
  destruct (copy_buffer_write_fails bits dst szD c1 c
              (upd_env (set_flt (f :: rest)) (add_event (ERead src) w)) nd f rest
              eq_refl Hcut Hl)
    as (w1 & nd' & E1 & A1 & A2 & A3 & A4 & A5 & A6 & A7 & A8).
  exists w1, nd'. split; [|auto 12].
  cbn [copy_loop]. unfold bind at 1. unfold copy_iter.
  unfold bind at 1. unfold sys_read, pop_fault, bind at 1 2, emit, ret.
  cbn [env add_event flt]. rewrite Hf.
  assert (Hgt : (Z.of_nat (length c1) >? 0) = true) by (apply Z.gtb_lt; lia).
  rewrite Hgt. unfold bind at 1. rewrite E1.
  change (negb (truthy ERROR_TCPY)) with false. cbv iota.
  unfold bind at 1. unfold ret. rewrite andb_false_r. reflexivity.
Qed.

Lemma new_file_not_dir x : (Z.land (Z.lor S_IFREG x) S_IFMT =? S_IFDIR) = false.
Proof.
  apply Z.eqb_neq. intros E.
  assert (Hb : Z.testbit (Z.land (Z.lor S_IFREG x) S_IFMT) 15
               = Z.testbit S_IFDIR 15) by (rewrite E; reflexivity).
  rewrite Z.land_spec, Z.lor_spec in Hb. cbn in Hb. discriminate.
Qed.

Section WriteError.

Variables (bits : Z) (src dst : string) (w : World) (n d : inode) (f : fault).
Hypothesis Hflt :
  flt (env w) = [NoFault; NoFault; NoFault; NoFault; NoFault; f].
Hypothesis Hcut :
  forall c1 more, read_chunks (i_data n) = c1 :: more -> write_cut f (length c1).
Hypothesis Hrun : giTestRun (glob w) = 0.
Hypothesis Hsrc : resolve (fs (env w)) src = inr n.
Hypothesis Hreg : Z.land (i_mode n) S_IFMT = S_IFREG.
Hypothesis Hdata : i_data n <> [].
Hypothesis Hdst : fs (env w) !! canon dst = None.
Hypothesis Hslash : ends_with_slash dst = false.
Hypothesis Hdir : parent_dir (fs (env w)) dst = Some d.

Lemma tcf_copy_verify_write_error :
  exists w',
    tcf_copy_verify bits src dst w = Ret ERROR_TCPY w'
    /\ fs (env w') = fs (env w)
    /\ exists en, gszErr (glob w')
                  = "Write to file " +:+ StringShortner dst (LNSZ - 80)
                    +:+ " Failed (errno=" +:+ fmt_d en +:+ ")".
Proof.
  pose proof (resolve_lookup _ _ _ Hsrc) as Hl.
  assert (Hne : canon dst <> canon src).
  { intros E. rewrite <- E in Hl. congruence. }
  destruct (read_chunks_cons _ Hdata) as (c1 & more & Ech & Hpos).
  assert (Hnew : i_data n <> [] \/ i_mtim_sec n <> 0 \/ i_mtim_nsec n <> 0)
    by (left; exact Hdata).
  unfold tcf_copy_verify, tcf_probe, FilenameExist, tcf_compare, tcf_transfer,
    tcf_delete_dest, tcf_copy, tcf_copy_io, tcf_verify_dest, sys_stat,
    sys_open_rdonly, sys_creat, sys_unlink, sys_utimensat, sys_close,
    file_data, pop_fault, set_errno_ret, get_errno, EchoPrint, printf.
  unfold bind, emit, gets, get_env, put_env, puts, when, ret, id.
  assert (Hz : forall st, st_size (zero_dest 0 st) = 0) by reflexivity.
  repeat (progress (sim_cbn4; sim_consts;
                    rewrite ?Hflt, ?Hsrc, ?(resolve_absent _ _ Hdst), ?Hdir,
                      ?(reg_bit _ Hreg), ?Hrun, ?Hz, ?andb_false_r,
                      ?(differ_absent n _ Hnew),
                      ?(lookup_insert_ne _ _ _ _ Hne), ?Hl)).
  step_overrun.
  repeat (progress (sim_cbn4; sim_consts;
                    rewrite ?Hflt, ?Hsrc, ?(resolve_absent _ _ Hdst), ?Hdir,
                      ?(reg_bit _ Hreg), ?Hrun, ?Hz, ?andb_false_r,
                      ?(differ_absent n _ Hnew),
                      ?(lookup_insert_ne _ _ _ _ Hne), ?Hl)).
  rewrite Ech.
  match goal with
  | |- context [copy_loop ?b ?s ?t ?z (c1 :: more) ?c ?w2] =>
      destruct (copy_loop_write_fails b s t z c1 more c w2
                  (mkInode (Z.lor S_IFREG (new_mode (env w) (i_mode n))) (i_dev d)
                     (next_ino (env w)) (now_sec (env w)) (now_nsec (env w)) [])
                  f [] eq_refl (Hcut _ _ Ech) Hpos)
        as (w1 & nd' & E1 & A1 & A2 & A3 & A4 & A5 & A6 & A7 & en & A8);
      [ cbn -[canon new_mode]; apply lookup_insert_eq | ]
  end.
  rewrite E1. cbn -[canon Z.add new_mode] in A2, A3, A4, A5, A6.
  assert (Hr1 : resolve (fs (env w1)) dst = inr nd').
  { rewrite A6. apply resolve_insert_eq. exact Hslash. }
  assert (Hd1 : is_dir nd' = false).
  { unfold is_dir. rewrite A7. cbn [i_mode]. apply new_file_not_dir. }
  repeat (progress (sim_cbn4; sim_consts; rewrite ?A1, ?Hr1, ?Hd1)).
  eexists. split; [reflexivity|].
  cbn -[canon fmt_d StringShortner String.append]. split.
  - rewrite A6, delete_insert_eq, delete_insert_eq.
    apply delete_id. exact Hdst.
  - exists en. exact A8.
Qed.

End WriteError.

Lemma chunks_of_first fuel n data c1 more :
  chunks_of fuel n data = c1 :: more -> length c1 = Nat.min (length data) n.
Proof.
  destruct fuel as [|fuel]; [discriminate|].
  destruct data as [|x data]; [discriminate|].
  cbn [chunks_of]. intros H. injection H as <- _.
  rewrite length_take. lia.
Qed.

Lemma read_chunks_first data c1 more :
  read_chunks data = c1 :: more ->
  length c1 = Nat.min (length data) (Z.to_nat LNBIGBUFFER).
Proof. apply chunks_of_first. Qed.

(** X8: when the first [write] to a new destination fails or writes
    fewer bytes than asked, [TimedCopyFile] returns [ERROR_TCPY] in
    every mode, the partial destination has been removed (the file
    system is as before, so the source is kept), and [gszErr] holds
    the message [Write to file <destination> Failed (errno=<n>)]. *)
Theorem X8_failed_write_leaves_no_file bits iMode src dst w n d f
    (Hflt : flt (env w) = [NoFault; NoFault; NoFault; NoFault; NoFault; f])
    (Hcut : write_cut f (Nat.min (length (i_data n)) (Z.to_nat LNBIGBUFFER)))
    (Hrun : giTestRun (glob w) = 0)
    (Hsrc : resolve (fs (env w)) src = inr n)
    (Hreg : Z.land (i_mode n) S_IFMT = S_IFREG)
    (Hdata : i_data n <> [])
    (Hdst : fs (env w) !! canon dst = None)
    (Hslash : ends_with_slash dst = false)
    (Hdir : parent_dir (fs (env w)) dst = Some d) :
  exists w',
    TimedCopyFile bits iMode src dst w = Ret ERROR_TCPY w'
    /\ fs (env w') = fs (env w)
    /\ exists en, gszErr (glob w')
                  = "Write to file " +:+ StringShortner dst (LNSZ - 80)
                    +:+ " Failed (errno=" +:+ fmt_d en +:+ ")".
Proof.
  assert (Hcut' : forall c1 more, read_chunks (i_data n) = c1 :: more ->
                                  write_cut f (length c1)).
  { intros c1 more E. rewrite (read_chunks_first _ _ _ E). exact Hcut. }
  destruct (tcf_copy_verify_write_error bits src dst w n d f Hflt Hcut' Hrun
              Hsrc Hreg Hdata Hdst Hslash Hdir) as (w1 & E1 & Hfs1 & Hmsg).
  exists w1. split; [|auto].
  unfold TimedCopyFile. cbv zeta. unfold bind. rewrite E1.
  rewrite tcf_delete_source_error by discriminate.
  apply tcf_bookkeeping_error. discriminate.
Qed.

Lemma X8_failed_write_leaves_no_file_witness :
  exists w',
    TimedCopyFile 64 TCPY_MODE_DEL "src/a" "dst/a" short_write_world
    = Ret ERROR_TCPY w'
    /\ fs (env w') !! "dst/a" = None
    /\ fs (env w') !! "src/a" = Some (filenode 5 50 7 [1; 2; 3]).
Proof.
  assert (Hsrc : resolve (fs (env short_write_world)) "src/a"
                 = inr (filenode 5 50 7 [1; 2; 3])) by (vm_compute; reflexivity).
  assert (Hcut : write_cut (Short 2)
                   (Nat.min (length (i_data (filenode 5 50 7 [1; 2; 3])))
                            (Z.to_nat LNBIGBUFFER)))
    by (vm_compute; lia).
  assert (Hdata : i_data (filenode 5 50 7 [1; 2; 3]) <> []) by discriminate.
  assert (Hdst : fs (env short_write_world) !! canon "dst/a" = None)
    by (vm_compute; reflexivity).
  assert (Hdir : parent_dir (fs (env short_write_world)) "dst/a"
                 = Some (dirnode 6)) by (vm_compute; reflexivity).
  destruct (X8_failed_write_leaves_no_file 64 TCPY_MODE_DEL "src/a" "dst/a"
              short_write_world (filenode 5 50 7 [1; 2; 3]) (dirnode 6)
              (Short 2) eq_refl Hcut eq_refl Hsrc eq_refl Hdata Hdst eq_refl
              Hdir) as (w' & E & Hfs & _).
  exists w'. split; [exact E|]. rewrite Hfs. split; vm_compute; reflexivity.
Defined.

(** X9: when [opendir] of the source directory fails, [TimedCopy] (not
    in Mirror mode) returns 0 after its two allocations, two [stat]
    calls and the [opendir]: nothing is copied, nothing is reported. *)
Theorem X9_unreadable_source_directory bits fuel iMode sdir ddir w ds dd en
    (Hflt : flt (env w) = [NoFault; NoFault; NoFault; NoFault; Fail en])
    (Hmode : iMode <> TCPY_MODE_MIRROR)
    (Hnames : sdir <> ddir)
    (Hs : resolve (fs (env w)) sdir = inr ds)
    (Hsd : Z.land (i_mode ds) S_IFDIR <> 0)
    (Hnc : ~ (i_dev ds = giSt_dev (glob w) /\ i_ino ds = giSt_ino (glob w)))
    (Hd : resolve (fs (env w)) ddir = inr dd)
    (Hdd : Z.land (i_mode dd) S_IFDIR <> 0) :
  exists w',
    TimedCopy bits (S fuel) iMode sdir "" ddir "" w = Ret 0 w'
    /\ fs (env w') = fs (env w)
    /\ trace w' = trace w ++ [EMalloc; EMalloc; EStat sdir; EStat ddir;
                              EOpendir sdir].
Proof.
  assert (Hc : (i_dev ds =? giSt_dev (glob w)) && (i_ino ds =? giSt_ino (glob w))
               = false).
  { destruct (Z.eqb_spec (i_dev ds) (giSt_dev (glob w)));
      destruct (Z.eqb_spec (i_ino ds) (giSt_ino (glob w))); auto.
    exfalso. apply Hnc. auto. }
  assert (Hm : (iMode =? TCPY_MODE_MIRROR) = false) by (apply Z.eqb_neq; exact Hmode).
  apply String.eqb_neq in Hnames.
  cbn [TimedCopy].
  unfold resolve_dirs, mirror_cleanup, DirectoryExist, sys_malloc, sys_stat,
    sys_opendir, pop_fault, set_errno_ret, get_errno.
  unfold bind, emit, gets, get_env, put_env, puts, when, ret, id.
  repeat (progress (sim_cbn4; sim_consts;
                    rewrite ?Hflt, ?Hnames, ?Hs, ?Hd, ?(truthy_neq _ Hsd),
                      ?(truthy_neq _ Hdd), ?Hc, ?Hm, ?andb_false_r)).
  destruct (negb _);
    repeat (progress (sim_cbn4; sim_consts; rewrite ?Hm, ?andb_false_r));
    (eexists; split; [reflexivity|]); cbn; rewrite <- ?app_assoc;
    split; reflexivity.
Qed.

Lemma X9_unreadable_source_directory_witness :
  exists w',
    TimedCopy 64 1 TCPY_MODE_COPY "src/" "" "dst/" "" unreadable_world = Ret 0 w'
    /\ fs (env w') !! "dst/a" = None.
Proof.
  assert (Hnames : "src/" <> "dst/") by discriminate.
  assert (Hmode : TCPY_MODE_COPY <> TCPY_MODE_MIRROR) by discriminate.
  assert (Hs : resolve (fs (env unreadable_world)) "src/" = inr (dirnode 3))
    by (vm_compute; reflexivity).
  assert (Hd : resolve (fs (env unreadable_world)) "dst/" = inr (dirnode 6))
    by (vm_compute; reflexivity).
  assert (Hsd : forall i, Z.land (i_mode (dirnode i)) S_IFDIR <> 0)
    by (intros i; vm_compute; discriminate).
  assert (Hnc : ~ (i_dev (dirnode 3) = giSt_dev (glob unreadable_world)
                   /\ i_ino (dirnode 3) = giSt_ino (glob unreadable_world)))
    by (intros [H _]; vm_compute in H; discriminate).
  destruct (X9_unreadable_source_directory 64 0 TCPY_MODE_COPY "src/" "dst/"
              unreadable_world (dirnode 3) (dirnode 6) 13 eq_refl Hmode Hnames
              Hs (Hsd 3) Hnc Hd (Hsd 6)) as (w' & E & Hfs & _).
  exists w'. split; [exact E|]. rewrite Hfs. vm_compute. reflexivity.
Defined.

(** *** Runs that create directories at most *)

Lemma grows_refl w : grows w w.
Proof.
  split; [exists []; rewrite app_nil_r; auto | apply fs_dirs_only_refl
         | auto | auto].
Qed.

Lemma grows_trans w1 w2 w3 : grows w1 w2 -> grows w2 w3 -> grows w1 w3.
Proof.
  intros [(e1 & E1 & A1) F1 R1 S1] [(e2 & E2 & A2) F2 R2 S2]. split.
  - exists (e1 ++ e2). rewrite E2, E1, app_assoc. split; [reflexivity|].
    apply Forall_app. auto.
  - eapply fs_dirs_only_trans; eauto.
  - auto.
  - auto.
Qed.

Lemma grows_event w e : file_mutating e = false -> grows w (add_event e w).
Proof.
  intros H. split; cbn;
    [exists [e]; auto | apply fs_dirs_only_refl | auto | auto].
Qed.

Lemma grows_env w (f : Env -> Env) :
  fs (f (env w)) = fs (env w) -> grows w (upd_env f w).
Proof.
  intros H. split; cbn; [exists []; rewrite app_nil_r; auto | | auto | auto].
  rewrite H. apply fs_dirs_only_refl.
Qed.

Lemma grows_glob w (f : Globals -> Globals) :
  (giTestRun (glob w) <> 0 -> giTestRun (f (glob w)) <> 0) ->
  (giFaster (glob w) <> 0 -> giFaster (f (glob w)) <> 0) ->
  grows w (upd_glob f w).
Proof.
  intros H1 H2. split; cbn;
    [exists []; rewrite app_nil_r; auto | | auto | auto].
  apply fs_dirs_only_refl.
Qed.

Ltac grow :=
  lazymatch goal with
  | |- grows ?w ?w => apply grows_refl
  | |- grows ?w (upd_env ?f ?w1) =>
      apply (grows_trans w w1); [grow | apply grows_env; reflexivity]
  | |- grows ?w (add_event ?e ?w1) =>
      apply (grows_trans w w1); [grow | apply grows_event; reflexivity]
  | |- grows ?w (upd_glob ?f ?w1) =>
      apply (grows_trans w w1); [grow | apply grows_glob; cbn; auto]
  end.

Lemma dir_mode_is_dir mode :
  Z.land (Z.lor S_IFDIR (Z.land mode 4095)) S_IFMT = S_IFDIR.
Proof.
  rewrite Z.land_lor_distr_l, <- Z.land_assoc.
  change (Z.land 4095 S_IFMT) with 0. rewrite Z.land_0_r. reflexivity.
Qed.

(** [stat] always returns; it changes neither the file system nor the
    globals. *)
Lemma sys_stat_total path buf w :
  exists rc st w1,
    sys_stat path buf w = Ret (rc, st) w1
    /\ grows w w1 /\ fs (env w1) = fs (env w) /\ glob w1 = glob w
    /\ (rc = 0 -> exists n, resolve (fs (env w)) path = inr n /\ st = stat_of n)
    /\ (rc <> 0 -> st = buf).
Proof.
  unfold sys_stat, pop_fault, set_errno_ret, bind, emit, get_env, put_env, ret.
  cbn.
  destruct (flt (env w)) as [|[|e|k] r]; cbn;
    try (destruct (resolve (fs (env w)) path) as [e'|n] eqn:Er; cbn);
    do 3 eexists; (split; [reflexivity|]); cbn;
    (split; [grow|]); (split; [reflexivity|]); (split; [reflexivity|]);
    (split; [intros H; try discriminate; eauto | intros H; try reflexivity; congruence]).
Qed.

Lemma sys_malloc_total w :
  exists b w1, sys_malloc w = Ret b w1
               /\ grows w w1 /\ fs (env w1) = fs (env w) /\ glob w1 = glob w.
Proof.
  unfold sys_malloc, pop_fault, set_errno_ret, bind, emit, put_env, ret. cbn.
  destruct (flt (env w)) as [|[|e|k] r]; cbn;
    do 2 eexists; (split; [reflexivity|]); cbn;
    (split; [grow|]); split; reflexivity.
Qed.

(** [mkdir] always returns; when it returns 0 the directory exists. *)
Lemma sys_mkdir_total path mode w :
  exists rc w1,
    sys_mkdir path mode w = Ret rc w1
    /\ grows w w1 /\ glob w1 = glob w
    /\ (rc = 0 -> exists n, fs (env w1) !! canon path = Some n
                            /\ is_dir n = true).
Proof.
  unfold sys_mkdir, pop_fault, set_errno_ret, bind, emit, get_env, put_env,
    ret, id.
  cbn -[canon new_mode].
  assert (Hnew : forall (f : Env -> Env) w0 d,
            fs (env w0) = fs (env w) ->
            fs_dirs_only (fs (env w)) (<[canon path := d]> (fs (env w))) ->
            (forall e, fs (f e) = <[canon path := d]> (fs e)) ->
            grows w w0 -> grows w (upd_env f w0)).
  { intros f w0 d E0 Hn Hf G. eapply grows_trans; [exact G|].
    split; cbn.
    - exists []. rewrite app_nil_r. auto.
    - rewrite Hf, E0. exact Hn.
    - auto.
    - auto. }
  assert (Hd : forall (e : Env) (d : inode),
            is_dir (mkInode (Z.lor S_IFDIR (new_mode e mode)) (i_dev d)
                      (next_ino (env w)) (now_sec (env w)) (now_nsec (env w)) [])
            = true).
  { intros e d. unfold is_dir, new_mode. cbn [i_mode].
    rewrite dir_mode_is_dir. reflexivity. }
  destruct (flt (env w)) as [|[|e|k] r]; cbn -[canon new_mode];
    try (destruct (fs (env w) !! canon path) as [n0|] eqn:El;
         cbn -[canon new_mode];
         [|destruct (parent_dir (fs (env w)) path) as [d|] eqn:Ep;
           cbn -[canon new_mode]]);
    do 2 eexists; (split; [reflexivity|]); cbn -[canon new_mode].
  all: try (split; [grow|]; (split; [reflexivity|]); intros H; discriminate).
  all: (split; [eapply Hnew; [reflexivity
                             | apply fs_dirs_only_insert_dir;
                               [exact El | apply (Hd (env w) d)]
                             | intros; reflexivity | grow]|]);
    (split; [reflexivity|]); intros _;
    eexists; (split; [apply lookup_insert_eq | apply (Hd (env w) d)]).
Qed.

Lemma holds_bind {A B} (m : M A) (f : A -> M B) w (Q1 : A -> World -> Prop)
    (Q2 : B -> World -> Prop) :
  holds w (m w) Q1 ->
  (forall a w1, grows w w1 -> Q1 a w1 -> holds w1 (f a w1) Q2) ->
  holds w (bind m f w) Q2.
Proof.
  unfold holds, bind. destruct (m w) as [a w1|h w1]; [|contradiction].
  intros [G1 H1] H2. specialize (H2 a w1 G1 H1).
  destruct (f a w1) as [b w2|h w2]; [|contradiction].
  destruct H2 as [G2 H2]. split; [eapply grows_trans; eauto | exact H2].
Qed.

Lemma holds_weaken {A} w (r : Res A) (Q Q' : A -> World -> Prop) :
  holds w r Q -> (forall a w', grows w w' -> Q a w' -> Q' a w') -> holds w r Q'.
Proof.
  unfold holds. destruct r as [a w'|]; [|auto]. intros [G H] HQ. auto.
Qed.

Lemma holds_ret {A} (a : A) w (Q : A -> World -> Prop) :
  Q a w -> holds w (ret a w) Q.
Proof. intros H. split; [apply grows_refl | exact H]. Qed.

Lemma holds_sys_stat path buf w :
  holds w (sys_stat path buf w)
    (fun r w1 =>
       fs (env w1) = fs (env w) /\ glob w1 = glob w
       /\ (r.1 = 0 -> exists n, resolve (fs (env w)) path = inr n
                                /\ r.2 = stat_of n)).
Proof.
  destruct (sys_stat_total path buf w) as (rc & st & w1 & E & G & F & Gl & H & _).
  rewrite E. split; [exact G|]. auto.
Qed.

Lemma holds_sys_malloc w :
  holds w (sys_malloc w)
    (fun _ w1 => fs (env w1) = fs (env w) /\ glob w1 = glob w).
Proof.
  destruct (sys_malloc_total w) as (b & w1 & E & G & F & Gl).
  rewrite E. split; [exact G|]. auto.
Qed.

Lemma holds_sys_mkdir path mode w :
  holds w (sys_mkdir path mode w)
    (fun rc w1 =>
       glob w1 = glob w
       /\ (rc = 0 -> exists n, fs (env w1) !! canon path = Some n
                               /\ is_dir n = true)).
Proof.
  destruct (sys_mkdir_total path mode w) as (rc & w1 & E & G & Gl & H).
  rewrite E. split; [exact G|]. auto.
Qed.

Lemma holds_DirectoryExist path buf w :
  holds w (DirectoryExist path buf w)
    (fun r w1 =>
       fs (env w1) = fs (env w) /\ glob w1 = glob w
       /\ (r.1 <> 0 -> exists n, resolve (fs (env w)) path = inr n
                                 /\ Z.land (i_mode n) S_IFDIR <> 0)).
Proof.
  unfold DirectoryExist.
  eapply holds_bind; [apply holds_sys_stat|].
  intros [rc st] w1 G (F & Gl & H). cbn [fst snd] in H.
  apply holds_ret. cbn [fst snd].
  split; [exact F|]. split; [exact Gl|].
  intros Hi. destruct (Z.eqb_spec rc 0) as [->|Hne]; [|contradiction].
  change (truthy 1) with true in Hi. cbv iota in Hi.
  destruct (H eq_refl) as (n & Hr & ->). exists n. cbn in Hi. auto.
Qed.

Lemma holds_FilenameExist path buf w :
  holds w (FilenameExist path buf w)
    (fun r w1 =>
       fs (env w1) = fs (env w) /\ glob w1 = glob w
       /\ (r.1 <> 0 -> exists n, resolve (fs (env w)) path = inr n
                                 /\ Z.land (i_mode n) S_IFREG <> 0)).
Proof.
  unfold FilenameExist.
  eapply holds_bind; [apply holds_sys_stat|].
  intros [rc st] w1 G (F & Gl & H). cbn [fst snd] in H.
  apply holds_ret. cbn [fst snd].
  split; [exact F|]. split; [exact Gl|].
  intros Hi. destruct (Z.eqb_spec rc 0) as [->|Hne]; [|contradiction].
  change (truthy 1) with true in Hi. cbv iota in Hi.
  destruct (H eq_refl) as (n & Hr & ->). exists n. cbn in Hi. auto.
Qed.

(** *** Path strings *)

Lemma char_at_chars s i : char_at s i = default zero (chars s !! i).
Proof. unfold char_at. rewrite chars_get. destruct (chars s !! i); reflexivity. Qed.

Lemma char_at_end s : char_at s (String.length s) = zero.
Proof.
  rewrite char_at_chars, chars_length, lookup_ge_None_2; [reflexivity | lia].
Qed.

Lemma scan_back_le p i : (scan_back p i <= i)%nat.
Proof.
  induction i as [|i IH]; cbn [scan_back]; [lia|].
  destruct (Ascii.eqb (char_at p (S i)) slash); lia.
Qed.

Lemma scan_back_end p : (scan_back p (String.length p) < S (String.length p))%nat.
Proof. pose proof (scan_back_le p (String.length p)). lia. Qed.

Lemma scan_back_lt p :
  p <> "" -> (scan_back p (String.length p) < String.length p)%nat.
Proof.
  intros H. destruct (String.length p) as [|n] eqn:E.
  - destruct p; [contradiction | discriminate].
  - cbn [scan_back]. rewrite <- E, char_at_end. cbn [Ascii.eqb].
    change (Ascii.eqb zero slash) with false. cbv iota.
    pose proof (scan_back_le p n). lia.
Qed.

Lemma length_substr0 i s : (String.length (substr 0 i s) <= i)%nat.
Proof.
  unfold substr. rewrite chars_length, chars_substring, length_take. lia.
Qed.

Lemma strip_slash path i1 :
  String.length path = S i1 -> Ascii.eqb (char_at path i1) slash = true ->
  path = substr 0 i1 path +:+ "/".
Proof.
  intros Hl Hc. apply chars_inj. rewrite chars_app. unfold substr.
  rewrite chars_substring, drop_0.
  rewrite chars_length in Hl. apply Ascii.eqb_eq in Hc.
  rewrite char_at_chars in Hc.
  rewrite <- (take_drop i1 (chars path)) at 1. f_equal.
  destruct (chars path !! i1) as [c|] eqn:E.
  - cbn in Hc. subst c.
    rewrite (drop_S _ _ _ E). rewrite drop_ge by lia. reflexivity.
  - apply lookup_ge_None_1 in E. lia.
Qed.

Lemma canon_strip s : s <> "" -> canon (s +:+ "/") = canon s.
Proof.
  intros Hs. unfold canon. rewrite chars_app. change (chars "/") with [slash].
  rewrite rev_app_distr. cbn [rev app drop_slashes].
  change (Ascii.eqb slash slash) with true. cbv iota.
  assert (H1 : String.eqb (s +:+ "/") "" = false).
  { apply String.eqb_neq. intros E. apply (f_equal String.length) in E.
    rewrite chars_length, chars_app, length_app in E. cbn in E. lia. }
  assert (H2 : String.eqb s "" = false) by (apply String.eqb_neq; exact Hs).
  rewrite H1, H2. reflexivity.
Qed.

Lemma dir_bit n : is_dir n = true -> Z.land (i_mode n) S_IFDIR <> 0.
Proof.
  unfold is_dir. intros H. apply Z.eqb_eq in H.
  change S_IFDIR with (Z.land S_IFMT S_IFDIR) at 1.
  rewrite Z.land_assoc, H. discriminate.
Qed.

Lemma resolve_dir (f : gmap string inode) p n :
  f !! canon p = Some n -> is_dir n = true -> resolve f p = inr n.
Proof.
  intros Hl Hd. unfold resolve. rewrite Hl, Hd, andb_false_r. reflexivity.
Qed.

(** The name [DirectoryValidate] passes to [mkdir]: the path without
    its closing slash. *)
Lemma canon_dirname path i1 :
  String.length path = S i1 -> path <> "/" ->
  canon (if Ascii.eqb (char_at path i1) slash then substr 0 i1 path else path)
  = canon path.
Proof.
  intros Hl Hroot. destruct (Ascii.eqb (char_at path i1) slash) eqn:E;
    [|reflexivity].
  pose proof (strip_slash path i1 Hl E) as Hp.
  rewrite Hp at 2. symmetry. apply canon_strip.
  intros Hempty. rewrite Hempty in Hp. apply Hroot. exact Hp.
Qed.

Lemma holds_DirectoryValidate_rec fuel : forall path pStat w,
  (String.length path < fuel)%nat ->
  holds w (DirectoryValidate_rec fuel path pStat w)
    (fun r w' => validated path r.1 w').
Proof.
  induction fuel as [|fuel IH]; intros path pStat w Hlen; [lia|].
  cbn [DirectoryValidate_rec].
  destruct (String.length path) as [|i1] eqn:El.
  { assert (path = "") by (destruct path; [reflexivity | discriminate]).
    subst path.
    destruct pStat;
      [apply holds_ret
      | eapply holds_bind with (Q1 := fun _ _ => True);
        [split; [apply grows_refl | exact I]|];
        intros; apply holds_ret];
      (split; [auto | intros _ Hx; contradiction]). }
  eapply holds_bind with (Q1 := fun _ w1 => w1 = w).
  { destruct pStat; (split; [apply grows_refl | reflexivity]). }
  intros buf ? _ ->.
  eapply holds_bind; [apply holds_DirectoryExist|].
  intros [e st] w1 G1 (F1 & Gl1 & H1). cbn [fst] in H1.
  destruct (truthy e) eqn:Ee.
  { apply holds_ret. split; [auto|]. intros _ _ _.
    destruct (H1 (truthy_true _ Ee)) as (n & Hr & Hb).
    exists n. rewrite F1. auto. }
  eapply holds_bind; [apply holds_sys_malloc|].
  intros ok w2 G2 (F2 & Gl2).
  destruct ok; cbn [negb]; [|apply holds_ret; split; [auto | discriminate]].
  set (pSz := if Ascii.eqb (char_at path i1) slash then substr 0 i1 path else path).
  set (i0 := if Ascii.eqb (char_at path i1) slash then i1 else S i1).
  assert (Hpair : (if Ascii.eqb (char_at path i1) slash
                   then (i1, substr 0 i1 path) else (S i1, path))
                  = (i0, pSz)).
  { subst pSz i0. destruct (Ascii.eqb (char_at path i1) slash); reflexivity. }
  rewrite Hpair.
  assert (Hi0 : (scan_back pSz i0 <= i1)%nat).
  { pose proof (scan_back_le pSz i0) as Hle. subst i0 pSz.
    destruct (Ascii.eqb (char_at path i1) slash); [exact Hle|].
    cbn [scan_back]. rewrite <- El, char_at_end.
    change (Ascii.eqb zero slash) with false. cbv iota.
    apply scan_back_le. }
  eapply holds_bind with
    (Q1 := fun r _ => r.1 = 0 \/ r.1 = ERROR_TCPY \/ r.1 = ERROR_TCPY_MEM).
  { destruct (Ascii.eqb (char_at pSz (scan_back pSz i0)) slash).
    - destruct (scan_back pSz i0) as [|j] eqn:Ej.
      + eapply holds_bind; [apply holds_sys_stat|].
        intros r w3 _ _. apply holds_ret. auto.
      + eapply holds_weaken; [apply IH|].
        * pose proof (length_substr0 (S j) pSz). lia.
        * intros r w3 _ [Hc _]. exact Hc.
    - eapply holds_bind; [apply holds_sys_stat|].
      intros r w3 _ _. apply holds_ret. auto. }
  intros [iErr buf'] w3 G3 Hcodes. cbn [fst] in Hcodes.
  destruct (truthy iErr) eqn:Ei.
  { apply holds_ret. split; [exact Hcodes|]. cbn [fst]. intros ->.
    discriminate. }
  eapply holds_bind with (Q1 := fun _ _ => True).
  { split; [apply grows_event; reflexivity | exact I]. }
  intros _ w4 G4 _.
  eapply holds_bind; [apply holds_sys_mkdir|].
  intros rc w5 G5 (Gl5 & H5).
  destruct (truthy rc) eqn:Erc.
  { eapply holds_bind with (Q1 := fun _ _ => True);
      [split; [apply grows_refl | exact I]|].
    intros en w6 _ _.
    eapply holds_bind with (Q1 := fun _ _ => True).
    { split; [|exact I]. unfold puts. apply grows_glob; auto. }
    intros _ w7 _ _. apply holds_ret. split; [auto | discriminate]. }
  eapply holds_bind; [apply holds_sys_stat|].
  intros r w6 G6 (F6 & Gl6 & _).
  apply holds_ret. split; [auto|]. intros _ Hne Hroot.
  destruct (H5 (truthy_false _ Erc)) as (n & Hl & Hd).
  exists n. split; [|apply dir_bit; exact Hd].
  apply resolve_dir; [|exact Hd].
  rewrite F6. subst pSz. rewrite (canon_dirname path i1 El Hroot) in Hl.
  exact Hl.
Qed.

(** X10: [DirectoryValidate] always returns, with 0, [ERROR_TCPY] or
    [ERROR_TCPY_MEM].  It creates directories at most: it creates,
    writes, deletes and retimes no file and every object that existed
    is as it was.  When it returns 0 for a path that is neither empty
    nor the root, the path names a directory afterwards. *)
Theorem X10_DirectoryValidate_makes_directory path pStat w :
  exists e w',
    DirectoryValidate path pStat w = Ret e w'
    /\ (e = 0 \/ e = ERROR_TCPY \/ e = ERROR_TCPY_MEM)
    /\ grows w w'
    /\ (e = 0 -> path <> "" -> path <> "/" ->
        exists n, resolve (fs (env w')) path = inr n
                  /\ Z.land (i_mode n) S_IFDIR <> 0).
Proof.
  pose proof (holds_DirectoryValidate_rec (S (String.length path)) path pStat w
                ltac:(lia)) as H.
  unfold DirectoryValidate, bind.
  destruct (DirectoryValidate_rec _ path pStat w) as [[e st] w'|h w'];
    [|contradiction].
  destruct H as [G [Hc Hp]]. exists e, w'. cbn [fst] in *.
  split; [reflexivity|]. auto.
Qed.

Lemma holds_DirectoryValidate path pStat w :
  holds w (DirectoryValidate path pStat w) (fun e w' => validated path e w').
Proof.
  unfold DirectoryValidate.
  eapply holds_bind; [apply holds_DirectoryValidate_rec; lia|].
  intros [e st] w1 G H. apply holds_ret. exact H.
Qed.

(** *** The parameters of [main] *)

Lemma holds_alloc_pair w :
  holds w (alloc_pair w) (fun _ w1 => glob w1 = glob w).
Proof.
  unfold alloc_pair.
  eapply holds_bind; [apply holds_sys_malloc|]. intros a w1 G1 (_ & Gl1).
  eapply holds_bind; [apply holds_sys_malloc|]. intros b w2 G2 (_ & Gl2).
  apply holds_ret. congruence.
Qed.

Lemma holds_any {A} w (r : Res A) (Q : A -> World -> Prop) :
  holds w r Q -> holds w r (fun _ _ => True).
Proof. intros H. eapply holds_weaken; [exact H | auto]. Qed.

Ltac positional :=
  repeat match goal with
         | |- holds _ (ret _ _) _ =>
             apply holds_ret; split; cbn; auto
         | |- holds _ ((if ?b then _ else _) _) _ => destruct b eqn:?
         | |- holds _ (bind (alloc_pair) _ _) _ =>
             eapply holds_bind; [eapply holds_any, holds_alloc_pair|];
             intros ? ? _ _
         | |- holds _ (bind (get_env _) _ _) _ =>
             eapply holds_bind with (Q1 := fun _ _ => True);
             [split; [apply grows_refl | exact I]|]; intros ? ? _ _
         | |- holds _ (bind (FilenameExist _ _) _ _) _ =>
             eapply holds_bind; [eapply holds_any, holds_FilenameExist|];
             intros ? ? _ _
         | |- holds _ (bind (DirectoryExist _ _) _ _) _ =>
             eapply holds_bind; [eapply holds_any, holds_DirectoryExist|];
             intros ? ? _ _
         | |- holds _ (bind (DirectoryValidate _ _) _ _) _ =>
             eapply holds_bind; [apply holds_DirectoryValidate|];
             intros ? ? _ [Hc _]; apply holds_ret; split; cbn;
             [tauto | reflexivity]
         end.

Lemma holds_main_source st arg w :
  holds w (main_source st arg w) (fun r _ => positional_ok st r).
Proof. unfold main_source, positional_ok. positional. Qed.

Lemma holds_main_dest st pSourceFile arg w :
  holds w (main_dest st pSourceFile arg w) (fun r _ => positional_ok st r).
Proof. unfold main_dest, positional_ok. cbv zeta. positional. Qed.

Lemma holds_main_arg st arg w :
  holds w (main_arg st arg w) (fun r w' => arg_ok st arg r w').
Proof.
  unfold main_arg, arg_ok, option_flag, mode_flag.
  destruct (String.eqb_spec arg "-del") as [->|N1].
  { destruct (truthy (p_iMode st)) eqn:T; apply holds_ret; cbn;
      (split; [tauto|]);
      (split; [|split; [|split]; intros; reflexivity || discriminate]);
      intros; try discriminate.
    apply truthy_false in T. auto. }
  destruct (String.eqb_spec arg "-mir") as [->|N2].
  { destruct (truthy (p_iMode st)) eqn:T; apply holds_ret; cbn;
      (split; [tauto|]);
      (split; [|split; [|split]; intros; reflexivity || discriminate]);
      intros; try discriminate.
    apply truthy_false in T. auto. }
  destruct (String.eqb_spec arg "-sync") as [->|N3].
  { destruct (truthy (p_iMode st)) eqn:T.
    - apply holds_ret; cbn.
      (split; [tauto|]); repeat split; intros; discriminate.
    - eapply holds_bind with (Q1 := fun _ _ => True).
      { split; [|exact I]. unfold puts. apply grows_glob; auto. }
      intros _ w1 _ _. apply holds_ret; cbn.
      (split; [tauto|]); repeat split; intros; discriminate. }
  cbn [orb].
  destruct (String.eqb_spec arg "-f") as [->|N4].
  { eapply holds_bind with (Q1 := fun _ w1 => giFaster (glob w1) <> 0).
    { split; [|cbn; discriminate]. unfold puts. apply grows_glob; cbn; auto;
        discriminate. }
    intros _ w1 _ H1. apply holds_ret; cbn.
    (split; [tauto|]); (split; [reflexivity|]); repeat split; intros; auto;
      discriminate. }
  destruct (String.eqb_spec arg "-t") as [->|N5].
  { eapply holds_bind with (Q1 := fun _ w1 => giTestRun (glob w1) <> 0).
    { split; [|cbn; discriminate]. unfold puts. apply grows_glob; cbn; auto;
        discriminate. }
    intros _ w1 _ H1. apply holds_ret; cbn.
    (split; [tauto|]); (split; [reflexivity|]); repeat split; intros; auto;
      discriminate. }
  destruct (p_source st) as [[d f]|].
  - eapply holds_weaken; [apply holds_main_dest|].
    intros r w' _ [Hc Hm].
    repeat split; auto; intros; contradiction || discriminate.
  - eapply holds_weaken; [apply holds_main_source|].
    intros r w' _ [Hc Hm].
    repeat split; auto; intros; contradiction || discriminate.
Qed.

Lemma holds_main_args args : forall st w,
  holds w (main_args st args w) (fun r w' => parsed_ok st args w r w').
Proof.
  induction args as [|arg rest IH]; intros st w; cbn [main_args].
  { apply holds_ret. unfold parsed_ok. cbn.
    split; [tauto|]. split; [auto|].
    split; [intros _ []|]. split; [intros _ []|]. reflexivity. }
  eapply holds_bind; [apply holds_main_arg|].
  intros r w1 G1 (Hc & Hm & Ht & Hf & Hs).
  destruct (truthy r.1) eqn:T.
  { apply holds_ret. unfold parsed_ok. apply truthy_true in T.
    split; [exact Hc|]. repeat split; intros; contradiction. }
  apply truthy_false in T.
  specialize (Hm T). specialize (Ht T). specialize (Hf T). specialize (Hs T).
  eapply holds_weaken; [apply IH|].
  intros r2 w2 G2 (Hc2 & Hm2 & Ht2 & Hf2 & Hs2).
  unfold parsed_ok. split; [exact Hc2|].
  split; [|split; [|split]].
  - intros E. specialize (Hm2 E). cbn [List.filter].
    destruct (mode_flag arg) eqn:Ef.
    + destruct Hm as (H0 & Hmode).
      destruct Hm2 as [[Hn Hsame]|(Hz & _)].
      * right. split; [exact H0|]. rewrite Hn, Hsame.
        destruct Hmode as [[-> ->]|[-> ->]]; [left | right]; split;
          reflexivity.
      * exfalso. destruct Hmode as [[_ Hx]|[_ Hx]]; rewrite Hx in Hz;
          discriminate.
    + rewrite <- Hm. exact Hm2.
  - intros E [->|Hin]; [|auto].
    apply (gr_run _ _ G2). auto.
  - intros E [->|Hin]; [|auto].
    apply (gr_fast _ _ G2). auto.
  - intros E Hall. cbn [forallb] in Hall.
    apply andb_prop in Hall as [Ha Hr].
    rewrite (Hs2 E Hr). auto.
Qed.

(** Inside a test run, a piece of the program that [evolves] creates
    directories at most. *)
Lemma evolves_grows P w w' :
  evolves P w w' -> giTestRun (glob w) <> 0 -> grows w w'.
Proof.
  intros [(evs & E & A) [F1 F2] _ _ _ D] Ht. split.
  - exists evs. split; [exact E|].
    eapply Forall_impl; [exact A|]. intros e [_ He].
    destruct (file_mutating e); [|reflexivity].
    exfalso. apply Ht. auto.
  - auto.
  - rewrite F1. auto.
  - rewrite F2. auto.
Qed.

Lemma holds_grows {A} w (r : Res A) Q : holds w r Q -> grows w (world_of r).
Proof. destruct r; cbn; [intros [G _]; exact G | contradiction]. Qed.

Lemma ev_alloc_pair P w : evolves P w (world_of (alloc_pair w)).
Proof.
  unfold alloc_pair. repeat first [walk_step | apply ev_sys_malloc].
Qed.

Lemma ev_main_run bits fuel iErr st w :
  evolves (fun _ => True) w (world_of (main_run bits fuel iErr st w)).
Proof.
  unfold main_run.
  repeat first [ walk_step | apply ev_sys_malloc | apply ev_alloc_pair
               | apply ev_TimedCopy; auto ].
Qed.

(** The end of [main]: the message, and the exit status 0. *)
Lemma main_finish iErr w :
  (EchoPrint "" ;;;
   szErr <- gets gszErr ;;
   printf (main_message iErr szErr) ;;;
   ret 0) w
  = Ret 0 (add_event (EPrint (main_message iErr (gszErr (glob w))))
             (add_event (EPrint (line "")) w)).
Proof. reflexivity. Qed.

Lemma grows_main_run bits fuel iErr st w :
  (iErr = 0 -> giTestRun (glob w) <> 0) ->
  grows w (world_of (main_run bits fuel iErr st w)).
Proof.
  intros H. destruct (truthy iErr) eqn:T.
  - unfold main_run. rewrite T. apply grows_refl.
  - apply truthy_false in T.
    eapply evolves_grows; [apply ev_main_run | auto].
Qed.

(** The parameter part of [main] and what it guarantees. *)
Lemma holds_main_parse argv w :
  holds w
    ((if (Z.of_nat (length argv) <? 2) || (Z.of_nat (length argv) >? 6)
      then ret (ERROR_TCPY_USAGE, parsed0)
      else main_args parsed0 (tail argv)) w)
    (fun r w' =>
       parsed_ok parsed0 (tail argv) w r w'
       /\ (r.1 = 0 -> (2 <= length argv <= 6)%nat)).
Proof.
  destruct ((Z.of_nat (length argv) <? 2) || (Z.of_nat (length argv) >? 6))
    eqn:E.
  - apply holds_ret. split; [|intros; discriminate].
    split; [cbn; tauto|]. repeat split; intros; discriminate.
  - eapply holds_weaken; [apply holds_main_args|].
    intros r w' _ H. split; [exact H|]. intros _.
    apply orb_false_elim in E as [E1 E2]. lia.
Qed.

(** X11: when [-t] is among the parameters, wherever it stands, a run of
    the whole program creates, writes, deletes and retimes no file
    and leaves every existing object as it was; directories at most
    are created. *)
Theorem X11_test_run_writes_no_file bits fuel argv w
    (Ht : In "-t" (tail argv)) :
  grows w (world_of (main bits fuel argv w)).
Proof.
  unfold main. unfold bind at 1. unfold puts at 1. cbv beta iota.
  set (w0 := upd_glob (set_gszErr "") w).
  assert (G0 : grows w w0) by (apply grows_glob; auto).
  pose proof (holds_main_parse argv w0) as Hp.
  unfold bind at 1.
  destruct ((if (Z.of_nat (length argv) <? 2) || (Z.of_nat (length argv) >? 6)
             then ret (ERROR_TCPY_USAGE, parsed0)
             else main_args parsed0 (tail argv)) w0) as [r w1|h w1];
    [|contradiction].
  destruct Hp as [G1 [(_ & _ & Hrun & _) _]].
  pose proof (grows_main_run bits fuel r.1 r.2 w1
                (fun E => Hrun E Ht)) as G2.
  unfold bind at 1.
  destruct (main_run bits fuel r.1 r.2 w1) as [iErr w2|h w2];
    cbn [world_of] in G2.
  - rewrite main_finish. cbn [world_of].
    apply (grows_trans w w2);
      [eauto using grows_trans|].
    apply (grows_trans _ (add_event (EPrint (line "")) w2));
      apply grows_event; reflexivity.
  - cbn [world_of]. eauto using grows_trans.
Qed.

Lemma X11_test_run_writes_no_file_witness :
  In "-t" (tail ["tcpy"; "-del"; "src/"; "dst/"; "-t"])
  /\ grows move_world
       (world_of (main 64 5 ["tcpy"; "-del"; "src/"; "dst/"; "-t"] move_world)).
Proof.
  assert (H : In "-t" (tail ["tcpy"; "-del"; "src/"; "dst/"; "-t"]))
    by (cbn; auto).
  split; [exact H|].
  exact (X11_test_run_writes_no_file 64 5
           ["tcpy"; "-del"; "src/"; "dst/"; "-t"] move_world H).
Defined.

(** A run that stops before the copy. *)
Lemma main_run_refused bits fuel iErr st w :
  iErr <> 0 \/ p_source st = None ->
  main_run bits fuel iErr st w
  = Ret (if truthy iErr then iErr else ERROR_TCPY_USAGE) w.
Proof.
  intros H. unfold main_run. destruct (truthy iErr) eqn:T; [reflexivity|].
  apply truthy_false in T. destruct H as [H|H]; [contradiction|].
  rewrite H. reflexivity.
Qed.

Lemma filter_In_length (f : string -> bool) x l :
  In x l -> f x = true -> (1 <= length (List.filter f l))%nat.
Proof.
  intros Hin Hf.
  assert (H : In x (List.filter f l)) by (apply filter_In; auto).
  destruct (List.filter f l); [destruct H | cbn; lia].
Qed.

(** X12: a command line with no parameter or more than five, with two
    mode options, with [-sync], or with options only is refused:
    [main] returns 0 after a last line that is the usage text or an
    error message, never the line of a completed run, and no file was
    created, written, deleted or retimed. *)
Theorem X12_refused_command_line bits fuel argv w
    (H : (length argv < 2)%nat \/ (6 < length argv)%nat
         \/ (2 <= length (List.filter mode_flag (tail argv)))%nat
         \/ In "-sync" (tail argv)
         \/ forallb option_flag (tail argv) = true) :
  exists iErr w',
    main bits fuel argv w = Ret 0 w'
    /\ (iErr = ERROR_TCPY \/ iErr = ERROR_TCPY_USAGE \/ iErr = ERROR_TCPY_MEM)
    /\ grows w w'
    /\ last (trace w') = Some (EPrint (main_message iErr (gszErr (glob w')))).
Proof.
  unfold main. unfold bind at 1. unfold puts at 1. cbv beta iota.
  set (w0 := upd_glob (set_gszErr "") w).
  assert (G0 : grows w w0) by (apply grows_glob; auto).
  pose proof (holds_main_parse argv w0) as Hp.
  unfold bind at 1.
  destruct ((if (Z.of_nat (length argv) <? 2) || (Z.of_nat (length argv) >? 6)
             then ret (ERROR_TCPY_USAGE, parsed0)
             else main_args parsed0 (tail argv)) w0) as [r w1|h w1];
    [|contradiction].
  destruct Hp as [G1 [(Hc & Hm & _ & _ & Hs) Hlen]].
  assert (Hr : r.1 <> 0 \/ p_source r.2 = None).
  { destruct (Z.eq_dec r.1 0) as [E|E]; [|auto].
    specialize (Hm E). specialize (Hs E). specialize (Hlen E).
    destruct H as [H|[H|[H|[H|H]]]]; [lia | lia | | | right; auto].
    - exfalso.
      destruct Hm as [[Hn _]|(_ & [[Hn _]|[Hn _]])]; rewrite Hn in H;
        cbn in H; lia.
    - exfalso.
      assert (Hin : In "-sync" (List.filter mode_flag (tail argv)))
        by (apply filter_In; auto).
      destruct Hm as [[Hn _]|(_ & [[Hn _]|[Hn _]])]; rewrite Hn in Hin;
        cbn in Hin; intuition discriminate. }
  unfold bind at 1. rewrite (main_run_refused bits fuel r.1 r.2 w1 Hr).
  rewrite main_finish.
  exists (if truthy r.1 then r.1 else ERROR_TCPY_USAGE). eexists.
  split; [reflexivity|]. split; [|split].
  - destruct (truthy r.1) eqn:T; [|auto].
    apply truthy_true in T. tauto.
  - apply (grows_trans w w1); [eauto using grows_trans|].
    apply (grows_trans _ (add_event (EPrint (line "")) w1));
      apply grows_event; reflexivity.
  - cbn. apply last_snoc.
Qed.

Lemma X12_refused_command_line_witness :
  exists iErr w',
    main 64 5 ["tcpy"; "-del"; "-mir"; "src/"] move_world = Ret 0 w'
    /\ (iErr = ERROR_TCPY \/ iErr = ERROR_TCPY_USAGE \/ iErr = ERROR_TCPY_MEM)
    /\ grows move_world w'
    /\ last (trace w') = Some (EPrint (main_message iErr (gszErr (glob w')))).
Proof.
  apply (X12_refused_command_line 64 5 ["tcpy"; "-del"; "-mir"; "src/"]
           move_world).
  right. right. left. cbn. lia.
Defined.

(** *** [main] on a file and a directory *)

Lemma scan_back_find p k : forall i,
  (k <= i)%nat -> Ascii.eqb (char_at p k) slash = true ->
  (forall m, (k < m <= i)%nat -> Ascii.eqb (char_at p m) slash = false) ->
  scan_back p i = k.
Proof.
  induction i as [|i IH]; intros Hk Hc Hn.
  - cbn. lia.
  - cbn [scan_back]. destruct (Nat.eq_dec k (S i)) as [->|Hne].
    + rewrite Hc. reflexivity.
    + rewrite (Hn (S i)) by lia. apply IH; [lia | exact Hc|].
      intros m Hm. apply Hn. lia.
Qed.

Lemma ends_with_slash_spec s :
  ends_with_slash s = true ->
  exists k, String.length s = S k /\ chars s !! k = Some slash.
Proof.
  unfold ends_with_slash. destruct (String.length s) as [|k] eqn:E;
    [discriminate|].
  intros H. exists k. split; [reflexivity|].
  apply Ascii.eqb_eq in H. rewrite char_at_chars in H.
  destruct (chars s !! k) as [c|] eqn:El; [cbn in H; congruence|].
  apply lookup_ge_None_1 in El. rewrite chars_length in E. lia.
Qed.

Lemma no_slash_lookup s i c :
  no_slash s = true -> chars s !! i = Some c -> Ascii.eqb c slash = false.
Proof.
  unfold no_slash. revert i.
  induction (chars s) as [|a l IH]; intros i H Hl; [destruct i; discriminate|].
  cbn [forallb] in H. apply andb_prop in H as [Ha Hr].
  destruct i as [|i]; cbn in Hl.
  - injection Hl as <-. destruct (Ascii.eqb a slash); [discriminate | auto].
  - eauto.
Qed.

Lemma lookup_In {A} (l : list A) i x : l !! i = Some x -> In x l.
Proof.
  revert i. induction l as [|a l IH]; intros [|i] H; try discriminate;
    cbn in H.
  - injection H as ->. left. reflexivity.
  - right. eauto.
Qed.

(** Lines 1188-1202 on a name made of a directory part that ends with a
    slash and a file part without one. *)
Lemma split_path_app sdir sfile :
  ends_with_slash sdir = true -> no_slash sfile = true ->
  split_path (sdir +:+ sfile) = (sdir, sfile).
Proof.
  intros Hs Hn. destruct (ends_with_slash_spec sdir Hs) as (k & Hl & Hk).
  rewrite chars_length in Hl.
  assert (Hc : Ascii.eqb (char_at (sdir +:+ sfile) k) slash = true).
  { rewrite char_at_chars, chars_app, lookup_app_l by lia. rewrite Hk.
    reflexivity. }
  assert (Hj : scan_back (sdir +:+ sfile) (String.length (sdir +:+ sfile)) = k).
  { apply scan_back_find; [|exact Hc|].
    - rewrite chars_length, chars_app, length_app. lia.
    - intros m [Hm1 Hm2]. rewrite char_at_chars, chars_app.
      rewrite lookup_app_r by lia.
      destruct (chars sfile !! (m - length (chars sdir))%nat) as [c|] eqn:E;
        [|reflexivity].
      cbn. eapply no_slash_lookup; eauto. }
  unfold split_path. rewrite Hj, Hc. f_equal; apply chars_inj; unfold substr;
    rewrite chars_substring, chars_app.
  - rewrite drop_0, take_app_length'; [reflexivity | lia].
  - rewrite <- Hl, drop_app_length. apply take_ge.
    rewrite chars_length, chars_app, length_app. lia.
Qed.

Lemma dir_name_slash p : ends_with_slash p = true -> dir_name p = p.
Proof.
  unfold ends_with_slash, dir_name. destruct (String.length p); [discriminate|].
  intros ->. reflexivity.
Qed.

Lemma option_flag_no_slash s :
  In slash (chars s) -> option_flag s = false.
Proof.
  intros H. unfold option_flag, mode_flag.
  repeat match goal with
         | |- context [String.eqb s ?f] =>
             destruct (String.eqb_spec s f) as [->|_];
             [exfalso; cbn in H; intuition discriminate|]
         end.
  reflexivity.
Qed.

Lemma ends_with_slash_In s : ends_with_slash s = true -> In slash (chars s).
Proof.
  intros H. destruct (ends_with_slash_spec s H) as (k & _ & Hk).
  eapply lookup_In; eauto.
Qed.

Lemma append_nil_r s : s +:+ "" = s.
Proof. apply chars_inj. rewrite chars_app. apply app_nil_r. Qed.

Lemma ends_with_slash_app d f :
  f <> "" -> no_slash f = true -> ends_with_slash (d +:+ f) = false.
Proof.
  intros Hf Hn. unfold ends_with_slash.
  destruct (String.length (d +:+ f)) as [|k] eqn:E; [reflexivity|].
  rewrite chars_length, chars_app, length_app in E.
  assert (Hlen : (0 < length (chars f))%nat).
  { destruct f; [contradiction | cbn; lia]. }
  rewrite char_at_chars, chars_app, lookup_app_r by lia.
  destruct (chars f !! (k - length (chars d))%nat) as [c|] eqn:El;
    [|reflexivity].
  cbn. eapply no_slash_lookup; eauto.
Qed.

Lemma dir_not_reg n : is_dir n = true -> Z.land (i_mode n) S_IFREG = 0.
Proof.
  unfold is_dir. intros H. apply Z.eqb_eq in H.
  change S_IFREG with (Z.land S_IFMT S_IFREG) at 1.
  rewrite Z.land_assoc, H. reflexivity.
Qed.

Lemma FilenameExist_quiet path buf w n :
  flt (env w) = [] -> resolve (fs (env w)) path = inr n ->
  FilenameExist path buf w
  = Ret (Z.land (i_mode n) S_IFREG, stat_of n) (add_event (EStat path) w).
Proof.
  intros Hf Hr.
  unfold FilenameExist, sys_stat, pop_fault, bind, emit, get_env, ret.
  cbn. rewrite Hf. cbn. rewrite Hr. reflexivity.
Qed.

Lemma alloc_pair_quiet w :
  flt (env w) = [] ->
  alloc_pair w = Ret true (add_event EMalloc (add_event EMalloc w)).
Proof.
  intros H. unfold alloc_pair, bind.
  rewrite (sys_malloc_quiet w H), (sys_malloc_quiet (add_event EMalloc w) H).
  reflexivity.
Qed.

(** The source parameter names a regular file. *)
Lemma main_source_file st arg w n :
  flt (env w) = [] -> resolve (fs (env w)) arg = inr n ->
  Z.land (i_mode n) S_IFMT = S_IFREG ->
  main_source st arg w
  = Ret (0, set_p_source (split_path arg) st)
        (add_event EMalloc (add_event EMalloc (add_event (EStat arg) w))).
Proof.
  intros Hf Hr Hreg. unfold main_source, bind, get_env.
  rewrite (FilenameExist_quiet arg _ w n Hf Hr). cbn [fst].
  rewrite (reg_bit _ Hreg). change (truthy S_IFREG) with true.
  cbv beta iota.
  rewrite (alloc_pair_quiet (add_event (EStat arg) w) Hf). reflexivity.
Qed.

(** The destination parameter names a directory. *)
Lemma main_dest_dir st pSourceFile arg w dd :
  flt (env w) = [] -> resolve (fs (env w)) arg = inr dd ->
  is_dir dd = true ->
  main_dest st pSourceFile arg w
  = Ret (0, set_p_dest (dir_name arg, "") st)
        (add_event EMalloc
           (add_event EMalloc
              (add_event (EStat arg) (add_event (EStat arg) w)))).
Proof.
  intros Hf Hr Hd. unfold main_dest, bind, get_env.
  rewrite (FilenameExist_quiet arg _ w dd Hf Hr). cbn [fst].
  rewrite (dir_not_reg _ Hd). change (truthy 0) with false. cbv beta iota.
  rewrite (DirectoryExist_quiet arg _ (add_event (EStat arg) w) dd Hf Hr).
  cbn [fst].
  pose proof (dir_bit _ Hd) as Hb.
  destruct (truthy (Z.land (i_mode dd) S_IFDIR)) eqn:T;
    [|apply truthy_false in T; contradiction].
  cbv beta iota.
  rewrite (alloc_pair_quiet
             (add_event (EStat arg) (add_event (EStat arg) w)) Hf).
  reflexivity.
Qed.

Lemma main_arg_positional st arg :
  option_flag arg = false ->
  main_arg st arg
  = match p_source st with
    | Some (_, pSourceFile) => main_dest st pSourceFile arg
    | None => main_source st arg
    end.
Proof.
  unfold option_flag, mode_flag, main_arg. intros H.
  repeat (apply orb_false_elim in H as [H ?]).
  repeat match goal with
         | E : String.eqb _ _ = false |- _ => rewrite E; clear E
         end.
  reflexivity.
Qed.

(** The parameters [[-del] <file> <directory>]. *)
Lemma main_args_file_dir (move : bool) sdir sfile ddir w n dd :
  flt (env w) = [] ->
  ends_with_slash sdir = true -> no_slash sfile = true ->
  ends_with_slash ddir = true ->
  resolve (fs (env w)) (sdir +:+ sfile) = inr n ->
  Z.land (i_mode n) S_IFMT = S_IFREG ->
  resolve (fs (env w)) ddir = inr dd -> is_dir dd = true ->
  exists w1,
    main_args parsed0
      ((if move then ["-del"] else []) ++ [sdir +:+ sfile; ddir]) w
    = Ret (0, mkParsed (if move then TCPY_MODE_DEL else TCPY_MODE_COPY)
                (Some (sdir, sfile)) (Some (ddir, ""))) w1
    /\ env w1 = env w /\ glob w1 = glob w.
Proof.
  intros Hf Hs Hn Hd Hsrc Hreg Hdst Hdd.
  assert (Ho1 : option_flag (sdir +:+ sfile) = false).
  { apply option_flag_no_slash. rewrite chars_app. apply in_or_app. left.
    apply ends_with_slash_In, Hs. }
  assert (Ho2 : option_flag ddir = false)
    by (apply option_flag_no_slash, ends_with_slash_In, Hd).
  assert (Hgo : forall st,
    p_source st = None ->
    exists w1,
      main_args st [sdir +:+ sfile; ddir] w
      = Ret (0, mkParsed (p_iMode st) (Some (sdir, sfile)) (Some (ddir, ""))) w1
      /\ env w1 = env w /\ glob w1 = glob w).
  { intros st Hst. cbn [main_args]. unfold bind.
    rewrite (main_arg_positional st _ Ho1), Hst.
    rewrite (main_source_file st _ w n Hf Hsrc Hreg). cbn [fst snd].
    change (truthy 0) with false. cbv iota.
    rewrite (main_arg_positional _ _ Ho2).
    rewrite (split_path_app sdir sfile Hs Hn). cbn [p_source set_p_source].
    erewrite main_dest_dir; [|exact Hf|exact Hdst|exact Hdd].
    cbn [fst snd]. change (truthy 0) with false. cbv iota.
    rewrite (dir_name_slash ddir Hd).
    eexists. split; [reflexivity|]. split; reflexivity. }
  destruct move; cbn [app].
  - cbn [main_args]. unfold bind. cbn [main_arg String.eqb].
    change (main_arg parsed0 "-del" w)
      with (Ret (0, set_p_iMode TCPY_MODE_DEL parsed0) w).
    cbn [fst snd]. change (truthy 0) with false. cbv iota.
    apply (Hgo (set_p_iMode TCPY_MODE_DEL parsed0)). reflexivity.
  - apply (Hgo parsed0). reflexivity.
Qed.

(** The checks after the parameters, for a source file and a
    destination directory, up to the copy itself. *)
Lemma main_run_file_dir bits fuel iMode sdir sfile ddir w :
  flt (env w) = [] -> giTestRun (glob w) = 0 ->
  iMode = TCPY_MODE_COPY \/ iMode = TCPY_MODE_DEL -> sfile <> "" ->
  main_run bits fuel 0 (mkParsed iMode (Some (sdir, sfile)) (Some (ddir, ""))) w
  = TimedCopy bits fuel iMode sdir sfile ddir sfile (add_event EMalloc w).
Proof.
  intros Hf Ht Hm Hfile. unfold main_run.
  change (truthy 0) with false. cbn [p_source p_dest p_iMode].
  apply String.eqb_neq in Hfile. rewrite Hfile. cbn [negb andb].
  assert (Hgt : (iMode >? TCPY_MODE_DEL) = false)
    by (destruct Hm as [-> | ->]; reflexivity).
  rewrite Hgt. unfold bind, ret, gets, when. cbn [String.eqb].
  change (truthy 0) with false. cbv beta iota.
  rewrite (sys_malloc_quiet w Hf). cbn [negb].
  cbn [glob add_event]. rewrite Ht. change (truthy 0) with false.
  cbv beta iota. reflexivity.
Qed.

(** X13: the whole program on [tcpy [-del] <dir>/<file> <destdir>/],
    started with the initial globals, no fault and no key pending, and
    with names short enough for the line [Copy <source> to
    <destination>] to fit [sz2]: when the source is a regular file (not
    the empty file stamped zero) and the destination directory exists
    and has no object of that name, [main] returns 0 after the line
    [Done!]; the destination directory has a new file of that name with
    the bytes and the modification time of the source and the
    permission bits of the source that the umask does not clear, and,
    with [-del], the source is gone. *)
Theorem X13_main_copies_file bits fuel prog (move : bool) sdir sfile ddir
    w n ds dd
    (Hg : glob w = globals0)
    (Hq : quiet w)
    (Hsl : ends_with_slash sdir = true)
    (Hns : no_slash sfile = true)
    (Hdl : ends_with_slash ddir = true)
    (Hne : sdir <> ddir)
    (Hsrc : resolve (fs (env w)) (sdir +:+ sfile) = inr n)
    (Hreg : Z.land (i_mode n) S_IFMT = S_IFREG)
    (Hnew : i_data n <> [] \/ i_mtim_sec n <> 0 \/ i_mtim_nsec n <> 0)
    (Hs : resolve (fs (env w)) sdir = inr ds)
    (Hsd : is_dir ds = true)
    (Hid : i_dev ds <> 0 \/ i_ino ds <> 0)
    (Hd : resolve (fs (env w)) ddir = inr dd)
    (Hdd : is_dir dd = true)
    (Hdst : fs (env w) !! canon (ddir +:+ sfile) = None)
    (Hdir : parent_dir (fs (env w)) (ddir +:+ sfile) = Some dd)
    (Hfit : copy_fits (sdir +:+ sfile) (ddir +:+ sfile)) :
  exists w',
    main bits (S fuel)
      (prog :: (if move then ["-del"] else []) ++ [sdir +:+ sfile; ddir]) w
    = Ret 0 w'
    /\ fs (env w')
       = (let f1 := <[canon (ddir +:+ sfile)
                      := copy_of (env w) n dd]> (fs (env w)) in
          if move then delete (canon (sdir +:+ sfile)) f1 else f1)
    /\ last (trace w') = Some (EPrint ("Done!" +:+ nl)).
Proof.
  destruct Hq as [Hf Hk].
  assert (Hfile : sfile <> "").
  { intros ->. rewrite append_nil_r in Hsrc. unfold resolve in Hsrc.
    destruct (fs (env w) !! canon sdir) as [m|]; [|discriminate].
    rewrite Hsl in Hsrc. destruct (is_dir m) eqn:Em; [|discriminate].
    injection Hsrc as ->. rewrite (reg_not_dir _ Hreg) in Em. discriminate. }
  set (w0 := upd_glob (set_gszErr "") w).
  destruct (main_args_file_dir move sdir sfile ddir w0 n dd Hf Hsl Hns Hdl
              Hsrc Hreg Hd Hdd) as (w1 & E1 & He1 & Hg1).
  assert (Hf1 : flt (env w1) = []) by (rewrite He1; exact Hf).
  assert (Ht1 : giTestRun (glob w1) = 0) by (rewrite Hg1; cbn; rewrite Hg; reflexivity).
  set (iMode := if move then TCPY_MODE_DEL else TCPY_MODE_COPY) in *.
  assert (Hm : iMode = TCPY_MODE_COPY \/ iMode = TCPY_MODE_DEL)
    by (destruct move; auto).
  set (w2 := add_event EMalloc w1).
  assert (Hq2 : quiet w2) by (split; cbn; rewrite He1; assumption).
  assert (Hfs2 : fs (env w2) = fs (env w)) by (cbn; rewrite He1; reflexivity).
  assert (Hg2 : glob w2 = globals0).
  { cbn. rewrite Hg1. cbn. rewrite Hg. reflexivity. }
  destruct (TimedCopy_file_quiet bits fuel iMode sdir sfile ddir sfile w2 ds dd
              Hq2 Hne Hfile) as (w3 & E3 & Hs3 & He3).
  { rewrite Hfs2. exact Hs. }
  { apply dir_bit, Hsd. }
  { rewrite Hg2. cbn. intros [A B]. destruct Hid; contradiction. }
  { rewrite Hfs2. exact Hd. }
  { apply dir_bit, Hdd. }
  assert (Hq3 : quiet w3) by (eapply quiet_steady; eauto).
  assert (Hfs3 : fs (env w3) = fs (env w)) by (rewrite He3; exact Hfs2).
  destruct Hs3 as (_ & _ & _ & _ & _ & St3 & _ & Sp3).
  destruct (TimedCopyFile_new_file bits iMode (sdir +:+ sfile)
              (ddir +:+ sfile) w3 n dd Hq3) as (w4 & E4 & Hfs4).
  { rewrite St3, Hg2. reflexivity. }
  { rewrite Sp3, Hg2. reflexivity. }
  { rewrite Hfs3. exact Hsrc. }
  { exact Hreg. }
  { exact Hnew. }
  { rewrite Hfs3. exact Hdst. }
  { apply ends_with_slash_app; assumption. }
  { rewrite Hfs3. exact Hdir. }
  { exact Hfit. }
  assert (Hargc : (Z.of_nat (length (prog :: (if move then ["-del"] else [])
                                       ++ [sdir +:+ sfile; ddir])) <? 2)
                  || (Z.of_nat (length (prog :: (if move then ["-del"] else [])
                                          ++ [sdir +:+ sfile; ddir])) >? 6)
                  = false) by (destruct move; reflexivity).
  unfold main. unfold bind at 1. unfold puts at 1. cbv beta iota.
  fold w0. rewrite Hargc. cbn [tail].
  unfold bind at 1. rewrite E1. cbn [fst snd].
  unfold bind at 1.
  rewrite (main_run_file_dir bits (S fuel) iMode sdir sfile ddir w1 Hf1 Ht1 Hm
             Hfile).
  fold w2. rewrite E3, E4. rewrite main_finish.
  eexists. split; [reflexivity|]. split.
  - cbn [env add_event]. rewrite Hfs4. cbv zeta.
    assert (Henv : env w3 = env w).
    { rewrite He3. cbn. rewrite He1. reflexivity. }
    rewrite Henv. subst iMode. destruct move; reflexivity.
  - cbn [trace add_event]. rewrite last_snoc. reflexivity.
Qed.


Lemma X13_main_copies_file_witness :
  exists w',
    main 64 1 ["tcpy"; "-del"; "src/a"; "dst/"] open_world = Ret 0 w'
    /\ fs (env w')
       = (let f1 := <[canon "dst/a"
                      := mkInode 33188 1 100 50 7 [1; 2; 3]]>
                      (fs (env open_world)) in
          delete (canon "src/a") f1)
    /\ last (trace w') = Some (EPrint ("Done!" +:+ nl)).
Proof.
  apply (X13_main_copies_file 64 0 "tcpy" true "src/" "a" "dst/" open_world
           (mkInode 33206 1 5 50 7 [1; 2; 3]) (dirnode 3) (dirnode 6)).
  - reflexivity.
  - split; reflexivity.
  - reflexivity.
  - reflexivity.
  - reflexivity.
  - discriminate.
  - vm_compute. reflexivity.
  - reflexivity.
  - left. discriminate.
  - vm_compute. reflexivity.
  - reflexivity.
  - left. discriminate.
  - vm_compute. reflexivity.
  - reflexivity.
  - vm_compute. reflexivity.
  - vm_compute. reflexivity.
  - vm_compute. reflexivity.
Defined.

(** *** Where files are written *)

Lemma confined_refl Q w : confined Q w w.
Proof. exists []. rewrite app_nil_r. auto. Qed.

Lemma confined_trans Q w1 w2 w3 :
  confined Q w1 w2 -> confined Q w2 w3 -> confined Q w1 w3.
Proof.
  intros (e1 & E1 & A1) (e2 & E2 & A2). exists (e1 ++ e2).
  rewrite E2, E1, app_assoc. split; [reflexivity|]. apply Forall_app. auto.
Qed.

Lemma confined_mono (Q Q' : string -> Prop) w w' :
  (forall p, Q p -> Q' p) -> confined Q w w' -> confined Q' w w'.
Proof.
  intros H (evs & E & A). exists evs. split; [exact E|].
  eapply Forall_impl; [exact A|]. cbv beta. auto.
Qed.

Lemma confined_bind Q {A B} (m : M A) (f : A -> M B) w :
  confined Q w (world_of (m w)) ->
  (forall a w1, m w = Ret a w1 -> confined Q w1 (world_of (f a w1))) ->
  confined Q w (world_of (bind m f w)).
Proof.
  intros H1 H2. unfold bind. destruct (m w) as [a w1|h w1]; cbn in *.
  - eapply confined_trans; [exact H1 | apply H2; reflexivity].
  - exact H1.
Qed.

Lemma evolves_confined Q w w' : evolves Q w w' -> confined Q w w'.
Proof.
  intros [(evs & E & A) _ _ _ _ _]. exists evs. split; [exact E|].
  eapply Forall_impl; [exact A|]. intros e [Hm _] Hf. apply Hm.
  destruct e; cbn in *; congruence.
Qed.

Lemma grows_confined Q w w' : grows w w' -> confined Q w w'.
Proof.
  intros [(evs & E & A) _ _ _]. exists evs. split; [exact E|].
  eapply Forall_impl; [exact A|]. cbv beta. intros e He Hf. congruence.
Qed.

Lemma starts_with_refl_app d r : starts_with d (d +:+ r).
Proof. exists r. reflexivity. Qed.

Lemma starts_with_trans a b c :
  starts_with a b -> starts_with b c -> starts_with a c.
Proof.
  intros [r1 ->] [r2 ->]. exists (r1 +:+ r2). apply chars_inj.
  rewrite !chars_app, app_assoc. reflexivity.
Qed.

Lemma starts_with_with_slash d name :
  starts_with d (with_slash (d +:+ name)).
Proof.
  unfold with_slash.
  destruct (Ascii.eqb _ slash); [apply starts_with_refl_app|].
  eapply starts_with_trans; apply starts_with_refl_app.
Qed.

Lemma copy_area_sub iMode sdir ddir name p :
  copy_area iMode (with_slash (sdir +:+ name)) (with_slash (ddir +:+ name)) p ->
  copy_area iMode sdir ddir p.
Proof.
  intros [H|[Hm H]]; [left | right; split; [exact Hm|]];
    (eapply starts_with_trans; [apply starts_with_with_slash | exact H]).
Qed.

Section Confined.

Variable bits : Z.

(** One file: the destination name and, in Move mode, the source name. *)
Lemma ev_TimedCopyFile_mode (P : string -> Prop) iMode src dst w :
  P dst -> (iMode = TCPY_MODE_DEL -> P src) ->
  evolves P w (world_of (TimedCopyFile bits iMode src dst w)).
Proof.
  intros Pd Ps. unfold TimedCopyFile. cbv zeta.
  apply evolves_bind; [apply ev_tcf_copy_verify; exact Pd|].
  intros iErr w1 _ _.
  apply evolves_bind; [|intros; apply ev_tcf_bookkeeping].
  destruct (Z.eqb_spec iMode TCPY_MODE_DEL) as [E|E].
  - apply ev_tcf_delete_source. auto.
  - unfold tcf_delete_source.
    destruct (Z.eqb_spec iMode TCPY_MODE_DEL) as [E'|_]; [contradiction|].
    rewrite andb_false_r. apply evolves_refl.
Qed.

Lemma confined_TimedCopyFile iMode sdir sfile ddir dfile w :
  confined (copy_area iMode sdir ddir) w
    (world_of (TimedCopyFile bits iMode (sdir +:+ sfile) (ddir +:+ dfile) w)).
Proof.
  apply evolves_confined, ev_TimedCopyFile_mode.
  - left. apply starts_with_refl_app.
  - intros E. right. split; [exact E | apply starts_with_refl_app].
Qed.

Lemma confined_DirectoryValidate Q path pStat w :
  confined Q w (world_of (DirectoryValidate path pStat w)).
Proof.
  eapply grows_confined, holds_grows, holds_DirectoryValidate.
Qed.

Lemma confined_copy_entry (rec : string -> string -> M Z) iMode sdir ddir de w :
  (forall w, confined (copy_area iMode sdir ddir) w
               (world_of (rec (with_slash (sdir +:+ d_name de))
                              (with_slash (ddir +:+ d_name de)) w))) ->
  confined (copy_area iMode sdir ddir) w
    (world_of (copy_entry bits rec iMode sdir ddir de w)).
Proof.
  intros Hrec. unfold copy_entry.
  destruct (negb (String.eqb (d_name de) ".")
            && negb (String.eqb (d_name de) ".."));
    [|apply confined_refl].
  destruct (strlen (d_name de) >? LNSZ).
  { apply evolves_confined. walk'. }
  destruct (Z.land (d_type de) DT_DIR =? DT_DIR).
  { cbv zeta. apply confined_bind; [apply confined_DirectoryValidate|].
    intros iErr w1 _. destruct (negb (truthy iErr));
      [apply Hrec | apply confined_refl]. }
  destruct (Z.land (d_type de) DT_REG =? DT_REG);
    [apply confined_TimedCopyFile | apply confined_refl].
Qed.

Lemma confined_copy_entries (rec : string -> string -> M Z) iMode sdir ddir
    entries :
  (forall name w, confined (copy_area iMode sdir ddir) w
                    (world_of (rec (with_slash (sdir +:+ name))
                                   (with_slash (ddir +:+ name)) w))) ->
  forall w,
  confined (copy_area iMode sdir ddir) w
    (world_of (copy_entries bits rec iMode sdir ddir entries w)).
Proof.
  intros Hrec. induction entries as [|de rest IH]; intros w;
    cbn [copy_entries]; [apply confined_refl|].
  apply confined_bind; [apply confined_copy_entry; intros; apply Hrec|].
  intros iErr w1 _. destruct (negb (truthy iErr));
    [apply IH | apply confined_refl].
Qed.

Lemma ev_mirror_entry_dest (P : string -> Prop) sdir ddir de w :
  P (ddir +:+ d_name de) ->
  evolves P w (world_of (mirror_entry sdir ddir de w)).
Proof.
  intros Hp. unfold mirror_entry.
  repeat first [ walk_step | solve [auto with evo] | apply ev_FilenameExist
               | apply ev_sys_unlink; [exact Hp | flags_tac] ].
Qed.

Lemma confined_mirror_entries iMode sdir ddir entries : forall w,
  confined (copy_area iMode sdir ddir) w
    (world_of (mirror_entries sdir ddir entries w)).
Proof.
  induction entries as [|de rest IH]; intros w; cbn [mirror_entries];
    [apply confined_refl|].
  apply confined_bind; [|intros; apply IH].
  apply evolves_confined, ev_mirror_entry_dest.
  left. apply starts_with_refl_app.
Qed.

Lemma confined_mirror_cleanup iMode iErr sdir sfile ddir w :
  confined (copy_area iMode sdir ddir) w
    (world_of (mirror_cleanup iMode iErr sdir sfile ddir w)).
Proof.
  unfold mirror_cleanup.
  destruct (negb (truthy iErr) && (iMode =? TCPY_MODE_MIRROR)
            && String.eqb sfile ""); [|apply confined_refl].
  apply confined_bind; [apply evolves_confined, ev_sys_opendir|].
  intros [entries|] w1 _;
    [apply confined_mirror_entries | apply confined_refl].
Qed.

Lemma confined_TimedCopy fuel : forall iMode sdir sfile ddir dfile w,
  confined (copy_area iMode sdir ddir) w
    (world_of (TimedCopy bits fuel iMode sdir sfile ddir dfile w)).
Proof.
  induction fuel as [|fuel IH]; intros; cbn [TimedCopy];
    [apply confined_refl|].
  apply confined_bind; [apply evolves_confined, ev_sys_malloc|].
  intros a w1 _.
  apply confined_bind; [apply evolves_confined, ev_sys_malloc|].
  intros b w2 _.
  destruct (negb (a && b)); [apply confined_refl|].
  destruct (negb (String.eqb sdir ddir)).
  - apply confined_bind; [apply evolves_confined, ev_resolve_dirs|].
    intros iErr w3 _.
    destruct (negb (truthy iErr)); [|apply confined_refl].
    destruct (negb (String.eqb sfile ""));
      [apply confined_TimedCopyFile|].
    apply confined_bind; [apply evolves_confined, ev_sys_opendir|].
    intros d w4 _.
    apply confined_bind.
    + destruct d as [entries|]; [|apply confined_refl].
      apply confined_copy_entries. intros name w'.
      eapply confined_mono; [|apply IH]. apply copy_area_sub.
    + intros iErr2 w5 _.
      apply confined_bind; [apply confined_mirror_cleanup|].
      intros; apply confined_refl.
  - destruct (negb (String.eqb sfile "")).
    + destruct (negb (String.eqb sfile dfile));
        [apply confined_TimedCopyFile|].
      apply evolves_confined. walk'.
    + apply evolves_confined. walk'.
Qed.

End Confined.

(** X14: whatever the file system, the faults and the keys, every call
    of a run of [TimedCopy] that creates, writes, deletes or retimes a
    file bears a name that starts with the destination directory name
    or, in Move mode only, with the source directory name. *)
Theorem X14_writes_stay_in_copy_area bits fuel iMode sdir sfile ddir dfile w :
  exists evs,
    trace (world_of (TimedCopy bits fuel iMode sdir sfile ddir dfile w))
    = trace w ++ evs
    /\ Forall (fun e => file_mutating e = true ->
                 starts_with ddir (event_path e)
                 \/ (iMode = TCPY_MODE_DEL /\ starts_with sdir (event_path e)))
         evs.
Proof. exact (confined_TimedCopy bits fuel iMode sdir sfile ddir dfile w). Qed.

(** *** Entries that are no directories *)

Lemma with_slash_ends p :
  p <> "" ->
  with_slash p = (if ends_with_slash p then p else p +:+ "/")
  /\ ends_with_slash (with_slash p) = true
  /\ canon (with_slash p) = canon p.
Proof.
  intros Hp. unfold with_slash, ends_with_slash.
  destruct (String.length p) as [|k] eqn:E.
  { destruct p; [contradiction | discriminate]. }
  replace (S k - 1)%nat with k by lia.
  destruct (Ascii.eqb (char_at p k) slash) eqn:Ec.
  - rewrite E, Ec. auto.
  - split; [reflexivity|]. split; [|apply canon_strip; exact Hp].
    assert (El : String.length (p +:+ "/") = S (S k)).
    { rewrite chars_length, chars_app, length_app, <- chars_length, E.
      cbn. lia. }
    rewrite El. rewrite char_at_chars, chars_app, lookup_app_r
      by (rewrite <- chars_length; lia).
    rewrite <- chars_length, E. replace (S k - S k)%nat with O by lia.
    reflexivity.
Qed.

Lemma app_nonempty a b : b <> "" -> a +:+ b <> "".
Proof.
  intros Hb E. apply (f_equal String.length) in E.
  rewrite chars_length, chars_app, length_app in E.
  destruct b; [contradiction | cbn in E; lia].
Qed.

(** The source directory of a call turns out not to be a directory. *)
Lemma holds_resolve_dirs_notdir s d w n :
  fs (env w) !! canon s = Some n -> ends_with_slash s = true ->
  is_dir n = false ->
  holds w (resolve_dirs s d w) (fun e _ => e = ERROR_TCPY_USAGE).
Proof.
  intros Hl Hs Hn. unfold resolve_dirs.
  eapply holds_bind with (Q1 := fun _ w1 => w1 = w);
    [split; [apply grows_refl | reflexivity]|].
  intros j w1 _ ->.
  eapply holds_bind; [apply holds_DirectoryExist|].
  intros [i st] w1 G1 (F1 & Gl1 & H1). cbn [fst] in H1.
  assert (Hi : i = 0).
  { destruct (Z.eq_dec i 0) as [E|E]; [exact E|].
    destruct (H1 E) as (n' & Hr & _). unfold resolve in Hr.
    rewrite Hl, Hs, Hn in Hr. discriminate. }
  subst i. unfold bind, gets. change (truthy 0) with false. cbv beta iota.
  change (negb (truthy ERROR_TCPY_USAGE)) with false. cbv iota.
  apply holds_ret. reflexivity.
Qed.

Lemma holds_TimedCopy_notdir bits fuel iMode s d w n :
  fs (env w) !! canon s = Some n -> ends_with_slash s = true ->
  is_dir n = false ->
  holds w (TimedCopy bits (S fuel) iMode s "" d "" w)
    (fun e _ => e = ERROR_TCPY \/ e = ERROR_TCPY_USAGE \/ e = ERROR_TCPY_MEM).
Proof.
  intros Hl Hs Hn. cbn [TimedCopy].
  eapply holds_bind; [apply holds_sys_malloc|]. intros a w1 G1 (F1 & _).
  eapply holds_bind; [apply holds_sys_malloc|]. intros b w2 G2 (F2 & _).
  destruct (negb (a && b)); [apply holds_ret; auto|].
  destruct (negb (String.eqb s d)).
  - eapply holds_bind.
    { apply (holds_resolve_dirs_notdir s d w2 n); [|exact Hs|exact Hn].
      rewrite F2, F1. exact Hl. }
    intros e w3 _ ->. change (negb (truthy ERROR_TCPY_USAGE)) with false.
    cbv iota. apply holds_ret. auto.
  - cbn [String.eqb negb].
    eapply holds_bind with (Q1 := fun _ _ => True).
    { split; [|exact I]. unfold puts. apply grows_glob; auto. }
    intros _ w3 _ _. apply holds_ret. auto.
Qed.

(** X15: an entry of the source directory whose type has the [DT_DIR]
    bit but which is not a directory (the types of sockets, block
    devices and whiteouts have that bit) is handled as a
    sub-directory: the copy of that entry never returns 0, so the run
    stops at it with [ERROR_TCPY], [ERROR_TCPY_USAGE] or
    [ERROR_TCPY_MEM]; on the way no file was written, directories at
    most were created. *)
Theorem X15_special_file_stops_the_copy bits fuel iMode sdir ddir de w n
    (Hdot : d_name de <> "." /\ d_name de <> "..")
    (Hname : d_name de <> "")
    (Hlen : strlen (d_name de) <= LNSZ)
    (Htype : Z.land (d_type de) DT_DIR = DT_DIR)
    (Hobj : fs (env w) !! canon (sdir +:+ d_name de) = Some n)
    (Hnd : is_dir n = false) :
  exists e w',
    copy_entry bits (fun s d => TimedCopy bits (S fuel) iMode s "" d "")
      iMode sdir ddir de w = Ret e w'
    /\ (e = ERROR_TCPY \/ e = ERROR_TCPY_USAGE \/ e = ERROR_TCPY_MEM)
    /\ grows w w'.
Proof.
  assert (H : holds w
                (copy_entry bits
                   (fun s d => TimedCopy bits (S fuel) iMode s "" d "")
                   iMode sdir ddir de w)
                (fun e _ => e = ERROR_TCPY \/ e = ERROR_TCPY_USAGE
                            \/ e = ERROR_TCPY_MEM)).
  { unfold copy_entry. destruct Hdot as [H1 H2].
    apply String.eqb_neq in H1, H2. rewrite H1, H2. cbn [negb andb].
    destruct (Z.gtb_spec (strlen (d_name de)) LNSZ) as [Hgt|_]; [lia|].
    rewrite Htype, Z.eqb_refl. cbv zeta.
    eapply holds_bind; [apply holds_DirectoryValidate|].
    intros iErr w1 G1 [Hc _].
    destruct (truthy iErr) eqn:T; cbn [negb].
    - apply holds_ret. apply truthy_true in T. tauto.
    - pose proof (with_slash_ends (sdir +:+ d_name de)
                    (app_nonempty _ _ Hname)) as (_ & He & Hcanon).
      apply (holds_TimedCopy_notdir bits fuel iMode _ _ w1 n);
        [|exact He|exact Hnd].
      rewrite Hcanon. apply (gr_fs _ _ G1). exact Hobj. }
  destruct (copy_entry _ _ _ _ _ _ w) as [e w'|]; [|contradiction].
  destruct H as [G Hc]. exists e, w'. auto.
Qed.

Lemma X15_special_file_stops_the_copy_witness :
  exists e w',
    copy_entry 64 (fun s d => TimedCopy 64 1 TCPY_MODE_COPY s "" d "")
      TCPY_MODE_COPY "src/" "dst/" (mkDirent "s" 12) special_world = Ret e w'
    /\ (e = ERROR_TCPY \/ e = ERROR_TCPY_USAGE \/ e = ERROR_TCPY_MEM)
    /\ grows special_world w'.
Proof.
  apply (X15_special_file_stops_the_copy 64 0 TCPY_MODE_COPY "src/" "dst/"
           (mkDirent "s" 12) special_world (mkInode 49645 1 5 50 7 [])).
  - split; discriminate.
  - discriminate.
  - vm_compute. discriminate.
  - reflexivity.
  - vm_compute. reflexivity.
  - reflexivity.
Defined.

(** *** A second copy *)

(** The counters and pacing pauses leave the scripts and the flags. *)
Lemma tcf_bookkeeping_steady w :
  giPauseAfterVerif (glob w) = 0 ->
  exists w', tcf_bookkeeping 0 w = Ret 0 w' /\ steady w w' /\ env w' = env w.
Proof.
  intros H.
  unfold tcf_bookkeeping, bind, puts, gets, EchoPrint, printf, emit, when, ret.
  cbn. rewrite H. cbn.
  crunch_goal; eexists; (split; [reflexivity|]); (split; [|reflexivity]);
    unfold steady; cbn; rewrite ?H; repeat split; reflexivity.
Qed.

Lemma copy_of_regular e n d :
  Z.land (i_mode (copy_of e n d)) S_IFMT = S_IFREG.
Proof.
  unfold copy_of, new_mode. cbn [i_mode].
  rewrite Z.land_lor_distr_l, <- Z.land_assoc.
  change (Z.land 4095 S_IFMT) with 0. rewrite Z.land_0_r. reflexivity.
Qed.

Lemma copy_of_fresh bits e n d : ~ stale bits n (copy_of e n d).
Proof.
  unfold stale, copy_of. cbn [i_data i_mtim_sec i_mtim_nsec].
  intros [H|[H|[H|H]]]; apply H; reflexivity.
Qed.

(** X16: copying is idempotent.  With no fault and no key pending,
    outside a test run, and with names short enough for the lines
    [Verify <source> to <destination>] and [Copy <source> to
    <destination>] to fit [sz2]: after [TimedCopyFile] in Copy mode has
    created the destination (the bytes and the modification time of
    the source, the permission bits that the umask does not clear), a
    second call on the same names returns 0 and leaves the file system
    exactly as the first call left it. *)
Theorem X16_second_copy_changes_nothing bits src dst w n d
    (Hq : quiet w)
    (Hrun : giTestRun (glob w) = 0)
    (Hpause : giPauseAfterVerif (glob w) = 0)
    (Hsrc : resolve (fs (env w)) src = inr n)
    (Hreg : Z.land (i_mode n) S_IFMT = S_IFREG)
    (Hnew : i_data n <> [] \/ i_mtim_sec n <> 0 \/ i_mtim_nsec n <> 0)
    (Hdst : fs (env w) !! canon dst = None)
    (Hslash : ends_with_slash dst = false)
    (Hdir : parent_dir (fs (env w)) dst = Some d)
    (Hfit : names_fit src dst) :
  exists w1 w2,
    TimedCopyFile bits TCPY_MODE_COPY src dst w = Ret 0 w1
    /\ TimedCopyFile bits TCPY_MODE_COPY src dst w1 = Ret 0 w2
    /\ fs (env w2) = fs (env w1)
    /\ fs (env w1) !! canon dst = Some (copy_of (env w) n d).
Proof.
  (* the first run *)
  destruct (tcf_copy_verify_new bits src dst w n d Hq Hrun Hsrc Hreg Hnew Hdst
              Hslash Hdir (names_fit_copy _ _ Hfit)) as (wa & Ea & Hsa & Hfsa).
  assert (Hne : canon dst <> canon src).
  { intros E. apply resolve_lookup in Hsrc. rewrite <- E in Hsrc. congruence. }
  assert (Hra : resolve (fs (env wa)) src = inr n).
  { rewrite Hfsa, resolve_insert_ne by exact Hne. exact Hsrc. }
  assert (Hqa : quiet wa) by exact (quiet_steady w wa Hq Hsa).
  assert (Hta : giTestRun (glob wa) = 0).
  { destruct Hsa as (_ & _ & _ & _ & _ & St & _). rewrite St. exact Hrun. }
  destruct (tcf_delete_source_quiet TCPY_MODE_COPY src
              (StringShortner src (LNSZ - 80))
              (StringShortner dst (LNSZ - 80)) wa n Hqa Hta Hra
              (reg_not_dir _ Hreg)) as (wb & Eb & Hsb & Hfsb).
  assert (Hpb : giPauseAfterVerif (glob wb) = 0).
  { destruct Hsa as (_ & _ & _ & _ & _ & _ & _ & Sp1).
    destruct Hsb as (_ & _ & _ & _ & _ & _ & _ & Sp2). congruence. }
  destruct (tcf_bookkeeping_steady wb Hpb) as (w1 & E1 & Hs1 & He1).
  assert (Hfs1 : fs (env w1)
                 = <[canon dst := copy_of (env w) n d]> (fs (env w))).
  { rewrite He1, Hfsb. cbn. exact Hfsa. }
  assert (Hst : steady w w1).
  { apply (steady_trans w wa w1); [exact Hsa|].
    apply (steady_trans wa wb w1); assumption. }
  (* the second run *)
  assert (Hq1 : quiet w1) by exact (quiet_steady w w1 Hq Hst).
  assert (Ht1 : giTestRun (glob w1) = 0).
  { destruct Hst as (_ & _ & _ & _ & _ & St & _). rewrite St. exact Hrun. }
  assert (Hp1 : giPauseAfterVerif (glob w1) = 0).
  { destruct Hst as (_ & _ & _ & _ & _ & _ & _ & Sp). rewrite Sp. exact Hpause. }
  assert (Hr1 : resolve (fs (env w1)) src = inr n).
  { rewrite Hfs1, resolve_insert_ne by exact Hne. exact Hsrc. }
  assert (Hd1 : resolve (fs (env w1)) dst
                = inr (copy_of (env w) n d)).
  { rewrite Hfs1. apply resolve_insert_eq. exact Hslash. }
  destruct (tcf_copy_verify_fresh bits src dst w1 n
              (copy_of (env w) n d) Hq1 Ht1 Hr1 Hreg Hd1
              (copy_of_regular _ _ _) (copy_of_fresh _ _ _ _))
    as (wc & Ec & Hgc & Hec).
  destruct (TimedCopyFile_finish bits TCPY_MODE_COPY src dst w1 wc n Ec)
    as (w2 & E2 & Hfs2); try (rewrite ?Hgc, ?Hec; assumption).
  { destruct Hq1. split; rewrite Hec; assumption. }
  { apply reg_not_dir. exact Hreg. }
  exists w1, w2. split; [|split; [exact E2|split]].
  - unfold TimedCopyFile. cbv zeta. unfold bind. rewrite Ea, Eb. exact E1.
  - rewrite Hfs2, Hec. reflexivity.
  - rewrite Hfs1. apply lookup_insert_eq.
Qed.

Lemma X16_second_copy_changes_nothing_witness :
  exists w1 w2,
    TimedCopyFile 64 TCPY_MODE_COPY "src/a" "dst/a" open_world = Ret 0 w1
    /\ TimedCopyFile 64 TCPY_MODE_COPY "src/a" "dst/a" w1 = Ret 0 w2
    /\ fs (env w2) = fs (env w1)
    /\ fs (env w1) !! canon "dst/a"
       = Some (mkInode 33188 1 100 50 7 [1; 2; 3]).
Proof.
  apply (X16_second_copy_changes_nothing 64 "src/a" "dst/a" open_world
           (mkInode 33206 1 5 50 7 [1; 2; 3]) (dirnode 6)).
  - split; reflexivity.
  - reflexivity.
  - reflexivity.
  - vm_compute. reflexivity.
  - reflexivity.
  - left. discriminate.
  - vm_compute. reflexivity.
  - reflexivity.
  - vm_compute. reflexivity.
  - vm_compute. reflexivity.
Defined.

(** *** A source that does not exist *)

(** [stat] is one call; it changes neither the file system nor the
    globals, and succeeds on existing objects only. *)
Lemma sys_stat_call path buf w :
  exists rc st w1,
    sys_stat path buf w = Ret (rc, st) w1
    /\ trace w1 = trace w ++ [EStat path]
    /\ fs (env w1) = fs (env w) /\ glob w1 = glob w
    /\ (rc = 0 -> exists n, resolve (fs (env w)) path = inr n /\ st = stat_of n).
Proof.
  unfold sys_stat, pop_fault, set_errno_ret, bind, emit, get_env, put_env, ret.
  cbn.
  destruct (flt (env w)) as [|[|e|k] r]; cbn;
    try (destruct (resolve (fs (env w)) path) as [e'|n] eqn:Er; cbn);
    do 3 eexists; (split; [reflexivity|]); cbn;
    (split; [reflexivity|]); (split; [reflexivity|]); (split; [reflexivity|]);
    intros H; try discriminate; eauto.
Qed.

Lemma FilenameExist_call path buf w :
  exists i st w1,
    FilenameExist path buf w = Ret (i, st) w1
    /\ trace w1 = trace w ++ [EStat path]
    /\ fs (env w1) = fs (env w) /\ glob w1 = glob w
    /\ (i <> 0 -> exists n, resolve (fs (env w)) path = inr n
                            /\ Z.land (i_mode n) S_IFREG <> 0).
Proof.
  destruct (sys_stat_call path buf w) as (rc & st & w1 & E & T & F & G & H).
  unfold FilenameExist, bind. rewrite E. cbv beta iota zeta.
  do 3 eexists. split; [reflexivity|]. repeat (split; [assumption|]).
  destruct (Z.eqb_spec rc 0) as [->|Hne]; [|intros Hi; contradiction].
  change (truthy 1) with true. cbv iota. intros Hi.
  destruct (H eq_refl) as (n & Hr & ->). exists n. auto.
Qed.

Lemma DirectoryExist_call path buf w :
  exists i st w1,
    DirectoryExist path buf w = Ret (i, st) w1
    /\ trace w1 = trace w ++ [EStat path]
    /\ fs (env w1) = fs (env w) /\ glob w1 = glob w
    /\ (i <> 0 -> exists n, resolve (fs (env w)) path = inr n
                            /\ Z.land (i_mode n) S_IFDIR <> 0).
Proof.
  destruct (sys_stat_call path buf w) as (rc & st & w1 & E & T & F & G & H).
  unfold DirectoryExist, bind. rewrite E. cbv beta iota zeta.
  do 3 eexists. split; [reflexivity|]. repeat (split; [assumption|]).
  destruct (Z.eqb_spec rc 0) as [->|Hne]; [|intros Hi; contradiction].
  change (truthy 1) with true. cbv iota. intros Hi.
  destruct (H eq_refl) as (n & Hr & ->). exists n. auto.
Qed.

(** X17: whatever the faults and the keys, [TimedCopyFile] on a source
    name that names no regular file returns [ERROR_TCPY] after two
    [stat] calls, with [File <source> Not Found!] in [gszErr]; the
    file system is unchanged, in Move mode too. *)
Theorem X17_missing_source_file bits iMode src dst w
    (Hno : no_regular (fs (env w)) src) :
  exists w',
    TimedCopyFile bits iMode src dst w = Ret ERROR_TCPY w'
    /\ fs (env w') = fs (env w)
    /\ gszErr (glob w')
       = "File " +:+ StringShortner src (LNSZ - 80) +:+ " Not Found!"
    /\ trace w' = trace w ++ [EStat src; EStat dst].
Proof.
  destruct (FilenameExist_call src (junk (env w)) w)
    as (i & st & w1 & E1 & T1 & F1 & G1 & H1).
  assert (Hi : i = 0).
  { destruct (Z.eq_dec i 0) as [Hz|Hz]; [exact Hz|].
    destruct (H1 Hz) as (n & Hr & Hb). exfalso. apply Hb. exact (Hno n Hr). }
  subst i.
  set (w2 := upd_glob (set_gszErr ("File " +:+ StringShortner src (LNSZ - 80)
                                   +:+ " Not Found!")) w1).
  destruct (FilenameExist_call dst (junk (env w)) w2)
    as (i2 & st2 & w3 & E3 & T3 & F3 & G3 & _).
  exists w3. split; [|split; [|split]].
  - unfold TimedCopyFile, tcf_copy_verify, tcf_probe. cbv zeta.
    unfold bind, get_env. rewrite E1. change (negb (truthy 0)) with true.
    cbv beta iota. unfold puts, ret. fold w2. rewrite E3. cbv beta iota.
    unfold tcf_compare. change (negb (truthy ERROR_TCPY)) with false.
    cbn [andb]. unfold ret. cbv beta iota.
    unfold tcf_transfer. change (negb (truthy ERROR_TCPY)) with false.
    cbn [andb]. unfold ret. cbv beta iota.
    rewrite tcf_delete_source_error by discriminate.
    apply tcf_bookkeeping_error. discriminate.
  - rewrite F3. cbn. exact F1.
  - rewrite G3. reflexivity.
  - rewrite T3. cbn. rewrite T1, <- app_assoc. reflexivity.
Qed.

Lemma X17_missing_source_file_witness :
  exists w',
    TimedCopyFile 64 TCPY_MODE_DEL "src/none" "dst/none" move_world
    = Ret ERROR_TCPY w'
    /\ fs (env w') = fs (env move_world)
    /\ gszErr (glob w')
       = "File " +:+ StringShortner "src/none" (LNSZ - 80) +:+ " Not Found!"
    /\ trace w' = trace move_world ++ [EStat "src/none"; EStat "dst/none"].
Proof.
  apply (X17_missing_source_file 64 TCPY_MODE_DEL "src/none" "dst/none"
           move_world).
  intros ns H. vm_compute in H. discriminate.
Defined.

(** An option leaves the file system alone, and the source unset. *)
Lemma main_arg_option st arg w :
  option_flag arg = true ->
  exists r w1,
    main_arg st arg w = Ret r w1
    /\ fs (env w1) = fs (env w)
    /\ (r.1 = 0 \/ r.1 = ERROR_TCPY \/ r.1 = ERROR_TCPY_USAGE)
    /\ (r.1 = 0 -> p_source r.2 = p_source st).
Proof.
  unfold option_flag, mode_flag, main_arg. intros H.
  destruct (String.eqb arg "-del");
    [destruct (truthy (p_iMode st)); do 2 eexists;
     (split; [reflexivity|]); cbn; auto|].
  destruct (String.eqb arg "-mir");
    [destruct (truthy (p_iMode st)); do 2 eexists;
     (split; [reflexivity|]); cbn; auto|].
  destruct (String.eqb arg "-sync");
    [destruct (truthy (p_iMode st)); do 2 eexists;
     (split; [reflexivity|]); cbn; auto|].
  destruct (String.eqb arg "-f");
    [do 2 eexists; (split; [reflexivity|]); cbn; auto|].
  destruct (String.eqb arg "-t");
    [do 2 eexists; (split; [reflexivity|]); cbn; auto|].
  discriminate.
Qed.

(** A source parameter that names nothing. *)
Lemma main_source_missing st arg w :
  fs (env w) !! canon arg = None ->
  exists w1,
    main_source st arg w = Ret (ERROR_TCPY_USAGE, st) w1
    /\ fs (env w1) = fs (env w).
Proof.
  intros Hno.
  assert (Hr : forall n, resolve (fs (env w)) arg <> inr n).
  { intros n. rewrite (resolve_absent _ _ Hno). discriminate. }
  destruct (FilenameExist_call arg (junk (env w)) w)
    as (i & st1 & w1 & E1 & T1 & F1 & G1 & H1).
  assert (Hi : i = 0).
  { destruct (Z.eq_dec i 0) as [Hz|Hz]; [exact Hz|].
    destruct (H1 Hz) as (n & Hn & _). destruct (Hr n Hn). }
  subst i.
  destruct (DirectoryExist_call arg (junk (env w)) w1)
    as (i & st2 & w2 & E2 & T2 & F2 & G2 & H2).
  assert (Hi : i = 0).
  { destruct (Z.eq_dec i 0) as [Hz|Hz]; [exact Hz|].
    rewrite F1 in H2. destruct (H2 Hz) as (n & Hn & _). destruct (Hr n Hn). }
  subst i. exists w2. split; [|congruence].
  unfold main_source, bind, get_env. rewrite E1. cbn [fst].
  change (truthy 0) with false. cbv beta iota. rewrite E2. reflexivity.
Qed.

Lemma main_args_missing_source opts : forall st src rest w,
  forallb option_flag opts = true -> option_flag src = false ->
  p_source st = None -> fs (env w) !! canon src = None ->
  exists r w1,
    main_args st (opts ++ src :: rest) w = Ret r w1
    /\ (r.1 = ERROR_TCPY \/ r.1 = ERROR_TCPY_USAGE)
    /\ fs (env w1) = fs (env w).
Proof.
  induction opts as [|o opts IH]; intros st src rest w Ho Hs Hst Hno.
  - cbn [app main_args]. unfold bind.
    rewrite (main_arg_positional st src Hs), Hst.
    destruct (main_source_missing st src w Hno) as (w1 & E1 & F1).
    rewrite E1. cbn [fst]. change (truthy ERROR_TCPY_USAGE) with true.
    cbv iota. do 2 eexists. split; [reflexivity|]. cbn. auto.
  - cbn [forallb] in Ho. apply andb_prop in Ho as [Ho1 Ho2].
    cbn [app main_args]. unfold bind.
    destruct (main_arg_option st o w Ho1) as (r & w1 & E1 & F1 & Hc & Hp).
    rewrite E1. destruct (truthy r.1) eqn:T.
    + apply truthy_true in T. do 2 eexists. split; [reflexivity|].
      split; [tauto | exact F1].
    + apply truthy_false in T.
      destruct (IH r.2 src rest w1 Ho2 Hs) as (r2 & w2 & E2 & Hc2 & F2).
      * rewrite (Hp T). exact Hst.
      * rewrite F1. exact Hno.
      * exists r2, w2. split; [exact E2|]. split; [exact Hc2 | congruence].
Qed.

(** X18: the source parameter must exist.  When the first parameter that
    is not an option names nothing, [main] returns 0 after the usage
    text or an error message, and the file system is unchanged: the
    destination given after it is not created. *)
Theorem X18_missing_source_parameter bits fuel prog opts src rest w
    (Hopts : forallb option_flag opts = true)
    (Hsrc : option_flag src = false)
    (Hno : fs (env w) !! canon src = None) :
  exists iErr w',
    main bits fuel (prog :: opts ++ src :: rest) w = Ret 0 w'
    /\ (iErr = ERROR_TCPY \/ iErr = ERROR_TCPY_USAGE)
    /\ fs (env w') = fs (env w)
    /\ last (trace w') = Some (EPrint (main_message iErr (gszErr (glob w')))).
Proof.
  unfold main. unfold bind at 1. unfold puts at 1. cbv beta iota.
  set (w0 := upd_glob (set_gszErr "") w).
  set (argv := prog :: opts ++ src :: rest).
  assert (Hparse : exists r w1,
            (if (Z.of_nat (length argv) <? 2) || (Z.of_nat (length argv) >? 6)
             then ret (ERROR_TCPY_USAGE, parsed0)
             else main_args parsed0 (tail argv)) w0 = Ret r w1
            /\ (r.1 = ERROR_TCPY \/ r.1 = ERROR_TCPY_USAGE)
            /\ fs (env w1) = fs (env w)).
  { destruct ((Z.of_nat (length argv) <? 2) || (Z.of_nat (length argv) >? 6)).
    - do 2 eexists. split; [reflexivity|]. cbn. auto.
    - subst argv. cbn [tail].
      apply (main_args_missing_source opts parsed0 src rest w0 Hopts Hsrc
               eq_refl Hno). }
  destruct Hparse as (r & w1 & E1 & Hc & F1).
  unfold bind at 1. rewrite E1.
  assert (Hne : r.1 <> 0) by (destruct Hc as [-> | ->]; discriminate).
  unfold bind at 1. rewrite (main_run_refused bits fuel r.1 r.2 w1 (or_introl Hne)).
  rewrite main_finish. rewrite (truthy_neq _ Hne).
  exists r.1. eexists. split; [reflexivity|]. split; [exact Hc|].
  split; [exact F1|]. cbn. apply last_snoc.
Qed.

Lemma X18_missing_source_parameter_witness :
  exists iErr w',
    main 64 5 ("tcpy" :: ["-del"; "-f"] ++ "nowhere/" :: ["newdir/"]) move_world
    = Ret 0 w'
    /\ (iErr = ERROR_TCPY \/ iErr = ERROR_TCPY_USAGE)
    /\ fs (env w') = fs (env move_world)
    /\ last (trace w') = Some (EPrint (main_message iErr (gszErr (glob w')))).
Proof.
  apply (X18_missing_source_parameter 64 5 "tcpy" ["-del"; "-f"] "nowhere/"
           ["newdir/"] move_world).
  - reflexivity.
  - reflexivity.
  - vm_compute. reflexivity.
Defined.

(** *** A quit key during the copy *)

(** One buffer of the copy loop when no call is made to fail, whatever
    the keyboard holds. *)
Lemma copy_buffer_calm bits dst szD buf c w nd :
  flt (env w) = [] -> fs (env w) !! canon dst = Some nd ->
  exists w',
    copy_buffer bits dst szD (Z.of_nat (length buf)) buf c w
    = Ret (0, ChecksumAdd bits buf c) w'
    /\ flt (env w') = [] /\ kbd (env w') = kbd (env w)
    /\ giTestRun (glob w') = giTestRun (glob w)
    /\ fs (env w')
       = <[canon dst := touch (env w) nd (i_data nd ++ buf)]> (fs (env w)).
Proof.
  intros Hf Hl.
  unfold copy_buffer, NanoTime, sys_write, sys_clock_gettime, pop_fault,
    set_errno_ret, get_errno, bind, gets, puts, when, emit, ret, get_env,
    put_env.
  repeat (repeat (progress
            (cbn -[canon touch throttle_delay throttle_measure
                   throttle_fastest ChecksumAdd Z.eqb Z.add];
             rewrite ?Hf, ?Hl, ?Z.eqb_refl;
             try change (truthy 0) with false));
          match goal with
          | |- context [match ?x with _ => _ end] =>
              lazymatch x with
              | context [match _ with _ => _ end] => fail
              | _ => destruct x eqn:?
              end
          end).
  all: (eexists; split; [reflexivity|]);
    cbn -[canon touch]; rewrite ?Hf; auto 12.
Qed.

(** A quit key is pending: the poll returns the user-stop code. *)
Lemma KeyboardCheck_quit w c rest :
  kbd (env w) = Some c :: rest -> quit_key c = true ->
  exists w',
    KeyboardCheck 0 w = Ret ERROR_TCPY_STOP w'
    /\ fs (env w') = fs (env w) /\ flt (env w') = flt (env w)
    /\ giTestRun (glob w') = giTestRun (glob w).
Proof.
  intros Hk Hq. pose proof (quit_not_pause c Hq) as Hp.
  unfold quit_key in Hq. unfold pause_key in Hp.
  unfold KeyboardCheck, bind, when, get_env, ret.
  change (truthy 0) with false. cbv beta iota. rewrite Hk.
  cbn [KeyboardCheck_loop]. unfold bind, put_env, emit, ret, when.
  rewrite Hp, Hq. change (truthy 0) with false.
  change (negb (truthy ERROR_TCPY_STOP)) with false. cbn [andb].
  cbv beta iota. eexists. split; [reflexivity|]. cbn. auto.
Qed.

Lemma copy_iter_quit bits src dst szD chunk ck w nd c rest :
  flt (env w) = [] -> kbd (env w) = Some c :: rest -> quit_key c = true ->
  fs (env w) !! canon dst = Some nd ->
  exists w' nd' ck',
    copy_iter bits src dst szD chunk ck w
    = Ret (false, ERROR_TCPY_STOP, ck') w'
    /\ flt (env w') = [] /\ giTestRun (glob w') = giTestRun (glob w)
    /\ fs (env w') = <[canon dst := nd']> (fs (env w))
    /\ i_mode nd' = i_mode nd.
Proof.
  intros Hf Hk Hq Hl.
  unfold copy_iter. unfold bind at 1. rewrite sys_read_quiet by exact Hf.
  cbv beta iota.
  destruct (Z.of_nat (length chunk) >? 0) eqn:Hgt.
  - destruct (copy_buffer_calm bits dst szD chunk ck (add_event (ERead src) w)
                nd Hf Hl) as (w1 & E1 & F1 & K1 & T1 & Hfs1).
    unfold bind at 1. rewrite E1. cbv beta iota.
    change (negb (truthy 0)) with true. cbv iota.
    destruct (KeyboardCheck_quit w1 c rest) as (w2 & E2 & Hfs2 & F2 & T2);
      [rewrite K1; exact Hk | exact Hq |].
    unfold bind at 1. rewrite E2. unfold ret.
    change (negb (truthy ERROR_TCPY_STOP)) with false. rewrite andb_false_r.
    do 3 eexists. split; [reflexivity|].
    split; [congruence|]. split; [rewrite T2, T1; reflexivity|].
    split; [rewrite Hfs2, Hfs1; reflexivity | reflexivity].
  - unfold bind at 1. unfold ret at 1. cbv beta iota.
    change (negb (truthy 0)) with true. cbv iota.
    destruct (KeyboardCheck_quit (add_event (ERead src) w) c rest)
      as (w2 & E2 & Hfs2 & F2 & T2); [exact Hk | exact Hq |].
    unfold bind at 1. rewrite E2. unfold ret.
    change (negb (truthy ERROR_TCPY_STOP)) with false. rewrite andb_false_r.
    exists w2, nd, ck. split; [reflexivity|].
    split; [rewrite F2; exact Hf|]. split; [exact T2|].
    split; [|reflexivity]. rewrite Hfs2. cbn. symmetry. apply insert_id.
    exact Hl.
Qed.

(** A quit key pending when the copy loop starts stops it after its
    first buffer. *)
Lemma copy_loop_quit bits src dst szD chunks ck w nd c rest :
  flt (env w) = [] -> kbd (env w) = Some c :: rest -> quit_key c = true ->
  fs (env w) !! canon dst = Some nd ->
  exists w' nd' ck',
    copy_loop bits src dst szD chunks ck w = Ret (ERROR_TCPY_STOP, ck') w'
    /\ flt (env w') = [] /\ giTestRun (glob w') = giTestRun (glob w)
    /\ fs (env w') = <[canon dst := nd']> (fs (env w))
    /\ i_mode nd' = i_mode nd.
Proof.
  intros Hf Hk Hq Hl.
  destruct chunks as [|chunk more]; cbn [copy_loop]; unfold bind.
  - destruct (copy_iter_quit bits src dst szD [] ck w nd c rest Hf Hk Hq Hl)
      as (w' & nd' & ck' & E & A).
    rewrite E. exists w', nd', ck'. split; [reflexivity | exact A].
  - destruct (copy_iter_quit bits src dst szD chunk ck w nd c rest Hf Hk Hq Hl)
      as (w' & nd' & ck' & E & A).
    rewrite E. exists w', nd', ck'. split; [reflexivity | exact A].
Qed.

Section QuitKey.

Variables (bits : Z) (src dst : string) (w : World) (n d : inode)
  (c : Z) (rest : list (option Z)).
Hypothesis Hflt : flt (env w) = [].
Hypothesis Hkbd : kbd (env w) = Some c :: rest.
Hypothesis Hquit : quit_key c = true.
Hypothesis Hrun : giTestRun (glob w) = 0.
Hypothesis Hsrc : resolve (fs (env w)) src = inr n.
Hypothesis Hreg : Z.land (i_mode n) S_IFMT = S_IFREG.
Hypothesis Hnew : i_data n <> [] \/ i_mtim_sec n <> 0 \/ i_mtim_nsec n <> 0.
Hypothesis Hdst : fs (env w) !! canon dst = None.
Hypothesis Hslash : ends_with_slash dst = false.
Hypothesis Hdir : parent_dir (fs (env w)) dst = Some d.

Lemma tcf_copy_verify_quit :
  exists w',
    tcf_copy_verify bits src dst w = Ret ERROR_TCPY_STOP w'
    /\ fs (env w') = fs (env w).
Proof.
  pose proof (resolve_lookup _ _ _ Hsrc) as Hl.
  assert (Hne : canon dst <> canon src).
  { intros E. rewrite <- E in Hl. congruence. }
  unfold tcf_copy_verify, tcf_probe, FilenameExist, tcf_compare, tcf_transfer,
    tcf_delete_dest, tcf_copy, tcf_copy_io, tcf_verify_dest, sys_stat,
    sys_open_rdonly, sys_creat, sys_unlink, sys_utimensat, sys_close,
    file_data, pop_fault, set_errno_ret, get_errno, EchoPrint, printf.
  unfold bind, emit, gets, get_env, put_env, puts, when, ret, id.
  assert (Hz : forall st, st_size (zero_dest 0 st) = 0) by reflexivity.
  repeat (progress (sim_cbn4; sim_consts;
                    rewrite ?Hflt, ?Hsrc, ?(resolve_absent _ _ Hdst), ?Hdir,
                      ?(reg_bit _ Hreg), ?Hrun, ?Hz, ?andb_false_r,
                      ?(differ_absent n _ Hnew),
                      ?(lookup_insert_ne _ _ _ _ Hne), ?Hl)).
  step_overrun.
  repeat (progress (sim_cbn4; sim_consts;
                    rewrite ?Hflt, ?Hsrc, ?(resolve_absent _ _ Hdst), ?Hdir,
                      ?(reg_bit _ Hreg), ?Hrun, ?Hz, ?andb_false_r,
                      ?(differ_absent n _ Hnew),
                      ?(lookup_insert_ne _ _ _ _ Hne), ?Hl)).
  match goal with
  | |- context [copy_loop ?b ?s ?t ?z ?ch ?ck ?w2] =>
      destruct (copy_loop_quit b s t z ch ck w2
                  (mkInode (Z.lor S_IFREG (new_mode (env w) (i_mode n))) (i_dev d)
                     (next_ino (env w)) (now_sec (env w)) (now_nsec (env w)) [])
                  c rest Hflt Hkbd Hquit)
        as (w1 & nd' & ck' & E1 & A1 & A3 & A6 & A7);
      [ cbn -[canon new_mode]; apply lookup_insert_eq | ]
  end.
  rewrite E1. cbn -[canon Z.add new_mode] in A3, A6.
  assert (Hr1 : resolve (fs (env w1)) dst = inr nd').
  { rewrite A6. apply resolve_insert_eq. exact Hslash. }
  assert (Hd1 : is_dir nd' = false).
  { unfold is_dir. rewrite A7. cbn [i_mode]. apply new_file_not_dir. }
  change (truthy ERROR_TCPY_STOP) with true.
  repeat (progress (sim_cbn4; sim_consts; rewrite ?A1, ?Hr1, ?Hd1)).
  change (truthy ERROR_TCPY_STOP) with true.
  repeat (progress (sim_cbn4; sim_consts; rewrite ?A1, ?Hr1, ?Hd1)).
  eexists. split; [reflexivity|].
  cbn -[canon]. rewrite A6, delete_insert_eq, delete_insert_eq.
  apply delete_id. exact Hdst.
Qed.

End QuitKey.

(** X19: a quit key pending when the copy of a file to a new name starts
    stops the copy after its first buffer.  [TimedCopyFile] returns
    [ERROR_TCPY_STOP] in every mode and the file system is as before:
    the partial destination has been removed and the source is kept. *)
Theorem X19_quit_key_leaves_no_partial_file bits iMode src dst w n d c rest
    (Hflt : flt (env w) = [])
    (Hkbd : kbd (env w) = Some c :: rest)
    (Hquit : quit_key c = true)
    (Hrun : giTestRun (glob w) = 0)
    (Hsrc : resolve (fs (env w)) src = inr n)
    (Hreg : Z.land (i_mode n) S_IFMT = S_IFREG)
    (Hnew : i_data n <> [] \/ i_mtim_sec n <> 0 \/ i_mtim_nsec n <> 0)
    (Hdst : fs (env w) !! canon dst = None)
    (Hslash : ends_with_slash dst = false)
    (Hdir : parent_dir (fs (env w)) dst = Some d) :
  exists w',
    TimedCopyFile bits iMode src dst w = Ret ERROR_TCPY_STOP w'
    /\ fs (env w') = fs (env w).
Proof.
  destruct (tcf_copy_verify_quit bits src dst w n d c rest Hflt Hkbd Hquit Hrun
              Hsrc Hreg Hnew Hdst Hslash Hdir) as (w1 & E1 & Hfs1).
  exists w1. split; [|exact Hfs1].
  unfold TimedCopyFile. cbv zeta. unfold bind. rewrite E1.
  rewrite tcf_delete_source_error by discriminate.
  apply tcf_bookkeeping_error. discriminate.
Qed.

Lemma X19_quit_key_leaves_no_partial_file_witness :
  exists w',
    TimedCopyFile 64 TCPY_MODE_DEL "src/a" "dst/a" quit_world
    = Ret ERROR_TCPY_STOP w'
    /\ fs (env w') = fs (env quit_world).
Proof.
  apply (X19_quit_key_leaves_no_partial_file 64 TCPY_MODE_DEL "src/a" "dst/a"
           quit_world (filenode 5 50 7 [1; 2; 3]) (dirnode 6) 27 []).
  - reflexivity.
  - reflexivity.
  - reflexivity.
  - reflexivity.
  - vm_compute. reflexivity.
  - reflexivity.
  - left. discriminate.
  - vm_compute. reflexivity.
  - reflexivity.
  - vm_compute. reflexivity.
Defined.

(** *** Names too long for the buffer *)

Section CopyMismatch.

Variables (bits : Z) (sS : stat) (src dst szS szD : string) (w : World)
          (n d : inode).
Hypothesis Hq : quiet w.
Hypothesis Hsrc : resolve (fs (env w)) src = inr n.
Hypothesis Hdst : fs (env w) !! canon dst = None.
Hypothesis Hslash : ends_with_slash dst = false.
Hypothesis Hdir : parent_dir (fs (env w)) dst = Some d.

(** The copy when [iSourceChecksum] holds a value that is neither 0 nor
    the checksum of the bytes copied: the destination written is
    removed. *)
Lemma tcf_copy_io_mismatch sc :
  sc <> 0 -> sc <> ChecksumAdd bits (i_data n) 0 ->
  exists w',
    tcf_copy_io bits sS sc 0 src dst szS szD w
    = Ret (ERROR_TCPY, sc, ChecksumAdd bits (i_data n) 0) w'
    /\ fs (env w') = fs (env w)
    /\ gszErr (glob w') = "Source " +:+ szS +:+ " Check Failed!".
Proof.
  intros Hnz Hneq. destruct Hq as [Hf Hk].
  pose proof (canon_src_dst src dst w n Hsrc Hdst) as Hne.
  pose proof (resolve_lookup _ _ _ Hsrc) as Hl.
  unfold tcf_copy_io, sys_open_rdonly, sys_creat, file_data, sys_close,
    pop_fault, set_errno_ret, get_errno.
  unfold bind, emit, get_env, put_env, puts, when, ret, id.
  repeat (progress (sim_cbn; sim_consts;
                    rewrite ?Hf, ?Hsrc, ?(resolve_absent _ _ Hdst), ?Hdir,
                      ?(lookup_insert_ne _ _ _ _ Hne), ?Hl)).
  match goal with
  | |- context [copy_loop ?b ?s ?t ?z ?ch ?c ?w2] =>
      destruct (copy_loop_quiet b s t z ch c w2
                  (mkInode (Z.lor S_IFREG (new_mode (env w) (st_mode sS))) (i_dev d)
                     (next_ino (env w)) (now_sec (env w)) (now_nsec (env w)) []))
        as (w1 & nd' & E1 & Hs1 & Hn1 & Hfs1 & M1 & M2 & M3 & M4);
        [ split; [exact Hf | exact Hk]
        | cbn -[canon]; apply lookup_insert_eq
        | apply read_chunks_spec | ]
  end.
  cbn -[canon Z.add new_mode] in Hfs1, Hn1, M1, M2, M3, M4.
  destruct (read_chunks_spec (i_data n)) as [Hc _]. rewrite Hc in E1, M4.
  rewrite E1. clear E1.
  assert (Hq1 : flt (env w1) = [] /\ kbd (env w1) = []).
  { destruct Hs1 as (S1 & S2 & _). cbn in S1, S2. split; congruence. }
  destruct Hq1 as [Hf1 Hk1].
  assert (Hr1 : resolve (fs (env w1)) dst = inr nd').
  { rewrite Hfs1. apply resolve_insert_eq. exact Hslash. }
  assert (Hd1 : is_dir nd' = false).
  { unfold is_dir. rewrite M1. apply new_file_not_dir. }
  unfold sys_unlink, sys_utimensat, pop_fault, set_errno_ret, get_errno,
    bind, emit, get_env, put_env, puts, when, ret, id.
  rewrite (truthy_neq _ Hnz).
  apply Z.eqb_neq in Hneq. rewrite Hneq.
  repeat (progress (sim_cbn; sim_consts; rewrite ?Hf1, ?Hr1, ?Hd1)).
  eexists. split; [reflexivity|]. split; [|reflexivity].
  cbn -[canon]. rewrite Hfs1, delete_insert_eq, delete_insert_eq.
  apply delete_id. exact Hdst.
Qed.

End CopyMismatch.

Lemma sz2_overrun_long text a b w :
  LNSZ <= strlen text -> sz2_overrun text a b w = Ret (spill (env w) text) w.
Proof.
  intros H. unfold sz2_overrun.
  destruct (Z.ltb_spec (strlen text) LNSZ); [lia | reflexivity].
Qed.


